(* ===== verification/_CoqProject ===== *)
-Q . S2P
Prelude.v
GoStrings.v
Encoding.v
Json.v
JsonFacts.v
Sha256.v
Ratelimit.v
GoTime.v
Config.v
ConfigFacts.v
Alerts.v
AuditLog.v
OAuthStore.v
Regexp.v
Routes.v
OpenAPI.v
F64.v
Auth.v
Policy.v
EffectiveRoute.v
Httputil.v
JsonPolicy.v
Remnawave.v
BodyPolicy.v
ResponsePolicy.v
Proxy.v
Effects.v
PanelFacade.v
Respond.v
PanelOAuth.v
PanelLogin.v
Handler.v
Calls.v
Example.v
Authorization.v
Upstream.v
WriteSafety.v
Resources.v
PanelLoginFacts.v
Panics.v
Runtime.v
Concurrency.v
Cmd.v
CmdFacts.v
Gateway.v
GatewayFacts.v
Logins.v
Tokens.v
Commands.v
Shutdown.v
