(* ===== verification/Prelude.v ===== *)
(** * RemnaGuard: a verification library

    RemnaGuard is a policy gateway in front of the API of a Remnawave panel.  It
    authenticates every request with a credential of its own, decides what the
    credential's token may do, limits the requests, forwards them with the
    upstream's credential, and filters what comes back.  This library translates
    the gateway (src/internal, src/cmd) into executable definitions and proves
    what they guarantee.

    ** The program and the files

    Go's standard library, as far as the program uses it:
    - GoStrings.v, Encoding.v, Json.v, JsonFacts.v, Sha256.v, GoTime.v, F64.v,
      Regexp.v: strings and strconv, UTF-8 and base64, encoding/json, HMAC-SHA256,
      times as text, small doubles, the fragment of regexp the catalog compiles.
      net/http headers and net/url are in Httputil.v, path/filepath in Cmd.v.

    The packages of src/internal that compute without effects:
    - Ratelimit.v (ratelimit/limit.go): ParseRate, semaphores, fixed windows.
    - Config.v, ConfigFacts.v (config/config.go): the configuration, Validate
      branch by branch, Load with its includes; what a validated one guarantees.
    - Routes.v, OpenAPI.v (routes/catalog.go): the 186 operations, compilation,
      Match; the comparison with an OpenAPI document.
    - Auth.v (auth/*.go): bearer tokens, digests, panel sessions.
    - Policy.v (policy/*.go): Decide and the Telegram actor resolver.
    - Httputil.v (httputil/validate.go): request targets, hop-by-hop headers,
      queries.  JsonPolicy.v (jsonpolicy/jsonpolicy.go): bodies.
    - Remnawave.v (remnawave/user.go): users and OwnsUser.
    - Proxy.v (proxy/proxy.go): the outgoing request, the incoming response, the
      response written to the client; where each header of the outgoing request
      comes from ([private_origin], [public_origin]).
    - Alerts.v (alerts/alerts.go): the alert worker as a step function on
      notifications, receptions and ticks.  AuditLog.v (audit/audit.go,
      metrics/metrics.go): opening the audit log, its lines and the rows of its
      database, and counters.

    The server (server/server.go):
    - EffectiveRoute.v, BodyPolicy.v, ResponsePolicy.v, PanelFacade.v, OAuthStore.v:
      its pure parts -- the route a configuration makes effective, the checks on
      bodies, the filters on responses, the answers for the web panel, the store
      of pending logins.
    - Effects.v: a handler is a program [prog] over the calls it makes on what it
      shares with others: state, limiters, locks, login store, clock, random
      bytes, upstream, Telegram, audit log, alert queue, and the response it
      writes.  [exec] relates a program to its traces against any world,
      [run_in] runs it against one, [wp] is the corresponding program logic.
    - Respond.v, PanelOAuth.v, PanelLogin.v, Handler.v: the handlers as such
      programs; [Handler.apiHandler] is apiHandler, cut into one definition per
      stage ([serve], [serve_route], [serve_credential], [serve_token],
      [serve_write], [serve_checks], [serve_upstream], [serve_response]) which
      call each other where the source goes on.  Deferred releases are [defer],
      a panic is an outcome: of a page that overflows, and of WriteHeader on a
      status it does not take ([valid_status]).
    - Runtime.v: the shared runtime -- NewRuntime, Reload, detectVersion, the
      local listener -- and its answer to every call ([handles]).  A state is
      replaced on reload while requests in flight keep the one they loaded, so
      limiters and version flags are named by generation.  Reload is composed of
      the parts other goroutines can see one by one ([next_generation],
      [forget_logins], [store_state], [update_alerts]); what is under a mutex or
      atomic in the source is one step, a clock that is read before its mutex is
      taken may be up to [max_lag] old when it is used ([Scheduling]).
    - Concurrency.v: any number of handlers, parts of reloads and version changes
      interleaved call by call against one runtime ([system_step]).
    - Gateway.v: a gateway from its start on a configuration that loads -- the
      audit log is opened on the files first ([new_runtime]) -- with the requests it receives, the files it reloads on SIGHUP, part by part
      ([reload_part]), and the alerts it sends ([gateway]); a history lists the
      calls, the states put into service and the times the pending logins were
      forgotten, in the order they happened ([happening]).  [gateway_wp] lifts what
      is proved of one handler to all of them.
    - Shutdown.v: the life of the process around it, Runtime.Serve: serving,
      draining until the deadline the grace period sets, exiting ([life]).

    The command line (cmd/remnaguard/main.go):
    - Cmd.v: validate, routes, policy test, the token commands with their file
      edits, the SIGHUP reload, over a file system on which the operating system
      may refuse any operation.
    - Commands.v: main, run and the dispatch of every command, with the flags it
      declares, what it prints, its exit status and the files it leaves: serve's
      audit database too.

    ** What the theorems show

    - Of every execution of the handler (Authorization.v, Upstream.v,
      WriteSafety.v, Resources.v, Panics.v): the upstream is only called for an
      authorised request -- or, in report mode with unsafe proxying on, one that
      carries a credential within its limits -- with a request the proxy built from
      it; a change of one user and a look at its devices are preceded by a read that
      shows the token owns that user; a restricted write holds its lock; exactly one
      answer is written; nothing acquired is leaked, panics included; the number of
      calls is bounded, so every execution ends; it panics on overflowing page
      numbers and on upstream status codes outside 100..999 only.
    - Of the login (PanelLoginFacts.v, Logins.v, Auth.v, OAuthStore.v): a session is
      only given out for a verified Telegram login that a request of this gateway
      started, one session for each; shown as a bearer it is resolved to the actor's
      credential until it expires and no longer; the store of attempts refines a
      specification without pruning.
    - Of requests together (Concurrency.v): the configured limits bound the
      requests in flight, a lock has one holder, no reachable state is stuck.
      Ratelimit.v has the corresponding facts on the limiters alone, and the
      bound on the rate of any window.
    - Of the gateway as a whole (GatewayFacts.v, Logins.v, Tokens.v, Shutdown.v): whatever
      interleaves, reloads included, what goes upstream carries the bearer of a
      validated configuration (none on a public subscription), never the client's
      Authorization, and each other header comes from the configuration or, if it
      is not hop-by-hop, from the client; restricted writes under one lock do not
      overlap; a login attempt is used once; rates hold for any window, less the
      lag of a reading of the clock; a token printed by token add is accepted and a
      credential disabled by token disable is refused from the next reload on; a
      gateway told to stop can answer what it has accepted before its deadline, and
      leaves nothing held when it has.
    - Of the policies: Decide, OwnsUser, the scopes of restricted writes, bodies,
      filtered lists and squads, headers in both directions (Policy.v,
      Remnawave.v, EffectiveRoute.v, BodyPolicy.v, ResponsePolicy.v, Proxy.v,
      Httputil.v), the catalog's matching (Routes.v), and the well-formedness
      that validation establishes (ConfigFacts.v).
    - Of alerts: no event the worker has received is lost, the recorded times of
      two messages of a key are a cooldown apart, a short UUID is redacted
      (Alerts.v).
    - Of operation (CmdFacts.v, Commands.v, Runtime.v): an edit is committed or
      rolled back -- or its error says that the new document stayed, when the
      system refused to inspect the file or to rename the backup -- a printed token
      verifies, a disabled credential is gone; beside the token edits only serve
      changes files, those of its audit database; a refused reload changes nothing,
      the version guard opens for the configured version only.

    Theorems on executions hold for every answer the world may give.  The ones on
    [apiHandler] ask that the request arrives without a cached body, as every
    request does; those on a gateway, that requests arrive as net/http hands them
    over ([arriving]).  A witness after a theorem applies it to a concrete input:
    the gateway of Example.v for those on executions, a run of several requests
    ([working], [logging_in], [revoking]) for those on gateways.

    ** Conventions

    A function returning [(T, error)] returns [res T], with the text of the error.
    Integers are [Z], wrapped where Go's would ([wrap64]); times and durations are
    nanoseconds.  A map whose order never shows is a [gmap], a decoded JSON object
    an association list with distinct keys.  Operations under a mutex are atomic
    steps.  Where a recursion is not structural it has fuel computed from its
    input: [Json.parse_fuel] is shown to be enough ([JsonFacts.parse_value_fuel]),
    and the other uses consume at least one byte per unit and start with the
    length of the input (SHA-256: one block of 64).  [Match] calls itself once at
    most, on a path without its trailing slash; the page scan has the source's own
    bound of 20 pages.

    What the program takes from elsewhere is a parameter: Unicode tables
    ([Unicode]), environment and files ([Host], [OS]), regexp on configured
    patterns ([Regexps]), URL and IP parsers ([NetParsers], [RequestURLs]), YAML
    ([Yaml], [YamlOut]), certificates ([NetFiles]), RSA verification
    ([VerifyPKCS1v15]), flags ([Pflag]), the SQLite driver ([Sqlite]) and the lag of
    a reading of the clock ([Scheduling]).  The theorems assume nothing of them
    unless they say so: those of Tokens.v that a YAML document reads back as it
    was written, those on file edits that temporary files get new names, the one on
    the files commands change that SQLite writes to its database's files only
    ([sqlite_spec]).

    ** Not modelled

    What net/http does for Serve (connections, timeouts; that a shut-down server
    accepts no request is a rule of [life]), the goroutines around the alert worker
    and the signal channel (their bodies are modelled, their scheduling is the
    interleaving of [gateway] or the input of [Alerts.run]), the parsing of flags,
    and the text encoding/json makes of a token policy or an OpenAPI result: a
    [list] does not tell a nil slice from an empty one, which print differently, so
    the value is kept.  Manager.Close and Logger.SetOutputForTest are not called by
    the program.  The RWMutex and atomics are not modelled below the granularity of
    one operation. *)

From stdpp Require Export base list gmap strings sorting.
From Stdlib Require Export Ascii ZArith Lia.
From Stdlib Require String.
From stdpp Require Import options.

#[export] Set Default Goal Selector "1".
#[global] Open Scope stdpp_scope.

(** ** Go results

    A Go function returning [(T, error)] is a function into [res T].  Errors
    carry the message the code builds with [errors.New] / [fmt.Errorf]; the
    server reports this message as the deny reason. *)

Inductive res (A : Type) : Type :=
  | Ok (a : A)
  | Err (e : string).
Arguments Ok {A} a.
Arguments Err {A} e.

#[export] Instance res_eq_dec {A} `{!EqDecision A} : EqDecision (res A).
Proof. solve_decision. Defined.

Declare Scope go_scope.
Delimit Scope go_scope with go.
#[global] Open Scope go_scope.

(** [let? x := e in k] is the [if err != nil { return err }] idiom. *)
Notation "'let?' x := e 'in' k" :=
  (match e with Ok x => k | Err err => Err err end)
  (at level 10, x name, e at level 200, k at level 200) : go_scope.

Notation "'check?' e 'then' k" :=
  (match e with Ok tt => k | Err err => Err err end)
  (at level 10, e at level 200, k at level 200) : go_scope.

(** [deny_if b e k]: [if b { return errors.New(e) }; k]. *)
Definition deny_if {A} (b : bool) (e : string) (k : res A) : res A :=
  if b then Err e else k.

Definition is_ok {A} (r : res A) : bool :=
  match r with Ok _ => true | Err _ => false end.

Definition of_option {A} (e : string) (o : option A) : res A :=
  match o with Some a => Ok a | None => Err e end.

(** ** Booleans and tests on strings *)

Notation "s =s? t" := (String.eqb s t) (at level 70, no associativity) : go_scope.
Notation "s <>s? t" := (negb (String.eqb s t)) (at level 70, no associativity) : go_scope.
Notation "c =c? d" := (Ascii.eqb c d) (at level 70, no associativity) : go_scope.

Lemma eqs_true (s t : string) : String.eqb s t = true <-> s = t.
Proof. apply String.eqb_eq. Qed.

Lemma eqs_false (s t : string) : String.eqb s t = false <-> s <> t.
Proof. apply String.eqb_neq. Qed.

Lemma eqs_refl (s : string) : String.eqb s s = true.
Proof. apply String.eqb_refl. Qed.

Lemma eqc_true (c d : ascii) : Ascii.eqb c d = true <-> c = d.
Proof. apply Ascii.eqb_eq. Qed.

Lemma eqc_refl (c : ascii) : Ascii.eqb c c = true.
Proof. apply Ascii.eqb_refl. Qed.

Lemma is_nonempty (s : string) : (s <>s? "") = true <-> s <> "".
Proof. rewrite negb_true_iff. apply eqs_false. Qed.

(** ** Association lists

    A Go [map[string]T] whose iteration order never matters is a [gmap].  The
    maps nested in a JSON value are association lists with distinct keys
    (a nested [gmap] has no usable structural recursion): [assoc] is lookup,
    [assoc_set] is [m[k] = v], [assoc_del] is [delete(m, k)]. *)

Section assoc.
Context {A : Type}.
Implicit Types (l : list (string * A)) (k : string).

Fixpoint assoc k l : option A :=
  match l with
  | [] => None
  | (k', v) :: l' => if k =s? k' then Some v else assoc k l'
  end.

Fixpoint assoc_set k (v : A) l : list (string * A) :=
  match l with
  | [] => [(k, v)]
  | (k', v') :: l' =>
      if k =s? k' then (k, v) :: l' else (k', v') :: assoc_set k v l'
  end.

Definition assoc_del k l : list (string * A) :=
  List.filter (fun '(k', _) => k <>s? k') l.

Lemma assoc_set_eq k v l : assoc k (assoc_set k v l) = Some v.
Proof.
  induction l as [|[k' v'] l IH]; simpl; [by rewrite eqs_refl|].
  destruct (String.eqb_spec k k'); simpl; [by rewrite eqs_refl|].
  rewrite (proj2 (eqs_false _ _)); done.
Qed.

Lemma assoc_set_ne k k' v l : k <> k' -> assoc k (assoc_set k' v l) = assoc k l.
Proof.
  intros Hne. induction l as [|[k1 v1] l IH]; simpl.
  { by rewrite (proj2 (eqs_false _ _)). }
  destruct (String.eqb_spec k' k1) as [->|]; simpl.
  { by rewrite !(proj2 (eqs_false k k1)). }
  destruct (String.eqb_spec k k1); done.
Qed.

Lemma assoc_del_eq k l : assoc k (assoc_del k l) = None.
Proof.
  unfold assoc_del. induction l as [|[k' v'] l IH]; simpl; [done|].
  destruct (String.eqb_spec k k') as [->|Hne]; simpl; [done|].
  by rewrite (proj2 (eqs_false _ _) Hne).
Qed.

Lemma assoc_del_ne k k' l : k <> k' -> assoc k (assoc_del k' l) = assoc k l.
Proof.
  unfold assoc_del. intros Hne. induction l as [|[k1 v1] l IH]; simpl; [done|].
  destruct (String.eqb_spec k' k1) as [->|]; simpl.
  { by rewrite (proj2 (eqs_false _ _) Hne). }
  destruct (String.eqb_spec k k1); done.
Qed.

Lemma assoc_filter (p : string -> bool) k l :
  assoc k (List.filter (fun kv => p (fst kv)) l) = if p k then assoc k l else None.
Proof.
  induction l as [|[k1 v1] l IH]; simpl; [by destruct (p k)|].
  destruct (p k1) eqn:Hp1; simpl; destruct (String.eqb_spec k k1) as [->|];
    rewrite ?Hp1, ?IH; try done; by rewrite Hp1.
Qed.

Lemma assoc_In k v l : assoc k l = Some v -> In (k, v) l.
Proof.
  induction l as [|[k' v'] l IH]; simpl; [done|].
  destruct (String.eqb_spec k k') as [->|]; [intros [= ->]; by left|].
  intros H. right. by apply IH.
Qed.

Lemma In_assoc k v l : NoDup (map fst l) -> In (k, v) l -> assoc k l = Some v.
Proof.
  induction l as [|[k' v'] l IH]; simpl; [done|].
  intros [Hni Hnd]%NoDup_cons [[= -> ->]|Hin]; [by rewrite eqs_refl|].
  destruct (String.eqb_spec k k') as [->|]; [|by apply IH].
  destruct Hni. apply list_elem_of_In, in_map_iff. by exists (k', v).
Qed.
End assoc.

(** ** Lists *)

Definition contains_str (xs : list string) (want : string) : bool :=
  existsb (fun x => x =s? want) xs.

Lemma contains_str_spec xs want : contains_str xs want = true <-> want ∈ xs.
Proof.
  unfold contains_str. rewrite existsb_exists, list_elem_of_In. split.
  - intros (x & Hin & ->%eqs_true). done.
  - intros Hin. exists want. by rewrite eqs_refl.
Qed.

Lemma contains_str_false xs want : contains_str xs want = false <-> want ∉ xs.
Proof. rewrite <- contains_str_spec. by destruct (contains_str xs want). Qed.

Lemma NoDup_map_inj {A B} (f : A -> B) l a b :
  NoDup (map f l) -> a ∈ l -> b ∈ l -> f a = f b -> a = b.
Proof.
  intros Hnd Ha Hb Heq. induction l as [|x l IH]; [by apply not_elem_of_nil in Ha|].
  simpl in Hnd. apply NoDup_cons in Hnd as [Hni Hnd].
  rewrite list_elem_of_In, in_map_iff in Hni.
  apply elem_of_cons in Ha as [->|Ha]; apply elem_of_cons in Hb as [->|Hb];
    [done| | |by apply IH]; destruct Hni.
  - exists b. by rewrite <- list_elem_of_In.
  - exists a. by rewrite <- list_elem_of_In.
Qed.

Lemma find_split {A} (p : A -> bool) l x :
  List.find p l = Some x ->
  exists pre post, l = pre ++ x :: post /\ p x = true /\ Forall (fun y => p y = false) pre.
Proof.
  induction l as [|y l IH]; simpl; [done|]. destruct (p y) eqn:Hy.
  - intros [= ->]. by exists [], l.
  - intros (pre & post & -> & Hp & Hall)%IH. exists (y :: pre), post. auto.
Qed.

Lemma find_hit {A} (p : A -> bool) pre r post :
  p r = true -> exists x, List.find p (pre ++ r :: post) = Some x /\ (x ∈ pre \/ x = r).
Proof.
  intros Hr. induction pre as [|y pre IH]; simpl.
  - exists r. rewrite Hr. auto.
  - destruct (p y); [exists y; rewrite elem_of_cons; auto|].
    destruct IH as (x & -> & Hx). exists x. rewrite elem_of_cons. tauto.
Qed.

(** ** Automation *)

Create HintDb remnaguard.
Create Rewrite HintDb gostr.

#[export] Hint Rewrite eqs_true eqs_false eqc_true is_nonempty contains_str_spec
  contains_str_false : gostr.
#[export] Hint Rewrite andb_true_iff andb_false_iff orb_true_iff orb_false_iff
  negb_true_iff negb_false_iff : gostr.
#[export] Hint Resolve assoc_set_eq assoc_del_eq : remnaguard.

(** Turn boolean tests of the code into propositions. *)
Ltac gobool := autorewrite with gostr in *.

(** Case on the innermost test of a hypothesis or goal, pruning impossible
    error/ok outcomes. *)
Ltac go_step H :=
  match type of H with
  | Ok _ = Err _ => discriminate H
  | Err _ = Ok _ => discriminate H
  | Some _ = None => discriminate H
  | None = Some _ => discriminate H
  | Err ?a = Err ?a => clear H
  | context [deny_if ?b _ _] => unfold deny_if at 1 in H
  | context [match ?x with _ => _ end] =>
      lazymatch x with
      | context [match _ with _ => _ end] => fail
      | _ => let E := fresh "E" in destruct x eqn:E
      end
  end.

Ltac go_cases H := repeat (go_step H; try discriminate H).

(** An element of a list that is written out. *)
Ltac in_list :=
  solve [repeat (first [assumption|apply list_elem_of_here|apply list_elem_of_further])].

(** ** Sorting

    [sort.SliceStable] and [sort.Strings]: a stable sort by a strict weak order.
    The result is determined by the order alone, so insertion sort computes it. *)

Section stable_sort.
Context {A : Type} (less : A -> A -> bool).

Fixpoint insert_stable (x : A) (l : list A) : list A :=
  match l with
  | [] => [x]
  | y :: l' => if less y x then y :: insert_stable x l' else x :: l
  end.

Definition SliceStable (l : list A) : list A := foldr insert_stable [] l.

Lemma insert_stable_perm x l : insert_stable x l ≡ₚ x :: l.
Proof.
  induction l as [|y l IH]; simpl; [done|]. destruct (less y x); [|done].
  rewrite IH. apply Permutation_swap.
Qed.

Lemma SliceStable_perm l : SliceStable l ≡ₚ l.
Proof. induction l as [|x l IH]; simpl; [done|]. by rewrite insert_stable_perm, IH. Qed.

Lemma elem_of_SliceStable x l : x ∈ SliceStable l <-> x ∈ l.
Proof. by rewrite SliceStable_perm. Qed.
End stable_sort.
