(* ===== verification/GoStrings.v ===== *)
(** * The parts of Go's [strings] and [strconv] packages the program uses

    A Go string is a byte sequence: Rocq's [string] (8-bit [ascii]).  Every
    separator the program splits, cuts or trims by is one ASCII byte, so these
    functions take an [ascii].  Case mapping outside ASCII goes through Go's
    Unicode tables, which are the [Unicode] class. *)

From S2P Require Import Prelude.
From Stdlib Require Import DecimalString DecimalZ DecimalN.
From stdpp Require Import options.

(** Byte value of a character. *)
Definition code (c : ascii) : N := N_of_ascii c.

Definition bytes (l : list nat) : string :=
  String.string_of_list_ascii (map ascii_of_nat l).

Definition len (s : string) : Z := Z.of_nat (String.length s).

(** ** Appending, taking, dropping *)

Fixpoint drop_str (n : nat) (s : string) : string :=
  match n, s with
  | O, _ => s
  | S n', String _ s' => drop_str n' s'
  | S _, "" => ""
  end.

Fixpoint take_str (n : nat) (s : string) : string :=
  match n, s with
  | O, _ => ""
  | S n', String c s' => String c (take_str n' s')
  | S _, "" => ""
  end.

Lemma str_app_cons c s t : String c s +:+ t = String c (s +:+ t).
Proof. reflexivity. Qed.

Lemma str_app_nil_l t : "" +:+ t = t.
Proof. reflexivity. Qed.

Lemma str_app_nil_r s : s +:+ "" = s.
Proof. induction s; [done|]. by rewrite str_app_cons, IHs. Qed.

Lemma str_app_assoc s t u : (s +:+ t) +:+ u = s +:+ t +:+ u.
Proof. induction s; [done|]. by rewrite !str_app_cons, IHs. Qed.

Lemma str_length_app s t :
  String.length (s +:+ t) = String.length s + String.length t.
Proof. induction s; [done|]. rewrite str_app_cons. simpl. by rewrite IHs. Qed.

Lemma take_drop_str n s : take_str n s +:+ drop_str n s = s.
Proof.
  revert n. induction s as [|c s IH]; intros [|n]; try done.
  simpl. by rewrite str_app_cons, IH.
Qed.

Lemma drop_app_str s t : drop_str (String.length s) (s +:+ t) = t.
Proof. by induction s. Qed.

Lemma take_app_str s t : take_str (String.length s) (s +:+ t) = s.
Proof. induction s; [by destruct t|]. rewrite str_app_cons. simpl. by f_equal. Qed.

Lemma str_length_drop n s : String.length (drop_str n s) = String.length s - n.
Proof. revert n. induction s; intros [|n]; simpl; auto. Qed.

Lemma str_app_inj_l s t u : s +:+ t = s +:+ u -> t = u.
Proof. induction s; [done|]. rewrite !str_app_cons. intros [= H]. auto. Qed.

Lemma str_app_eq_nil s t : s +:+ t = "" -> s = "" /\ t = "".
Proof. destruct s; [by destruct t|by rewrite str_app_cons]. Qed.

Lemma str_length_zero s : String.length s = 0 -> s = "".
Proof. by destruct s. Qed.

#[export] Hint Rewrite str_app_nil_l str_app_nil_r str_app_assoc str_app_cons
  str_length_app : gostr.

(** Reversal, used to state right-to-left trimming. *)
Definition rev_str (s : string) : string := String.rev s.

Lemma rev_app_str s t : String.rev_app s t = rev_str s +:+ t.
Proof.
  unfold rev_str, String.rev. revert t. induction s as [|c s IH]; intros t; [done|].
  simpl. rewrite IH, (IH (String c "")). by rewrite str_app_assoc.
Qed.

Lemma rev_str_cons c s : rev_str (String c s) = rev_str s +:+ String c "".
Proof. unfold rev_str at 1, String.rev. simpl. by rewrite rev_app_str. Qed.

Lemma rev_str_app s t : rev_str (s +:+ t) = rev_str t +:+ rev_str s.
Proof.
  induction s as [|c s IH]; [by rewrite str_app_nil_l, str_app_nil_r|].
  by rewrite str_app_cons, !rev_str_cons, IH, str_app_assoc.
Qed.

Lemma rev_str_involutive s : rev_str (rev_str s) = s.
Proof.
  induction s as [|c s IH]; [done|]. by rewrite rev_str_cons, rev_str_app, IH.
Qed.

Lemma str_length_rev s : String.length (rev_str s) = String.length s.
Proof.
  induction s as [|c s IH]; [done|].
  rewrite rev_str_cons, str_length_app, IH. simpl. lia.
Qed.

(** ** Prefixes, suffixes, substrings *)

Fixpoint HasPrefix (s prefix : string) : bool :=
  match prefix, s with
  | "", _ => true
  | String p prefix', String c s' => (c =c? p) && HasPrefix s' prefix'
  | String _ _, "" => false
  end.

Definition HasSuffix (s suffix : string) : bool :=
  Nat.leb (String.length suffix) (String.length s) &&
  (drop_str (String.length s - String.length suffix) s =s? suffix).

Definition TrimPrefix (s prefix : string) : string :=
  if HasPrefix s prefix then drop_str (String.length prefix) s else s.

Definition TrimSuffix (s suffix : string) : string :=
  if HasSuffix s suffix
  then take_str (String.length s - String.length suffix) s else s.

Fixpoint Contains (s sub : string) : bool :=
  HasPrefix s sub ||
  match s with
  | "" => false
  | String _ s' => Contains s' sub
  end.

Fixpoint IndexByte_found (s : string) (c : ascii) : bool :=
  match s with
  | "" => false
  | String d s' => (d =c? c) || IndexByte_found s' c
  end.

(** [strings.ContainsAny] with an ASCII set of characters. *)
Fixpoint ContainsAny (s chars : string) : bool :=
  match s with
  | "" => false
  | String d s' => IndexByte_found chars d || ContainsAny s' chars
  end.

Lemma HasPrefix_spec s p : HasPrefix s p = true <-> exists t, s = p +:+ t.
Proof.
  revert s. induction p as [|c p IH]; intros s.
  { split; [|by destruct s]. intros _. by exists s. }
  destruct s as [|d s]; simpl.
  { split; [done|]. intros [t Ht]. by rewrite str_app_cons in Ht. }
  rewrite andb_true_iff, eqc_true, IH. split.
  - intros [-> [t ->]]. by exists t.
  - intros [t Ht]. rewrite str_app_cons in Ht. injection Ht as -> ->. eauto.
Qed.

Lemma HasPrefix_app p t : HasPrefix (p +:+ t) p = true.
Proof. apply HasPrefix_spec. by exists t. Qed.

Lemma HasSuffix_spec s u : HasSuffix s u = true <-> exists t, s = t +:+ u.
Proof.
  unfold HasSuffix. rewrite andb_true_iff, Nat.leb_le, eqs_true. split.
  - intros [_ Hd]. exists (take_str (String.length s - String.length u) s).
    rewrite <- Hd at 2. by rewrite take_drop_str.
  - intros [t ->]. rewrite str_length_app. split; [lia|].
    replace (String.length t + String.length u - String.length u)
      with (String.length t) by lia. apply drop_app_str.
Qed.

Lemma HasSuffix_rev s u : HasSuffix s u = HasPrefix (rev_str s) (rev_str u).
Proof.
  apply eq_true_iff_eq. rewrite HasSuffix_spec, HasPrefix_spec. split; intros [t Ht].
  - exists (rev_str t). by rewrite Ht, rev_str_app.
  - exists (rev_str t). rewrite <- (rev_str_involutive s), Ht.
    by rewrite rev_str_app, rev_str_involutive.
Qed.

Lemma TrimPrefix_app p t : TrimPrefix (p +:+ t) p = t.
Proof. unfold TrimPrefix. by rewrite HasPrefix_app, drop_app_str. Qed.

Lemma Contains_spec s sub : Contains s sub = true <-> exists a b, s = a +:+ sub +:+ b.
Proof.
  induction s as [|c s IH]; cbn [Contains].
  - rewrite orb_false_r, HasPrefix_spec. split.
    + intros [t Ht]. by exists "", t.
    + intros (a & b & Hab). symmetry in Hab.
      apply str_app_eq_nil in Hab as [_ [-> ->]%str_app_eq_nil]. by exists "".
  - rewrite orb_true_iff, HasPrefix_spec, IH. split.
    + intros [[t Ht]|(a & b & ->)].
      * by exists "", t.
      * exists (String c a), b. done.
    + intros ([|d a] & b & Hab).
      * left. by exists b.
      * rewrite str_app_cons in Hab. injection Hab as -> ->. right. eauto.
Qed.

Lemma IndexByte_found_spec s c :
  IndexByte_found s c = true <-> exists a b, s = a +:+ String c b.
Proof.
  induction s as [|d s IH]; simpl.
  - split; [done|]. intros (a & b & Hab). symmetry in Hab.
    by apply str_app_eq_nil in Hab as [_ ?].
  - rewrite orb_true_iff, eqc_true, IH. split.
    + intros [->|(a & b & ->)]; [by exists "", s|by exists (String d a), b].
    + intros ([|d' a] & b & Hab).
      * rewrite str_app_nil_l in Hab. injection Hab as -> ->. by left.
      * rewrite str_app_cons in Hab. injection Hab as -> ->. right. eauto.
Qed.

Lemma IndexByte_found_app s t c :
  IndexByte_found (s +:+ t) c = IndexByte_found s c || IndexByte_found t c.
Proof. induction s; [done|]. simpl. by rewrite IHs, orb_assoc. Qed.

(** ** Split, Cut, Join *)

Fixpoint Split (sep : ascii) (s : string) : list string :=
  match s with
  | "" => [""]
  | String c s' =>
      if c =c? sep then "" :: Split sep s'
      else match Split sep s' with
           | [] => [String c ""]
           | p :: ps => String c p :: ps
           end
  end.

(** [strings.Cut(s, sep)]: [(before, after, found)]. *)
Fixpoint Cut (sep : ascii) (s : string) : string * string * bool :=
  match s with
  | "" => ("", "", false)
  | String c s' =>
      if c =c? sep then ("", s', true)
      else let '(b, a, ok) := Cut sep s' in (String c b, a, ok)
  end.

(** [strings.SplitN(s, sep, 2)]. *)
Definition SplitN2 (sep : ascii) (s : string) : list string :=
  match Cut sep s with
  | (b, a, true) => [b; a]
  | (_, _, false) => [s]
  end.

Definition Join (parts : list string) (sep : string) : string :=
  String.concat sep parts.

Lemma Split_cons_ne sep s : exists p ps, Split sep s = p :: ps.
Proof.
  destruct s as [|c s]; simpl; [eauto|].
  destruct (c =c? sep); [eauto|]. destruct (Split sep s); eauto.
Qed.

Lemma Join_cons p ps sep :
  Join (p :: ps) sep = match ps with [] => p | _ => p +:+ sep +:+ Join ps sep end.
Proof. by destruct ps. Qed.

(** Splitting loses nothing: joining with the separator gives the string back. *)
Lemma Join_Split sep s : Join (Split sep s) (String sep "") = s.
Proof.
  induction s as [|c s IH]; [done|]. simpl.
  destruct (Split_cons_ne sep s) as (p & ps & Hs). rewrite Hs in *.
  destruct (Ascii.eqb_spec c sep) as [->|].
  - rewrite Join_cons, str_app_nil_l, IH. done.
  - rewrite Join_cons in *. rewrite <- IH. by destruct ps.
Qed.

Lemma Split_no_sep sep s p : In p (Split sep s) -> IndexByte_found p sep = false.
Proof.
  revert p. induction s as [|c s IH]; intros p; simpl; [by intros [<-|[]]|].
  destruct (Ascii.eqb_spec c sep) as [->|Hne].
  - intros [<-|?]; [done|auto].
  - destruct (Split_cons_ne sep s) as (q & qs & Hs). rewrite Hs in *.
    intros [<-|?]; [|apply IH; by right]. simpl.
    rewrite (proj2 (Ascii.eqb_neq _ _) Hne). apply IH. by left.
Qed.

Lemma Split_sep_free sep s : IndexByte_found s sep = false -> Split sep s = [s].
Proof.
  induction s as [|c s IH]; simpl; [done|].
  intros [-> Hs]%orb_false_iff. by rewrite IH.
Qed.

Lemma Split_app sep a b :
  IndexByte_found a sep = false -> Split sep (a +:+ String sep b) = a :: Split sep b.
Proof.
  induction a as [|c a IH]; cbn [IndexByte_found].
  { intros _. rewrite str_app_nil_l. cbn [Split]. by rewrite eqc_refl. }
  intros [Hc Ha]%orb_false_iff. rewrite str_app_cons. cbn [Split]. rewrite Hc, IH; done.
Qed.

Lemma Cut_found sep s b a :
  Cut sep s = (b, a, true) -> s = b +:+ String sep a /\ IndexByte_found b sep = false.
Proof.
  revert b a. induction s as [|c s IH]; intros b a; simpl; [done|].
  destruct (Ascii.eqb_spec c sep) as [->|Hne]; [by intros [= <- <-]|].
  destruct (Cut sep s) as [[b' a'] ok]. intros [= <- <- ->].
  destruct (IH b' a' eq_refl) as [-> Hb]. split; [done|].
  simpl. by rewrite (proj2 (Ascii.eqb_neq _ _) Hne).
Qed.

Lemma Cut_not_found sep s b a :
  Cut sep s = (b, a, false) -> b = s /\ a = "" /\ IndexByte_found s sep = false.
Proof.
  revert b a. induction s as [|c s IH]; intros b a; simpl; [by intros [= <- <-]|].
  destruct (Ascii.eqb_spec c sep) as [->|Hne]; [done|].
  destruct (Cut sep s) as [[b' a'] ok]. intros [= <- <- ->].
  destruct (IH b' a' eq_refl) as (-> & -> & Hf). by rewrite Hf.
Qed.

Lemma Cut_app sep b a :
  IndexByte_found b sep = false -> Cut sep (b +:+ String sep a) = (b, a, true).
Proof.
  induction b as [|c b IH]; cbn [IndexByte_found].
  { intros _. rewrite str_app_nil_l. cbn [Cut]. by rewrite eqc_refl. }
  intros [Hc Hb]%orb_false_iff. rewrite str_app_cons. cbn [Cut]. by rewrite Hc, IH.
Qed.

Lemma Cut_sep_free sep s : IndexByte_found s sep = false -> Cut sep s = (s, "", false).
Proof.
  induction s as [|c s IH]; simpl; [done|]. intros [-> Hs]%orb_false_iff. by rewrite IH.
Qed.

(** ** Trimming one ASCII byte *)

Fixpoint TrimLeft (c : ascii) (s : string) : string :=
  match s with
  | "" => ""
  | String d s' => if d =c? c then TrimLeft c s' else s
  end.

Fixpoint TrimRight (c : ascii) (s : string) : string :=
  match s with
  | "" => ""
  | String d s' =>
      match TrimRight c s' with
      | "" => if d =c? c then "" else String d ""
      | t => String d t
      end
  end.

Definition Trim (c : ascii) (s : string) : string := TrimRight c (TrimLeft c s).

Lemma TrimRight_id c s : HasSuffix s (String c "") = false -> TrimRight c s = s.
Proof.
  intros Hs. induction s as [|d s IH]; [done|]. simpl.
  destruct s as [|e s].
  { simpl. destruct (Ascii.eqb_spec d c) as [->|]; [|done].
    apply not_true_iff_false in Hs. destruct Hs. apply HasSuffix_spec. by exists "". }
  rewrite IH; [done|]. apply not_true_iff_false. intros [t Ht]%HasSuffix_spec.
  apply not_true_iff_false in Hs. apply Hs, HasSuffix_spec.
  exists (String d t). by rewrite Ht.
Qed.

Lemma TrimRight_suffix c s : HasSuffix (TrimRight c s) (String c "") = false.
Proof.
  induction s as [|d s IH]; [done|]. simpl.
  destruct (TrimRight c s) as [|e t] eqn:Ht.
  - destruct (Ascii.eqb_spec d c) as [->|Hne]; [done|].
    unfold HasSuffix. simpl. by rewrite (proj2 (Ascii.eqb_neq _ _) Hne).
  - apply not_true_iff_false. intros [u Hu]%HasSuffix_spec.
    apply not_true_iff_false in IH. apply IH, HasSuffix_spec.
    destruct u as [|f u]; [by destruct t|].
    rewrite str_app_cons in Hu. injection Hu as _ Hu. by exists u.
Qed.

Lemma TrimLeft_cons_ne c d s : d <> c -> TrimLeft c (String d s) = String d s.
Proof. intros Hne. simpl. by rewrite (proj2 (Ascii.eqb_neq _ _) Hne). Qed.

(** ** White space

    [strings.TrimSpace] removes the runes with Unicode's White_Space property;
    these are their UTF-8 encodings. *)
Definition space_encodings : list string :=
  map (fun c => bytes [c]) [9; 10; 11; 12; 13; 32] ++
  [bytes [194; 133]; bytes [194; 160]; bytes [225; 154; 128]] ++
  map (fun c => bytes [226; 128; c])
    [128; 129; 130; 131; 132; 133; 134; 135; 136; 137; 138; 168; 169; 175] ++
  [bytes [226; 129; 159]; bytes [227; 128; 128]].

Fixpoint strip_left (encs : list string) (fuel : nat) (s : string) : string :=
  match fuel with
  | O => s
  | S fuel' =>
      match List.find (HasPrefix s) encs with
      | Some e => strip_left encs fuel' (drop_str (String.length e) s)
      | None => s
      end
  end.

Definition TrimSpaceLeft (s : string) : string :=
  strip_left space_encodings (String.length s) s.

Definition TrimSpaceRight (s : string) : string :=
  rev_str (strip_left (map rev_str space_encodings) (String.length s) (rev_str s)).

Definition TrimSpace (s : string) : string := TrimSpaceRight (TrimSpaceLeft s).

(** [starts encs s]: some encoding in [encs] is a prefix of [s]. *)
Definition starts (encs : list string) (s : string) : bool := existsb (HasPrefix s) encs.

Lemma find_starts encs s : List.find (HasPrefix s) encs = None <-> starts encs s = false.
Proof.
  unfold starts. induction encs as [|e encs IH]; simpl; [done|].
  by destruct (HasPrefix s e).
Qed.

Lemma strip_left_id encs fuel s : starts encs s = false -> strip_left encs fuel s = s.
Proof. intros H%find_starts. destruct fuel; simpl; [done|]. by rewrite H. Qed.

Lemma strip_left_done encs fuel s :
  Forall (fun e => e <> "") encs -> String.length s <= fuel ->
  starts encs (strip_left encs fuel s) = false.
Proof.
  intros Hne. revert s. induction fuel as [|fuel IH]; intros s Hlen; simpl.
  - rewrite (str_length_zero s) by lia. apply find_starts.
    clear -Hne. induction Hne as [|e encs He _ IH]; [done|]. simpl. by destruct e.
  - destruct (List.find (HasPrefix s) encs) as [e|] eqn:Hf; [|by apply find_starts].
    apply IH. rewrite str_length_drop.
    apply List.find_some in Hf as [Hin Hp].
    rewrite Forall_forall in Hne. specialize (Hne e).
    rewrite list_elem_of_In in Hne. specialize (Hne Hin).
    destruct e; [done|]. simpl. lia.
Qed.

Lemma strip_left_suffix encs fuel s : exists p, s = p +:+ strip_left encs fuel s.
Proof.
  revert s. induction fuel as [|fuel IH]; intros s; simpl; [by exists ""|].
  destruct (List.find (HasPrefix s) encs) as [e|] eqn:Hf; [|by exists ""].
  apply List.find_some in Hf as [_ [t ->]%HasPrefix_spec].
  rewrite drop_app_str. destruct (IH t) as [p Hp].
  exists (e +:+ p). by rewrite str_app_assoc, <- Hp.
Qed.

Lemma starts_app encs s t : starts encs s = true -> starts encs (s +:+ t) = true.
Proof.
  unfold starts. rewrite !existsb_exists. intros (e & Hin & [u ->]%HasPrefix_spec).
  exists e. split; [done|]. rewrite str_app_assoc. apply HasPrefix_app.
Qed.

Lemma space_encodings_ne : Forall (fun e => e <> "") space_encodings.
Proof. by repeat constructor. Qed.

Lemma rev_space_encodings_ne : Forall (fun e => e <> "") (map rev_str space_encodings).
Proof. by repeat constructor. Qed.

Lemma TrimSpace_id s :
  starts space_encodings s = false ->
  starts (map rev_str space_encodings) (rev_str s) = false -> TrimSpace s = s.
Proof.
  intros Hl Hr. unfold TrimSpace, TrimSpaceLeft, TrimSpaceRight.
  rewrite (strip_left_id _ _ s Hl), (strip_left_id _ _ (rev_str s) Hr).
  apply rev_str_involutive.
Qed.

(** A trimmed string has white space on neither end, so trimming is idempotent. *)
Lemma TrimSpace_ends s :
  starts space_encodings (TrimSpace s) = false /\
  starts (map rev_str space_encodings) (rev_str (TrimSpace s)) = false.
Proof.
  unfold TrimSpace, TrimSpaceRight. set (u := TrimSpaceLeft s). split.
  - apply not_true_iff_false. intros Hst.
    destruct (strip_left_suffix (map rev_str space_encodings) (String.length u) (rev_str u))
      as [p Hp].
    apply (f_equal rev_str) in Hp. rewrite rev_str_involutive, rev_str_app in Hp.
    apply (starts_app _ _ (rev_str p)) in Hst. rewrite <- Hp in Hst.
    assert (starts space_encodings u = false) as Hu.
    { apply strip_left_done; [apply space_encodings_ne|done]. }
    congruence.
  - rewrite rev_str_involutive. apply strip_left_done; [apply rev_space_encodings_ne|].
    by rewrite str_length_rev.
Qed.

Lemma TrimSpace_idemp s : TrimSpace (TrimSpace s) = TrimSpace s.
Proof. destruct (TrimSpace_ends s). by apply TrimSpace_id. Qed.

(** ** Case mapping

    [strings.ToLower], [ToUpper] and [EqualFold] work byte-wise on ASCII and
    consult the Unicode tables otherwise; the tables are this class. *)

Class Unicode := {
  unicode_lower : string -> string;
  unicode_upper : string -> string;
  unicode_equal_fold : string -> string -> bool;
  (** [strconv.Quote], the [%q] verb, which consults the printable-rune table. *)
  strconv_quote : string -> string;
}.

(** A concrete instance for examples: text outside ASCII is left alone. *)
Definition ascii_only : Unicode := {|
  unicode_lower := fun s => s;
  unicode_upper := fun s => s;
  unicode_equal_fold := String.eqb;
  strconv_quote := fun s => String "034" (s +:+ String "034" "");
|}.

Definition is_ascii (c : ascii) : bool := N.ltb (code c) 128.

Fixpoint all_bytes (p : ascii -> bool) (s : string) : bool :=
  match s with "" => true | String c s' => p c && all_bytes p s' end.

Fixpoint map_bytes (f : ascii -> ascii) (s : string) : string :=
  match s with "" => "" | String c s' => String (f c) (map_bytes f s') end.

Definition lower_byte (c : ascii) : ascii :=
  if N.leb 65 (code c) && N.leb (code c) 90 then ascii_of_N (code c + 32) else c.

Definition upper_byte (c : ascii) : ascii :=
  if N.leb 97 (code c) && N.leb (code c) 122 then ascii_of_N (code c - 32) else c.

Definition ToLower `{Unicode} (s : string) : string :=
  if all_bytes is_ascii s then map_bytes lower_byte s else unicode_lower s.

Definition ToUpper `{Unicode} (s : string) : string :=
  if all_bytes is_ascii s then map_bytes upper_byte s else unicode_upper s.

Definition EqualFold `{Unicode} (s t : string) : bool :=
  if all_bytes is_ascii s && all_bytes is_ascii t
  then map_bytes lower_byte s =s? map_bytes lower_byte t
  else unicode_equal_fold s t.

Lemma all_bytes_spec p s :
  all_bytes p s = true <-> forall c, IndexByte_found s c = true -> p c = true.
Proof.
  induction s as [|d s IH]; simpl; [done|].
  rewrite andb_true_iff, IH. split.
  - intros [Hd Hs] c [->%eqc_true|Hc]%orb_true_iff; auto.
  - intros Hall. split; [apply Hall; by rewrite eqc_refl|].
    intros c Hc. apply Hall. by rewrite Hc, orb_true_r.
Qed.

Lemma all_bytes_app p s t : all_bytes p (s +:+ t) = all_bytes p s && all_bytes p t.
Proof. induction s; [done|]. simpl. by rewrite IHs, andb_assoc. Qed.

Lemma all_bytes_not_in p s c :
  all_bytes p s = true -> p c = false -> IndexByte_found s c = false.
Proof.
  intros Hall Hc. apply not_true_iff_false. intros Hin.
  rewrite all_bytes_spec in Hall. specialize (Hall c Hin). congruence.
Qed.

(** ** Replacing and counting single bytes *)

Fixpoint ReplaceAll (s : string) (c : ascii) (rep : string) : string :=
  match s with
  | "" => ""
  | String d s' => (if d =c? c then rep else String d "") +:+ ReplaceAll s' c rep
  end.

Fixpoint Count (s : string) (c : ascii) : Z :=
  match s with
  | "" => 0
  | String d s' => (if d =c? c then 1 else 0) + Count s' c
  end%Z.

(** ** [strconv] *)

Definition int64_min : Z := - 2 ^ 63.
Definition int64_max : Z := 2 ^ 63 - 1.
Definition in_int64 (z : Z) : bool := Z.leb int64_min z && Z.leb z int64_max.

(** Two's complement wrap-around of a 64-bit [int]. *)
Definition wrap64 (z : Z) : Z := (z + 2 ^ 63) mod 2 ^ 64 - 2 ^ 63.

Lemma wrap64_id z : in_int64 z = true -> wrap64 z = z.
Proof.
  unfold in_int64, int64_min, int64_max, wrap64. rewrite andb_true_iff, !Z.leb_le.
  intros. rewrite Z.mod_small; lia.
Qed.

Lemma wrap64_range z : in_int64 (wrap64 z) = true.
Proof.
  unfold in_int64, int64_min, int64_max, wrap64. rewrite andb_true_iff, !Z.leb_le.
  pose proof (Z.mod_pos_bound (z + 2 ^ 63) (2 ^ 64)). lia.
Qed.

Definition Itoa (z : Z) : string := NilZero.string_of_int (Z.to_int z).

Definition parse_digits (s : string) : option Z :=
  match NilZero.uint_of_string s with
  | Some u => Some (Z.of_N (N.of_uint u))
  | None => None
  end.

(** [strconv.ParseInt(s, 10, 64)] and [strconv.Atoi]: an optional sign and at
    least one digit, in the range of a 64-bit integer. *)
Definition ParseInt (s : string) : option Z :=
  let '(neg, body) :=
    match s with
    | String "-" r => (true, r)
    | String "+" r => (false, r)
    | _ => (false, s)
    end in
  match parse_digits body with
  | None => None
  | Some n =>
      let v := if neg : bool then (- n)%Z else n in
      if in_int64 v then Some v else None
  end.

Definition Atoi := ParseInt.

Lemma parse_digits_uint u :
  u <> Decimal.Nil -> parse_digits (NilZero.string_of_uint u) = Some (Z.of_N (N.of_uint u)).
Proof. intros Hu. unfold parse_digits. by rewrite NilZero.usu. Qed.

Lemma digits_head u :
  exists c s, NilZero.string_of_uint u = String c s /\ c <> "-"%char /\ c <> "+"%char.
Proof. destruct u; simpl; eauto. Qed.

(** Printing then parsing an [int] gives it back. *)
Lemma ParseInt_Itoa z : in_int64 z = true -> ParseInt (Itoa z) = Some z.
Proof.
  intros Hz. unfold Itoa, ParseInt.
  assert (Hnn : forall n, N.to_uint n <> Decimal.Nil).
  { intros [|p] H; [done|]. simpl in H. by apply DecimalPos.Unsigned.to_uint_nonnil in H. }
  destruct z as [|p|p]; simpl Z.to_int.
  - by vm_compute.
  - change (NilZero.string_of_int (Decimal.Pos (Pos.to_uint p)))
      with (NilZero.string_of_uint (N.to_uint (N.pos p))).
    destruct (digits_head (N.to_uint (N.pos p))) as (c & s & Hs & Hm & Hp).
    assert (Hd := parse_digits_uint _ (Hnn (N.pos p))).
    rewrite DecimalN.Unsigned.of_to in Hd. rewrite Hs in *.
    destruct (Ascii.eqb_spec c "-") as [->|]; [done|].
    destruct (Ascii.eqb_spec c "+") as [->|]; [done|].
    replace (match c with "-"%char => (true, s) | "+"%char => (false, s)
             | _ => (false, String c s) end) with (false, String c s).
    { rewrite Hd. simpl Z.of_N. by rewrite Hz. }
    clear -Hm Hp. destruct c as [[] [] [] [] [] [] [] []]; done.
  - change (NilZero.string_of_int (Decimal.Neg (Pos.to_uint p)))
      with (String "-" (NilZero.string_of_uint (N.to_uint (N.pos p)))).
    cbn match. rewrite (parse_digits_uint _ (Hnn (N.pos p))), DecimalN.Unsigned.of_to.
    change (- Z.of_N (N.pos p))%Z with (Z.neg p). cbn beta iota zeta. by rewrite Hz.
Qed.

(** Order of strings, [s < t] in Go. *)
Definition str_lt (s t : string) : bool := String.ltb s t.
