(* ===== verification/Encoding.v ===== *)
(** * Byte encodings of the Go standard library the program relies on

    UTF-8 runes ([unicode/utf8]) and [base64.RawURLEncoding], with the
    round-trip theorems the token code needs. *)

From S2P Require Import Prelude GoStrings.
From stdpp Require Import options.

Local Open Scope N_scope.

(** ** UTF-8 *)

Module Utf8.

Definition in_range (lo hi c : N) : bool := (lo <=? c) && (c <=? hi).

Definition cont (c : ascii) : bool := in_range 128 191 (code c).

Definition RuneError : N := 65533.

(** [utf8.DecodeRuneInString]: the first rune and its width; an invalid byte
    is [RuneError] with width 1.  [None] on the empty string. *)
Definition DecodeRune (s : string) : option (N * nat) :=
  match s with
  | "" => None
  | String a s1 =>
      let b0 := code a in
      if b0 <? 128 then Some (b0, 1%nat) else
      match s1 with
      | String b s2 =>
          let b1 := code b in
          if in_range 194 223 b0 && cont b
          then Some ((b0 - 192) * 64 + (b1 - 128), 2%nat) else
          match s2 with
          | String c s3 =>
              let b2 := code c in
              if ((in_range 224 224 b0 && in_range 160 191 b1) ||
                  (in_range 225 236 b0 && cont b) ||
                  (in_range 237 237 b0 && in_range 128 159 b1) ||
                  (in_range 238 239 b0 && cont b)) && cont c
              then Some ((b0 - 224) * 4096 + (b1 - 128) * 64 + (b2 - 128), 3%nat) else
              match s3 with
              | String d _ =>
                  let b3 := code d in
                  if ((in_range 240 240 b0 && in_range 144 191 b1) ||
                      (in_range 241 243 b0 && cont b) ||
                      (in_range 244 244 b0 && in_range 128 143 b1)) && cont c && cont d
                  then Some ((b0 - 240) * 262144 + (b1 - 128) * 4096 +
                             (b2 - 128) * 64 + (b3 - 128), 4%nat)
                  else Some (RuneError, 1%nat)
              | "" => Some (RuneError, 1%nat)
              end
          | "" => Some (RuneError, 1%nat)
          end
      | "" => Some (RuneError, 1%nat)
      end
  end.

Definition byte (n : N) : ascii := ascii_of_N n.

(** [utf8.AppendRune] for a scalar value. *)
Definition EncodeRune (r : N) : string :=
  if r <? 128 then String (byte r) ""
  else if r <? 2048 then
    String (byte (192 + r / 64)) (String (byte (128 + r mod 64)) "")
  else if r <? 65536 then
    String (byte (224 + r / 4096))
      (String (byte (128 + (r / 64) mod 64)) (String (byte (128 + r mod 64)) ""))
  else
    String (byte (240 + r / 262144))
      (String (byte (128 + (r / 4096) mod 64))
        (String (byte (128 + (r / 64) mod 64)) (String (byte (128 + r mod 64)) ""))).

(** The runes of a string, as [for _, r := range s] and [regexp] see it. *)
Fixpoint runes_go (fuel : nat) (s : string) : list N :=
  match fuel with
  | O => []
  | S fuel' =>
      match DecodeRune s with
      | None => []
      | Some (r, n) => r :: runes_go fuel' (drop_str n s)
      end
  end.

Definition runes (s : string) : list N := runes_go (String.length s) s.

(** Replace each invalid byte by U+FFFD, as [encoding/json] does. *)
Definition sanitize (s : string) : string :=
  fold_right (fun r acc => EncodeRune r +:+ acc) "" (runes s).

Lemma DecodeRune_ascii c s :
  is_ascii c = true -> DecodeRune (String c s) = Some (code c, 1%nat).
Proof. unfold is_ascii. intros Hc. simpl. by rewrite Hc. Qed.

(** On ASCII text runes are bytes. *)
Lemma runes_ascii s :
  all_bytes is_ascii s = true -> runes s = map code (String.list_ascii_of_string s).
Proof.
  unfold runes. induction s as [|c s IH]; [done|].
  cbn [all_bytes String.length String.list_ascii_of_string map].
  intros [Hc Hs]%andb_true_iff. cbn [runes_go].
  rewrite (DecodeRune_ascii c s Hc). cbn [drop_str]. by rewrite IH.
Qed.

Lemma sanitize_ascii s : all_bytes is_ascii s = true -> sanitize s = s.
Proof.
  intros Hs. unfold sanitize. rewrite (runes_ascii s Hs).
  induction s as [|c s IH]; [done|]. cbn [all_bytes] in Hs.
  apply andb_true_iff in Hs as [Hc Hs].
  cbn [String.list_ascii_of_string map fold_right]. rewrite IH by done.
  unfold is_ascii in Hc. unfold EncodeRune. rewrite Hc.
  unfold byte, code. rewrite ascii_N_embedding. reflexivity.
Qed.

End Utf8.

(** ** Base64, URL alphabet, no padding *)

Module Base64.

Definition b64_char (n : N) : ascii :=
  ascii_of_N (if n <? 26 then 65 + n
              else if n <? 52 then 97 + (n - 26)
              else if n <? 62 then 48 + (n - 52)
              else if n =? 62 then 45 else 95).

Definition b64_val (c : ascii) : option N :=
  let n := code c in
  if Utf8.in_range 65 90 n then Some (n - 65)
  else if Utf8.in_range 97 122 n then Some (n - 97 + 26)
  else if Utf8.in_range 48 57 n then Some (n - 48 + 52)
  else if n =? 45 then Some 62
  else if n =? 95 then Some 63
  else None.

(** [base64.RawURLEncoding.EncodeToString]. *)
Fixpoint EncodeToString (s : string) : string :=
  match s with
  | "" => ""
  | String a "" =>
      let v := code a in
      String (b64_char (v / 4)) (String (b64_char (v mod 4 * 16)) "")
  | String a (String b "") =>
      let v := code a * 256 + code b in
      String (b64_char (v / 1024)) (String (b64_char (v / 16 mod 64))
        (String (b64_char (v mod 16 * 4)) ""))
  | String a (String b (String c s')) =>
      let v := code a * 65536 + code b * 256 + code c in
      String (b64_char (v / 262144)) (String (b64_char (v / 4096 mod 64))
        (String (b64_char (v / 64 mod 64)) (String (b64_char (v mod 64))
          (EncodeToString s'))))
  end.

(** The decoder skips CR and LF anywhere in its input. *)
Fixpoint skip_newlines (s : string) : string :=
  match s with
  | "" => ""
  | String c s' =>
      if (code c =? 13) || (code c =? 10) then skip_newlines s'
      else String c (skip_newlines s')
  end.

Definition byte (n : N) : ascii := ascii_of_N (n mod 256).

Fixpoint decode_quanta (s : string) : option string :=
  match s with
  | "" => Some ""
  | String a s1 =>
      match b64_val a, s1 with
      | Some va, String b s2 =>
          match b64_val b, s2 with
          | Some vb, "" => Some (String (byte ((va * 64 + vb) / 16)) "")
          | Some vb, String c s3 =>
              match b64_val c, s3 with
              | Some vc, "" =>
                  let v := (va * 4096 + vb * 64 + vc) / 4 in
                  Some (String (byte (v / 256)) (String (byte v) ""))
              | Some vc, String d s4 =>
                  match b64_val d, decode_quanta s4 with
                  | Some vd, Some rest =>
                      let v := va * 262144 + vb * 4096 + vc * 64 + vd in
                      Some (String (byte (v / 65536)) (String (byte (v / 256))
                              (String (byte v) rest)))
                  | _, _ => None
                  end
              | None, _ => None
              end
          | None, _ => None
          end
      | _, _ => None
      end
  end.

(** [base64.RawURLEncoding.DecodeString]: [None] is an error. *)
Definition DecodeString (s : string) : option string := decode_quanta (skip_newlines s).

Lemma b64_val_char n : n < 64 -> b64_val (b64_char n) = Some n.
Proof.
  intros Hn.
  assert (Hall : forallb (fun n => bool_decide (b64_val (b64_char n) = Some n))
                   (map N.of_nat (seq 0 64)) = true) by by vm_compute.
  rewrite forallb_forall in Hall. eapply bool_decide_eq_true_1, Hall.
  apply in_map_iff. exists (N.to_nat n). rewrite N2Nat.id. split; [done|].
  apply in_seq. lia.
Qed.

Lemma b64_char_printable n :
  n < 64 -> (code (b64_char n) =? 13) || (code (b64_char n) =? 10) = false.
Proof.
  intros Hn.
  assert (Hall : forallb (fun n => negb ((code (b64_char n) =? 13) ||
                   (code (b64_char n) =? 10))) (map N.of_nat (seq 0 64)) = true)
    by by vm_compute.
  rewrite forallb_forall in Hall. apply negb_true_iff, Hall.
  apply in_map_iff. exists (N.to_nat n). rewrite N2Nat.id. split; [done|].
  apply in_seq. lia.
Qed.

Lemma byte_id c n : n mod 256 = code c -> byte n = c.
Proof. intros H. unfold byte. rewrite H. apply ascii_N_embedding. Qed.

Lemma code_bound c : code c < 256.
Proof. apply N_ascii_bounded. Qed.

Ltac n_arith := zify; Z.to_euclidean_division_equations; lia.

(** Three-at-a-time induction on strings, the shape of both functions. *)
Lemma string_ind3 (P : string -> Prop) :
  P "" -> (forall a, P (String a "")) -> (forall a b, P (String a (String b ""))) ->
  (forall a b c s, P s -> P (String a (String b (String c s)))) -> forall s, P s.
Proof.
  intros H0 H1 H2 H3 s.
  assert (Hn : forall n s, (String.length s <= n)%nat -> P s).
  { induction n as [|n IH]; intros [|a [|b [|c t]]] Hl; simpl in Hl; auto; try lia.
    apply H3, IH. lia. }
  by apply (Hn (String.length s)).
Qed.

Lemma skip_newlines_encode s : skip_newlines (EncodeToString s) = EncodeToString s.
Proof.
  induction s as [|a|a b|a b c s IH] using string_ind3; [done|..];
    cbn [EncodeToString skip_newlines];
    try pose proof (code_bound a); try pose proof (code_bound b);
    try pose proof (code_bound c);
    rewrite !b64_char_printable by n_arith; rewrite ?IH; reflexivity.
Qed.

Lemma decode_quanta_encode s : decode_quanta (EncodeToString s) = Some s.
Proof.
  induction s as [|a|a b|a b c s IH] using string_ind3; [done|..];
    cbn [EncodeToString decode_quanta].
  - pose proof (code_bound a).
    rewrite !b64_val_char by n_arith.
    f_equal. f_equal. apply byte_id. n_arith.
  - pose proof (code_bound a). pose proof (code_bound b).
    rewrite !b64_val_char by n_arith.
    f_equal. f_equal; [apply byte_id; n_arith|]. f_equal. apply byte_id. n_arith.
  - pose proof (code_bound a). pose proof (code_bound b). pose proof (code_bound c).
    rewrite !b64_val_char by n_arith. rewrite IH.
    do 2 f_equal; [apply byte_id; n_arith|].
    f_equal; [apply byte_id; n_arith|]. f_equal. apply byte_id. n_arith.
Qed.

(** Decoding what was encoded gives the bytes back. *)
Lemma DecodeString_EncodeToString s : DecodeString (EncodeToString s) = Some s.
Proof. unfold DecodeString. rewrite skip_newlines_encode. apply decode_quanta_encode. Qed.

(** The encoder only emits alphabet characters. *)
Definition is_b64 (c : ascii) : bool := match b64_val c with Some _ => true | None => false end.

Lemma EncodeToString_alphabet s : all_bytes is_b64 (EncodeToString s) = true.
Proof.
  assert (Hc : forall n, n < 64 -> is_b64 (b64_char n) = true).
  { intros n Hn. unfold is_b64. by rewrite b64_val_char. }
  induction s as [|a|a b|a b c s IH] using string_ind3; [done|..];
    cbn [EncodeToString all_bytes]; rewrite ?IH;
    try pose proof (code_bound a); try pose proof (code_bound b);
    try pose proof (code_bound c); rewrite !Hc by n_arith; done.
Qed.

Lemma EncodeToString_nonempty s : s <> "" -> EncodeToString s <> "".
Proof. by destruct s as [|a [|b [|c s]]]. Qed.

End Base64.
