(* ===== verification/Json.v ===== *)
(** * The parts of Go's [encoding/json] the program relies on

    Values decoded into [any] with [UseNumber], the scanner's grammar, strict
    whole-input decoding ([json.Unmarshal]), prefix decoding
    ([json.NewDecoder(r).Decode]), typed targets, and the encoder. *)

From S2P Require Import Prelude GoStrings Encoding.
From stdpp Require Import options.

(** ** Values *)

(** A JSON text, and also a value decoded into [any] with [UseNumber] (numbers
    keep their literal).  The scanner lists the members of an object in document
    order, duplicates included; [to_any] turns them into a map, an association
    list with distinct keys. *)
#[warnings="-register-all"]
Inductive json :=
  | JNull
  | JBool (b : bool)
  | JNum (lit : string)
  | JStr (s : string)
  | JArr (l : list json)
  | JObj (fs : list (string * json)).

Section json_ind.
Context (P : json -> Prop).
Context (Hnull : P JNull) (Hbool : forall b, P (JBool b)).
Context (Hnum : forall l, P (JNum l)) (Hstr : forall s, P (JStr s)).
Context (Harr : forall l, Forall P l -> P (JArr l)).
Context (Hobj : forall fs, Forall (fun kv => P (snd kv)) fs -> P (JObj fs)).

Fixpoint json_ind' (j : json) : P j :=
  match j with
  | JNull => Hnull
  | JBool b => Hbool b
  | JNum l => Hnum l
  | JStr s => Hstr s
  | JArr l => Harr l ((fix go l := match l return Forall P l with
      | [] => Forall_nil_2 P
      | x :: l' => Forall_cons_2 P x l' (json_ind' x) (go l') end) l)
  | JObj fs => Hobj fs ((fix go fs := match fs return Forall (fun kv => P (snd kv)) fs with
      | [] => Forall_nil_2 _
      | x :: fs' => Forall_cons_2 _ x fs' (json_ind' (snd x)) (go fs') end) fs)
  end.
End json_ind.

(** [v, ok := obj[key]] when [obj] holds a JSON object. *)
Definition obj_get (key : string) (j : json) : option json :=
  match j with JObj fs => assoc key fs | _ => None end.

(** ** Scanning *)

Definition quote : ascii := "034".

Definition is_ws (c : ascii) : bool :=
  existsb (fun n => N.eqb (code c) n) [32; 9; 13; 10]%N.

Fixpoint skip_ws (s : string) : string :=
  match s with
  | "" => ""
  | String c s' => if is_ws c then skip_ws s' else s
  end.

Definition is_digit (c : ascii) : bool := Utf8.in_range 48 57 (code c).

Definition hex_val (c : ascii) : option N :=
  let n := code c in
  if Utf8.in_range 48 57 n then Some (n - 48)%N
  else if Utf8.in_range 97 102 n then Some (n - 87)%N
  else if Utf8.in_range 65 70 n then Some (n - 55)%N
  else None.

Definition hex4 (a b c d : ascii) : option N :=
  match hex_val a, hex_val b, hex_val c, hex_val d with
  | Some x, Some y, Some z, Some w => Some (((x * 16 + y) * 16 + z) * 16 + w)%N
  | _, _, _, _ => None
  end.

Definition is_surrogate (r : N) : bool := Utf8.in_range 55296 57343 r.

(** [utf16.DecodeRune]: the code point of a surrogate pair. *)
Definition surrogate_pair (r1 r2 : N) : option N :=
  if Utf8.in_range 55296 56319 r1 && Utf8.in_range 56320 57343 r2
  then Some ((r1 - 55296) * 1024 + (r2 - 56320) + 65536)%N else None.

Definition simple_escape (c : ascii) : option ascii :=
  if c =c? quote then Some quote
  else if c =c? "\" then Some "\"%char
  else if c =c? "/" then Some "/"%char
  else if c =c? "b" then Some "008"%char
  else if c =c? "f" then Some "012"%char
  else if c =c? "n" then Some "010"%char
  else if c =c? "r" then Some "013"%char
  else if c =c? "t" then Some "009"%char
  else None.

Definition cons_res (p : string) (r : option (string * string)) : option (string * string) :=
  match r with Some (t, rest) => Some (p +:+ t, rest) | None => None end.

(** The body of a string literal after its opening quote: the unescaped bytes
    and the input after the closing quote. *)
Fixpoint scan_string (s : string) : option (string * string) :=
  match s with
  | "" => None
  | String c s1 =>
      if c =c? quote then Some ("", s1)
      else if N.ltb (code c) 32 then None
      else if c =c? "\" then
        match s1 with
        | String "u" (String a (String b (String x (String d s2)))) =>
            match hex4 a b x d with
            | None => None
            | Some r =>
                if is_surrogate r then
                  match s2 with
                  | String "\" (String "u" (String a' (String b' (String x' (String d' s3))))) =>
                      match hex4 a' b' x' d' with
                      | None => None
                      | Some r' =>
                          match surrogate_pair r r' with
                          | Some cp => cons_res (Utf8.EncodeRune cp) (scan_string s3)
                          | None => cons_res (Utf8.EncodeRune Utf8.RuneError) (scan_string s2)
                          end
                      end
                  | _ => cons_res (Utf8.EncodeRune Utf8.RuneError) (scan_string s2)
                  end
                else cons_res (Utf8.EncodeRune r) (scan_string s2)
            end
        | String e s2 =>
            match simple_escape e with
            | Some d => cons_res (String d "") (scan_string s2)
            | None => None
            end
        | "" => None
        end
      else cons_res (String c "") (scan_string s1)
  end.

(** Unquoting also replaces invalid UTF-8 (the two passes commute: an escape
    always yields a complete encoding). *)
Definition parse_string (s : string) : option (string * string) :=
  match scan_string s with
  | Some (t, rest) => Some (Utf8.sanitize t, rest)
  | None => None
  end.

Fixpoint take_digits (s : string) : string * string :=
  match s with
  | String c s' => if is_digit c then let '(d, r) := take_digits s' in (String c d, r)
                   else ("", s)
  | "" => ("", "")
  end.

(** A number literal: optional minus, [0] or digits without a leading zero,
    optional fraction, optional exponent. *)
Definition scan_number (s : string) : option (string * string) :=
  let '(sign, s1) := match s with String "-" r => ("-", r) | _ => ("", s) end in
  let int_part :=
    match s1 with
    | String "0" r => Some ("0", r)
    | _ => match take_digits s1 with ("", _) => None | p => Some p end
    end in
  match int_part with
  | None => None
  | Some (i, s2) =>
      let frac :=
        match s2 with
        | String "." r => match take_digits r with
                          | ("", _) => None
                          | (d, r') => Some ("." +:+ d, r') end
        | _ => Some ("", s2)
        end in
      match frac with
      | None => None
      | Some (f, s3) =>
          let expo :=
            match s3 with
            | String e r =>
                if (e =c? "e") || (e =c? "E") then
                  let '(sg, r1) := match r with
                    | String "+" r' => ("+", r') | String "-" r' => ("-", r')
                    | _ => ("", r) end in
                  match take_digits r1 with
                  | ("", _) => None
                  | (d, r2) => Some (String e (sg +:+ d), r2)
                  end
                else Some ("", s3)
            | "" => Some ("", s3)
            end in
          match expo with
          | None => None
          | Some (x, rest) => Some (sign +:+ i +:+ f +:+ x, rest)
          end
      end
  end.

(** The scanner's nesting limit, [maxNestingDepth]. *)
Definition max_depth : N := 10000.

(** One value: the value and the unread input.  The fuel bounds the recursion
    depth; [parse_fuel] is enough for every input. *)
Fixpoint parse_value (fuel : nat) (depth : N) (s : string) : option (json * string) :=
  match fuel with
  | O => None
  | S fuel' =>
      match skip_ws s with
      | "" => None
      | String c s1 =>
          if c =c? "{" then
            if N.leb max_depth depth then None else
            match skip_ws s1 with
            | String "}" r => Some (JObj [], r)
            | r => parse_members fuel' (N.succ depth) [] r
            end
          else if c =c? "[" then
            if N.leb max_depth depth then None else
            match skip_ws s1 with
            | String "]" r => Some (JArr [], r)
            | r => parse_elements fuel' (N.succ depth) [] r
            end
          else if c =c? quote then
            match parse_string s1 with Some (t, r) => Some (JStr t, r) | None => None end
          else if HasPrefix (String c s1) "true" then Some (JBool true, drop_str 4 (String c s1))
          else if HasPrefix (String c s1) "false" then Some (JBool false, drop_str 5 (String c s1))
          else if HasPrefix (String c s1) "null" then Some (JNull, drop_str 4 (String c s1))
          else match scan_number (String c s1) with
               | Some (l, r) => Some (JNum l, r)
               | None => None
               end
      end
  end
with parse_members (fuel : nat) (depth : N) (acc : list (string * json)) (s : string)
    : option (json * string) :=
  match fuel with
  | O => None
  | S fuel' =>
      match s with
      | String c s1 =>
          if c =c? quote then
            match parse_string s1 with
            | None => None
            | Some (k, s2) =>
                match skip_ws s2 with
                | String ":" s3 =>
                    match parse_value fuel' depth s3 with
                    | None => None
                    | Some (v, s4) =>
                        let acc' := acc ++ [(k, v)] in
                        match skip_ws s4 with
                        | String "," s5 => parse_members fuel' depth acc' (skip_ws s5)
                        | String "}" s5 => Some (JObj acc', s5)
                        | _ => None
                        end
                    end
                | _ => None
                end
            end
          else None
      | "" => None
      end
  end
with parse_elements (fuel : nat) (depth : N) (acc : list json) (s : string)
    : option (json * string) :=
  match fuel with
  | O => None
  | S fuel' =>
      match parse_value fuel' depth s with
      | None => None
      | Some (v, s1) =>
          match skip_ws s1 with
          | String "," s2 => parse_elements fuel' depth (acc ++ [v]) s2
          | String "]" s2 => Some (JArr (acc ++ [v]), s2)
          | _ => None
          end
      end
  end.

Definition parse_fuel (s : string) : nat := 2 * String.length s + 2.

(** Go's [m[key] = value] for each member in turn: the last duplicate wins. *)
Definition dedup {A} (fs : list (string * A)) : list (string * A) :=
  fold_left (fun acc '(k, v) => assoc_set k v acc) fs [].

Fixpoint to_any (j : json) : json :=
  match j with
  | JArr l => JArr (map to_any l)
  | JObj fs => JObj (dedup (map (fun '(k, v) => (k, to_any v)) fs))
  | _ => j
  end.

(** The first value of the input and what follows it. *)
Definition parse_prefix (s : string) : option (json * string) :=
  parse_value (parse_fuel s) 0 s.

(** Exactly one value, as [json.Unmarshal] requires. *)
Definition parse_all (s : string) : option json :=
  match parse_prefix s with
  | Some (v, rest) => if skip_ws rest =s? "" then Some v else None
  | None => None
  end.

(** [json.NewDecoder(r).Decode(&v)] with [v any] and [UseNumber]: the first
    value of the input; what follows it is not looked at. *)
Definition Decode (s : string) : option json :=
  match parse_prefix s with Some (v, _) => Some (to_any v) | None => None end.

(** [json.Unmarshal(s, &v)] with [v any]. *)
Definition Unmarshal (s : string) : option json := option_map to_any (parse_all s).

(** A JSON text with ['] standing for the double quote, for examples. *)
Definition jtext (s : string) : string :=
  map_bytes (fun c => if c =c? "'" then quote else c) s.

Example unmarshal_ex :
  Unmarshal (jtext "{'a':[1,-2.5e3, true],'b': null, 'a':'x'}") =
  Some (JObj [("a", JStr "x"); ("b", JNull)]).
Proof. reflexivity. Qed.

(** ** Typed targets

    [json.Unmarshal] into a fresh variable.  [null] leaves the zero value of a
    string, bool or number and the nil pointer of a pointer target; [None] is
    an error. *)

Definition as_string (j : json) : option string :=
  match j with JStr s => Some s | JNull => Some "" | _ => None end.

Definition as_string_ptr (j : json) : option (option string) :=
  match j with JStr s => Some (Some s) | JNull => Some None | _ => None end.

Definition as_int64_ptr (j : json) : option (option Z) :=
  match j with
  | JNum l => match ParseInt l with Some n => Some (Some n) | None => None end
  | JNull => Some None
  | _ => None
  end.

Definition as_bool (j : json) : option bool :=
  match j with JBool b => Some b | JNull => Some false | _ => None end.

Definition is_valid_number (s : string) : bool :=
  match scan_number s with Some (_, "") => true | _ => false end.

(** A [json.Number] target: a number literal or a string holding one. *)
Definition as_Number (j : json) : option string :=
  match j with
  | JNum l => Some l
  | JStr s => if is_valid_number s then Some s else None
  | JNull => Some ""
  | _ => None
  end.

(** A [[]string] target: the slice as left in the variable, and success.  An
    element of another type is left as the zero value and reported at the end. *)
Definition as_strings (j : json) : list string * bool :=
  match j with
  | JArr l => (map (fun e => default "" (as_string e)) l,
               forallb (fun e => match as_string e with Some _ => true | None => false end) l)
  | JNull => ([], true)
  | _ => ([], false)
  end.

(** [foldName]: object keys match struct fields case-insensitively; U+212A and
    U+017F are the only non-ASCII runes that fold to an ASCII letter. *)
Fixpoint fold_name (s : string) : string :=
  match s with
  | "" => ""
  | String c s1 =>
      match s1 with
      | String d s2 =>
          if N.eqb (code c) 197 && N.eqb (code d) 191 then String "S" (fold_name s2) else
          match s2 with
          | String e s3 =>
              if N.eqb (code c) 226 && N.eqb (code d) 132 && N.eqb (code e) 170
              then String "K" (fold_name s3)
              else String (upper_byte c) (fold_name s1)
          | "" => String (upper_byte c) (fold_name s1)
          end
      | "" => String (upper_byte c) ""
      end
  end.

Definition field_matches (field key : string) : bool := fold_name key =s? fold_name field.

(** A string field of a struct target, filled from the members in document
    order: its final value and whether every matching member had a usable type. *)
Definition string_field (field : string) (fs : list (string * json)) : string * bool :=
  fold_left (fun '(cur, ok) '(k, v) =>
    if field_matches field k then
      match v with JStr s => (s, ok) | JNull => (cur, ok) | _ => (cur, false) end
    else (cur, ok)) fs ("", true).

Definition int64_field (field : string) (fs : list (string * json)) : Z * bool :=
  fold_left (fun '(cur, ok) '(k, v) =>
    if field_matches field k then
      match v with
      | JNum l => match ParseInt l with Some n => (n, ok) | None => (cur, false) end
      | JNull => (cur, ok)
      | _ => (cur, false)
      end
    else (cur, ok)) fs (0%Z, true).

(** ** Raw members *)

Definition raw_text (s rest : string) : string :=
  take_str (String.length s - String.length rest) s.

(** The members of an object after its opening brace, in document order, each
    value as its raw text ([json.RawMessage]), and the unread input. *)
Fixpoint raw_members (fuel : nat) (depth : N) (acc : list (string * string)) (s : string)
    : option (list (string * string) * string) :=
  match fuel with
  | O => None
  | S fuel' =>
      match s with
      | String c s1 =>
          if c =c? quote then
            match parse_string s1 with
            | None => None
            | Some (k, s2) =>
                match skip_ws s2 with
                | String ":" s3 =>
                    match parse_value (parse_fuel s3) depth s3 with
                    | None => None
                    | Some (_, s4) =>
                        let acc' := acc ++ [(k, raw_text (skip_ws s3) s4)] in
                        match skip_ws s4 with
                        | String "," s5 => raw_members fuel' depth acc' (skip_ws s5)
                        | String "}" s5 => Some (acc', s5)
                        | _ => None
                        end
                    end
                | _ => None
                end
            end
          else None
      | "" => None
      end
  end.

(** The object at the start of the input as raw members; [depth] is the nesting
    the scanner has already counted when it reads the values. *)
Definition raw_object (depth : N) (s : string) : option (list (string * string) * string) :=
  match skip_ws s with
  | String "{" s1 =>
      match skip_ws s1 with
      | String "}" r => Some ([], r)
      | r => raw_members (String.length s) depth [] r
      end
  | _ => None
  end.

(** [json.Unmarshal(s, &obj)] with [obj map[string]json.RawMessage]; [null]
    gives the nil map. *)
Definition UnmarshalRawMap (s : string) : option (list (string * string)) :=
  match parse_all s with
  | Some JNull => Some []
  | Some (JObj _) => match raw_object 1 s with
                     | Some (ms, _) => Some (dedup ms)
                     | None => None
                     end
  | _ => None
  end.

(** [json.Unmarshal(raw, &x)] for a typed [x]. *)
Definition unmarshal_as {A} (conv : json -> option A) (raw : string) : option A :=
  match parse_all raw with Some v => conv v | None => None end.

(** ** Encoding *)

Definition hex_digit (n : N) : ascii :=
  ascii_of_N (if N.ltb n 10 then 48 + n else 87 + n)%N.

Definition u00 (n : N) : string :=
  "\u00" +:+ String (hex_digit (n / 16)) (String (hex_digit (n mod 16)) "").

(** One rune inside a string literal, with HTML escaping on. *)
Definition escape_rune (r : N) : string :=
  if N.eqb r 34 then String "\" (String quote "")
  else if N.eqb r 92 then "\\"
  else if N.eqb r 8 then "\b"
  else if N.eqb r 12 then "\f"
  else if N.eqb r 10 then "\n"
  else if N.eqb r 13 then "\r"
  else if N.eqb r 9 then "\t"
  else if N.ltb r 32 || N.eqb r 60 || N.eqb r 62 || N.eqb r 38 then u00 r
  else if N.eqb r 8232 then "\u2028"
  else if N.eqb r 8233 then "\u2029"
  else Utf8.EncodeRune r.

(** A string literal.  [unicode/utf8] decodes an invalid byte to U+FFFD; the
    encoder writes it as an escape and a genuine U+FFFD as itself. *)
Fixpoint escape_go (fuel : nat) (s : string) : string :=
  match fuel with
  | O => ""
  | S fuel' =>
      match Utf8.DecodeRune s with
      | None => ""
      | Some (r, n) =>
          (if N.eqb r Utf8.RuneError && Nat.eqb n 1 then "\ufffd" else escape_rune r)
          +:+ escape_go fuel' (drop_str n s)
      end
  end.

Definition marshal_string (s : string) : string :=
  String quote (escape_go (String.length s) s) +:+ String quote "".

Fixpoint insert_key {A} (kv : string * A) (l : list (string * A)) : list (string * A) :=
  match l with
  | [] => [kv]
  | kv' :: l' => if str_lt (fst kv) (fst kv') then kv :: l else kv' :: insert_key kv l'
  end.

Definition sort_keys {A} (l : list (string * A)) : list (string * A) :=
  fold_right insert_key [] l.

(** The members of an object, each value already encoded, in the given order. *)
Definition field_text (kt : string * string) : string :=
  marshal_string (fst kt) +:+ ":" +:+ snd kt.

Definition marshal_fields (fs : list (string * string)) : string :=
  "{" +:+ Join (map field_text fs) "," +:+ "}".

(** [json.Marshal] of an [any] value: map keys in byte order. *)
Fixpoint Marshal (j : json) : string :=
  match j with
  | JNull => "null"
  | JBool true => "true"
  | JBool false => "false"
  | JNum l => if l =s? "" then "0" else l
  | JStr s => marshal_string s
  | JArr l => "[" +:+ Join (map Marshal l) "," +:+ "]"
  | JObj fs => marshal_fields (sort_keys (map (fun '(k, v) => (k, Marshal v)) fs))
  end.

Example marshal_ex :
  Marshal (JObj [("b", JArr [JNum "1"; JStr "<x>"]); ("a", JObj [])]) =
  jtext "{'a':{},'b':[1,'\u003cx\u003e']}".
Proof. reflexivity. Qed.

Example raw_ex :
  UnmarshalRawMap (jtext " {'a' : [1, 2 ] , 'b':{} ,'a': 'q'} ") =
  Some [("a", jtext "'q'"); ("b", "{}")].
Proof. reflexivity. Qed.
