(* ===== verification/JsonFacts.v ===== *)
(** * Facts about the JSON scanner and encoder

    The fuel of the scanner is enough for every input ([parse_value_fuel]), and
    an encoded value is read back ([parse_marshal_string], [scan_number_Itoa]). *)

From S2P Require Import Prelude GoStrings Encoding Json.
From Stdlib Require Import DecimalString DecimalN DecimalPos DecimalFacts.
From stdpp Require Import options.

(** ** Every scanned piece consumes input *)

Abbreviation slen := String.length.

Lemma cons_res_Some p r t rest :
  cons_res p r = Some (t, rest) -> exists t', r = Some (t', rest) /\ t = p +:+ t'.
Proof. destruct r as [[t' r']|]; simpl; [|done]. intros [= <- <-]. by exists t'. Qed.

Lemma skip_ws_len s : slen (skip_ws s) <= slen s.
Proof. induction s as [|c s IH]; simpl; [lia|]. destruct (is_ws c); simpl; lia. Qed.

Lemma skip_ws_cons c s s' : skip_ws s = String c s' -> slen s' < slen s.
Proof. intros H. pose proof (skip_ws_len s) as Hl. rewrite H in Hl. simpl in Hl. lia. Qed.

Ltac cons_res_inv :=
  repeat match goal with
  | H : cons_res _ _ = Some (_, _) |- _ =>
      apply cons_res_Some in H as (? & ? & ?)
  end.

Lemma scan_string_len n s t rest :
  slen s <= n -> scan_string s = Some (t, rest) -> slen rest < slen s.
Proof.
  revert s t rest. induction n as [|n IH]; intros s t rest Hn H.
  { destruct s; simpl in *; [done|lia]. }
  assert (IH' : forall s0 k t0 r0, scan_string s0 = Some (t0, r0) ->
            slen s0 + k < slen s -> slen r0 < slen s).
  { intros s0 k t0 r0 Hs Hk. apply IH in Hs; lia. }
  destruct s as [|c s1]; [done|]. cbn [scan_string] in H.
  destruct (c =c? quote); [injection H as <- <-; simpl; lia|].
  destruct (N.ltb (code c) 32); [done|].
  destruct (c =c? "\").
  - repeat case_match; try discriminate; cons_res_inv;
      match goal with
      | Hs : scan_string _ = Some _ |- _ => apply (IH' _ 0) in Hs; simpl in *; lia
      end.
  - apply cons_res_Some in H as (t' & H & _). apply (IH' _ 0) in H; simpl in *; lia.
Qed.

Lemma parse_string_len s t rest : parse_string s = Some (t, rest) -> slen rest < slen s.
Proof.
  unfold parse_string. destruct (scan_string s) as [[t' r]|] eqn:Hs; [|done].
  intros [= _ <-]. by eapply scan_string_len.
Qed.

Lemma take_digits_len s d r : take_digits s = (d, r) -> slen r + slen d = slen s.
Proof.
  revert d r. induction s as [|c s IH]; simpl; intros d r H; [by injection H as <- <-|].
  destruct (is_digit c).
  - destruct (take_digits s) as [d' r'] eqn:Ht. injection H as <- <-.
    specialize (IH _ _ eq_refl). simpl. lia.
  - injection H as <- <-. simpl. lia.
Qed.

Lemma scan_number_len s l rest : scan_number s = Some (l, rest) -> slen rest < slen s.
Proof.
  unfold scan_number.
  set (sg := match s with String "-" r => ("-", r) | _ => ("", s) end).
  assert (Hsg : slen (snd sg) <= slen s).
  { subst sg. repeat case_match; simpl; lia. }
  destruct sg as [sign s1]. simpl in Hsg.
  set (ip := match s1 with String "0" r => Some ("0", r) | _ =>
    match take_digits s1 with ("", _) => None | p => Some p end end).
  assert (Hip : forall i s2, ip = Some (i, s2) -> slen s2 < slen s1).
  { subst ip. intros i s2 Hi.
    destruct (take_digits s1) as [d r] eqn:Ht. apply take_digits_len in Ht.
    repeat case_match; simplify_eq; simpl in *; lia. }
  destruct ip as [[i s2]|]; [|done]. specialize (Hip i s2 eq_refl).
  set (fr := match s2 with String "." r => match take_digits r with ("", _) => None
    | (d, r') => Some ("." +:+ d, r') end | _ => Some ("", s2) end).
  assert (Hfr : forall f s3, fr = Some (f, s3) -> slen s3 <= slen s2).
  { subst fr. intros f s3 Hf.
    repeat case_match; simplify_eq; simpl in *; try lia;
      match goal with H : take_digits _ = _ |- _ => apply take_digits_len in H end;
      simpl in *; lia. }
  destruct fr as [[f s3]|]; [|done]. specialize (Hfr f s3 eq_refl).
  clear -Hsg Hip Hfr. intros H.
  assert (Hex : slen rest <= slen s3); [|lia].
  destruct s3 as [|e r]; [injection H as _ <-; simpl; lia|].
  destruct ((e =c? "e") || (e =c? "E")).
  - set (sr := match r with String "+" r' => ("+", r') | String "-" r' => ("-", r')
      | _ => ("", r) end) in H.
    assert (Hsr : slen (snd sr) <= slen r) by (clear H; subst sr; repeat case_match; simpl; lia).
    destruct sr as [sg r1]. simpl in Hsr.
    destruct (take_digits r1) as [d r2] eqn:Ht. apply take_digits_len in Ht.
    destruct d; [done|]. injection H as _ <-. simpl in *. lia.
  - injection H as _ <-. lia.
Qed.

Lemma drop_str_len n s : slen (drop_str n s) = slen s - n.
Proof. apply str_length_drop. Qed.

(** ** Fuel *)

(** A successful parse consumes input, whatever it returns. *)
Lemma parse_len fuel :
  (forall d s v r, parse_value fuel d s = Some (v, r) -> slen r < slen s) /\
  (forall d acc s v r, parse_members fuel d acc s = Some (v, r) -> slen r < slen s) /\
  (forall d acc s v r, parse_elements fuel d acc s = Some (v, r) -> slen r < slen s).
Proof.
  induction fuel as [|fuel (IHv & IHm & IHe)]; [by split_and!|]. split_and!.
  - intros d s v r. cbn [parse_value]. destruct (skip_ws s) as [|c s1] eqn:Hs; [done|].
    apply skip_ws_cons in Hs as Hl. pose proof (skip_ws_len s) as Hw. rewrite Hs in Hw.
    pose proof (skip_ws_len s1) as Hw1.
    assert (Hobj : forall s2, slen s2 <= slen s1 -> forall acc,
              parse_members fuel (N.succ d) acc s2 = Some (v, r) -> slen r < slen s)
      by (intros s2 ? acc ?%IHm; lia).
    assert (Harr : forall s2, slen s2 <= slen s1 -> forall acc,
              parse_elements fuel (N.succ d) acc s2 = Some (v, r) -> slen r < slen s)
      by (intros s2 ? acc ?%IHe; lia).
    destruct (c =c? "{").
    { destruct (N.leb max_depth d); [done|]. intros H.
      destruct (skip_ws s1) as [|c' s2] eqn:Hs1; [by eapply Hobj in H|].
      destruct (decide (c' = "}"%char)) as [->|Hne]; [injection H as _ <-; simpl in *; lia|].
      eapply (Hobj (String c' s2)); [done|].
      destruct c' as [[] [] [] [] [] [] [] []]; try exact H; done. }
    destruct (c =c? "[").
    { destruct (N.leb max_depth d); [done|]. intros H.
      destruct (skip_ws s1) as [|c' s2] eqn:Hs1; [by eapply Harr in H|].
      destruct (decide (c' = "]"%char)) as [->|Hne]; [injection H as _ <-; simpl in *; lia|].
      eapply (Harr (String c' s2)); [done|].
      destruct c' as [[] [] [] [] [] [] [] []]; try exact H; done. }
    destruct (c =c? quote).
    { destruct (parse_string s1) as [[t r']|] eqn:Hp; [|done].
      intros [= _ <-]. apply parse_string_len in Hp. lia. }
    destruct (HasPrefix _ "true").
    { intros [= _ <-]. pose proof (drop_str_len 3 s1). cbn [drop_str] in *. lia. }
    destruct (HasPrefix _ "false").
    { intros [= _ <-]. pose proof (drop_str_len 4 s1). cbn [drop_str] in *. lia. }
    destruct (HasPrefix _ "null").
    { intros [= _ <-]. pose proof (drop_str_len 3 s1). cbn [drop_str] in *. lia. }
    destruct (scan_number _) as [[l r']|] eqn:Hn; [|done].
    intros [= _ <-]. apply scan_number_len in Hn. lia.
  - intros d acc s v r. cbn [parse_members]. destruct s as [|c s1]; [done|].
    destruct (c =c? quote); [|done].
    destruct (parse_string s1) as [[k s2]|] eqn:Hp; [|done]. apply parse_string_len in Hp.
    destruct (skip_ws s2) as [|c2 s3] eqn:Hs2; [done|]. apply skip_ws_cons in Hs2.
    destruct (decide (c2 = ":"%char)) as [->|Hne].
    2: { destruct c2 as [[] [] [] [] [] [] [] []]; done. }
    destruct (parse_value fuel d s3) as [[v' s4]|] eqn:Hv; [|done]. apply IHv in Hv.
    destruct (skip_ws s4) as [|c4 s5] eqn:Hs4; [done|]. apply skip_ws_cons in Hs4.
    pose proof (skip_ws_len s5) as Hw5.
    destruct (decide (c4 = ","%char)) as [->|Hn1]; [intros H%IHm; simpl; lia|].
    destruct (decide (c4 = "}"%char)) as [->|Hn2]; [intros [= _ <-]; simpl; lia|].
    destruct c4 as [[] [] [] [] [] [] [] []]; done.
  - intros d acc s v r. cbn [parse_elements].
    destruct (parse_value fuel d s) as [[v' s1]|] eqn:Hv; [|done]. apply IHv in Hv.
    destruct (skip_ws s1) as [|c4 s5] eqn:Hs4; [done|]. apply skip_ws_cons in Hs4.
    destruct (decide (c4 = ","%char)) as [->|Hn1]; [intros H%IHe; lia|].
    destruct (decide (c4 = "]"%char)) as [->|Hn2]; [intros [= _ <-]; lia|].
    destruct c4 as [[] [] [] [] [] [] [] []]; done.
Qed.

(** With fuel proportional to the input the result no longer depends on it. *)
Lemma parse_agree f1 :
  (forall f2 d s, 2 * slen s + 1 <= f1 -> 2 * slen s + 1 <= f2 ->
     parse_value f1 d s = parse_value f2 d s) /\
  (forall f2 d acc s, 2 * slen s + 1 <= f1 -> 2 * slen s + 1 <= f2 ->
     parse_members f1 d acc s = parse_members f2 d acc s) /\
  (forall f2 d acc s, 2 * slen s + 2 <= f1 -> 2 * slen s + 2 <= f2 ->
     parse_elements f1 d acc s = parse_elements f2 d acc s).
Proof.
  induction f1 as [|f1 (IHv & IHm & IHe)]; [split_and!; intros; lia|].
  split_and!; intros [|f2]; try (intros; lia).
  - intros d s H1 H2. cbn [parse_value]. destruct (skip_ws s) as [|c s1] eqn:Hs; [done|].
    apply skip_ws_cons in Hs. pose proof (skip_ws_len s1) as Hw1.
    destruct (c =c? "{").
    { destruct (N.leb max_depth d); [done|].
      destruct (skip_ws s1) as [|c' s2]; [apply IHm; lia|].
      destruct c' as [[] [] [] [] [] [] [] []]; first [reflexivity|apply IHm; lia]. }
    destruct (c =c? "["); [|done].
    destruct (N.leb max_depth d); [done|].
    destruct (skip_ws s1) as [|c' s2]; [apply IHe; lia|].
    destruct c' as [[] [] [] [] [] [] [] []]; first [reflexivity|apply IHe; lia].
  - intros d acc s H1 H2. cbn [parse_members]. destruct s as [|c s1]; [done|].
    destruct (c =c? quote); [|done]. simpl in H1, H2.
    destruct (parse_string s1) as [[k s2]|] eqn:Hp; [|done]. apply parse_string_len in Hp.
    destruct (skip_ws s2) as [|c2 s3] eqn:Hs2; [done|]. apply skip_ws_cons in Hs2.
    destruct (decide (c2 = ":"%char)) as [->|Hne].
    2: { destruct c2 as [[] [] [] [] [] [] [] []]; done. }
    rewrite (IHv f2) by lia.
    destruct (parse_value f2 d s3) as [[v' s4]|] eqn:Hv; [|done].
    apply parse_len in Hv.
    destruct (skip_ws s4) as [|c4 s5] eqn:Hs4; [done|]. apply skip_ws_cons in Hs4.
    pose proof (skip_ws_len s5) as Hw5.
    destruct c4 as [[] [] [] [] [] [] [] []]; first [reflexivity|apply IHm; lia].
  - intros d acc s H1 H2. cbn [parse_elements]. rewrite (IHv f2) by lia.
    destruct (parse_value f2 d s) as [[v' s1]|] eqn:Hv; [|done]. apply parse_len in Hv.
    destruct (skip_ws s1) as [|c4 s5] eqn:Hs4; [done|]. apply skip_ws_cons in Hs4.
    destruct c4 as [[] [] [] [] [] [] [] []]; first [reflexivity|apply IHe; lia].
Qed.

Lemma parse_value_fuel f d s :
  parse_fuel s <= f -> parse_value f d s = parse_value (parse_fuel s) d s.
Proof. unfold parse_fuel. intros Hf. apply parse_agree; lia. Qed.

(** ** Reading back what the encoder wrote *)

Lemma ascii_DecodeRune c s :
  is_ascii c = true -> Utf8.DecodeRune (String c s) = Some (code c, 1).
Proof. apply Utf8.DecodeRune_ascii. Qed.

Lemma scan_escape_ascii c t :
  is_ascii c = true ->
  scan_string (escape_rune (code c) +:+ t) = cons_res (String c "") (scan_string t).
Proof.
  unfold is_ascii. intros Hc.
  destruct c as [[] [] [] [] [] [] [] []]; try discriminate Hc; reflexivity.
Qed.

Lemma scan_escape_go s t fuel :
  all_bytes is_ascii s = true -> slen s <= fuel ->
  scan_string (escape_go fuel s +:+ String quote t) = Some (s, t).
Proof.
  revert fuel. induction s as [|c s IH]; intros fuel Ha Hl; simpl in Ha.
  { by destruct fuel. }
  apply andb_true_iff in Ha as [Hc Ha]. destruct fuel as [|fuel]; [simpl in Hl; lia|].
  simpl in Hl. cbn [escape_go]. rewrite ascii_DecodeRune by done.
  cbn [drop_str].
  assert (Hne : N.eqb (code c) Utf8.RuneError = false).
  { apply N.eqb_neq. unfold is_ascii in Hc. apply N.ltb_lt in Hc. unfold Utf8.RuneError. lia. }
  rewrite Hne. cbn [andb]. cbv iota. rewrite str_app_assoc, scan_escape_ascii by done.
  change (drop_str 0 s) with s. rewrite IH by (done || lia). done.
Qed.

Lemma parse_marshal_string s t d fuel :
  all_bytes is_ascii s = true ->
  parse_value (S fuel) d (marshal_string s +:+ t) = Some (JStr s, t).
Proof.
  intros Ha. unfold marshal_string. rewrite str_app_assoc, str_app_cons.
  cbn [parse_value skip_ws]. change (is_ws quote) with false.
  change (quote =c? "{") with false. change (quote =c? "[") with false.
  change (quote =c? quote) with true. cbv iota. unfold parse_string.
  rewrite str_app_cons, str_app_nil_l, scan_escape_go by done.
  by rewrite Utf8.sanitize_ascii.
Qed.

(** *** Numbers *)

Lemma is_digit_uint u : all_bytes is_digit (NilZero.string_of_uint u) = true.
Proof.
  assert (Hnil : all_bytes is_digit (NilEmpty.string_of_uint u) = true)
    by (induction u; simpl; done).
  by destruct u.
Qed.

Definition not_digit_head (t : string) : bool :=
  match t with String c _ => negb (is_digit c) | "" => true end.

Lemma take_digits_app ds t :
  all_bytes is_digit ds = true -> not_digit_head t = true -> take_digits (ds +:+ t) = (ds, t).
Proof.
  intros Hd Ht. induction ds as [|c ds IH]; simpl in Hd.
  - rewrite str_app_nil_l. destruct t as [|c t]; [done|]. simpl in *.
    by destruct (is_digit c).
  - apply andb_true_iff in Hd as [Hc Hd]. rewrite str_app_cons. cbn [take_digits].
    by rewrite Hc, IH.
Qed.

(** A number in front of a comma or a closing brace or bracket. *)
Definition number_end (t : string) : bool :=
  match t with
  | String c _ => (c =c? ",") || (c =c? "}") || (c =c? "]")
  | "" => true
  end.

Lemma scan_number_tail sign i t :
  number_end t = true ->
  match (match t with
         | String "." r => match take_digits r with ("", _) => None
                           | (d, r') => Some ("." +:+ d, r') end
         | _ => Some ("", t)
         end) with
  | None => None
  | Some (f, s3) =>
      match (match s3 with
             | String e r =>
                 if (e =c? "e") || (e =c? "E") then
                   let '(sg, r1) := match r with
                     | String "+" r' => ("+", r') | String "-" r' => ("-", r')
                     | _ => ("", r) end in
                   match take_digits r1 with
                   | ("", _) => None
                   | (d, r2) => Some (String e (sg +:+ d), r2)
                   end
                 else Some ("", s3)
             | "" => Some ("", s3)
             end) with
      | None => None
      | Some (x, rest) => Some (sign +:+ i +:+ f +:+ x, rest)
      end
  end = Some (sign +:+ i, t).
Proof.
  intros Ht. destruct t as [|c t]; simpl in Ht.
  { cbv iota beta. by rewrite !str_app_nil_r. }
  apply orb_true_iff in Ht as [[ ->%eqc_true | ->%eqc_true ]%orb_true_iff | ->%eqc_true];
    cbn; by rewrite ?str_app_nil_r.
Qed.

Lemma number_end_digit t : number_end t = true -> not_digit_head t = true.
Proof.
  destruct t as [|c t]; simpl; [done|].
  intros [[ ->%eqc_true | ->%eqc_true ]%orb_true_iff | ->%eqc_true]%orb_true_iff; done.
Qed.

(** Digits without a leading zero are a number literal. *)
Lemma scan_number_digits (neg : bool) c ds t :
  all_bytes is_digit (String c ds) = true -> (c <> "0"%char \/ ds = "") ->
  number_end t = true ->
  scan_number ((if neg then "-" else "") +:+ String c ds +:+ t) =
  Some ((if neg then "-" else "") +:+ String c ds, t).
Proof.
  intros Hd Hz Ht. pose proof (number_end_digit t Ht) as Hnd.
  pose proof (take_digits_app _ _ Hd Hnd) as Htd.
  simpl in Hd. apply andb_true_iff in Hd as [Hc _].
  assert (Hne : c <> "-"%char) by (intros ->; done).
  unfold scan_number.
  assert (Hint : match String c ds +:+ t with
                 | String "0" r => Some ("0", r)
                 | _ => match take_digits (String c ds +:+ t) with
                        | ("", _) => None | p => Some p end
                 end = Some (String c ds, t)).
  { rewrite Htd, str_app_cons. destruct Hz as [Hz| ->].
    - destruct c as [[] [] [] [] [] [] [] []]; done.
    - rewrite str_app_nil_l. destruct (decide (c = "0"%char)) as [->|Hz]; [done|].
      destruct c as [[] [] [] [] [] [] [] []]; done. }
  destruct neg.
  - rewrite str_app_cons, str_app_nil_l. cbv iota beta zeta. rewrite Hint.
    by rewrite scan_number_tail.
  - rewrite !str_app_nil_l.
    replace (match String c ds +:+ t with String "-" r => ("-", r)
             | _ => ("", String c ds +:+ t) end) with ("", String c ds +:+ t).
    2: { rewrite str_app_cons. destruct c as [[] [] [] [] [] [] [] []]; done. }
    cbv iota beta zeta. rewrite Hint. by rewrite scan_number_tail.
Qed.

Lemma nonzero_head u :
  Decimal.unorm u = u -> u <> Decimal.Nil ->
  exists c ds, NilZero.string_of_uint u = String c ds /\ (c <> "0"%char \/ ds = "").
Proof.
  intros Hn Hne. destruct u; simpl; try (do 2 eexists; split; [done|left; done]).
  destruct (Decimal.nzhead u) eqn:Hz; unfold Decimal.unorm in Hn; simpl in Hn; rewrite Hz in Hn.
  { injection Hn as <-. do 2 eexists. split; [done|by right]. }
  all: first [discriminate Hn | exfalso; eapply nzhead_nonzero; exact Hz].
Qed.

Lemma scan_number_Itoa z t :
  number_end t = true -> scan_number (Itoa z +:+ t) = Some (Itoa z, t).
Proof.
  intros Ht. unfold Itoa.
  assert (Hp : forall p, exists c ds, NilZero.string_of_uint (Pos.to_uint p) = String c ds /\
            (c <> "0"%char \/ ds = "")).
  { intros p. apply nonzero_head; [|apply Unsigned.to_uint_nonnil].
    pose proof (DecimalN.Unsigned.to_of (N.to_uint (N.pos p))) as H.
    rewrite DecimalN.Unsigned.of_to in H. symmetry. exact H. }
  destruct z as [|p|p].
  - apply (scan_number_digits false "0" "" t); auto.
  - destruct (Hp p) as (c & ds & Heq & Hz). pose proof (is_digit_uint (Pos.to_uint p)) as Hd.
    simpl Z.to_int. unfold NilZero.string_of_int. rewrite Heq in *.
    by apply (scan_number_digits false).
  - destruct (Hp p) as (c & ds & Heq & Hz). pose proof (is_digit_uint (Pos.to_uint p)) as Hd.
    simpl Z.to_int. unfold NilZero.string_of_int. rewrite Heq in *.
    by apply (scan_number_digits true).
Qed.

Lemma parse_Itoa z t d fuel :
  number_end t = true -> parse_value (S fuel) d (Itoa z +:+ t) = Some (JNum (Itoa z), t).
Proof.
  intros Ht. pose proof (scan_number_Itoa z t Ht) as Hs.
  assert (Hhead : exists c s, Itoa z = String c s /\ (is_digit c || (c =c? "-")) = true).
  { unfold Itoa. destruct z as [|p|p]; [by do 2 eexists| |by do 2 eexists].
    pose proof (is_digit_uint (Pos.to_uint p)) as Hd. simpl Z.to_int.
    unfold NilZero.string_of_int.
    destruct (NilZero.string_of_uint (Pos.to_uint p)) as [|c s] eqn:He.
    - by destruct (Pos.to_uint p).
    - simpl in Hd. apply andb_true_iff in Hd as [Hc _]. exists c, s. by rewrite Hc. }
  destruct Hhead as (c & s & Heq & Hc). rewrite Heq in *. rewrite str_app_cons in *.
  assert (Hws : skip_ws (String c (s +:+ t)) = String c (s +:+ t)).
  { cbn [skip_ws]. replace (is_ws c) with false; [done|].
    destruct c as [[] [] [] [] [] [] [] []]; try done; discriminate Hc. }
  cbn [parse_value]. rewrite Hws. rewrite Hs.
  destruct c as [[] [] [] [] [] [] [] []]; try discriminate Hc; reflexivity.
Qed.

(** *** Objects of atoms *)

(** An encoded value that is read back in front of a comma or a closer. *)
Definition reads (txt : string) (v : json) : Prop :=
  forall d fuel t, number_end t = true -> parse_value (S fuel) d (txt +:+ t) = Some (v, t).

Lemma reads_string s : all_bytes is_ascii s = true -> reads (marshal_string s) (JStr s).
Proof. intros Ha d fuel t _. by apply parse_marshal_string. Qed.

Lemma reads_int z : reads (Itoa z) (JNum (Itoa z)).
Proof. intros d fuel t Ht. by apply parse_Itoa. Qed.

Lemma parse_member k txt v c t d acc fuel :
  all_bytes is_ascii k = true -> reads txt v -> number_end (String c t) = true ->
  parse_members (S (S fuel)) d acc (field_text (k, txt) +:+ String c t) =
  match String c t with
  | String "," s5 => parse_members (S fuel) d (acc ++ [(k, v)]) (skip_ws s5)
  | String "}" s5 => Some (JObj (acc ++ [(k, v)]), s5)
  | _ => None
  end.
Proof.
  intros Hk Hr Hc. unfold field_text, marshal_string. simpl fst. simpl snd.
  rewrite !str_app_assoc, !str_app_cons, !str_app_nil_l.
  remember (S fuel) as f1. cbn [parse_members].
  change (quote =c? quote) with true. cbv iota. unfold parse_string.
  rewrite scan_escape_go by done. rewrite Utf8.sanitize_ascii by done.
  change (skip_ws (String ":" (txt +:+ String c t))) with (String ":" (txt +:+ String c t)).
  cbv iota beta. subst f1. rewrite Hr by done.
  assert (Hws : skip_ws (String c t) = String c t).
  { simpl in Hc. apply orb_true_iff in Hc as [[ ->%eqc_true | ->%eqc_true ]%orb_true_iff | ->%eqc_true];
      done. }
  by rewrite Hws.
Qed.

Lemma skip_ws_field kt t : skip_ws (field_text kt +:+ t) = field_text kt +:+ t.
Proof. unfold field_text, marshal_string. by rewrite !str_app_assoc, !str_app_cons. Qed.

Lemma fields_head kt fs t :
  exists s, Join (map field_text (kt :: fs)) "," +:+ t = String quote s.
Proof.
  assert (Hh : forall u, exists s, field_text kt +:+ u = String quote s).
  { intros u. unfold field_text, marshal_string. rewrite !str_app_assoc, !str_app_cons. eauto. }
  destruct fs as [|kt2 fs]; simpl map; [apply Hh|]. rewrite Join_cons, str_app_assoc. apply Hh.
Qed.

(** The encoded members, read back in order. *)
Lemma parse_fields fs kt v vs t d acc fuel :
  Forall2 (fun kt v => all_bytes is_ascii (fst kt) = true /\ reads (snd kt) v)
    (kt :: fs) (v :: vs) ->
  length fs <= fuel ->
  parse_members (S (S fuel)) d acc
    (Join (map field_text (kt :: fs)) "," +:+ String "}" t) =
  Some (JObj (acc ++ zip (map fst (kt :: fs)) (v :: vs)), t).
Proof.
  revert kt v vs acc fuel. induction fs as [|kt2 fs IH]; intros [k txt] v vs acc fuel Hf Hl.
  - apply Forall2_cons in Hf as [[Hk Hr] Hf]. apply Forall2_nil_inv_l in Hf as ->.
    change (Join (map field_text [(k, txt)]) ",") with (field_text (k, txt)).
    by rewrite (parse_member k txt v).
  - apply Forall2_cons in Hf as [[Hk Hr] Hf].
    destruct vs as [|v2 vs]; [by apply Forall2_nil_inv_r in Hf|].
    change (map field_text ((k, txt) :: kt2 :: fs)) with
      (field_text (k, txt) :: map field_text (kt2 :: fs)).
    destruct (map field_text (kt2 :: fs)) as [|x xs] eqn:Hm; [done|]. rewrite Join_cons.
    rewrite <- Hm, !str_app_assoc, str_app_cons, str_app_nil_l.
    rewrite (parse_member k txt v) by done. cbv iota.
    destruct (fields_head kt2 fs (String "}" t)) as (s' & Hs'). rewrite Hs' at 1.
    change (skip_ws (String quote s')) with (String quote s'). rewrite <- Hs'.
    destruct fuel as [|fuel]; [simpl in Hl; lia|].
    rewrite (IH kt2 v2 vs); [|done|simpl in Hl; lia]. by rewrite <- app_assoc.
Qed.

Lemma parse_all_fields fs vs :
  fs <> [] ->
  Forall2 (fun kt v => all_bytes is_ascii (fst kt) = true /\ reads (snd kt) v) fs vs ->
  parse_all (marshal_fields fs) = Some (JObj (zip (map fst fs) vs)).
Proof.
  intros Hne Hf. destruct fs as [|kt fs]; [done|].
  destruct vs as [|v vs]; [by apply Forall2_nil_inv_r in Hf|].
  unfold parse_all, parse_prefix.
  set (fuel := parse_fuel (marshal_fields (kt :: fs)) + S (S (S (length fs)))).
  rewrite <- (parse_value_fuel fuel) by (subst fuel; lia). subst fuel.
  rewrite <- !plus_n_Sm. set (f0 := _ + length fs).
  unfold marshal_fields.
  rewrite str_app_cons, str_app_nil_l.
  destruct (fields_head kt fs "}") as (s & Hs). change quote with "034"%char in Hs.
  remember (S (S f0)) as f2. cbn [parse_value].
  match goal with |- context [skip_ws (String "{" ?x)] =>
    change (skip_ws (String "{" x)) with (String "{" x) end.
  change ("{" =c? "{")%char with true. cbv iota. simpl N.leb. cbv iota. rewrite Hs at 1.
  change (skip_ws (String "034" s)) with (String "034" s). cbv iota.
  match goal with |- context [parse_members _ _ _ ?x] => replace x with
    (Join (map field_text (kt :: fs)) "," +:+ "}") by exact Hs end.
  subst f2.
  rewrite (parse_fields fs kt v vs "" (N.succ 0) []) by (done || (subst f0; lia)).
  reflexivity.
Qed.
