(* ===== verification/Sha256.v ===== *)
(** * crypto/sha256 and crypto/hmac

    The digest and the message authentication code of FIPS 180-4 and RFC 2104,
    which sign credentials and panel sessions.  The test vectors at the end are
    the published ones. *)

From S2P Require Import Prelude GoStrings.
From stdpp Require Import options.

#[local] Open Scope N_scope.

(** ** 32-bit words *)

Definition w32 (x : N) : N := N.land x 4294967295.
Definition add32 (x y : N) : N := w32 (x + y).
Definition rotr (n x : N) : N := N.lor (N.shiftr x n) (w32 (N.shiftl x (32 - n))).
Definition not32 (x : N) : N := N.lxor x 4294967295.

Definition xor3 (x y z : N) : N := N.lxor x (N.lxor y z).

Definition Sigma0 (x : N) : N := xor3 (rotr 2 x) (rotr 13 x) (rotr 22 x).
Definition Sigma1 (x : N) : N := xor3 (rotr 6 x) (rotr 11 x) (rotr 25 x).
Definition sigma0 (x : N) : N := xor3 (rotr 7 x) (rotr 18 x) (N.shiftr x 3).
Definition sigma1 (x : N) : N := xor3 (rotr 17 x) (rotr 19 x) (N.shiftr x 10).
Definition Ch (x y z : N) : N := N.lxor (N.land x y) (N.land (not32 x) z).
Definition Maj (x y z : N) : N := xor3 (N.land x y) (N.land x z) (N.land y z).

(** ** Constants *)

Definition K256 : list N := [
   1116352408; 1899447441; 3049323471; 3921009573; 961987163; 1508970993;
   2453635748; 2870763221; 3624381080; 310598401; 607225278; 1426881987;
   1925078388; 2162078206; 2614888103; 3248222580; 3835390401; 4022224774;
   264347078; 604807628; 770255983; 1249150122; 1555081692; 1996064986;
   2554220882; 2821834349; 2952996808; 3210313671; 3336571891; 3584528711;
   113926993; 338241895; 666307205; 773529912; 1294757372; 1396182291;
   1695183700; 1986661051; 2177026350; 2456956037; 2730485921; 2820302411;
   3259730800; 3345764771; 3516065817; 3600352804; 4094571909; 275423344;
   430227734; 506948616; 659060556; 883997877; 958139571; 1322822218;
   1537002063; 1747873779; 1955562222; 2024104815; 2227730452; 2361852424;
   2428436474; 2756734187; 3204031479; 3329325298].

Definition H256 : list N := [
   1779033703; 3144134277; 1013904242; 2773480762; 1359893119; 2600822924;
   528734635; 1541459225].

(** ** Bytes *)

Fixpoint to_bytes (s : string) : list N :=
  match s with "" => [] | String c s' => code c :: to_bytes s' end.

Fixpoint of_bytes (l : list N) : string :=
  match l with [] => "" | n :: l' => String (ascii_of_N n) (of_bytes l') end.

Definition be_bytes (width : nat) (x : N) : list N :=
  map (fun i => N.land (N.shiftr x (8 * N.of_nat (width - 1 - i))) 255) (seq 0 width).

Fixpoint be_words (l : list N) : list N :=
  match l with
  | a :: b :: c :: d :: l' => (((a * 256 + b) * 256 + c) * 256 + d) :: be_words l'
  | _ => []
  end.

(** The message followed by 0x80, zeros and its bit length. *)
Definition pad (m : list N) : list N :=
  let n := length m in
  m ++ [128] ++ repeat 0 ((119 - n mod 64) mod 64)%nat ++ be_bytes 8 (8 * N.of_nat n).

(** ** Compression *)

(** The message schedule, newest word first. *)
Fixpoint schedule (k : nat) (w : list N) : list N :=
  match k with
  | O => w
  | S k' =>
      let t := add32 (add32 (sigma1 (nth 1 w 0)) (nth 6 w 0))
                 (add32 (sigma0 (nth 14 w 0)) (nth 15 w 0)) in
      schedule k' (t :: w)
  end.

Fixpoint rounds (ks ws : list N) (st : list N) : list N :=
  match ks, ws, st with
  | k :: ks', wt :: ws', [a; b; c; d; e; f; g; h] =>
      let t1 := add32 (add32 (add32 h (Sigma1 e)) (Ch e f g)) (add32 k wt) in
      let t2 := add32 (Sigma0 a) (Maj a b c) in
      rounds ks' ws' [add32 t1 t2; a; b; c; add32 d t1; e; f; g]
  | _, _, _ => st
  end.

Definition compress (st block : list N) : list N :=
  let ws := rev (schedule 48 (rev block)) in
  map (fun '(x, y) => add32 x y) (combine st (rounds K256 ws st)).

Fixpoint blocks (fuel : nat) (ws : list N) (st : list N) : list N :=
  match fuel with
  | O => st
  | S fuel' =>
      match ws with
      | [] => st
      | _ => blocks fuel' (skipn 16 ws) (compress st (firstn 16 ws))
      end
  end.

Definition sha256_bytes (m : list N) : list N :=
  let ws := be_words (pad m) in
  concat (map (be_bytes 4) (blocks (S (length ws)) ws H256)).

(** ** HMAC *)

Definition hmac_bytes (key msg : list N) : list N :=
  let k := if Nat.ltb 64 (length key) then sha256_bytes key else key in
  let k := k ++ repeat 0 (64 - length k)%nat in
  sha256_bytes (map (fun b => N.lxor b 92) k ++
                sha256_bytes (map (fun b => N.lxor b 54) k ++ msg)).

Definition sha256 (s : string) : string := of_bytes (sha256_bytes (to_bytes s)).

(** [mac := hmac.New(sha256.New, key); mac.Write(msg); mac.Sum(nil)] *)
Definition hmac_sha256 (key msg : string) : string :=
  of_bytes (hmac_bytes (to_bytes key) (to_bytes msg)).

(** ** Shape and vectors *)

Lemma blocks_length fuel ws st : length st = 8%nat -> length (blocks fuel ws st) = 8%nat.
Proof.
  revert ws st. induction fuel as [|fuel IH]; intros ws st Hst; [done|].
  cbn [blocks]. destruct ws as [|w ws]; [done|]. apply IH.
  unfold compress. rewrite length_map, length_combine, Hst.
  assert (Hr : forall ks ws st, length st = 8%nat -> length (rounds ks ws st) = 8%nat).
  { clear. induction ks as [|k ks IH]; intros ws st Hst; [done|].
    destruct ws as [|wt ws]; [done|].
    destruct st as [|a [|b [|c [|d [|e [|f [|g [|h [|]]]]]]]]]; try done.
    cbn [rounds]. by apply IH. }
  by rewrite Hr.
Qed.

Lemma hmac_bytes_nonempty key msg : hmac_bytes key msg <> [].
Proof.
  unfold hmac_bytes, sha256_bytes at 1. cbv zeta.
  match goal with |- context [blocks ?f ?w ?st] =>
    pose proof (blocks_length f w st eq_refl) as Hl; destruct (blocks f w st); done end.
Qed.

Lemma hmac_nonempty key msg : hmac_sha256 key msg <> "".
Proof.
  unfold hmac_sha256. pose proof (hmac_bytes_nonempty (to_bytes key) (to_bytes msg)) as Hne.
  by destruct (hmac_bytes _ _).
Qed.

Lemma to_bytes_length s : length (to_bytes s) = String.length s.
Proof. induction s as [|c s IH]; simpl; [done|]. by rewrite IH. Qed.

Example sha256_abc :
  firstn 8 (to_bytes (sha256 "abc")) = [186; 120; 22; 191; 143; 1; 207; 234].
Proof. vm_compute. reflexivity. Qed.

Example sha256_two_blocks :
  firstn 4 (to_bytes (sha256 "abcdbcdecdefdefgefghfghighijhijkijkljklmklmnlmnomnopnopq"))
  = [36; 141; 106; 97].
Proof. vm_compute. reflexivity. Qed.

Example hmac_rfc4231_2 :
  firstn 4 (to_bytes (hmac_sha256 "Jefe" "what do ya want for nothing?")) = [91; 220; 193; 70].
Proof. vm_compute. reflexivity. Qed.
