(* ===== verification/Ratelimit.v ===== *)
(** * internal/ratelimit: semaphores, per-key semaphores, fixed windows, rates

    Times and durations are nanoseconds.  A channel used as a counting
    semaphore is its capacity and fill level; operations that would block
    return [None]. *)

From S2P Require Import Prelude GoStrings.
From Stdlib Require Import SpecFloat.
From stdpp Require Import options.

Local Open Scope Z_scope.

(** ** time *)

Definition Second : Z := 1000000000.
Definition Minute : Z := 60 * Second.
Definition Hour : Z := 60 * Minute.

(** [t.Sub(u)] saturates at the range of [time.Duration]. *)
Definition time_Sub (t u : Z) : Z := Z.max int64_min (Z.min int64_max (t - u)).

Definition is_dec (c : ascii) : bool := (N.leb 48 (code c) && N.leb (code c) 57)%N.
Definition dec_val (c : ascii) : Z := Z.of_N (code c) - 48.

(** [leadingInt]: [None] on overflow. *)
Fixpoint leadingInt (x : Z) (s : string) : option (Z * string) :=
  match s with
  | String c s' =>
      if is_dec c then
        if 2 ^ 63 / 10 <? x then None
        else let x' := x * 10 + dec_val c in
             if 2 ^ 63 <? x' then None else leadingInt x' s'
      else Some (x, s)
  | "" => Some (x, "")
  end.

(** IEEE binary64, as the compiler evaluates the fraction of a duration. *)
Definition f64 (n : Z) : spec_float := binary_normalize 53 1024 n 0 false.
Definition f64_mul := SFmul 53 1024.
Definition f64_div := SFdiv 53 1024.
Definition f64_to_uint (x : spec_float) : Z :=
  match x with
  | S754_finite false m e => if 0 <=? e then Zpos m * 2 ^ e else Zpos m / 2 ^ (- e)
  | _ => 0
  end.

Fixpoint leadingFraction (x : Z) (scale : spec_float) (overflow : bool) (s : string)
    : Z * spec_float * string :=
  match s with
  | String c s' =>
      if is_dec c then
        if overflow then leadingFraction x scale true s'
        else if (2 ^ 63 - 1) / 10 <? x then leadingFraction x scale true s'
        else let y := x * 10 + dec_val c in
             if 2 ^ 63 <? y then leadingFraction x scale true s'
             else leadingFraction y (f64_mul scale (f64 10)) false s'
      else (x, scale, s)
  | "" => (x, scale, "")
  end.

Fixpoint take_unit (s : string) : string * string :=
  match s with
  | String c s' =>
      if (c =c? ".") || is_dec c then ("", s)
      else let '(u, r) := take_unit s' in (String c u, r)
  | "" => ("", "")
  end.

Definition unitMap (u : string) : option Z :=
  if u =s? "ns" then Some 1
  else if (u =s? "us") || (u =s? bytes [194; 181; 115]%nat) || (u =s? bytes [206; 188; 115]%nat)
       then Some 1000
  else if u =s? "ms" then Some 1000000
  else if u =s? "s" then Some Second
  else if u =s? "m" then Some Minute
  else if u =s? "h" then Some Hour
  else None.

(** The loop of [time.ParseDuration]; each turn consumes at least one byte. *)
Fixpoint parse_terms (fuel : nat) (d : Z) (s : string) : option Z :=
  match s with
  | "" => Some d
  | String c _ =>
      match fuel with
      | O => None
      | S fuel' =>
          if negb ((c =c? ".") || is_dec c) then None else
          match leadingInt 0 s with
          | None => None
          | Some (v, s1) =>
              let pre := negb (Nat.eqb (String.length s) (String.length s1)) in
              let '(f, scale, s2, post) :=
                match s1 with
                | String "." r =>
                    let '(f, scale, r') := leadingFraction 0 (f64 1) false r in
                    (f, scale, r', negb (Nat.eqb (String.length r) (String.length r')))
                | _ => (0, f64 1, s1, false)
                end in
              if negb pre && negb post then None else
              let '(u, s3) := take_unit s2 in
              if u =s? "" then None else
              match unitMap u with
              | None => None
              | Some unit =>
                  if 2 ^ 63 / unit <? v then None else
                  let v1 := v * unit in
                  let v2 := if 0 <? f
                            then (v1 + f64_to_uint (f64_mul (f64 f) (f64_div (f64 unit) scale)))
                                   mod 2 ^ 64
                            else v1 in
                  if (0 <? f) && (2 ^ 63 <? v2) then None else
                  let d' := (d + v2) mod 2 ^ 64 in
                  if 2 ^ 63 <? d' then None else parse_terms fuel' d' s3
              end
          end
      end
  end.

(** [time.ParseDuration]: [None] is an error. *)
Definition ParseDuration (s : string) : option Z :=
  let '(neg, s1) :=
    match s with
    | String "-" r => (true, r)
    | String "+" r => (false, r)
    | _ => (false, s)
    end in
  if s1 =s? "0" then Some 0
  else if s1 =s? "" then None
  else match parse_terms (String.length s1) 0 s1 with
       | None => None
       | Some d =>
           if neg : bool then Some (wrap64 (- wrap64 d))
           else if 2 ^ 63 - 1 <? d then None else Some d
       end.

Example duration_ex : ParseDuration "1m30.5s" = Some (90 * Second + 500000000).
Proof. reflexivity. Qed.

(** ** Rates *)

Section rate.
Context `{Unicode}.

Definition invalid_rate (spec : string) : string := "invalid rate " +:+ strconv_quote spec.

(** [ParseRate]: requests and window length. *)
Definition ParseRate (spec0 : string) : res (Z * Z) :=
  let spec := TrimSpace spec0 in
  if spec =s? "" then Ok (0, 0) else
  match Split "/" spec with
  | [p0; p1] =>
      match Atoi p0 with
      | None => Err (invalid_rate spec)
      | Some n =>
          if n <? 0 then Err (invalid_rate spec)
          else if (p1 =s? "s") || (p1 =s? "sec") || (p1 =s? "second") then Ok (n, Second)
          else if (p1 =s? "m") || (p1 =s? "min") || (p1 =s? "minute") then Ok (n, Minute)
          else if (p1 =s? "h") || (p1 =s? "hour") then Ok (n, Hour)
          else match ParseDuration p1 with
               | None => Err ("invalid rate window " +:+ strconv_quote p1)
               | Some d => Ok (n, d)
               end
      end
  | _ => Err (invalid_rate spec)
  end.
End rate.

(** ** Semaphore *)

Record Semaphore := { sem_cap : Z; sem_used : Z }.

Definition NewSemaphore (n : Z) : Semaphore :=
  {| sem_cap := if n <=? 0 then 1 else n; sem_used := 0 |}.

Definition Acquire (s : Semaphore) : bool * Semaphore :=
  if sem_used s <? sem_cap s
  then (true, {| sem_cap := sem_cap s; sem_used := sem_used s + 1 |})
  else (false, s).

(** [<-s.ch] blocks on an empty channel. *)
Definition Release (s : Semaphore) : option Semaphore :=
  if 0 <? sem_used s
  then Some {| sem_cap := sem_cap s; sem_used := sem_used s - 1 |} else None.

(** ** PerKey *)

Record PerKey := { pk_n : Z; pk_m : gmap string Semaphore }.

Definition NewPerKey (n : Z) : PerKey := {| pk_n := n; pk_m := ∅ |}.

(** [Get] returns the one semaphore of the key, created on first use; the
    callers go on to use it through the map. *)
Definition Get (p : PerKey) (key : string) : Semaphore * PerKey :=
  match pk_m p !! key with
  | Some s => (s, p)
  | None => let s := NewSemaphore (pk_n p) in
            (s, {| pk_n := pk_n p; pk_m := <[key := s]> (pk_m p) |})
  end.

(** [p.Get(key).Acquire()] and [p.Get(key).Release()]. *)
Definition AcquireKey (p : PerKey) (key : string) : bool * PerKey :=
  let '(s, p1) := Get p key in
  let '(ok, s') := Acquire s in
  (ok, {| pk_n := pk_n p1; pk_m := <[key := s']> (pk_m p1) |}).

Definition ReleaseKey (p : PerKey) (key : string) : option PerKey :=
  let '(s, p1) := Get p key in
  match Release s with
  | Some s' => Some {| pk_n := pk_n p1; pk_m := <[key := s']> (pk_m p1) |}
  | None => None
  end.

(** ** FixedWindow *)

Record bucket := { b_start : Z; b_count : Z }.

Record FixedWindow := {
  fw_limit : Z;
  fw_window : Z;
  fw_buckets : gmap string bucket;
}.

(** [None] is the nil limiter, which allows everything. *)
Definition NewFixedWindow `{Unicode} (spec : string) : res (option FixedWindow) :=
  let? lw := ParseRate spec in
  let '(limit, window) := lw in
  if limit <=? 0 then Ok None
  else Ok (Some {| fw_limit := limit; fw_window := window; fw_buckets := ∅ |}).

(** A key without an entry reads as the zero bucket, whose start time is zero. *)
Definition Allow (now : Z) (f : FixedWindow) (key : string) : bool * FixedWindow :=
  let upd b := {| fw_limit := fw_limit f; fw_window := fw_window f;
                  fw_buckets := <[key := b]> (fw_buckets f) |} in
  match fw_buckets f !! key with
  | None => (true, upd {| b_start := now; b_count := 1 |})
  | Some b =>
      if fw_window f <=? time_Sub now (b_start b)
      then (true, upd {| b_start := now; b_count := 1 |})
      else if fw_limit f <=? b_count b then (false, f)
      else (true, upd {| b_start := b_start b; b_count := b_count b + 1 |})
  end.

Definition AllowOpt (now : Z) (f : option FixedWindow) (key : string)
    : bool * option FixedWindow :=
  match f with
  | None => (true, None)
  | Some f => let '(ok, f') := Allow now f key in (ok, Some f')
  end.

(** ** Concurrency limits as a state machine

    The handler acquires the key's semaphore on entry and releases it in a
    deferred call; [held] lists the keys of the requests in flight. *)

Inductive pk_step : PerKey * list string -> PerKey * list string -> Prop :=
  | pk_enter p held k p' :
      AcquireKey p k = (true, p') -> pk_step (p, held) (p', k :: held)
  | pk_refuse p held k p' :
      AcquireKey p k = (false, p') -> pk_step (p, held) (p', held)
  | pk_leave p h1 k h2 p' :
      ReleaseKey p k = Some p' -> pk_step (p, h1 ++ k :: h2) (p', h1 ++ h2).

Definition in_flight (k : string) (held : list string) : Z :=
  Z.of_nat (count_occ String.string_dec held k).

Definition capacity (n : Z) : Z := if n <=? 0 then 1 else n.

(** The semaphore of a key counts the requests of that key in flight. *)
Definition pk_inv (n : Z) (st : PerKey * list string) : Prop :=
  pk_n (fst st) = n /\
  forall k, let s := fst (Get (fst st) k) in
    sem_cap s = capacity n /\ sem_used s = in_flight k (snd st) /\
    sem_used s <= sem_cap s.

Lemma in_flight_cons k k' held :
  in_flight k (k' :: held) = in_flight k held + (if decide (k' = k) then 1 else 0).
Proof.
  unfold in_flight. simpl. destruct (String.string_dec k' k), (decide (k' = k)); try done; lia.
Qed.

Lemma in_flight_app k h1 h2 : in_flight k (h1 ++ h2) = in_flight k h1 + in_flight k h2.
Proof. unfold in_flight. rewrite count_occ_app. lia. Qed.

Lemma Get_insert p k k' s :
  fst (Get {| pk_n := pk_n p; pk_m := <[k := s]> (pk_m p) |} k') =
  if decide (k = k') then s else fst (Get p k').
Proof.
  unfold Get. simpl. rewrite lookup_insert. case_decide; [done|].
  by destruct (pk_m p !! k').
Qed.

Lemma Get_state p k k' : fst (Get (snd (Get p k)) k') = fst (Get p k') /\
  pk_n (snd (Get p k)) = pk_n p.
Proof.
  unfold Get. destruct (pk_m p !! k) eqn:Hk; [done|]. simpl.
  rewrite lookup_insert. case_decide as Heq; [|by destruct (pk_m p !! k')].
  subst. by rewrite Hk.
Qed.

Lemma AcquireKey_spec p k ok p' :
  AcquireKey p k = (ok, p') ->
  pk_n p' = pk_n p /\ ok = (sem_used (fst (Get p k)) <? sem_cap (fst (Get p k))) /\
  forall k', fst (Get p' k') =
    if decide (k = k') then snd (Acquire (fst (Get p k))) else fst (Get p k').
Proof.
  unfold AcquireKey. pose proof (Get_state p k) as Hst.
  destruct (Get p k) as [s p1] eqn:Hg. simpl in *.
  destruct (Acquire s) as [ok' s'] eqn:Ha. intros [= <- <-]. simpl.
  split; [apply (Hst k)|]. split.
  { unfold Acquire in Ha. by destruct (sem_used s <? sem_cap s); injection Ha as <- <-. }
  intros k'. rewrite Get_insert. case_decide; [done|]. apply Hst.
Qed.

Lemma ReleaseKey_spec p k p' :
  ReleaseKey p k = Some p' ->
  pk_n p' = pk_n p /\ exists s', Release (fst (Get p k)) = Some s' /\
  forall k', fst (Get p' k') = if decide (k = k') then s' else fst (Get p k').
Proof.
  unfold ReleaseKey. pose proof (Get_state p k) as Hst.
  destruct (Get p k) as [s p1] eqn:Hg. simpl in *.
  destruct (Release s) as [s'|] eqn:Hr; [|done]. intros [= <-]. simpl.
  split; [apply (Hst k)|]. exists s'. split; [done|].
  intros k'. rewrite Get_insert. case_decide; [done|]. apply Hst.
Qed.

Lemma pk_inv_init n : pk_inv n (NewPerKey n, []).
Proof.
  split; [done|]. intros k. unfold NewPerKey, Get, capacity, in_flight. simpl.
  rewrite lookup_empty. simpl. destruct (Z.leb_spec n 0); split_and!; simpl; lia.
Qed.

Lemma pk_inv_step n st st' : pk_inv n st -> pk_step st st' -> pk_inv n st'.
Proof.
  intros [Hn Hinv] Hstep. destruct Hstep as [p held k p' Ha|p held k p' Ha|p h1 k h2 p' Hr];
    simpl in *.
  - apply AcquireKey_spec in Ha as (Hn' & Hok & Hg). split; [simpl; congruence|].
    simpl. intros k'. specialize (Hinv k'). rewrite Hg, in_flight_cons.
    symmetry in Hok. unfold Acquire. rewrite Hok. apply Z.ltb_lt in Hok.
    case_decide as Heq; [subst|lia]. simpl. lia.
  - apply AcquireKey_spec in Ha as (Hn' & Hok & Hg). split; [simpl; congruence|].
    simpl. intros k'. rewrite Hg. unfold Acquire. rewrite <- Hok. simpl.
    case_decide; [subst|]; apply Hinv.
  - apply ReleaseKey_spec in Hr as (Hn' & s' & Hs & Hg). split; [simpl; congruence|].
    simpl. intros k'. specialize (Hinv k'). rewrite Hg.
    rewrite in_flight_app, in_flight_cons in Hinv. rewrite in_flight_app.
    unfold Release in Hs. destruct (Z.ltb_spec 0 (sem_used (fst (Get p k)))); [|done].
    injection Hs as <-. case_decide; [subst|]; simpl; lia.
Qed.

Lemma pk_inv_reachable n st : rtc pk_step (NewPerKey n, []) st -> pk_inv n st.
Proof.
  intros Hr. remember (NewPerKey n, []) as st0 eqn:H0.
  assert (pk_inv n st0) as Hi by (subst; apply pk_inv_init). clear H0.
  induction Hr; [done|]. eauto using pk_inv_step.
Qed.

(** ** Runs of the fixed-window limiter *)

(** The calls in order, each a key and the clock reading, with their outcome. *)
Fixpoint run_allow (f : FixedWindow) (calls : list (string * Z)) : list (string * Z * bool) :=
  match calls with
  | [] => []
  | (k, now) :: calls' =>
      let '(ok, f') := Allow now f k in (k, now, ok) :: run_allow f' calls'
  end.

(** Calls for [k] allowed at a time in [[lo, hi)]. *)
Fixpoint allowed_in (k : string) (lo hi : Z) (tr : list (string * Z * bool)) : Z :=
  match tr with
  | [] => 0
  | (k', t, ok) :: tr' =>
      (if (k' =s? k) && ok && (lo <=? t) && (t <? hi) then 1 else 0) + allowed_in k lo hi tr'
  end.

Fixpoint nondecreasing (last : Z) (calls : list (string * Z)) : Prop :=
  match calls with
  | [] => True
  | (_, now) :: calls' => last <= now /\ nondecreasing now calls'
  end.

(** A call reads the clock before it takes the mutex: its reading is at most [lag]
    older than the moment it is served.  [n] calls were let through so far in the
    interval from [lo] that is shorter than the window by [lag]; the bucket was
    opened at [opened]. *)
Definition window_inv (L w lag lo last n : Z) (b : option bucket) : Prop :=
  0 <= n <= 2 * L /\ (last < lo -> n = 0) /\
  match b with
  | None => n = 0
  | Some b => 0 <= b_count b <= L /\
      exists opened, b_start b <= opened <= b_start b + lag /\ opened <= last /\
        (opened < lo -> n <= b_count b) /\
        (lo <= opened < lo + (w - lag) -> n <= L + b_count b)
  end.

Lemma Allow_other now f k k' :
  k <> k' -> fw_buckets (snd (Allow now f k)) !! k' = fw_buckets f !! k'.
Proof.
  intros Hne. unfold Allow. destruct (fw_buckets f !! k) as [b|];
    repeat case_match; simpl; rewrite ?lookup_insert_ne by done; done.
Qed.

Lemma Allow_config now f k :
  fw_limit (snd (Allow now f k)) = fw_limit f /\ fw_window (snd (Allow now f k)) = fw_window f.
Proof. unfold Allow. destruct (fw_buckets f !! k) as [b|]; repeat case_match; done. Qed.

Lemma time_Sub_window now s w :
  0 < w <= int64_max -> (w <=? time_Sub now s) = (w <=? now - s).
Proof. unfold time_Sub, int64_min, int64_max. intros. lia. Qed.

(** A call served at [t]. *)
Lemma window_inv_step f k lag t now last lo n :
  0 < fw_limit f -> 0 < fw_window f <= int64_max -> last <= t -> t - lag <= now <= t ->
  window_inv (fw_limit f) (fw_window f) lag lo last n (fw_buckets f !! k) ->
  let '(ok, f') := Allow now f k in
  window_inv (fw_limit f) (fw_window f) lag lo t
    ((if ok && (lo <=? t) && (t <? lo + (fw_window f - lag)) then 1 else 0) + n)
    (fw_buckets f' !! k).
Proof.
  intros HL Hw Hlast Hnow (Hn & Hearly & Hb). unfold Allow.
  assert (Hopen : forall m, 0 <= m <= 2 * fw_limit f -> (t < lo -> m = 0) ->
    (lo <= t < lo + (fw_window f - lag) -> m <= fw_limit f + 1) ->
    window_inv (fw_limit f) (fw_window f) lag lo t m (Some {| b_start := now; b_count := 1 |})).
  { intros m Hm He Hi. split; [done|]. split; [done|]. cbn [b_count b_start]. split; [lia|].
    exists t. lia. }
  destruct (fw_buckets f !! k) as [b|] eqn:Hk.
  2:{ cbn [fw_buckets]. rewrite lookup_insert_eq. apply Hopen;
      destruct (Z.leb_spec lo t), (Z.ltb_spec t (lo + (fw_window f - lag))); simpl; lia. }
  destruct Hb as (Hc & opened & Ho & Hol & Hlt & Hge). rewrite time_Sub_window by lia.
  destruct (Z.leb_spec (fw_window f) (now - b_start b)).
  { cbn [fw_buckets]. rewrite lookup_insert_eq. apply Hopen;
      destruct (Z.leb_spec lo t), (Z.ltb_spec t (lo + (fw_window f - lag))); simpl; lia. }
  destruct (Z.leb_spec (fw_limit f) (b_count b)).
  { simpl. rewrite Hk. split; [lia|]. split; [lia|]. split; [lia|]. exists opened. lia. }
  cbn [fw_buckets]. rewrite lookup_insert_eq. unfold window_inv. cbn [b_count b_start].
  destruct (Z.leb_spec lo t), (Z.ltb_spec t (lo + (fw_window f - lag))); simpl;
    (split; [lia|]; split; [lia|]; split; [lia|]; exists opened; lia).
Qed.

Lemma window_inv_later L w lag lo last last' n b :
  last <= last' -> window_inv L w lag lo last n b -> window_inv L w lag lo last' n b.
Proof.
  intros Hle (Hn & Hl & Hb). split; [done|]. split; [lia|]. destruct b as [b|]; [|done].
  destruct Hb as (Hc & opened & Hb). split; [done|]. exists opened. lia.
Qed.

Lemma run_window_inv calls f k lo last n :
  0 < fw_limit f -> 0 < fw_window f <= int64_max -> nondecreasing last calls ->
  window_inv (fw_limit f) (fw_window f) 0 lo last n (fw_buckets f !! k) ->
  n + allowed_in k lo (lo + fw_window f) (run_allow f calls) <= 2 * fw_limit f.
Proof.
  revert f last n. induction calls as [|[k' now] calls IH]; intros f last n HL Hw Hnd Hinv.
  { simpl. destruct Hinv. lia. }
  destruct Hnd as [Hlast Hnd]. simpl.
  destruct (Allow_config now f k') as [Hl' Hw'].
  destruct (String.eqb_spec k' k) as [->|Hne].
  - pose proof (window_inv_step f k 0 now now last lo n HL Hw Hlast ltac:(lia) Hinv) as Hstep.
    rewrite Z.sub_0_r in Hstep.
    destruct (Allow now f k) as [ok f'] eqn:Ha. simpl in *. rewrite eqs_refl. simpl.
    rewrite <- Hl', <- Hw' in *.
    specialize (IH f' now _ HL Hw Hnd Hstep). lia.
  - pose proof (Allow_other now f k' k Hne) as Hother.
    destruct (Allow now f k') as [ok f'] eqn:Ha. simpl in *.
    rewrite (proj2 (eqs_false _ _) Hne). simpl.
    rewrite <- Hother in Hinv. rewrite <- Hl', <- Hw' in *.
    apply (IH f' now n HL Hw Hnd). by apply (window_inv_later _ _ _ _ last).
Qed.

(** [burst k0 t calls]: all calls are for [k0], at times in [[t, t + w)]. *)
Definition burst (k0 : string) (t w : Z) (calls : list (string * Z)) : Prop :=
  Forall (fun '(k, now) => k = k0 /\ t <= now < t + w) calls.

Lemma burst_run f k0 b calls :
  fw_buckets f !! k0 = Some b -> 0 < fw_window f <= int64_max ->
  burst k0 (b_start b) (fw_window f) calls ->
  map snd (run_allow f calls) =
  map (fun i => bool_decide (b_count b + Z.of_nat i < fw_limit f)) (seq 0 (length calls)).
Proof.
  revert f b. induction calls as [|[k now] calls IH]; intros f b Hb Hw Hburst; [done|].
  apply Forall_cons in Hburst as [[-> Hnow] Hburst].
  cbn [run_allow length seq map]. unfold Allow. rewrite Hb.
  rewrite time_Sub_window by lia.
  destruct (Z.leb_spec (fw_window f) (now - b_start b)); [lia|].
  rewrite <- (seq_shift _ 0), map_map.
  destruct (Z.leb_spec (fw_limit f) (b_count b)) as [Hfull|Hfree]; cbn [map snd].
  - rewrite bool_decide_eq_false_2 by lia. f_equal.
    rewrite (IH f b Hb Hw Hburst). apply map_ext. intros i.
    rewrite !bool_decide_eq_false_2 by lia. done.
  - rewrite bool_decide_eq_true_2 by lia. f_equal.
    match goal with |- map snd (run_allow ?f' _) = _ =>
      rewrite (IH f' {| b_start := b_start b; b_count := b_count b + 1 |}) end;
      [|by apply lookup_insert_eq|done|done].
    apply map_ext. intros i. apply bool_decide_ext. simpl. lia.
Qed.

(** ** Properties *)

(** Concurrency bound.  In every state reachable by requests entering,
    being refused and leaving, at most [capacity n] requests of a key are in
    flight; a request is admitted exactly when fewer are; and a request in
    flight never blocks when it releases its slot. *)
Theorem per_key_concurrency n p held k :
  rtc pk_step (NewPerKey n, []) (p, held) ->
  in_flight k held <= capacity n /\
  fst (AcquireKey p k) = (in_flight k held <? capacity n) /\
  (k ∈ held -> is_Some (ReleaseKey p k)).
Proof.
  intros [_ Hinv]%pk_inv_reachable. specialize (Hinv k). simpl in Hinv.
  destruct Hinv as (Hcap & Hused & Hle). split; [lia|]. split.
  - destruct (AcquireKey p k) as [ok p'] eqn:Ha.
    apply AcquireKey_spec in Ha as (_ & -> & _). simpl. by rewrite Hcap, Hused.
  - intros Hin. unfold ReleaseKey. destruct (Get p k) as [s p1]. simpl in *.
    unfold Release. rewrite Hused.
    apply list_elem_of_In, (count_occ_In String.string_dec) in Hin.
    unfold in_flight. destruct (Z.ltb_spec 0 (Z.of_nat (count_occ String.string_dec held k)));
      [eauto|lia].
Qed.

Lemma per_key_concurrency_witness :
  in_flight "a" ["a"] <= capacity 1 /\
  fst (AcquireKey {| pk_n := 1; pk_m := {["a" := {| sem_cap := 1; sem_used := 1 |}]} |} "a")
    = (in_flight "a" ["a"] <? capacity 1) /\
  ("a" ∈ ["a"] ->
   is_Some (ReleaseKey {| pk_n := 1; pk_m := {["a" := {| sem_cap := 1; sem_used := 1 |}]} |} "a")).
Proof.
  apply (per_key_concurrency 1 _ ["a"] "a").
  eapply rtc_l; [|apply rtc_refl]. apply pk_enter. vm_compute. reflexivity.
Defined.

(** Rate bound.  However calls of many keys are interleaved, if the readings of
    the clock never go back then in any interval as long as the window at most twice
    the limit of a key's calls are allowed. *)
Theorem fixed_window_rate limit window calls t0 k lo :
  0 < limit -> 0 < window <= int64_max -> nondecreasing t0 calls ->
  allowed_in k lo (lo + window)
    (run_allow {| fw_limit := limit; fw_window := window; fw_buckets := ∅ |} calls)
  <= 2 * limit.
Proof.
  intros HL Hw Hnd.
  pose proof (run_window_inv calls
    {| fw_limit := limit; fw_window := window; fw_buckets := ∅ |} k lo t0 0) as Hrun.
  simpl in Hrun. rewrite lookup_empty in Hrun. apply Hrun; [done..|].
  unfold window_inv. lia.
Qed.

Lemma fixed_window_rate_witness :
  allowed_in "k" 5 15 (run_allow {| fw_limit := 2; fw_window := 10; fw_buckets := ∅ |}
    [("k", 0); ("k", 8); ("k", 9); ("j", 9); ("k", 11); ("k", 12); ("k", 13)]) <= 4.
Proof.
  apply (fixed_window_rate 2 10
    [("k", 0); ("k", 8); ("k", 9); ("j", 9); ("k", 11); ("k", 12); ("k", 13)] 0 "k" 5);
    simpl; unfold int64_max; lia.
Defined.

(** Within one window the limiter lets exactly the first [limit] calls of a
    key through: after a call that opened a window, the [i]-th further call
    within that window is allowed iff [1 + i < limit]. *)
Theorem fixed_window_exact limit window buckets k t0 calls :
  0 < window <= int64_max -> buckets !! k = None -> burst k t0 window calls ->
  map snd (run_allow {| fw_limit := limit; fw_window := window; fw_buckets := buckets |}
             ((k, t0) :: calls)) =
  true :: map (fun i => bool_decide (1 + Z.of_nat i < limit)) (seq 0 (length calls)).
Proof.
  intros Hw Hk Hb. cbn [run_allow]. unfold Allow. simpl. rewrite Hk. cbn [map snd]. f_equal.
  rewrite (burst_run _ k {| b_start := t0; b_count := 1 |}); simpl; [done| |done|done].
  apply lookup_insert_eq.
Qed.

Lemma fixed_window_exact_witness :
  map snd (run_allow {| fw_limit := 2; fw_window := 10; fw_buckets := ∅ |}
             [("k", 0); ("k", 3); ("k", 9)]) = [true; true; false].
Proof.
  apply (fixed_window_exact 2 10 ∅ "k" 0 [("k", 3); ("k", 9)]).
  - unfold int64_max. lia.
  - apply lookup_empty.
  - repeat constructor; lia.
Defined.

(** A rate whose window is not positive never limits.  [ParseRate] accepts
    windows such as ["0s"] or ["-1s"], and the limiter built from such a rate
    lets every call through at every moment. *)
Theorem nonpositive_window_unlimited `{Unicode} spec f calls t0 :
  NewFixedWindow spec = Ok (Some f) -> fw_window f <= 0 -> nondecreasing t0 calls ->
  Forall (fun '(_, _, ok) => ok = true) (run_allow f calls).
Proof.
  intros Hnew Hw Hnd.
  assert (Hempty : fw_buckets f = ∅).
  { unfold NewFixedWindow in Hnew. destruct (ParseRate spec) as [[l w]|]; [|done].
    destruct (l <=? 0); by simplify_eq. }
  assert (Hb0 : forall k b, fw_buckets f !! k = Some b -> b_start b <= t0).
  { intros k b. by rewrite Hempty, lookup_empty. }
  clear Hnew Hempty. revert t0 f Hnd Hw Hb0.
  induction calls as [|[k now] calls IH]; intros t0 f Hnd Hw Hb; [constructor|].
  destruct Hnd as [Ht Hnd]. cbn [run_allow]. unfold Allow.
  assert (Hins : forall k' b', <[k := {| b_start := now; b_count := 1 |}]> (fw_buckets f) !! k'
    = Some b' -> b_start b' <= now).
  { intros k' b' [[_ <-]|[_ Hl]]%lookup_insert_Some; [done|]. apply Hb in Hl. lia. }
  destruct (fw_buckets f !! k) as [b|] eqn:Hk.
  - specialize (Hb k b Hk).
    replace (fw_window f <=? time_Sub now (b_start b)) with true
      by (unfold time_Sub, int64_min, int64_max; lia).
    constructor; [done|]. by apply (IH now).
  - constructor; [done|]. by apply (IH now).
Qed.

Lemma nonpositive_window_unlimited_witness :
  Forall (fun '(_, _, ok) => ok = true)
    (run_allow {| fw_limit := 1; fw_window := - Second; fw_buckets := ∅ |}
       [("k", 0); ("k", 0)]).
Proof.
  apply (nonpositive_window_unlimited (H := ascii_only) "1/-1s" _ _ 0);
    [reflexivity|by vm_compute|simpl; lia].
Defined.
