(* ===== verification/GoTime.v ===== *)
(** * time: instants and durations as text

    Instants are nanoseconds since the Unix epoch.  [time.Time{}] is an instant
    of its own, the first of January of year one. *)

From S2P Require Import Prelude GoStrings Ratelimit.
From stdpp Require Import options.

Local Open Scope Z_scope.

Definition zero_time : Z := -62135596800 * Second.

Definition IsZero (t : Z) : bool := t =? zero_time.

(** [n] in decimal, with zeros in front up to [width] digits. *)
Fixpoint zeros (n : nat) : string :=
  match n with O => "" | S n' => "0" +:+ zeros n' end.

Definition pad (width : nat) (n : Z) : string :=
  zeros (width - String.length (Itoa n)) +:+ Itoa n.

(** The proleptic Gregorian date of a day counted from the epoch. *)
Definition civil (days : Z) : Z * Z * Z :=
  let z := days + 719468 in
  let era := z / 146097 in
  let doe := z - era * 146097 in
  let yoe := (doe - doe / 1460 + doe / 36524 - doe / 146096) / 365 in
  let doy := doe - (365 * yoe + yoe / 4 - yoe / 100) in
  let mp := (5 * doy + 2) / 153 in
  let d := doy - (153 * mp + 2) / 5 + 1 in
  let m := if mp <? 10 then mp + 3 else mp - 9 in
  let y := yoe + era * 400 in
  (if m <=? 2 then y + 1 else y, m, d).

Definition date_text (t : Z) : string :=
  let '(y, m, d) := civil (t / Second / 86400) in
  pad 4 y +:+ "-" +:+ pad 2 m +:+ "-" +:+ pad 2 d.

Definition clock_text (t : Z) : string :=
  let s := (t / Second) mod 86400 in
  pad 2 (s / 3600) +:+ ":" +:+ pad 2 (s / 60 mod 60) +:+ ":" +:+ pad 2 (s mod 60).

(** [t.Format("2006-01-02 15:04:05")] *)
Definition FormatDateTime (t : Z) : string := date_text t +:+ " " +:+ clock_text t.

(** [t.Format("20060102T150405Z")] *)
Definition FormatCompact (t : Z) : string :=
  let '(y, m, d) := civil (t / Second / 86400) in
  let s := (t / Second) mod 86400 in
  pad 4 y +:+ pad 2 m +:+ pad 2 d +:+ "T" +:+ pad 2 (s / 3600) +:+ pad 2 (s / 60 mod 60)
  +:+ pad 2 (s mod 60) +:+ "Z".

(** The digits of a fraction of a second, without zeros at the end. *)
Definition fraction_text (ns : Z) : string :=
  if ns =? 0 then "" else "." +:+ TrimRight "0" (pad 9 ns).

(** [t.Format(time.RFC3339Nano)] of an instant in UTC. *)
Definition FormatRFC3339Nano (t : Z) : string :=
  date_text t +:+ "T" +:+ clock_text t +:+ fraction_text (t mod Second) +:+ "Z".

(** [d.Round(time.Second)] for a duration that is not negative. *)
Definition RoundSecond (d : Z) : Z :=
  let r := d mod Second in
  if r + r <? Second then d - r
  else if d + Second - r <=? int64_max then d + Second - r else int64_max.

(** [d.String()] of zero or of a duration of at least a second. *)
Definition Duration_String (d : Z) : string :=
  let s := d / Second in
  let seconds := Itoa (s mod 60) +:+ fraction_text (d mod Second) +:+ "s" in
  let minutes := Itoa (s / 60 mod 60) +:+ "m" in
  if s <? 60 then seconds
  else if s <? 3600 then minutes +:+ seconds
  else Itoa (s / 3600) +:+ "h" +:+ minutes +:+ seconds.

Example time_text_ex :
  (FormatDateTime zero_time, FormatRFC3339Nano (1709210096 * Second + 120000000),
   Duration_String (RoundSecond (3661 * Second + 500000000)), Duration_String 0,
   FormatCompact (951782400 * Second))
  = ("0001-01-01 00:00:00", "2024-02-29T12:34:56.12Z", "1h1m2s", "0s", "20000229T000000Z").
Proof. reflexivity. Qed.
