(* ===== verification/Config.v ===== *)
(** * internal/config: the configuration, its lookups and its validation *)

From S2P Require Import Prelude GoStrings Ratelimit.
From stdpp Require Import options.

(** ** What the host provides *)

(** Environment variables and files, as [os.Getenv], [os.ReadFile], [os.Stat]
    and [filepath.Glob] read them. *)
Class Host := {
  Getenv : string -> string;
  ReadFile : string -> res string;
  StatPerm : string -> res Z;
  Glob : string -> string -> res (list string);
}.

(** The files of the machine, by path. *)
Record File := { f_data : string; f_perm : Z }.

Notation FS := (gmap string File).

(** RE2 regular expressions given in the configuration: a compile error, or the
    matcher of the compiled expression. *)
Class Regexps := {
  regexp_Compile : string -> res (string -> bool);
}.

(** The pieces of a parsed URL the validation looks at. *)
Record URL := {
  url_Scheme : string;
  url_Host : string;
  url_Hostname : string;
  url_HasUser : bool;
  url_RawQuery : string;
  url_Fragment : string;
}.

(** [net/url.Parse], and [net.ParseIP]/[net.SplitHostPort] with the address
    classes asked of the result ([None]: not an address). *)
Class NetParsers := {
  url_Parse : string -> res URL;
  ip_IsLoopback : string -> option bool;
  ip_IsPrivate : string -> option bool;
  net_SplitHost : string -> res string;
}.

(** gopkg.in/yaml.v3: decoding a document into a value that already holds
    defaults. *)
Class Yaml (C : Type) := {
  yaml_Unmarshal : string -> C -> res C;
}.

(** ** Data *)

Record ServerConfig := {
  srv_APIListen : string;
  srv_LocalListen : string;
  srv_ExposeLocal : bool;
  srv_ReadTimeout : Z;
  srv_WriteTimeout : Z;
  srv_IdleTimeout : Z;
  srv_HeaderTimeout : Z;
  srv_MaxHeaderBytes : Z;
}.

Record UpstreamConfig := {
  up_BaseURL : string;
  up_BearerEnv : string;
  up_BearerFile : string;
  up_Bearer : string;
  up_ExtraHeaders : gmap string string;
  up_AllowInsecureHTTP : bool;
  up_AllowInsecureTLS : bool;
  up_CustomCAFile : string;
  up_MTLSCertFile : string;
  up_MTLSKeyFile : string;
  up_VersionPath : string;
  up_ResponseHeaderTimeout : Z;
}.

Record CompatibilityConfig := {
  comp_RemnawaveVersion : string;
  comp_AssumeVersion : string;
  comp_AllowVersionMismatch : bool;
}.

Record LimitsConfig := {
  lim_MaxPathLength : Z;
  lim_MaxQueryLength : Z;
  lim_MaxBodyBytes : Z;
  lim_GlobalConcurrency : Z;
  lim_PerTokenConcurrency : Z;
  lim_DefaultRate : string;
  lim_UpstreamBodyBytes : Z;
  lim_ShutdownGracePeriod : Z;
}.

Record MetricsConfig := { met_Enabled : bool }.

Record AuditConfig := {
  aud_Stdout : bool;
  aud_PepperEnv : string;
  aud_SQLitePath : string;
}.

Record TelegramAlertsConfig := {
  tga_Enabled : bool;
  tga_BotTokenEnv : string;
  tga_ChatIDEnv : string;
  tga_Cooldown : Z;
  tga_QueueSize : Z;
  tga_Timeout : Z;
  tga_APIBaseURL : string;
}.

Record AlertsConfig := {
  al_Enabled : bool;
  al_Telegram : TelegramAlertsConfig;
}.

Record ReportConfig := {
  rep_Enabled : bool;
  rep_UnsafeReportProxy : bool;
}.

Record PublicSubsConfig := {
  ps_Enabled : bool;
  ps_ShortUUIDRegex : string;
  ps_AllowedClients : list string;
  ps_RequestHeaderAllowlist : list string;
  ps_ResponseHeaderAllowlist : list string;
  ps_ExtraHeaders : gmap string string;
  ps_ExtraResponseHeaders : gmap string string;
  ps_AuthHeaderName : string;
  ps_AuthHeaderEnv : string;
  ps_PerIPConcurrency : Z;
  ps_PerIPRate : string;
}.

Record PanelFacadeSessionConfig := {
  pses_Issuer : string;
  pses_Audience : string;
  pses_TokenTTL : Z;
  pses_SecretEnv : string;
}.

Record PanelFacadeTelegramConfig := {
  ptg_ClientIDEnv : string;
  ptg_ClientSecretEnv : string;
  ptg_FrontendDomain : string;
  ptg_AuthURL : string;
  ptg_TokenURL : string;
  ptg_AuthMaxAge : Z;
}.

Record PanelFacadeTelegramActor := {
  act_CredentialID : string;
  act_DisplayName : string;
}.

(** [None] is the nil map. *)
Record PanelFacadeConfig := {
  pf_Enabled : bool;
  pf_Session : PanelFacadeSessionConfig;
  pf_Telegram : PanelFacadeTelegramConfig;
  pf_Actors_Telegram : option (gmap string PanelFacadeTelegramActor);
}.

Record ReloadConfig := {
  rel_SIGHUP : bool;
  rel_WatchFiles : bool;
  rel_AllowInsecureSecretFilePerms : bool;
}.

Record WriteSafetyConfig := {
  ws_SingleWriter : bool;
  ws_EnableRestrictedWrites : bool;
  ws_EnableTenantWritesLegacy : bool;
}.

Record IDRange := { rng_Min : Z; rng_Max : Z }.

Record Constraints := {
  c_UsernamePrefix : string;
  c_UsernameSuffix : string;
  c_UsernameContains : string;
  c_UsernameRegex : string;
  c_EmailContains : string;
  c_EmailDomains : list string;
  c_TelegramIDRanges : list IDRange;
  c_AllowedInternalSquads : list string;
  c_AllowedExternalSquads : list string;
  c_AllowedUsers : list string;
  c_AllowedConfigProfiles : list string;
  c_AllowedHosts : list string;
  c_AllowedNodes : list string;
  c_AllowAllConfigProfiles : bool;
  c_AllowAllHosts : bool;
  c_AllowAllNodes : bool;
  c_AllowedSubscriptionTemplates : list string;
  c_AllowedWritableInternalSquads : list string;
  c_AllowedWritableExternalSquads : list string;
  c_AllowedSubscriptionPageConfigs : list string;
  c_MaxTrafficLimitBytes : Z;
  c_ForbidUnlimitedTraffic : bool;
  c_MaxDescriptionLength : Z;
  c_AllowedRequestFields : gmap string (list string);
}.

Record Credential := {
  cred_ID : string;
  cred_HMACSHA256 : string;
  cred_Disabled : bool;
}.

Record TokenPolicy := {
  tok_ID : string;
  tok_Credentials : list Credential;
  tok_Scopes : list string;
  tok_Disabled : bool;
  tok_Constraints : Constraints;
}.

Record Config := {
  cfg_Server : ServerConfig;
  cfg_Upstream : UpstreamConfig;
  cfg_Compatibility : CompatibilityConfig;
  cfg_Limits : LimitsConfig;
  cfg_Metrics : MetricsConfig;
  cfg_Audit : AuditConfig;
  cfg_Alerts : AlertsConfig;
  cfg_Report : ReportConfig;
  cfg_PublicSubs : PublicSubsConfig;
  cfg_PanelFacade : PanelFacadeConfig;
  cfg_Reload : ReloadConfig;
  cfg_WriteSafety : WriteSafetyConfig;
  cfg_Tokens : list TokenPolicy;
  cfg_Include : list string;
  cfg_path : string;
}.

(** ** Lookups *)

Definition EffectiveVersion (c : CompatibilityConfig) : string :=
  if comp_AssumeVersion c <>s? "" then comp_AssumeVersion c else comp_RemnawaveVersion c.

Definition find_enabled (id : string) (creds : list Credential) : option Credential :=
  List.find (fun cr => (cred_ID cr =s? id) && negb (cred_Disabled cr)) creds.

(** [Config.FindCredential]: the first enabled credential with this ID of the
    first enabled token that has one.  [None] is the pair of nil pointers. *)
Fixpoint find_credential (toks : list TokenPolicy) (id : string)
    : option (TokenPolicy * Credential) :=
  match toks with
  | [] => None
  | t :: toks' =>
      if tok_Disabled t then find_credential toks' id
      else match find_enabled id (tok_Credentials t) with
           | Some cr => Some (t, cr)
           | None => find_credential toks' id
           end
  end.

Definition FindCredential (c : Config) (id : string) : option (TokenPolicy * Credential) :=
  find_credential (cfg_Tokens c) id.

Definition FindToken (c : Config) (id : string) : option TokenPolicy :=
  List.find (fun t => tok_ID t =s? id) (cfg_Tokens c).

Definition known_scopes : list string :=
  ["read:*"; "users:read"; "users:create"; "users:update"; "users:action"; "users:write";
   "user:read"; "user:write"; "user:action"; "hwid:read"; "hwid:write"; "squads:read";
   "squad:read"; "config-profiles:write"; "hosts:write"; "nodes:write";
   "subscription-templates:write"; "internal-squads:write"; "external-squads:write";
   "system:read"; "metadata:read"; "subscriptions:read"; "subscription:read";
   "subscription-pages:read"; "subscription-pages:write"; "remnawave:*"; "privileged:*"].

Definition KnownScope (scope : string) : bool := contains_str known_scopes scope.

Definition RestrictedWritesEnabled (c : WriteSafetyConfig) : bool :=
  ws_EnableRestrictedWrites c || ws_EnableTenantWritesLegacy c.

Definition hasTokenScope (tok : TokenPolicy) (scope : string) : bool :=
  contains_str (tok_Scopes tok) scope.

Definition user_write_scopes : list string :=
  ["users:create"; "users:update"; "users:action"; "users:write"; "user:write";
   "user:action"; "hwid:write"].

Definition hasUserWriteScope (tok : TokenPolicy) : bool :=
  existsb (contains_str user_write_scopes) (tok_Scopes tok).

Definition is_nil {A} (l : list A) : bool := match l with [] => true | _ => false end.

Definition hasUserOwnershipConstraint (c : Constraints) : bool :=
  (c_UsernamePrefix c <>s? "") || (c_UsernameSuffix c <>s? "") ||
  (c_UsernameContains c <>s? "") || (c_UsernameRegex c <>s? "") ||
  (c_EmailContains c <>s? "") || negb (is_nil (c_EmailDomains c)) ||
  negb (is_nil (c_TelegramIDRanges c)) || negb (is_nil (c_AllowedInternalSquads c)) ||
  negb (is_nil (c_AllowedExternalSquads c)) ||
  negb (is_nil (c_AllowedSubscriptionPageConfigs c)).

(** ** Host names and headers *)

Section validate.
Context `{Unicode} `{Host} `{Regexps} `{NetParsers}.

Definition isLocalHost (host : string) : bool :=
  (host =s? "localhost") ||
  match ip_IsLoopback host, ip_IsPrivate host with
  | Some l, Some p => l || p
  | _, _ => false
  end.

Definition isLoopbackHost (host : string) : bool :=
  (host =s? "localhost") ||
  match ip_IsLoopback host with Some l => l | None => false end.

(** [strings.Trim(host, "[]")]: either bracket on either end. *)
Fixpoint trim_left_brackets (s : string) : string :=
  match s with
  | String c s' => if (c =c? "[") || (c =c? "]") then trim_left_brackets s' else s
  | "" => ""
  end.

Definition trim_brackets (s : string) : string :=
  rev_str (trim_left_brackets (rev_str (trim_left_brackets s))).

Definition listenHostIsLoopback (addr : string) : bool :=
  match net_SplitHost addr with
  | Err _ => false
  | Ok host => if host =s? "" then false else isLoopbackHost (trim_brackets host)
  end.

Definition requireStrongSecretEnv (name : string) : res () :=
  let secret := TrimSpace (Getenv name) in
  if secret =s? "" then Err (name +:+ " must resolve to a non-empty value")
  else if (len secret <? 32)%Z then Err (name +:+ " must be at least 32 bytes")
  else Ok ().

(** [http.CanonicalHeaderKey] of a non-empty name is non-empty. *)
Definition validHeaderName (name : string) : bool :=
  (name <>s? "") &&
  negb (ContainsAny name (bytes [32; 9; 13; 10; 58])).

Definition protected_outbound_names : list string :=
  ["authorization"; "cookie"; "set-cookie"; "host"; "forwarded"; "x-real-ip";
   "connection"; "keep-alive"; "te"; "trailer"; "transfer-encoding"; "upgrade";
   "content-length"; "accept-encoding"; "content-encoding"].

Definition protectedOutboundHeader (name : string) : bool :=
  if negb (validHeaderName name) then true else
  let lower := ToLower name in
  if HasPrefix lower "x-forwarded-" || HasPrefix lower "proxy-" then true
  else contains_str protected_outbound_names lower.

Definition protectedResponseHeader (name : string) : bool :=
  if protectedOutboundHeader name then true else ToLower name =s? "location".

(** The [%o] verb on nine permission bits. *)
Definition octal (n : Z) : string :=
  (if (64 <=? n)%Z then Itoa (n / 64) else "") +:+
  (if (8 <=? n)%Z then Itoa (n / 8 mod 8) else "") +:+ Itoa (n mod 8).

Definition secureFile (path : string) : res () :=
  let? perm := StatPerm path in
  if negb (Z.land perm 63 =? 0)%Z
  then Err ("secret file " +:+ path +:+ " has insecure permissions " +:+ octal perm)
  else Ok ().

(** ** Upstream bearer *)

Definition b2z (b : bool) : Z := if b then 1 else 0.

Definition configuredBearerSources (c : Config) : Z :=
  (b2z (up_Bearer (cfg_Upstream c) <>s? "") + b2z (up_BearerEnv (cfg_Upstream c) <>s? "") +
   b2z (up_BearerFile (cfg_Upstream c) <>s? ""))%Z.

Definition resolveBearer (c : Config) : string :=
  let u := cfg_Upstream c in
  let '(n1, v1) := if up_Bearer u <>s? "" then (1%Z, up_Bearer u) else (0%Z, "") in
  let '(n2, v2) :=
    if (up_BearerEnv u <>s? "") && (Getenv (up_BearerEnv u) <>s? "")
    then ((n1 + 1)%Z, Getenv (up_BearerEnv u)) else (n1, v1) in
  let '(n3, v3) :=
    if up_BearerFile u <>s? "" then
      match ReadFile (up_BearerFile u) with
      | Ok b => if TrimSpace b <>s? "" then ((n2 + 1)%Z, TrimSpace b) else (n2, v2)
      | Err _ => (n2, v2)
      end
    else (n2, v2) in
  if (n3 =? 1)%Z then v3 else "".

Definition ResolveBearer := resolveBearer.

(** ** Validation *)

(** A loop that returns the first error. *)
Fixpoint each {A} (f : A -> res ()) (l : list A) : res () :=
  match l with
  | [] => Ok ()
  | x :: l' => check? f x then each f l'
  end.

Definition validateRestrictedWriteAllowlists (tok : TokenPolicy) : res () :=
  let c := tok_Constraints tok in
  let on_token := " on token " +:+ strconv_quote (tok_ID tok) in
  deny_if (hasUserWriteScope tok && is_nil (c_AllowedUsers c) &&
           negb (hasUserOwnershipConstraint c))
    ("user write scopes require allowed_users or user ownership constraints" +:+ on_token) (
  deny_if (hasTokenScope tok "config-profiles:write" && negb (c_AllowAllConfigProfiles c) &&
           is_nil (c_AllowedConfigProfiles c))
    ("config-profiles:write requires allowed_config_profiles or allow_all_config_profiles"
     +:+ on_token) (
  deny_if (hasTokenScope tok "hosts:write" && negb (c_AllowAllHosts c) &&
           is_nil (c_AllowedHosts c))
    ("hosts:write requires allowed_hosts or allow_all_hosts" +:+ on_token) (
  deny_if (hasTokenScope tok "nodes:write" && negb (c_AllowAllNodes c) &&
           is_nil (c_AllowedNodes c))
    ("nodes:write requires allowed_nodes or allow_all_nodes" +:+ on_token) (
  deny_if (hasTokenScope tok "subscription-templates:write" &&
           is_nil (c_AllowedSubscriptionTemplates c))
    ("subscription-templates:write requires allowed_subscription_templates" +:+ on_token) (
  deny_if (hasTokenScope tok "internal-squads:write" &&
           is_nil (c_AllowedWritableInternalSquads c))
    ("internal-squads:write requires allowed_writable_internal_squads" +:+ on_token) (
  deny_if (hasTokenScope tok "external-squads:write" &&
           is_nil (c_AllowedWritableExternalSquads c))
    ("external-squads:write requires allowed_writable_external_squads" +:+ on_token)
    (Ok ()))))))).

Definition validateHTTPSURL (raw field : string) : res () :=
  match url_Parse raw with
  | Err _ => Err (field +:+ " must be absolute")
  | Ok u =>
      if (url_Scheme u =s? "") || (url_Host u =s? "")
      then Err (field +:+ " must be absolute")
      else if (url_Scheme u <>s? "https") &&
              ((url_Scheme u <>s? "http") || negb (isLoopbackHost (url_Hostname u)))
      then Err (field +:+ " must be https unless localhost http")
      else Ok ()
  end.

Definition blank (s : string) : bool := TrimSpace s =s? "".

Definition validatePanelActor (c : Config) (e : string * PanelFacadeTelegramActor)
    : res () :=
  let '(telegramID, actor) := e in
  let credentialID := TrimSpace (act_CredentialID actor) in
  let panel_actor := "panel_facade actor " +:+ strconv_quote telegramID in
  deny_if (blank telegramID) "panel_facade.actors.telegram contains an empty telegram id" (
  deny_if (credentialID =s? "") (panel_actor +:+ " credential_id is required") (
  deny_if (HasPrefix credentialID "rg_")
    (panel_actor +:+
     " credential_id must reference a stored credential id, not a raw token") (
  match FindCredential c credentialID with
  | None => Err (panel_actor +:+ " references missing or disabled credential "
                 +:+ strconv_quote credentialID)
  | Some _ => Ok ()
  end))).

Definition validatePanelFacade (c : Config) : res () :=
  let panel := cfg_PanelFacade c in
  let ses := pf_Session panel in
  let tg := pf_Telegram panel in
  if negb (pf_Enabled panel) then Ok () else
  deny_if (blank (pses_Issuer ses)) "panel_facade.session.issuer is required" (
  deny_if (blank (pses_Audience ses)) "panel_facade.session.audience is required" (
  deny_if (pses_TokenTTL ses <=? 0)%Z "panel_facade.session.token_ttl must be positive" (
  deny_if (blank (pses_SecretEnv ses)) "panel_facade.session.secret_env is required" (
  match requireStrongSecretEnv (pses_SecretEnv ses) with
  | Err e => Err ("panel_facade.session.secret_env: " +:+ e)
  | Ok _ =>
  deny_if (blank (ptg_ClientIDEnv tg)) "panel_facade.telegram.client_id_env is required" (
  deny_if (blank (Getenv (ptg_ClientIDEnv tg)))
    "panel_facade.telegram.client_id_env must resolve to a non-empty value" (
  deny_if (blank (ptg_ClientSecretEnv tg))
    "panel_facade.telegram.client_secret_env is required" (
  deny_if (blank (Getenv (ptg_ClientSecretEnv tg)))
    "panel_facade.telegram.client_secret_env must resolve to a non-empty value" (
  deny_if (blank (ptg_FrontendDomain tg))
    "panel_facade.telegram.frontend_domain is required" (
  deny_if (ContainsAny (ptg_FrontendDomain tg) "/?#")
    "panel_facade.telegram.frontend_domain must be a host name without scheme or path" (
  deny_if (blank (ptg_AuthURL tg)) "panel_facade.telegram.auth_url is required" (
  deny_if (blank (ptg_TokenURL tg)) "panel_facade.telegram.token_url is required" (
  check? validateHTTPSURL (ptg_AuthURL tg) "panel_facade.telegram.auth_url" then
  check? validateHTTPSURL (ptg_TokenURL tg) "panel_facade.telegram.token_url" then
  deny_if (ptg_AuthMaxAge tg <=? 0)%Z
    "panel_facade.telegram.auth_max_age must be positive" (
  let actors := map_to_list (default ∅ (pf_Actors_Telegram panel)) in
  deny_if (is_nil actors) "panel_facade.actors.telegram must contain at least one actor" (
  each (validatePanelActor c) actors))))))))))
  end)))).

Definition validateAlerts (c : Config) : res () :=
  let tg := al_Telegram (cfg_Alerts c) in
  if negb (al_Enabled (cfg_Alerts c)) then Ok () else
  deny_if (negb (tga_Enabled tg))
    "alerts.telegram.enabled is required when alerts.enabled is true" (
  deny_if (blank (tga_BotTokenEnv tg)) "alerts.telegram.bot_token_env is required" (
  deny_if (blank (tga_ChatIDEnv tg)) "alerts.telegram.chat_id_env is required" (
  deny_if (blank (Getenv (tga_BotTokenEnv tg)))
    "alerts.telegram.bot_token_env must resolve to a non-empty value" (
  deny_if (blank (Getenv (tga_ChatIDEnv tg)))
    "alerts.telegram.chat_id_env must resolve to a non-empty value" (
  deny_if (tga_Cooldown tg <=? 0)%Z "alerts.telegram.cooldown must be positive" (
  deny_if (tga_QueueSize tg <? 0)%Z "alerts.telegram.queue_size must not be negative" (
  deny_if (tga_Timeout tg <=? 0)%Z "alerts.telegram.timeout must be positive" (
  let baseURL := TrimSpace (tga_APIBaseURL tg) in
  deny_if (baseURL =s? "") "alerts.telegram.api_base_url is required" (
  match url_Parse baseURL with
  | Err _ => Err "alerts.telegram.api_base_url must be absolute"
  | Ok u =>
      deny_if ((url_Scheme u =s? "") || (url_Host u =s? ""))
        "alerts.telegram.api_base_url must be absolute" (
      deny_if ((url_Scheme u <>s? "https") && negb (isLocalHost (url_Hostname u)))
        "alerts.telegram.api_base_url must be https unless localhost" (Ok ()))
  end))))))))).

Definition validate_upstream (c : Config) : res () :=
  let up := cfg_Upstream c in
  deny_if (up_BaseURL up =s? "") "upstream.base_url is required" (
  match url_Parse (up_BaseURL up) with
  | Err _ => Err "upstream.base_url must be absolute"
  | Ok u =>
      deny_if ((url_Scheme u =s? "") || (url_Host u =s? ""))
        "upstream.base_url must be absolute" (
      deny_if ((url_Scheme u <>s? "https") && negb (up_AllowInsecureHTTP up) &&
               negb (isLocalHost (url_Hostname u)))
        "upstream must be https unless localhost/private insecure override is explicit" (
      deny_if (url_HasUser u || (url_RawQuery u <>s? "") || (url_Fragment u <>s? ""))
        "upstream.base_url must not contain userinfo, query, or fragment" (
      deny_if (negb (configuredBearerSources c =? 1)%Z)
        "exactly one upstream bearer source must be configured" (Ok ()))))
  end).

Definition validate_limits (c : Config) : res () :=
  let l := cfg_Limits c in
  deny_if (lim_MaxPathLength l <=? 0)%Z "limits.max_path_length must be positive" (
  deny_if (lim_MaxQueryLength l <=? 0)%Z "limits.max_query_length must be positive" (
  deny_if (lim_MaxBodyBytes l <=? 0)%Z "limits.max_body_bytes must be positive" (
  deny_if (lim_UpstreamBodyBytes l <=? 0)%Z "limits.upstream_body_bytes must be positive" (
  deny_if (lim_GlobalConcurrency l <=? 0)%Z "limits.global_concurrency must be positive" (
  deny_if (lim_PerTokenConcurrency l <=? 0)%Z
    "limits.per_token_concurrency must be positive" (
  deny_if (ps_PerIPConcurrency (cfg_PublicSubs c) <=? 0)%Z
    "public_subscriptions.per_ip_concurrency must be positive" (
  let? _f := NewFixedWindow (lim_DefaultRate l) in
  let? _f := NewFixedWindow (ps_PerIPRate (cfg_PublicSubs c)) in
  Ok ()))))))).

Definition validate_files_and_version (c : Config) : res () :=
  let up := cfg_Upstream c in
  check? (if (up_BearerFile up <>s? "") &&
             negb (rel_AllowInsecureSecretFilePerms (cfg_Reload c))
          then secureFile (up_BearerFile up) else Ok ()) then
  deny_if (((up_MTLSCertFile up <>s? "") || (up_MTLSKeyFile up <>s? "")) &&
           ((up_MTLSCertFile up =s? "") || (up_MTLSKeyFile up =s? "")))
    "both upstream.mtls_cert_file and upstream.mtls_key_file are required for mTLS" (
  deny_if (EffectiveVersion (cfg_Compatibility c) =s? "")
    "compatibility.remnawave_version or assume_version is required" (
  deny_if (EffectiveVersion (cfg_Compatibility c) <>s? "2.8.1")
    ("unsupported Remnawave version " +:+
     strconv_quote (EffectiveVersion (cfg_Compatibility c))) (Ok ()))).

Definition reject_header (bad : string -> bool) (msg : string) (name : string) : res () :=
  deny_if (bad name) (msg +:+ strconv_quote name) (Ok ()).

Definition validate_public_subs (c : Config) : res () :=
  let ps := cfg_PublicSubs c in
  match regexp_Compile (ps_ShortUUIDRegex ps) with
  | Err e => Err ("invalid public_subscriptions.short_uuid_regex: " +:+ e)
  | Ok _ =>
  let named := ps_AuthHeaderName ps <>s? "" in
  deny_if (named && protectedOutboundHeader (ps_AuthHeaderName ps))
    ("invalid public subscription auth header " +:+ strconv_quote (ps_AuthHeaderName ps)) (
  deny_if (named && (ps_AuthHeaderEnv ps =s? ""))
    "public subscription auth_header_env is required when auth_header_name is set" (
  deny_if (named && blank (Getenv (ps_AuthHeaderEnv ps)))
    "public subscription auth_header_env must resolve to a non-empty value" (
  check? each (reject_header protectedOutboundHeader
                 "protected or invalid public subscription request header ")
           (ps_RequestHeaderAllowlist ps) then
  check? each (reject_header protectedResponseHeader
                 "invalid public subscription response header ")
           (ps_ResponseHeaderAllowlist ps) then
  check? each (reject_header protectedResponseHeader
                 "invalid public subscription extra response header ")
           (map fst (map_to_list (ps_ExtraResponseHeaders ps))) then
  check? each (reject_header protectedOutboundHeader
                 "protected or invalid public subscription extra header ")
           (map fst (map_to_list (ps_ExtraHeaders ps))) then
  each (fun client =>
          deny_if ((client =s? "") || Contains client "/")
            ("invalid public subscription client type " +:+ strconv_quote client) (Ok ()))
    (ps_AllowedClients ps))))
  end.

Definition validate_listeners (c : Config) : res () :=
  let srv := cfg_Server c in
  deny_if (srv_LocalListen srv =s? "") "server.local_listen is required" (
  deny_if (negb (srv_ExposeLocal srv) && negb (listenHostIsLoopback (srv_LocalListen srv)))
    "server.local_listen must be loopback unless server.expose_local is true" (
  deny_if (srv_ExposeLocal srv && listenHostIsLoopback (srv_LocalListen srv))
    "server.expose_local cannot be true while local listener is loopback-only" (Ok ()))).

Definition validate_request_fields (tok : TokenPolicy) (e : string * list string) : res () :=
  let '(routeName, fields) := e in
  let on_token := " on token " +:+ strconv_quote (tok_ID tok) in
  deny_if (blank routeName) ("empty allowed_request_fields route" +:+ on_token) (
  deny_if (is_nil fields)
    ("empty allowed_request_fields for route " +:+ strconv_quote routeName +:+ on_token) (
  each (fun field =>
          deny_if (blank field)
            ("empty allowed request field for route " +:+ strconv_quote routeName
             +:+ on_token) (Ok ())) fields)).

(** The credentials of one token, threading [credIDs]. *)
Fixpoint validate_creds (tok : TokenPolicy) (creds : list Credential)
    (credIDs : gset string) : res (gset string) :=
  match creds with
  | [] => Ok credIDs
  | cr :: creds' =>
      deny_if ((cred_ID cr =s? "") || (cred_HMACSHA256 cr =s? ""))
        ("credential id and hmac_sha256 are required on token "
         +:+ strconv_quote (tok_ID tok)) (
      deny_if (bool_decide (cred_ID cr ∈ credIDs))
        ("duplicate credential id " +:+ strconv_quote (cred_ID cr)) (
      validate_creds tok creds' ({[cred_ID cr]} ∪ credIDs)))
  end.

Definition validate_token_policy (tok : TokenPolicy) : res () :=
  let c := tok_Constraints tok in
  check? each (fun scope =>
                 deny_if (negb (KnownScope scope))
                   ("unknown scope " +:+ strconv_quote scope +:+ " on token "
                    +:+ strconv_quote (tok_ID tok)) (Ok ())) (tok_Scopes tok) then
  check? validateRestrictedWriteAllowlists tok then
  check? (if c_UsernameRegex c <>s? "" then
            match regexp_Compile (c_UsernameRegex c) with
            | Err e => Err ("invalid username_regex on token " +:+
                            strconv_quote (tok_ID tok) +:+ ": " +:+ e)
            | Ok _ => Ok ()
            end
          else Ok ()) then
  check? each (fun r =>
                 deny_if ((rng_Min r <? 0) || (rng_Max r <? rng_Min r))%Z
                   ("invalid telegram_id_ranges on token " +:+ strconv_quote (tok_ID tok))
                   (Ok ())) (c_TelegramIDRanges c) then
  each (validate_request_fields tok) (map_to_list (c_AllowedRequestFields c)).

(** The loop over [c.Tokens], threading [tokenIDs] and [credIDs]. *)
Fixpoint validate_tokens (toks : list TokenPolicy) (tokenIDs credIDs : gset string)
    : res () :=
  match toks with
  | [] => Ok ()
  | tok :: toks' =>
      deny_if (tok_ID tok =s? "") "token id is required" (
      deny_if (bool_decide (tok_ID tok ∈ tokenIDs))
        ("duplicate token id " +:+ strconv_quote (tok_ID tok)) (
      check? validate_token_policy tok then
      let? credIDs' := validate_creds tok (tok_Credentials tok) credIDs in
      validate_tokens toks' ({[tok_ID tok]} ∪ tokenIDs) credIDs'))
  end.

Definition Validate (c : Config) : res () :=
  check? validate_upstream c then
  check? validateAlerts c then
  check? validatePanelFacade c then
  deny_if (resolveBearer c =s? "")
    "configured upstream bearer source must resolve to a non-empty value" (
  check? validate_limits c then
  check? validate_files_and_version c then
  check? validate_public_subs c then
  check? validate_listeners c then
  check? (if is_nil (cfg_Tokens c) then Ok ()
          else requireStrongSecretEnv "REMNAGUARD_TOKEN_PEPPER") then
  check? validate_tokens (cfg_Tokens c) ∅ ∅ then
  each (reject_header protectedOutboundHeader "protected or invalid upstream extra header ")
    (map fst (map_to_list (up_ExtraHeaders (cfg_Upstream c))))).

(** ** Loading *)

Context `{!Yaml Config}.

Definition empty_constraints : Constraints :=
  Build_Constraints "" "" "" "" "" [] [] [] [] [] [] [] [] false false false
    [] [] [] [] 0 false 0 ∅.

(** The zero [Config] an included file is decoded into. *)
Definition zero_config : Config := {|
  cfg_Server := Build_ServerConfig "" "" false 0 0 0 0 0;
  cfg_Upstream := Build_UpstreamConfig "" "" "" "" ∅ false false "" "" "" "" 0;
  cfg_Compatibility := Build_CompatibilityConfig "" "" false;
  cfg_Limits := Build_LimitsConfig 0 0 0 0 0 "" 0 0;
  cfg_Metrics := {| met_Enabled := false |};
  cfg_Audit := Build_AuditConfig false "" "";
  cfg_Alerts := Build_AlertsConfig false (Build_TelegramAlertsConfig false "" "" 0 0 0 "");
  cfg_Report := Build_ReportConfig false false;
  cfg_PublicSubs := Build_PublicSubsConfig false "" [] [] [] ∅ ∅ "" "" 0 "";
  cfg_PanelFacade := Build_PanelFacadeConfig false (Build_PanelFacadeSessionConfig "" "" 0 "")
    (Build_PanelFacadeTelegramConfig "" "" "" "" "" 0) None;
  cfg_Reload := Build_ReloadConfig false false false;
  cfg_WriteSafety := Build_WriteSafetyConfig false false false;
  cfg_Tokens := []; cfg_Include := []; cfg_path := "";
|}.

Definition Defaults : Config := {|
  cfg_Server := {|
    srv_APIListen := ":8080"; srv_LocalListen := "127.0.0.1:8081";
    srv_ExposeLocal := false; srv_ReadTimeout := 15 * Second;
    srv_WriteTimeout := 60 * Second; srv_IdleTimeout := 60 * Second;
    srv_HeaderTimeout := 5 * Second; srv_MaxHeaderBytes := 2 ^ 20 |};
  cfg_Upstream := cfg_Upstream zero_config;
  cfg_Compatibility := {| comp_RemnawaveVersion := "2.8.1"; comp_AssumeVersion := "";
                          comp_AllowVersionMismatch := false |};
  cfg_Limits := {|
    lim_MaxPathLength := 2048; lim_MaxQueryLength := 4096; lim_MaxBodyBytes := 2 ^ 20;
    lim_GlobalConcurrency := 128; lim_PerTokenConcurrency := 8;
    lim_DefaultRate := "600/m"; lim_UpstreamBodyBytes := 64 * 2 ^ 20;
    lim_ShutdownGracePeriod := 10 * Second |};
  cfg_Metrics := cfg_Metrics zero_config;
  cfg_Audit := {| aud_Stdout := true; aud_PepperEnv := "REMNAGUARD_AUDIT_PEPPER";
                  aud_SQLitePath := "" |};
  cfg_Alerts := {|
    al_Enabled := false;
    al_Telegram := {|
      tga_Enabled := false; tga_BotTokenEnv := ""; tga_ChatIDEnv := "";
      tga_Cooldown := 5 * Minute; tga_QueueSize := 100; tga_Timeout := 5 * Second;
      tga_APIBaseURL := "https://api.telegram.org" |} |};
  cfg_Report := cfg_Report zero_config;
  cfg_PublicSubs := {|
    ps_Enabled := false;
    ps_ShortUUIDRegex := "^[A-Za-z0-9_-]{6,64}$";
    ps_AllowedClients := ["sing-box"; "clash"; "v2ray"; "hiddify"];
    ps_RequestHeaderAllowlist := ["user-agent"; "accept"; "x-hwid"; "x-device-os";
      "x-ver-os"; "x-device-model"; "x-app-version"];
    ps_ResponseHeaderAllowlist := ["content-type"; "content-disposition";
      "subscription-userinfo"; "profile-update-interval"; "profile-web-page-url";
      "support-url"; "x-provider-id"];
    ps_ExtraHeaders := ∅; ps_ExtraResponseHeaders := ∅;
    ps_AuthHeaderName := ""; ps_AuthHeaderEnv := "";
    ps_PerIPConcurrency := 8; ps_PerIPRate := "120/m" |};
  cfg_PanelFacade := cfg_PanelFacade zero_config;
  cfg_Reload := cfg_Reload zero_config;
  cfg_WriteSafety := cfg_WriteSafety zero_config;
  cfg_Tokens := []; cfg_Include := []; cfg_path := "";
|}.

Definition loadInto (path : string) (c : Config) : res Config :=
  let? b := ReadFile path in yaml_Unmarshal b c.

Definition add_tokens (c : Config) (toks : list TokenPolicy) : Config :=
  Build_Config (cfg_Server c) (cfg_Upstream c) (cfg_Compatibility c) (cfg_Limits c)
    (cfg_Metrics c) (cfg_Audit c) (cfg_Alerts c) (cfg_Report c) (cfg_PublicSubs c)
    (cfg_PanelFacade c) (cfg_Reload c) (cfg_WriteSafety c) (cfg_Tokens c ++ toks)
    (cfg_Include c) (cfg_path c).

Definition set_path (c : Config) (path : string) : Config :=
  Build_Config (cfg_Server c) (cfg_Upstream c) (cfg_Compatibility c) (cfg_Limits c)
    (cfg_Metrics c) (cfg_Audit c) (cfg_Alerts c) (cfg_Report c) (cfg_PublicSubs c)
    (cfg_PanelFacade c) (cfg_Reload c) (cfg_WriteSafety c) (cfg_Tokens c)
    (cfg_Include c) path.

Fixpoint load_matches (matches : list string) (c : Config) : res Config :=
  match matches with
  | [] => Ok c
  | m :: ms => let? child := loadInto m zero_config in
               load_matches ms (add_tokens c (cfg_Tokens child))
  end.

(** [Glob base inc] stands for [filepath.Glob(filepath.Join(base, inc))]. *)
Fixpoint load_includes (base : string) (incs : list string) (c : Config) : res Config :=
  match incs with
  | [] => Ok c
  | inc :: incs' =>
      let? matches := Glob base inc in
      let? c' := load_matches matches c in
      load_includes base incs' c'
  end.

Definition Load (dir : string -> string) (path : string) : res Config :=
  let? c := loadInto path Defaults in
  let? c1 := load_includes (dir path) (cfg_Include c) c in
  let c2 := set_path c1 path in
  check? Validate c2 then Ok c2.
End validate.

(** ** Facts about the lookups *)

Lemma find_enabled_Some id creds cr :
  find_enabled id creds = Some cr -> cr ∈ creds /\ cred_ID cr = id /\ cred_Disabled cr = false.
Proof.
  intros [Hin Hb]%List.find_some. rewrite list_elem_of_In.
  apply andb_true_iff in Hb as [Hid%eqs_true Hd%negb_true_iff]. done.
Qed.

Lemma find_enabled_None id creds cr :
  find_enabled id creds = None -> cr ∈ creds -> cred_ID cr = id -> cred_Disabled cr = true.
Proof.
  intros Hf Hin%list_elem_of_In Hid. apply (List.find_none _ _ Hf) in Hin.
  rewrite Hid, eqs_refl in Hin. simpl in Hin. by apply negb_false_iff in Hin.
Qed.

Lemma find_credential_Some toks id t cr :
  find_credential toks id = Some (t, cr) ->
  t ∈ toks /\ cr ∈ tok_Credentials t /\ cred_ID cr = id /\
  tok_Disabled t = false /\ cred_Disabled cr = false.
Proof.
  induction toks as [|t' toks IH]; simpl; [done|].
  destruct (tok_Disabled t') eqn:Hd.
  { intros H%IH. rewrite elem_of_cons. naive_solver. }
  destruct (find_enabled id (tok_Credentials t')) as [cr'|] eqn:Hf.
  - intros [= <- <-]. apply find_enabled_Some in Hf. rewrite elem_of_cons. naive_solver.
  - intros H%IH. rewrite elem_of_cons. naive_solver.
Qed.

Lemma find_credential_None toks id t cr :
  find_credential toks id = None -> t ∈ toks -> cr ∈ tok_Credentials t ->
  cred_ID cr = id -> tok_Disabled t = true \/ cred_Disabled cr = true.
Proof.
  induction toks as [|t' toks IH]; simpl; [by intros _ ?%not_elem_of_nil|].
  intros Hf [->|Hin]%elem_of_cons Hcr Hid.
  - destruct (tok_Disabled t'); [by left|]. right.
    destruct (find_enabled id (tok_Credentials t')) eqn:Hfe; [done|].
    by eapply find_enabled_None.
  - destruct (tok_Disabled t'); [by apply IH|].
    destruct (find_enabled id (tok_Credentials t')); [done|]. by apply IH.
Qed.

(** All credential IDs of a configuration, in order. *)
Definition all_credential_ids (toks : list TokenPolicy) : list string :=
  concat (map (fun t => map cred_ID (tok_Credentials t)) toks).

Lemma elem_of_map_2 {A B} (f : A -> B) l x : x ∈ l -> f x ∈ map f l.
Proof. rewrite !list_elem_of_In. apply in_map. Qed.

(** With distinct credential IDs, an ID names at most one credential. *)
Lemma credential_unique toks t1 t2 c1 c2 :
  NoDup (all_credential_ids toks) -> t1 ∈ toks -> t2 ∈ toks ->
  c1 ∈ tok_Credentials t1 -> c2 ∈ tok_Credentials t2 -> cred_ID c1 = cred_ID c2 ->
  t1 = t2 /\ c1 = c2.
Proof.
  intros Hnd H1 H2 Hc1 Hc2 Heq. induction toks as [|t toks IH]; [by apply not_elem_of_nil in H1|].
  unfold all_credential_ids in Hnd. simpl in Hnd.
  apply NoDup_app in Hnd as (Hndt & Hdisj & Hnd).
  assert (Hin : forall t' c', t' ∈ toks -> c' ∈ tok_Credentials t' ->
    cred_ID c' ∈ all_credential_ids toks).
  { intros t' c' Ht Hc. unfold all_credential_ids. apply list_elem_of_In, in_concat.
    exists (map cred_ID (tok_Credentials t')). rewrite <- !list_elem_of_In.
    split; [|by apply elem_of_map_2].
    by apply (elem_of_map_2 (fun t => map cred_ID (tok_Credentials t))). }
  apply elem_of_cons in H1 as [->|H1]; apply elem_of_cons in H2 as [->|H2].
  - split; [done|]. clear -Hndt Hc1 Hc2 Heq.
    induction (tok_Credentials t) as [|c cs IH]; [by apply not_elem_of_nil in Hc1|].
    simpl in Hndt. apply NoDup_cons in Hndt as [Hni Hnd].
    apply elem_of_cons in Hc1 as [->|Hc1]; apply elem_of_cons in Hc2 as [->|Hc2].
    + done.
    + destruct Hni. rewrite Heq. by apply elem_of_map_2.
    + destruct Hni. rewrite <- Heq. by apply elem_of_map_2.
    + by apply IH.
  - destruct (Hdisj (cred_ID c1)); [by apply elem_of_map_2|]. rewrite Heq. eauto.
  - destruct (Hdisj (cred_ID c2)); [by apply elem_of_map_2|]. rewrite <- Heq. eauto.
  - by apply IH.
Qed.

Section validate_facts.
Context `{Unicode} `{Host} `{Regexps} `{NetParsers}.

Lemma each_Forall {A} (f : A -> res ()) l : each f l = Ok () <-> Forall (fun x => f x = Ok ()) l.
Proof.
  induction l as [|x l IH]; simpl; [by split|]. rewrite Forall_cons, <- IH.
  destruct (f x) as [[]|]; naive_solver.
Qed.

Lemma deny_if_Ok {A} b e (k : res A) v : deny_if b e k = Ok v <-> b = false /\ k = Ok v.
Proof. destruct b; simpl; naive_solver. Qed.

Lemma validate_creds_Ok tok creds ids ids' :
  validate_creds tok creds ids = Ok ids' ->
  NoDup (map cred_ID creds) /\ (forall i, i ∈ map cred_ID creds -> i ∉ ids) /\
  ids' = list_to_set (map cred_ID creds) ∪ ids /\
  Forall (fun cr => cred_ID cr <> "" /\ cred_HMACSHA256 cr <> "") creds.
Proof.
  revert ids. induction creds as [|cr creds IH]; simpl; intros ids.
  { intros [= <-]. split_and!; [constructor| |set_solver|constructor].
    intros i. by intros ?%not_elem_of_nil. }
  rewrite !deny_if_Ok. intros (Hne & Hdup & Hrec).
  apply IH in Hrec as (Hnd & Hdisj & -> & Hall).
  apply orb_false_iff in Hne as [?%eqs_false ?%eqs_false].
  apply bool_decide_eq_false in Hdup. split_and!.
  - constructor; [|done]. intros Hin. apply Hdisj in Hin. set_solver.
  - intros i [->|Hin]%elem_of_cons; [done|]. apply Hdisj in Hin. set_solver.
  - apply set_eq. set_solver.
  - by constructor.
Qed.

Lemma validate_tokens_Ok toks tids cids :
  validate_tokens toks tids cids = Ok () ->
  NoDup (map tok_ID toks) /\ (forall i, i ∈ map tok_ID toks -> i <> "" /\ i ∉ tids) /\
  NoDup (all_credential_ids toks) /\ (forall i, i ∈ all_credential_ids toks -> i ∉ cids) /\
  Forall (fun t => validate_token_policy t = Ok () /\
    Forall (fun cr => cred_ID cr <> "" /\ cred_HMACSHA256 cr <> "") (tok_Credentials t)) toks.
Proof.
  revert tids cids. induction toks as [|t toks IH]; simpl; intros tids cids.
  { intros _. unfold all_credential_ids. simpl.
    split_and!; [apply NoDup_nil_2| |apply NoDup_nil_2| |constructor];
      by intros i ?%not_elem_of_nil. }
  rewrite !deny_if_Ok. intros (Hne%eqs_false & Hdup%bool_decide_eq_false & Hrest).
  destruct (validate_token_policy t) as [[]|] eqn:Hp; [|done].
  destruct (validate_creds t (tok_Credentials t) cids) as [cids'|] eqn:Hc; [|done].
  apply validate_creds_Ok in Hc as (Hnd & Hdisj & -> & Hcr).
  apply IH in Hrest as (Htn & Htd & Hcn & Hcd & Hall).
  unfold all_credential_ids in *. simpl. split_and!.
  - constructor; [|done]. intros Hin. apply Htd in Hin as [_ Hin]. set_solver.
  - intros i [->|Hin]%elem_of_cons; [done|]. apply Htd in Hin. set_solver.
  - apply NoDup_app. split; [done|]. split; [|done].
    intros i Hi Hi'. apply Hcd in Hi'. apply Hi', elem_of_union_l, elem_of_list_to_set, Hi.
  - intros i [Hi|Hi]%elem_of_app; [by apply Hdisj|]. apply Hcd in Hi.
    intros Hin. by apply Hi, elem_of_union_r.
  - by constructor.
Qed.

Lemma Validate_Ok c :
  Validate c = Ok () ->
  validate_upstream c = Ok () /\ validateAlerts c = Ok () /\ validatePanelFacade c = Ok () /\
  resolveBearer c <> "" /\ validate_limits c = Ok () /\
  validate_files_and_version c = Ok () /\ validate_public_subs c = Ok () /\
  validate_listeners c = Ok () /\ validate_tokens (cfg_Tokens c) ∅ ∅ = Ok () /\
  each (reject_header protectedOutboundHeader "protected or invalid upstream extra header ")
    (map fst (map_to_list (up_ExtraHeaders (cfg_Upstream c)))) = Ok ().
Proof.
  unfold Validate. intros Hv.
  destruct (validate_upstream c) as [[]|]; [|done].
  destruct (validateAlerts c) as [[]|]; [|done].
  destruct (validatePanelFacade c) as [[]|]; [|done].
  apply deny_if_Ok in Hv as [Hb%eqs_false Hv].
  destruct (validate_limits c) as [[]|]; [|done].
  destruct (validate_files_and_version c) as [[]|]; [|done].
  destruct (validate_public_subs c) as [[]|]; [|done].
  destruct (validate_listeners c) as [[]|]; [|done].
  case_match; [|done]. case_match; subst.
  destruct (validate_tokens (cfg_Tokens c) ∅ ∅) as [[]|]; done.
Qed.
End validate_facts.
