(* ===== verification/ConfigFacts.v ===== *)
(** * internal/config: what a validated configuration guarantees *)

From S2P Require Import Prelude GoStrings Ratelimit Config.
From stdpp Require Import options.

Local Open Scope Z_scope.

Section wf.
Context `{Unicode} `{Host} `{Regexps} `{NetParsers}.

(** A token that may write is confined. *)
Record confined (tok : TokenPolicy) : Prop := {
  cf_scopes : Forall (fun s => KnownScope s = true) (tok_Scopes tok);
  cf_users : hasUserWriteScope tok = true ->
    c_AllowedUsers (tok_Constraints tok) <> [] \/
    hasUserOwnershipConstraint (tok_Constraints tok) = true;
  cf_profiles : "config-profiles:write" ∈ tok_Scopes tok ->
    c_AllowAllConfigProfiles (tok_Constraints tok) = true \/
    c_AllowedConfigProfiles (tok_Constraints tok) <> [];
  cf_hosts : "hosts:write" ∈ tok_Scopes tok ->
    c_AllowAllHosts (tok_Constraints tok) = true \/ c_AllowedHosts (tok_Constraints tok) <> [];
  cf_nodes : "nodes:write" ∈ tok_Scopes tok ->
    c_AllowAllNodes (tok_Constraints tok) = true \/ c_AllowedNodes (tok_Constraints tok) <> [];
  cf_templates : "subscription-templates:write" ∈ tok_Scopes tok ->
    c_AllowedSubscriptionTemplates (tok_Constraints tok) <> [];
  cf_internal : "internal-squads:write" ∈ tok_Scopes tok ->
    c_AllowedWritableInternalSquads (tok_Constraints tok) <> [];
  cf_external : "external-squads:write" ∈ tok_Scopes tok ->
    c_AllowedWritableExternalSquads (tok_Constraints tok) <> [];
}.

(** An enabled credential of an enabled token. *)
Definition enabled (c : Config) (tok : TokenPolicy) (cr : Credential) : Prop :=
  tok ∈ cfg_Tokens c /\ cr ∈ tok_Credentials tok /\ tok_Disabled tok = false /\
  cred_Disabled cr = false.

Record wf_config (c : Config) : Prop := {
  wf_token_ids : NoDup (map tok_ID (cfg_Tokens c)) /\ "" ∉ map tok_ID (cfg_Tokens c);
  wf_credentials : forall id tok cr,
    FindCredential c id = Some (tok, cr) <-> enabled c tok cr /\ cred_ID cr = id;
  wf_tokens : Forall confined (cfg_Tokens c);
  wf_limits : 0 < lim_MaxPathLength (cfg_Limits c) /\ 0 < lim_MaxQueryLength (cfg_Limits c) /\
    0 < lim_MaxBodyBytes (cfg_Limits c) /\ 0 < lim_UpstreamBodyBytes (cfg_Limits c) /\
    0 < lim_GlobalConcurrency (cfg_Limits c) /\ 0 < lim_PerTokenConcurrency (cfg_Limits c) /\
    0 < ps_PerIPConcurrency (cfg_PublicSubs c);
  wf_bearer : ResolveBearer c <> "";
  wf_version : EffectiveVersion (cfg_Compatibility c) = "2.8.1";
  wf_actors : pf_Enabled (cfg_PanelFacade c) = true ->
    forall id actor, default ∅ (pf_Actors_Telegram (cfg_PanelFacade c)) !! id = Some actor ->
    exists tok cr, enabled c tok cr /\ cred_ID cr = TrimSpace (act_CredentialID actor);
}.

Lemma not_nil_spec {A} (l : list A) : is_nil l = false <-> l <> [].
Proof. by destruct l. Qed.

Lemma hasTokenScope_spec tok s : hasTokenScope tok s = true <-> s ∈ tok_Scopes tok.
Proof. apply contains_str_spec. Qed.

Lemma guard_false (a b : bool) : a && b = false -> a = true -> b = false.
Proof. by intros Hab ->. Qed.

Lemma restricted_Ok tok :
  validateRestrictedWriteAllowlists tok = Ok () ->
  Forall (fun s => KnownScope s = true) (tok_Scopes tok) -> confined tok.
Proof.
  unfold validateRestrictedWriteAllowlists. rewrite !deny_if_Ok.
  intros (Hu & Hp & Hh & Hn & Ht & Hi & He & _) Hs.
  assert (Hall : forall s a l, hasTokenScope tok s && negb a && is_nil l = false ->
    s ∈ tok_Scopes tok -> a = true \/ (l : list string) <> []).
  { intros s a l Hb Hin%hasTokenScope_spec. rewrite Hin in Hb. destruct a; [by left|].
    right. by apply not_nil_spec. }
  assert (Hone : forall s l, hasTokenScope tok s && is_nil l = false ->
    s ∈ tok_Scopes tok -> (l : list string) <> []).
  { intros s l Hb Hin%hasTokenScope_spec. rewrite Hin in Hb. by apply not_nil_spec. }
  split; try done; eauto.
  intros Hw. rewrite Hw in Hu. simpl in Hu.
  apply andb_false_iff in Hu as [Hu|Hu%negb_false_iff]; [|by right].
  left. by apply not_nil_spec.
Qed.

Lemma token_policy_Ok tok : validate_token_policy tok = Ok () -> confined tok.
Proof.
  unfold validate_token_policy. intros Hv.
  destruct (each _ (tok_Scopes tok)) as [[]|] eqn:Hs; [|done].
  destruct (validateRestrictedWriteAllowlists tok) as [[]|] eqn:Hr; [|done].
  apply restricted_Ok; [done|]. apply each_Forall in Hs. eapply Forall_impl; [exact Hs|].
  intros s Hd. apply deny_if_Ok in Hd as [Hd%negb_false_iff _]. done.
Qed.

Lemma limits_Ok c :
  validate_limits c = Ok () ->
  0 < lim_MaxPathLength (cfg_Limits c) /\ 0 < lim_MaxQueryLength (cfg_Limits c) /\
  0 < lim_MaxBodyBytes (cfg_Limits c) /\ 0 < lim_UpstreamBodyBytes (cfg_Limits c) /\
  0 < lim_GlobalConcurrency (cfg_Limits c) /\ 0 < lim_PerTokenConcurrency (cfg_Limits c) /\
  0 < ps_PerIPConcurrency (cfg_PublicSubs c).
Proof. unfold validate_limits. rewrite !deny_if_Ok, !Z.leb_gt. tauto. Qed.

Lemma version_Ok c :
  validate_files_and_version c = Ok () -> EffectiveVersion (cfg_Compatibility c) = "2.8.1".
Proof.
  unfold validate_files_and_version.
  match goal with |- context [match ?x with _ => _ end] => destruct x as [[]|]; [|done] end.
  rewrite !deny_if_Ok. intros (_ & _ & Hv & _). by apply negb_false_iff, eqs_true in Hv.
Qed.

Lemma FindCredential_enabled c id tok cr :
  NoDup (all_credential_ids (cfg_Tokens c)) ->
  FindCredential c id = Some (tok, cr) <-> enabled c tok cr /\ cred_ID cr = id.
Proof.
  intros Hnd. split.
  - intros (Ht & Hc & Hid & Hdt & Hdc)%find_credential_Some. done.
  - intros ((Ht & Hc & Hdt & Hdc) & Hid). unfold FindCredential.
    destruct (find_credential (cfg_Tokens c) id) as [[t' c']|] eqn:Hf.
    + apply find_credential_Some in Hf as (Ht' & Hc' & Hid' & _).
      destruct (credential_unique (cfg_Tokens c) tok t' cr c') as [-> ->]; try done.
      congruence.
    + destruct (find_credential_None _ _ _ _ Hf Ht Hc Hid); congruence.
Qed.

Lemma panel_actors_Ok c id actor :
  validatePanelFacade c = Ok () -> pf_Enabled (cfg_PanelFacade c) = true ->
  default ∅ (pf_Actors_Telegram (cfg_PanelFacade c)) !! id = Some actor ->
  exists tc, FindCredential c (TrimSpace (act_CredentialID actor)) = Some tc.
Proof.
  unfold validatePanelFacade. intros Hv He Hl. rewrite He in Hv. simpl in Hv.
  repeat (apply deny_if_Ok in Hv as [_ Hv]). destruct (requireStrongSecretEnv _); [|done].
  repeat (apply deny_if_Ok in Hv as [_ Hv]).
  destruct (validateHTTPSURL _ _) as [[]|]; [|done].
  destruct (validateHTTPSURL _ _) as [[]|]; [|done].
  repeat (apply deny_if_Ok in Hv as [_ Hv]).
  apply each_Forall, Forall_forall with (x := (id, actor)) in Hv;
    [|by apply elem_of_map_to_list].
  unfold validatePanelActor in Hv. repeat (apply deny_if_Ok in Hv as [_ Hv]).
  destruct (FindCredential c _) as [tc|]; [by exists tc|done].
Qed.
End wf.

(** ** Properties *)

(** C18: a validated configuration is well formed.  Token ids are distinct and not
    empty; a credential id finds exactly the one enabled credential that has it;
    every token with a write scope is confined by the matching constraints; the
    limits are positive; the upstream bearer resolves; and every panel actor maps
    to an enabled credential. *)
Theorem validated_config_wf `{Unicode} `{Host} `{Regexps} `{NetParsers} c :
  Validate c = Ok () -> wf_config c.
Proof.
  intros (_ & _ & Hpanel & Hb & Hl & Hv & _ & _ & Ht & _)%Validate_Ok.
  apply validate_tokens_Ok in Ht as (Hids & Hne & Hcreds & _ & Htoks).
  split.
  - split; [done|]. intros Hin. by apply Hne in Hin as [].
  - intros id tok cr. by apply FindCredential_enabled.
  - eapply Forall_impl; [exact Htoks|]. intros tok [Hp _]. by apply token_policy_Ok.
  - by apply limits_Ok.
  - done.
  - by apply version_Ok.
  - intros He id actor Hl'.
    destruct (panel_actors_Ok c id actor Hpanel He Hl') as [[tok cr] Hf].
    apply FindCredential_enabled in Hf as [Hen Hid]; [|done]. eauto.
Qed.

(** A small valid configuration, and a machine to read it on. *)
Definition strong_secret : string := "0123456789abcdef0123456789abcdef".

Definition example_host : Host := {|
  Getenv := fun n => if n =s? "REMNAGUARD_TOKEN_PEPPER" then strong_secret
                     else if n =s? "UPSTREAM_BEARER" then "upstream-secret" else "";
  ReadFile := fun _ => Err "no such file";
  StatPerm := fun _ => Err "no such file";
  Glob := fun _ _ => Ok []; |}.

Definition example_regexps : Regexps := {|
  regexp_Compile := fun _ => Ok (fun s => (6 <=? len s)%Z) |}.

Definition example_parsers : NetParsers := {|
  url_Parse := fun _ => Ok (Build_URL "https" "panel.example" "panel.example" false "" "");
  ip_IsLoopback := fun h => Some (h =s? "127.0.0.1");
  ip_IsPrivate := fun _ => Some false;
  net_SplitHost := fun a => Ok (fst (fst (Cut ":" a))); |}.

Definition example_constraints : Constraints :=
  Build_Constraints "acme_" "" "" "" "" [] [] [] [] [] [] [] [] false false false
    [] [] [] [] 0 false 0 ∅.

Definition example_credential : Credential := {|
  cred_ID := "cred_1"; cred_HMACSHA256 := "digest"; cred_Disabled := false |}.

Definition example_token : TokenPolicy := {|
  tok_ID := "acme"; tok_Disabled := false; tok_Credentials := [example_credential];
  tok_Scopes := ["users:read"; "users:action"]; tok_Constraints := example_constraints |}.

Definition example_upstream : UpstreamConfig :=
  Build_UpstreamConfig "https://panel.example" "UPSTREAM_BEARER" "" "" {["X-Api-Key" := "k"]}
    false false "" "" "" "" 0.

(** The defaults with an upstream and one token. *)
Definition example_config : Config :=
  let d := Defaults in
  Build_Config (cfg_Server d) example_upstream (cfg_Compatibility d) (cfg_Limits d)
    (cfg_Metrics d) (cfg_Audit d) (cfg_Alerts d) (cfg_Report d) (cfg_PublicSubs d)
    (cfg_PanelFacade d) (cfg_Reload d) (cfg_WriteSafety d) [example_token] [] "".

Lemma example_valid :
  Validate (H := ascii_only) (H0 := example_host) (H1 := example_regexps)
    (H2 := example_parsers) example_config = Ok ().
Proof. vm_compute. reflexivity. Qed.

Lemma validated_config_wf_witness :
  wf_config (H0 := example_host) example_config.
Proof.
  apply (validated_config_wf (H := ascii_only) (H0 := example_host) (H1 := example_regexps)
    (H2 := example_parsers)).
  vm_compute. reflexivity.
Defined.
