(* ===== verification/Alerts.v ===== *)
(** * internal/alerts: grouping and sending alerts on denied requests

    The manager's worker receives queued events and clock ticks; each of its
    steps is a function from the manager to the manager and the buckets it
    sends.  The mutex makes every step atomic, the Telegram call itself is
    outside. *)

From S2P Require Import Prelude GoStrings Json Ratelimit GoTime Config.
From stdpp Require Import options.

Local Open Scope Z_scope.

(** ** Data *)

Record Event := {
  ev_Name : string;
  ev_Method : string;
  ev_Path : string;
  ev_Route : string;
  ev_TokenID : string;
  ev_Reason : string;
  ev_Status : Z;
  ev_HasAuthHint : bool;
  ev_CreatedAt : Z;
}.

Record bucket := {
  ab_event : Event;
  ab_first : Z;
  ab_last : Z;
  ab_count : Z;
  ab_lastSent : Z;
}.

(** The channel is its capacity and the events waiting in it, oldest first. *)
Record Manager := {
  m_cfg : AlertsConfig;
  m_cap : Z;
  m_queue : list Event;
  m_buckets : gmap string bucket;
}.

Definition set_created (e : Event) (t : Z) : Event := {|
  ev_Name := ev_Name e; ev_Method := ev_Method e; ev_Path := ev_Path e;
  ev_Route := ev_Route e; ev_TokenID := ev_TokenID e; ev_Reason := ev_Reason e;
  ev_Status := ev_Status e; ev_HasAuthHint := ev_HasAuthHint e; ev_CreatedAt := t |}.

Definition with_buckets (m : Manager) (bs : gmap string bucket) : Manager := {|
  m_cfg := m_cfg m; m_cap := m_cap m; m_queue := m_queue m; m_buckets := bs |}.

Definition with_queue (m : Manager) (q : list Event) : Manager := {|
  m_cfg := m_cfg m; m_cap := m_cap m; m_queue := q; m_buckets := m_buckets m |}.

Definition NewManager (cfg : AlertsConfig) : Manager :=
  let size := tga_QueueSize (al_Telegram cfg) in
  {| m_cfg := cfg; m_cap := if size =? 0 then 100 else size; m_queue := [];
     m_buckets := ∅ |}.

Definition Update (m : Manager) (cfg : AlertsConfig) : Manager := {|
  m_cfg := cfg; m_cap := m_cap m; m_queue := m_queue m; m_buckets := m_buckets m |}.

(** ** Accepting events *)

Section alerts.
Context `{Unicode}.

Definition emptyDash (value : string) : string := if blank value then "-" else value.

Definition alertKey (e : Event) : string :=
  Join [emptyDash (ev_TokenID e); emptyDash (ev_Route e); emptyDash (ev_Reason e);
        Itoa (ev_Status e)] "|".

Definition suppressEvent (e : Event) : bool :=
  if (ev_Route e =s? "") && (ev_Reason e =s? "unknown_route") && (ev_Status e =? 404)
  then true
  else if ev_HasAuthHint e || (ev_TokenID e <>s? "") then false
  else HasPrefix (ev_Route e) "sub." &&
       (ev_Reason e =s? "public_subscriptions_disabled") && (ev_Status e =? 403).

(** A full queue drops the event (with a log line). *)
Definition Notify (now : Z) (m : Manager) (e : Event) : Manager :=
  let enabled := al_Enabled (m_cfg m) && tga_Enabled (al_Telegram (m_cfg m)) &&
                 (ev_Name e =s? "request_denied") in
  if negb enabled || suppressEvent e then m else
  let e := if IsZero (ev_CreatedAt e) then set_created e now else e in
  if Z.of_nat (length (m_queue m)) <? m_cap m then with_queue m (m_queue m ++ [e]) else m.

(** ** Recording and flushing *)

Definition cooldownLocked (m : Manager) : Z :=
  let c := tga_Cooldown (al_Telegram (m_cfg m)) in
  if 0 <? c then c else 5 * Minute.

(** A bucket once its contents have been handed over. *)
Definition sent_at (now : Z) (b : bucket) : bucket := {|
  ab_event := ab_event b; ab_first := zero_time; ab_last := ab_last b; ab_count := 0;
  ab_lastSent := now |}.

Definition due (cooldown now : Z) (b : bucket) : bool :=
  IsZero (ab_lastSent b) || (cooldown <=? time_Sub now (ab_lastSent b)).

(** The bucket of the event's key with the event counted. *)
Definition count_event (old : option bucket) (e : Event) : bucket :=
  let now := ev_CreatedAt e in
  match old with
  | None => {| ab_event := e; ab_first := now; ab_last := now; ab_count := 1;
               ab_lastSent := zero_time |}
  | Some b => {| ab_event := e;
                 ab_first := if ab_count b =? 0 then now else ab_first b;
                 ab_last := now; ab_count := ab_count b + 1;
                 ab_lastSent := ab_lastSent b |}
  end.

Definition record (m : Manager) (e : Event) : Manager * list bucket :=
  let now := ev_CreatedAt e in
  let key := alertKey e in
  let b := count_event (m_buckets m !! key) e in
  if due (cooldownLocked m) now b
  then (with_buckets m (<[key := sent_at now b]> (m_buckets m)), [b])
  else (with_buckets m (<[key := b]> (m_buckets m)), []).

Definition flushes (cooldown now : Z) (b : bucket) : bool :=
  negb (ab_count b =? 0) && due cooldown now b.

Definition flushDue (m : Manager) (now : Z) : Manager * list bucket :=
  let f := flushes (cooldownLocked m) now in
  (with_buckets m ((fun b => if f b then sent_at now b else b) <$> m_buckets m),
   List.filter f (map snd (map_to_list (m_buckets m)))).

Definition flushAll (m : Manager) : list bucket :=
  List.filter (fun b => 0 <? ab_count b) (map snd (map_to_list (m_buckets m))).

(** ** The message *)

Definition redactAlertPath (path : string) : string :=
  match Split "/" path with
  | p0 :: p1 :: p2 :: p3 :: rest =>
      if (p1 <>s? "api") || (p2 <>s? "sub") || (p3 =s? "") then path
      else Join (p0 :: p1 :: p2 :: "<redacted>" :: rest) "/"
  | _ => path
  end.

Definition roundDuration (d : Z) : Z := if d <? Second then 0 else RoundSecond d.

Definition nl : string := bytes [10%nat].

Definition formatMessage (b : bucket) : string :=
  let e := ab_event b in
  let icon := if ev_Status e =? 429 then "⚠️" else "🚨" in
  icon +:+ " RemnaGuard deny" +:+ nl +:+ nl
  +:+ "token: " +:+ emptyDash (ev_TokenID e) +:+ nl
  +:+ "method: " +:+ emptyDash (ev_Method e) +:+ nl
  +:+ "path: " +:+ emptyDash (redactAlertPath (ev_Path e)) +:+ nl
  +:+ "route: " +:+ emptyDash (ev_Route e) +:+ nl
  +:+ "reason: " +:+ emptyDash (ev_Reason e) +:+ nl
  +:+ "status: " +:+ Itoa (ev_Status e) +:+ nl +:+ nl
  +:+ "count: " +:+ Itoa (ab_count b) +:+ " in "
  +:+ Duration_String (roundDuration (time_Sub (ab_last b) (ab_first b))) +:+ nl
  +:+ "first: " +:+ FormatDateTime (ab_first b) +:+ " UTC" +:+ nl
  +:+ "last: " +:+ FormatDateTime (ab_last b) +:+ " UTC".

(** The call to the bot API: its URL and its JSON body. *)
Definition sendTelegram (baseURL token chatID text : string) : string * string :=
  (baseURL +:+ "/bot" +:+ token +:+ "/sendMessage",
   Marshal (JObj [("chat_id", JStr chatID); ("text", JStr text)])).

(** The call [send] makes, with its time limit; [None] when it makes none.  Its
    failure is only logged. *)
Definition send `{Host} (m : Manager) (b : bucket) : option (string * string * Z) :=
  let tg := al_Telegram (m_cfg m) in
  if negb (al_Enabled (m_cfg m)) || negb (tga_Enabled tg) then None else
  let token := TrimSpace (Getenv (tga_BotTokenEnv tg)) in
  let chatID := TrimSpace (Getenv (tga_ChatIDEnv tg)) in
  if (token =s? "") || (chatID =s? "") then None else
  let timeout := if tga_Timeout tg <=? 0 then 5 * Second else tga_Timeout tg in
  let trimmed := TrimRight "/" (tga_APIBaseURL tg) in
  let baseURL := if trimmed =s? "" then "https://api.telegram.org" else trimmed in
  Some (sendTelegram baseURL token chatID (formatMessage b), timeout).

(** ** The worker *)

Inductive input :=
  | Post (now : Z) (e : Event)   (* a handler calls [Notify] *)
  | Take                         (* the worker receives from the queue *)
  | Tick (now : Z).              (* the ticker fires *)

(** One step of a handler or of the loop of [run]: the manager and what is sent,
    with the time that is recorded for the sending.  Receiving from an empty
    queue waits. *)
Definition step (m : Manager) (i : input) : Manager * list (Z * bucket) :=
  match i with
  | Post now e => (Notify now m e, [])
  | Take =>
      match m_queue m with
      | [] => (m, [])
      | e :: q => let '(m', bs) := record (with_queue m q) e in
                  (m', map (pair (ev_CreatedAt e)) bs)
      end
  | Tick now => let '(m', bs) := flushDue m now in (m', map (pair now) bs)
  end.

(** The steps in order: the manager and everything sent. *)
Fixpoint run (m : Manager) (ins : list input) : Manager * list (Z * bucket) :=
  match ins with
  | [] => (m, [])
  | i :: ins' => let '(m1, out1) := step m i in
                let '(m2, out2) := run m1 ins' in (m2, out1 ++ out2)
  end.

(** The events the worker has received, in order. *)
Fixpoint received (m : Manager) (ins : list input) : list Event :=
  match ins with
  | [] => []
  | i :: ins' =>
      match i, m_queue m with Take, e :: _ => [e] | _, _ => [] end
      ++ received (fst (step m i)) ins'
  end.
End alerts.

(** ** Facts *)

Section facts.
Context `{Unicode}.

(** Every bucket is filed under the key of the event it holds. *)
Definition keyed (bs : gmap string bucket) : Prop :=
  forall k b, bs !! k = Some b -> alertKey (ab_event b) = k /\ 0 <= ab_count b.

Definition of_key (k : string) (bs : list bucket) : list bucket :=
  List.filter (fun b => alertKey (ab_event b) =s? k) bs.

Lemma of_key_flush f (bs : gmap string bucket) k :
  keyed bs ->
  of_key k (List.filter f (map snd (map_to_list bs))) =
  match bs !! k with Some b => if f b then [b] else [] | None => [] end.
Proof.
  intros Hk.
  assert (Hl : forall l, NoDup (map fst l) ->
    (forall k' b, In (k', b) l -> alertKey (ab_event b) = k') ->
    of_key k (List.filter f (map snd l)) =
    match assoc k l with Some b => if f b then [b] else [] | None => [] end).
  { induction l as [|[k' b] l IH]; simpl; [done|].
    intros [Hni Hnd]%NoDup_cons Hkey.
    assert (Heq := Hkey k' b (or_introl eq_refl)).
    destruct (String.eqb_spec k k') as [->|Hne].
    - assert (Hnone : assoc k' l = None).
      { destruct (assoc k' l) as [b'|] eqn:Ha; [|done]. apply assoc_In in Ha.
        destruct Hni. apply list_elem_of_In, in_map_iff. by exists (k', b'). }
      specialize (IH Hnd (fun _ _ h => Hkey _ _ (or_intror h))). rewrite Hnone in IH.
      destruct (f b); unfold of_key in *; simpl; [|done].
      by rewrite Heq, eqs_refl, IH.
    - rewrite <- IH by (try done; intros; apply Hkey; by right).
      destruct (f b); unfold of_key; simpl; [|done].
      rewrite Heq. by rewrite (proj2 (eqs_false _ _)) by done. }
  rewrite Hl.
  - replace (assoc k (map_to_list bs)) with (bs !! k); [done|].
    destruct (bs !! k) as [b|] eqn:Hb.
    + symmetry. apply In_assoc; [apply NoDup_fst_map_to_list|].
      by apply list_elem_of_In, elem_of_map_to_list.
    + destruct (assoc k (map_to_list bs)) as [b|] eqn:Ha; [|done].
      apply assoc_In, list_elem_of_In, elem_of_map_to_list in Ha. congruence.
  - apply NoDup_fst_map_to_list.
  - intros k' b Hin%list_elem_of_In%elem_of_map_to_list. by apply Hk.
Qed.

Definition pending (m : Manager) (k : string) : Z :=
  match m_buckets m !! k with Some b => ab_count b | None => 0 end.

Definition last_sent (m : Manager) (k : string) : Z :=
  match m_buckets m !! k with Some b => ab_lastSent b | None => zero_time end.

Definition counted (bs : list bucket) : Z := foldr (fun b n => ab_count b + n) 0 bs.

Lemma counted_app l1 l2 : counted (l1 ++ l2) = counted l1 + counted l2.
Proof. induction l1; simpl; [done|]. rewrite IHl1. lia. Qed.

(** What one step does to the bucket of [k] and sends for it. *)
Definition key_step (c : Z) (k : string) (m m' : Manager) (out : list (Z * bucket))
    (n : Z) : Prop :=
  (out = [] /\ pending m' k = pending m k + n /\ last_sent m' k = last_sent m k) \/
  exists t b, out = [(t, b)] /\ ab_count b = pending m k + n /\ pending m' k = 0 /\
    last_sent m' k = t /\ (IsZero (last_sent m k) = true \/ c <= time_Sub t (last_sent m k)).

Definition out_of (k : string) (out : list (Z * bucket)) : list (Z * bucket) :=
  List.filter (fun tb => alertKey (ab_event (snd tb)) =s? k) out.

Lemma out_of_pairs k t bs : out_of k (map (pair t) bs) = map (pair t) (of_key k bs).
Proof.
  unfold out_of, of_key. induction bs as [|b bs IH]; simpl; [done|].
  destruct (alertKey (ab_event b) =s? k); simpl; by rewrite IH.
Qed.

Lemma due_spec c t b :
  due c t b = true -> IsZero (ab_lastSent b) = true \/ c <= time_Sub t (ab_lastSent b).
Proof. unfold due. rewrite orb_true_iff, Z.leb_le. done. Qed.

Lemma count_event_facts old e :
  (forall b, old = Some b -> alertKey (ab_event b) = alertKey e /\ 0 <= ab_count b) ->
  let b := count_event old e in
  alertKey (ab_event b) = alertKey e /\
  ab_count b = (match old with Some b => ab_count b | None => 0 end) + 1 /\
  ab_lastSent b = (match old with Some b => ab_lastSent b | None => zero_time end).
Proof. intros Hold. destruct old as [b|]; simpl; split_and!; try done; lia. Qed.

Lemma keyed_insert bs k b :
  keyed bs -> alertKey (ab_event b) = k -> 0 <= ab_count b -> keyed (<[k := b]> bs).
Proof.
  intros Hk He Hc k' b' Hl. destruct (decide (k' = k)) as [->|Hne].
  - rewrite lookup_insert_eq in Hl. by injection Hl as <-.
  - rewrite lookup_insert_ne in Hl by done. by apply Hk.
Qed.

Lemma record_key m e k m' bs :
  keyed (m_buckets m) -> record m e = (m', bs) ->
  keyed (m_buckets m') /\ m_cfg m' = m_cfg m /\ m_queue m' = m_queue m /\
  key_step (cooldownLocked m) k m m' (out_of k (map (pair (ev_CreatedAt e)) bs))
    (if alertKey e =s? k then 1 else 0).
Proof.
  intros Hk. unfold record.
  set (old := m_buckets m !! alertKey e).
  destruct (count_event_facts old e) as (He & Hc & Hl); [intros b Hb; by apply Hk|].
  set (b := count_event old e) in *.
  assert (Hpos : 0 <= match old with Some b => ab_count b | None => 0 end).
  { destruct old as [b'|] eqn:Ho; [|lia]. apply (Hk _ _ Ho). }
  destruct (due (cooldownLocked m) (ev_CreatedAt e) b) eqn:Hd; intros [= <- <-];
    cbn [m_buckets m_cfg m_queue with_buckets].
  - split_and!; [apply keyed_insert; simpl; try done; lia|done|done|].
    rewrite out_of_pairs. unfold of_key. simpl. rewrite He.
    destruct (String.eqb_spec (alertKey e) k) as [<-|Hne].
    + right. exists (ev_CreatedAt e), b. unfold pending, last_sent. simpl.
      rewrite !lookup_insert_eq. simpl. fold old. split_and!; try done.
      apply due_spec in Hd. by rewrite Hl in Hd.
    + left. unfold pending, last_sent. simpl. rewrite !lookup_insert_ne by done.
      split_and!; try done. lia.
  - split_and!; [apply keyed_insert; try done; lia|done|done|].
    destruct (String.eqb_spec (alertKey e) k) as [<-|Hne];
      left; unfold pending, last_sent; simpl.
    + rewrite !lookup_insert_eq. fold old. done.
    + rewrite !lookup_insert_ne by done. split_and!; try done. lia.
Qed.

Lemma flush_key m now k :
  keyed (m_buckets m) ->
  let '(m', bs) := flushDue m now in
  keyed (m_buckets m') /\ m_cfg m' = m_cfg m /\ m_queue m' = m_queue m /\
  key_step (cooldownLocked m) k m m' (out_of k (map (pair now) bs)) 0.
Proof.
  intros Hk. unfold flushDue. simpl. split_and!; [|done|done|].
  - intros k' b. rewrite lookup_fmap, fmap_Some. intros (b' & Hb & ->).
    apply Hk in Hb. destruct (flushes _ _ b'); simpl; [|done]. split; [apply Hb|lia].
  - rewrite out_of_pairs, of_key_flush by done.
    unfold key_step, pending, last_sent. simpl. rewrite !lookup_fmap.
    destruct (m_buckets m !! k) as [b|] eqn:Hb; simpl.
    + destruct (flushes (cooldownLocked m) now b) eqn:Hf; simpl.
      * right. exists now, b. unfold flushes in Hf. apply andb_true_iff in Hf as [_ Hf].
        split_and!; try done; [lia|]. by apply due_spec.
      * left. split_and!; try done. lia.
    + left. split_and!; try done.
Qed.

(** The events a step receives, of one key. *)
Definition receives (m : Manager) (i : input) (k : string) : Z :=
  match i, m_queue m with
  | Take, e :: _ => if alertKey e =s? k then 1 else 0
  | _, _ => 0
  end.

Lemma Notify_frame now m e :
  m_cfg (Notify now m e) = m_cfg m /\ m_buckets (Notify now m e) = m_buckets m.
Proof. unfold Notify. repeat case_match; done. Qed.

Lemma step_key m i k :
  keyed (m_buckets m) ->
  keyed (m_buckets (fst (step m i))) /\ m_cfg (fst (step m i)) = m_cfg m /\
  key_step (cooldownLocked m) k m (fst (step m i)) (out_of k (snd (step m i)))
    (receives m i k).
Proof.
  intros Hk. destruct i as [now e| |now]; simpl.
  - destruct (Notify_frame now m e) as [Hc Hb]. rewrite Hb, Hc. split_and!; try done.
    left. unfold pending, last_sent. rewrite Hb. split_and!; try done. simpl. lia.
  - destruct (m_queue m) as [|e q] eqn:Hq; simpl.
    { split_and!; try done. left. split_and!; try done. lia. }
    destruct (record (with_queue m q) e) as [m' bs] eqn:Hr.
    destruct (record_key (with_queue m q) e k m' bs Hk Hr) as (H1 & H2 & _ & H3). done.
  - destruct (flush_key m now k Hk) as (H1 & H2 & _ & H3). by destruct (m_queue m).
Qed.

Lemma keyed_New cfg : keyed (m_buckets (NewManager cfg)).
Proof. intros k b. simpl. by rewrite lookup_empty. Qed.

Lemma out_of_app k l1 l2 : out_of k (l1 ++ l2) = out_of k l1 ++ out_of k l2.
Proof. apply List.filter_app. Qed.

(** Sendings, each at least [c] after the one before. *)
Fixpoint spaced (c prev : Z) (ts : list Z) : Prop :=
  match ts with
  | [] => True
  | t :: ts' => (IsZero prev = true \/ c <= time_Sub t prev) /\ spaced c t ts'
  end.

Lemma run_key m ins k :
  keyed (m_buckets m) ->
  let '(m', out) := run m ins in
  pending m' k + counted (map snd (out_of k out)) =
    pending m k +
    Z.of_nat (length (List.filter (fun e => alertKey e =s? k) (received m ins))) /\
  spaced (cooldownLocked m) (last_sent m k) (map fst (out_of k out)).
Proof.
  revert m. induction ins as [|i ins IH]; intros m Hk; simpl.
  { split; [lia|done]. }
  destruct (step_key m i k Hk) as (Hk1 & Hcfg & Hstep).
  destruct (step m i) as [m1 out1] eqn:Hs. simpl in *.
  specialize (IH m1 Hk1). destruct (run m1 ins) as [m2 out2]. destruct IH as [Hcnt Hsp].
  assert (Hcd : cooldownLocked m1 = cooldownLocked m)
    by (unfold cooldownLocked; by rewrite Hcfg).
  rewrite Hcd in Hsp. rewrite out_of_app, !map_app, counted_app.
  rewrite List.filter_app, length_app, Nat2Z.inj_add.
  assert (Hr : Z.of_nat (length (List.filter (fun e => alertKey e =s? k)
    match i with Take => match m_queue m with [] => [] | e :: _ => [e] end | _ => [] end))
    = receives m i k).
  { unfold receives. destruct i; try done. destruct (m_queue m) as [|e q]; [done|]. simpl.
    by destruct (alertKey e =s? k). }
  replace (match i with
    | Take => match m_queue m with [] => [] | e :: _ => [e] end | _ => [] end) with
    (match i, m_queue m with Take, e :: _ => [e] | _, _ => [] end) in Hr
    by (destruct i, (m_queue m); done).
  rewrite Hr.
  destruct Hstep as [(-> & Hp & Hl)|(t & b & -> & Hb & Hp & Hl & Hd)]; simpl.
  - rewrite Hl in Hsp. split; [lia|done].
  - rewrite Hl in Hsp. split; [lia|]. split; done.
Qed.

Lemma keyed_run m ins : keyed (m_buckets m) -> keyed (m_buckets (fst (run m ins))).
Proof.
  revert m. induction ins as [|i ins IH]; intros m Hk; simpl; [done|].
  destruct (step_key m i "" Hk) as (Hk1 & _). destruct (step m i) as [m1 out1].
  specialize (IH m1 Hk1). by destruct (run m1 ins).
Qed.

Lemma spaced_pair c prev ts1 t1 t2 ts2 :
  spaced c prev (ts1 ++ t1 :: t2 :: ts2) -> t1 <> zero_time -> c <= time_Sub t2 t1.
Proof.
  revert prev. induction ts1 as [|t ts1 IH]; simpl; intros prev.
  - intros (_ & [Hz|Hc] & _) Hne; [|done]. unfold IsZero in Hz. by apply Z.eqb_eq in Hz.
  - intros [_ Hs]. exact (IH t Hs).
Qed.
End facts.

(** A subscription path, redacted. *)
Lemma redact_sub s tail :
  IndexByte_found s "/" = false -> s <> "" ->
  redactAlertPath ("/api/sub/" +:+ s +:+ String "/" tail) =
    Join ("" :: "api" :: "sub" :: "<redacted>" :: Split "/" tail) "/" /\
  redactAlertPath ("/api/sub/" +:+ s) = "/api/sub/<redacted>".
Proof.
  intros Hs Hne.
  assert (Hsplit : forall x, Split "/" ("/api/sub/" +:+ x) =
    "" :: "api" :: "sub" :: Split "/" x) by reflexivity.
  unfold redactAlertPath. rewrite !Hsplit, Split_app, (Split_sep_free _ s Hs) by done.
  by rewrite (proj2 (eqs_false s "") Hne).
Qed.

(** ** Properties *)

(** C28: no denied request is lost.  However notifications, receptions and ticks
    are interleaved, for every alert key the events counted in the messages sent
    so far together with those the shutdown flush still sends are exactly the
    events of that key the worker has received. *)
Theorem alerts_conserved `{Unicode} cfg ins k :
  let '(m, out) := run (NewManager cfg) ins in
  counted (map snd (out_of k out)) + counted (of_key k (flushAll m)) =
  Z.of_nat (length (List.filter (fun e => alertKey e =s? k) (received (NewManager cfg) ins))).
Proof.
  assert (Hw := keyed_run (NewManager cfg) ins (keyed_New cfg)).
  assert (Hr := run_key (NewManager cfg) ins k (keyed_New cfg)).
  destruct (run (NewManager cfg) ins) as [m out]. destruct Hr as [Hr _].
  assert (H0 : pending (NewManager cfg) k = 0) by (unfold pending; simpl; by rewrite lookup_empty).
  assert (Hf : counted (of_key k (flushAll m)) = pending m k).
  { unfold flushAll, pending. rewrite of_key_flush by done.
    destruct (m_buckets m !! k) as [b|] eqn:Hb; [|done].
    apply Hw in Hb as [_ Hb]. destruct (Z.ltb_spec 0 (ab_count b)); simpl; lia. }
  lia.
Qed.

(** C27: alerts of one key are rate limited on the recorded clock.  The stamp of
    a message is the creation time of the event that triggered it, or the time of
    the tick that flushed it.  Under one configuration, the stamps of two
    consecutive messages of the same key are at least the cooldown apart, unless
    the first is Go's zero time.  Nothing is said of when messages leave: a queue
    that lags behind may send them closer together. *)
Theorem alert_cooldown `{Unicode} cfg ins k m out pre t1 b1 t2 b2 post :
  run (NewManager cfg) ins = (m, out) ->
  out_of k out = pre ++ (t1, b1) :: (t2, b2) :: post ->
  t1 <> zero_time ->
  cooldownLocked (NewManager cfg) <= time_Sub t2 t1.
Proof.
  intros Hrun Hout Hne. assert (Hr := run_key (NewManager cfg) ins k (keyed_New cfg)).
  rewrite Hrun in Hr. destruct Hr as [_ Hs]. rewrite Hout in Hs.
  rewrite List.map_app in Hs. simpl in Hs. by apply spaced_pair in Hs.
Qed.

Definition witness_alerts : AlertsConfig := {|
  al_Enabled := true;
  al_Telegram := {| tga_Enabled := true; tga_BotTokenEnv := "T"; tga_ChatIDEnv := "C";
    tga_Cooldown := Minute; tga_QueueSize := 2; tga_Timeout := 0; tga_APIBaseURL := "" |} |}.

Definition witness_event (t : Z) : Event := {|
  ev_Name := "request_denied"; ev_Method := "GET"; ev_Path := "/api/users";
  ev_Route := "user.list"; ev_TokenID := "t"; ev_Reason := "missing_scope";
  ev_Status := 403; ev_HasAuthHint := true; ev_CreatedAt := t * Second |}.

Definition witness_inputs : list input :=
  [Post 0 (witness_event 1); Take; Post 0 (witness_event 2); Post 0 (witness_event 3);
   Post 0 (witness_event 4); Take; Take; Tick (30 * Second); Tick (70 * Second)].

Lemma alert_cooldown_witness :
  cooldownLocked (NewManager witness_alerts) <= time_Sub (70 * Second) (1 * Second).
Proof.
  eapply (alert_cooldown (H := ascii_only) witness_alerts witness_inputs
    "t|user.list|missing_scope|403" _ _ [] (1 * Second) _ (70 * Second) _ []);
    [vm_compute; reflexivity|vm_compute; reflexivity|discriminate].
Defined.

(** A subscription path never shows its short UUID.  The alert's path is the
    same whatever the short UUID was. *)
Theorem redaction_hides_short_uuid s1 s2 tail :
  IndexByte_found s1 "/" = false -> IndexByte_found s2 "/" = false ->
  s1 <> "" -> s2 <> "" ->
  redactAlertPath ("/api/sub/" +:+ s1 +:+ String "/" tail) =
  redactAlertPath ("/api/sub/" +:+ s2 +:+ String "/" tail) /\
  redactAlertPath ("/api/sub/" +:+ s1) = redactAlertPath ("/api/sub/" +:+ s2).
Proof.
  intros H1 H2 Hn1 Hn2. destruct (redact_sub s1 tail H1 Hn1) as [-> ->].
  by destruct (redact_sub s2 tail H2 Hn2) as [-> ->].
Qed.

Lemma redaction_hides_short_uuid_witness :
  redactAlertPath "/api/sub/abcdef" = redactAlertPath "/api/sub/ghijkl".
Proof.
  apply (redaction_hides_short_uuid "abcdef" "ghijkl" ""); first [reflexivity|discriminate].
Defined.

(** Paths the server refuses as ambiguous are reported too, and are not redacted. *)
Example ambiguous_path_not_redacted :
  redactAlertPath "/api//sub/abcdef" = "/api//sub/abcdef".
Proof. reflexivity. Qed.
