(* ===== verification/AuditLog.v ===== *)
(** * internal/audit and internal/metrics: the audit log and the counters

    An entry of the audit log is the data of one [Emit] call.  [emit] turns it
    into the line written to the output and the row inserted in the database. *)

From S2P Require Import Prelude GoStrings Encoding Json Sha256 Ratelimit GoTime Config.
From stdpp Require Import options.

(** ** Audit log *)

(** The columns of a row of the table but its id: six texts and the status. *)
Definition row : Type := list string * Z.

(** The SQLite driver (modernc.org/sqlite): opening a data source, and the two
    statements executed on it, with what they do to the files.  A database lives in
    the files [sql_files] gives for its data source: the database itself and those
    the engine keeps beside it, its journal and write-ahead log. *)
Class Sqlite := {
  sql_Open : string -> res ();
  sql_CreateTable : string -> FS -> FS * res ();     (* create table if not exists *)
  sql_Insert : string -> row -> FS -> FS;            (* an error of it is dropped *)
  sql_files : string -> list string;
}.

(** A statement writes to the files of its database only. *)
Record sqlite_spec (db : Sqlite) : Prop := {
  sq_create : forall source fs q, q ∉ sql_files source ->
    fst (sql_CreateTable source fs) !! q = fs !! q;
  sq_insert : forall source r fs q, q ∉ sql_files source -> sql_Insert source r fs !! q = fs !! q;
}.

Record Logger := {
  lg_stdout : bool;            (* os.Stdout rather than io.Discard *)
  lg_pepper : string;
  lg_db : option string;       (* the data source of the open database *)
}.

(** The files after it, and the logger. *)
Definition New (db : Sqlite) (stdout : bool) (pepper sqlitePath : string) (fs : FS)
    : FS * res Logger :=
  let l source := {| lg_stdout := stdout; lg_pepper := pepper; lg_db := source |} in
  if sqlitePath <>s? "" then
    match sql_Open sqlitePath with
    | Err e => (fs, Err e)
    | Ok _ =>
        match sql_CreateTable sqlitePath fs with
        | (fs', Err e) => (fs', Err e)
        | (fs', Ok _) => (fs', Ok (l (Some sqlitePath)))
        end
    end
  else (fs, Ok (l None)).

Record Entry := {
  en_event : string;
  en_route : string;
  en_tokenID : string;
  en_credentialID : string;
  en_reason : string;
  en_method : string;
  en_path : string;
  en_status : Z;
  en_fields : list (string * json);
}.

Definition Emit (event route tokenID credentialID reason : string) (status : Z) : Entry :=
  Build_Entry event route tokenID credentialID reason "" "" status [].

Definition EmitRequest (event route tokenID credentialID reason method path : string)
    (status : Z) : Entry :=
  Build_Entry event route tokenID credentialID reason method path status [].

Definition EmitRequestFields (event route tokenID credentialID reason method path : string)
    (status : Z) (fields : list (string * json)) : Entry :=
  Build_Entry event route tokenID credentialID reason method path status fields.

(** [key != "" && value != nil]; a nil value is [JNull]. *)
Definition set_field (payload : list (string * json)) (kv : string * json)
    : list (string * json) :=
  let '(key, value) := kv in
  if key =s? "" then payload else
  match value with JNull => payload | _ => assoc_set key value payload end.

Definition core_fields (ts : string) (e : Entry) : list (string * json) :=
  [("ts", JStr ts); ("event", JStr (en_event e)); ("route", JStr (en_route e));
   ("token_id", JStr (en_tokenID e)); ("credential_id", JStr (en_credentialID e));
   ("reason", JStr (en_reason e)); ("status", JNum (Itoa (en_status e)))].

Definition emit_payload (ts : string) (e : Entry) : list (string * json) :=
  let p := core_fields ts e in
  let p := if en_method e <>s? "" then assoc_set "method" (JStr (en_method e)) p else p in
  let p := if en_path e <>s? "" then assoc_set "path" (JStr (en_path e)) p else p in
  fold_left set_field (en_fields e) p.

Definition newline : string := bytes [10].

Definition audit_row (ts : string) (e : Entry) : row :=
  ([ts; en_event e; en_route e; en_tokenID e; en_credentialID e; en_reason e], en_status e).

(** The files after it, with the row inserted when a database is open, and the line
    written when there is an output. *)
Definition emit (db : Sqlite) (l : Logger) (now : Z) (e : Entry) (fs : FS)
    : FS * option string :=
  let ts := FormatRFC3339Nano now in
  (match lg_db l with Some source => sql_Insert source (audit_row ts e) fs | None => fs end,
   if lg_stdout l then Some (Marshal (JObj (emit_payload ts e)) +:+ newline) else None).

Definition HMAC (l : Logger) (value : string) : string :=
  Base64.EncodeToString (hmac_sha256 (lg_pepper l) value).

(** ** Metrics *)

Definition Registry := gmap string Z.

Definition NewRegistry : Registry := ∅.

(** The counter is an int64. *)
Definition Inc (r : Registry) (route reason support statusClass : string) : Registry :=
  let key := route +:+ "|" +:+ reason +:+ "|" +:+ support +:+ "|" +:+ statusClass in
  <[key := wrap64 (default 0%Z (r !! key) + 1)]> r.

(** One line per counter; the source writes them in the map's order. *)
Definition ServeHTTP `{Unicode} (r : Registry) : string :=
  foldr (fun '(key, val) body =>
    "remnaguard_requests_total{key=" +:+ strconv_quote key +:+ "} " +:+ Itoa val +:+ newline
    +:+ body) "" (map_to_list r).

(** ** A driver for examples: a database is a text file with a line for each row *)

Definition row_line (r : row) : string :=
  String.concat "|" (fst r ++ [Itoa (snd r)]) +:+ newline.

Definition text_db : Sqlite := {|
  sql_Open := fun _ => Ok ();
  sql_CreateTable := fun source fs =>
    (if fs !! source is Some _ then fs else <[source := {| f_data := ""; f_perm := 420 |}]> fs,
     Ok ());
  sql_Insert := fun source r fs =>
    alter (fun f => {| f_data := f_data f +:+ row_line r; f_perm := f_perm f |}) source fs;
  sql_files := fun source => [source] |}.

Lemma text_db_spec : sqlite_spec text_db.
Proof.
  split; cbn.
  - intros source fs q Hq. destruct (fs !! source); [done|]. apply lookup_insert_ne. set_solver.
  - intros source r fs q Hq. apply lookup_alter_ne. set_solver.
Qed.

(** ** Facts *)

(** Opening the log and writing to it leave all files as they are but those of the
    configured database. *)
Lemma New_files db stdout pepper path fs q :
  sqlite_spec db -> fst (New db stdout pepper path fs) !! q <> fs !! q ->
  path <> "" /\ q ∈ sql_files path.
Proof.
  intros Hdb. unfold New. destruct (String.eqb_spec path "") as [|Hne]; [done|]. cbn [negb].
  destruct (sql_Open path); [|done]. intros Hq. split; [done|].
  destruct (decide (q ∈ sql_files path)) as [|Hn]; [done|]. destruct Hq.
  rewrite <- (sq_create _ Hdb path fs q Hn). by destruct (sql_CreateTable path fs) as [fs1 []].
Qed.

Lemma New_db db stdout pepper path fs fs' l source :
  New db stdout pepper path fs = (fs', Ok l) -> lg_db l = Some source -> source = path /\ path <> "".
Proof.
  unfold New. destruct (String.eqb_spec path "") as [|Hne]; [by intros [= _ <-]|]. cbn [negb].
  destruct (sql_Open path); [|done]. destruct (sql_CreateTable path fs) as [fs1 []]; [|done].
  by intros [= _ <-] [= <-].
Qed.

Lemma emit_files db l now e fs q :
  sqlite_spec db -> fst (emit db l now e fs) !! q <> fs !! q ->
  exists source, lg_db l = Some source /\ q ∈ sql_files source.
Proof.
  intros Hdb. unfold emit. cbn [fst]. destruct (lg_db l) as [source|]; [|done]. intros Hq.
  exists source. split; [done|]. destruct (decide (q ∈ sql_files source)) as [|Hn]; [done|].
  destruct Hq. by apply (sq_insert _ Hdb).
Qed.

Lemma set_field_other payload kv k :
  fst kv <> k -> assoc k (set_field payload kv) = assoc k payload.
Proof.
  destruct kv as [key v]. simpl. intros Hne. destruct (key =s? ""); [done|].
  destruct v; try done; by rewrite assoc_set_ne.
Qed.

Lemma set_fields_other fields payload k :
  k ∉ map fst fields -> assoc k (fold_left set_field fields payload) = assoc k payload.
Proof.
  revert payload. induction fields as [|kv fields IH]; simpl; intros payload Hk; [done|].
  apply not_elem_of_cons in Hk as [Hne Hk]. rewrite IH by done.
  by apply set_field_other, not_eq_sym.
Qed.

(** The names of the core fields. *)
Definition core_names : list string :=
  ["ts"; "event"; "route"; "token_id"; "credential_id"; "reason"; "status"].

(** Extra fields with other names leave the core fields as they are. *)
Lemma emit_core ts e k :
  k ∈ core_names -> (forall k', k' ∈ map fst (en_fields e) -> k' ∉ core_names) ->
  assoc k (emit_payload ts e) = assoc k (core_fields ts e).
Proof.
  intros Hk Hf. unfold emit_payload. rewrite set_fields_other.
  - assert (k <> "method" /\ k <> "path").
    { unfold core_names in Hk. split; intros ->; by apply (bool_decide_eq_true _) in Hk. }
    repeat case_match; rewrite ?assoc_set_ne by tauto; done.
  - intros Hin. by apply (Hf k Hin).
Qed.

(** An extra field named like a core field replaces it. *)
Example emit_overridden :
  assoc "reason" (emit_payload "t" (EmitRequestFields "e" "r" "" "" "denied" "" "" 0%Z
                                      [("reason", JStr "ok")])) = Some (JStr "ok").
Proof. reflexivity. Qed.

Lemma Inc_other r route reason support statusClass k :
  k <> route +:+ "|" +:+ reason +:+ "|" +:+ support +:+ "|" +:+ statusClass ->
  Inc r route reason support statusClass !! k = r !! k.
Proof. intros Hne. apply (lookup_insert_ne (M := gmap string)), not_eq_sym, Hne. Qed.
