(* ===== verification/OAuthStore.v ===== *)
(** * internal/server: pending panel logins (panelOAuthStore)

    A login attempt is filed under its random state until the callback takes it.
    The mutex makes each operation atomic. *)

From S2P Require Import Prelude GoStrings.
From stdpp Require Import options.

Local Open Scope Z_scope.

Record panelOAuthAttempt := {
  at_CodeVerifier : string;
  at_Nonce : string;
  at_ExpiresAt : Z;
  at_Generation : Z;
}.

Record panelOAuthStore := {
  os_attempts : gmap string panelOAuthAttempt;
  os_max : Z;
}.

Definition newPanelOAuthStore (max : Z) : panelOAuthStore :=
  {| os_attempts := ∅; os_max := max |}.

Definition set_attempts (s : panelOAuthStore) (m : gmap string panelOAuthAttempt)
    : panelOAuthStore := {| os_attempts := m; os_max := os_max s |}.

(** Not [now.After(attempt.ExpiresAt)]. *)
Definition live (now : Z) (a : panelOAuthAttempt) : Prop := now <= at_ExpiresAt a.

#[export] Instance live_dec now a : Decision (live now a).
Proof. unfold live. apply _. Defined.

Definition live_only (now : Z) (m : gmap string panelOAuthAttempt)
    : gmap string panelOAuthAttempt := filter (fun kv => live now (snd kv)) m.

Definition pruneLocked (s : panelOAuthStore) (now : Z) : panelOAuthStore :=
  set_attempts s (live_only now (os_attempts s)).

Definition put (s : panelOAuthStore) (state : string) (attempt : panelOAuthAttempt) (now : Z)
    : bool * panelOAuthStore :=
  let s := pruneLocked s now in
  if (0 <? os_max s) && (os_max s <=? Z.of_nat (size (os_attempts s))) then (false, s)
  else (true, set_attempts s (<[state := attempt]> (os_attempts s))).

Definition take (s : panelOAuthStore) (state : string) (now : Z)
    : option panelOAuthAttempt * panelOAuthStore :=
  let s := pruneLocked s now in
  match os_attempts s !! state with
  | Some attempt => (Some attempt, set_attempts s (delete state (os_attempts s)))
  | None => (None, s)
  end.

Definition clear (s : panelOAuthStore) : panelOAuthStore := set_attempts s ∅.

(** ** Sequences of operations *)

Inductive op :=
  | Put (state : string) (attempt : panelOAuthAttempt) (now : Z)
  | Take (state : string) (now : Z)
  | Clear.

Inductive result :=
  | RPut (ok : bool)
  | RTake (attempt : option panelOAuthAttempt)
  | RClear.

Definition apply_op (s : panelOAuthStore) (o : op) : result * panelOAuthStore :=
  match o with
  | Put st a now => let '(ok, s') := put s st a now in (RPut ok, s')
  | Take st now => let '(a, s') := take s st now in (RTake a, s')
  | Clear => (RClear, clear s)
  end.

Fixpoint results {S} (step : S -> op -> result * S) (s : S) (ops : list op) : list result :=
  match ops with
  | [] => []
  | o :: ops' => let '(r, s') := step s o in r :: results step s' ops'
  end.

(** ** What the store promises

    The specification never prunes: an attempt put under a state can be taken
    once, at any time up to its expiry, unless the store was cleared; a put is
    refused when [max] attempts that have not expired are waiting. *)

Notation spec_store := (gmap string panelOAuthAttempt).

Definition spec_op (max : Z) (s : spec_store) (o : op) : result * spec_store :=
  match o with
  | Put st a now =>
      if (0 <? max) && (max <=? Z.of_nat (size (live_only now s))) then (RPut false, s)
      else (RPut true, <[st := a]> s)
  | Take st now =>
      match s !! st with
      | Some a => if decide (live now a) then (RTake (Some a), delete st s)
                  else (RTake None, s)
      | None => (RTake None, s)
      end
  | Clear => (RClear, ∅)
  end.

Definition op_time (o : op) : option Z :=
  match o with Put _ _ now | Take _ now => Some now | Clear => None end.

(** The clock readings never go back below [t]. *)
Fixpoint clock_from (t : Z) (ops : list op) : Prop :=
  match ops with
  | [] => True
  | o :: ops' =>
      match op_time o with
      | Some now => t <= now /\ clock_from now ops'
      | None => clock_from t ops'
      end
  end.

(** ** Facts *)

Lemma lookup_live now m st :
  live_only now m !! st =
  match m !! st with Some a => if decide (live now a) then Some a else None | None => None end.
Proof.
  unfold live_only. rewrite map_lookup_filter. destruct (m !! st) as [a|]; simpl; [|done].
  unfold guard. by destruct (decide (live now a)).
Qed.

Lemma live_mono t now m st :
  t <= now -> live_only now (live_only t m) !! st = live_only now m !! st.
Proof.
  intros Ht. rewrite !lookup_live. destruct (m !! st) as [a|]; [|done].
  unfold live. repeat case_decide; try done; lia.
Qed.

(** The store holds the attempts of the specification that had not expired when
    it was last used. *)
Definition refines (t : Z) (s : panelOAuthStore) (sp : spec_store) : Prop :=
  live_only t (os_attempts s) = live_only t sp.

Lemma refines_later t now s sp : t <= now -> refines t s sp -> refines now s sp.
Proof.
  unfold refines. intros Ht Hr. apply map_eq. intros st.
  by rewrite <- (live_mono t now (os_attempts s)), <- (live_mono t now sp), Hr.
Qed.

Lemma live_idem t m : live_only t (live_only t m) = live_only t m.
Proof. apply map_eq. intros st. by apply live_mono. Qed.

Lemma live_insert t st a m1 m2 :
  live_only t m1 = live_only t m2 -> live_only t (<[st := a]> m1) = live_only t (<[st := a]> m2).
Proof.
  intros Heq. apply map_eq. intros st'. rewrite !lookup_live.
  destruct (decide (st' = st)) as [->|Hne]; [by rewrite !lookup_insert_eq|].
  rewrite !lookup_insert_ne by done. by rewrite <- !lookup_live, Heq.
Qed.

Lemma live_delete t st m1 m2 :
  live_only t m1 = live_only t m2 -> live_only t (delete st m1) = live_only t (delete st m2).
Proof.
  intros Heq. apply map_eq. intros st'. rewrite !lookup_live.
  destruct (decide (st' = st)) as [->|Hne]; [by rewrite !lookup_delete_eq|].
  rewrite !lookup_delete_ne by done. by rewrite <- !lookup_live, Heq.
Qed.

(** One operation, simulated. *)
Lemma apply_op_refines s sp o now :
  op_time o = Some now \/ op_time o = None -> refines now s sp ->
  fst (apply_op s o) = fst (spec_op (os_max s) sp o) /\
  refines now (snd (apply_op s o)) (snd (spec_op (os_max s) sp o)) /\
  os_max (snd (apply_op s o)) = os_max s.
Proof.
  intros Hnow Hr.
  assert (Hp : os_attempts (pruneLocked s now) = live_only now sp) by exact Hr.
  assert (Hm : os_max (pruneLocked s now) = os_max s) by done.
  destruct o as [st a n|st n|]; cbn [apply_op spec_op op_time] in *.
  - destruct Hnow as [[= ->]|]; [|done]. unfold put.
    set (p := pruneLocked s now) in *. clearbody p. rewrite Hp, Hm.
    destruct (_ && _); simpl; unfold refines; split_and!; try done; simpl; rewrite ?Hp.
    + apply live_idem.
    + apply live_insert, live_idem.
  - destruct Hnow as [[= ->]|]; [|done]. unfold take.
    set (p := pruneLocked s now) in *. clearbody p. rewrite Hp, lookup_live.
    destruct (sp !! st) as [a|]; [destruct (decide (live now a))|]; simpl;
      unfold refines; split_and!; try done; simpl; rewrite ?Hp; try apply live_idem.
    apply live_delete, live_idem.
  - done.
Qed.

(** ** Properties *)

(** C17: the store refines its specification.  For any sequence of operations
    whose clock readings do not decrease, pruning is invisible: the store answers
    every operation as the specification does, in which a take removes the attempt
    it hands out, expired ones are not handed out, a clear forgets all, and a put
    that is refused finds [max] attempts waiting.  Readings out of order, which
    racing requests may bring, are not covered here. *)
Theorem oauth_store_refines max t ops :
  clock_from t ops ->
  results apply_op (newPanelOAuthStore max) ops = results (spec_op max) ∅ ops.
Proof.
  intros Hc.
  assert (Hsim : forall s sp, os_max s = max -> refines t s sp ->
    results apply_op s ops = results (spec_op max) sp ops); [|by apply Hsim].
  revert t Hc. induction ops as [|o ops IH]; intros t Hc s sp Hmax Hr; [done|].
  cbn [results clock_from] in *.
  assert (Hstep : exists now, (op_time o = Some now \/ op_time o = None) /\ t <= now /\
    clock_from now ops).
  { destruct (op_time o) as [now|]; [exists now; tauto|exists t; split_and!; auto; lia]. }
  destruct Hstep as (now & Ho & Ht & Hc').
  apply (refines_later t now) in Hr; [|done].
  destruct (apply_op_refines s sp o now Ho Hr) as (H1 & H2 & H3).
  rewrite Hmax in *. destruct (apply_op s o) as [r s'], (spec_op max sp o) as [r' sp'].
  simpl in *. subst r'. f_equal. by apply (IH now).
Qed.

Definition witness_attempt (expires : Z) : panelOAuthAttempt := {|
  at_CodeVerifier := "v"; at_Nonce := "n"; at_ExpiresAt := expires; at_Generation := 1 |}.

Definition witness_ops : list op :=
  [Put "a" (witness_attempt 10) 0; Put "b" (witness_attempt 20) 1;
   Put "c" (witness_attempt 30) 2; Take "a" 5; Take "a" 6; Take "b" 25].

Lemma oauth_store_refines_witness :
  results apply_op (newPanelOAuthStore 2) witness_ops =
  [RPut true; RPut true; RPut false; RTake (Some (witness_attempt 10)); RTake None;
   RTake None].
Proof.
  transitivity (results (spec_op 2) ∅ witness_ops); [|vm_compute; reflexivity].
  apply (oauth_store_refines 2 0). simpl. lia.
Defined.
