(* ===== verification/Regexp.v ===== *)
(** * regexp: the expressions the route catalog compiles

    [routes.compile] builds each route's expression as text ([regexp.QuoteMeta]
    of the pattern, then replacements of the quoted parameters) and hands it to
    [regexp.MustCompile].  This file models what those expressions use of the
    RE2 syntax: the anchors [^] and [$] at the two ends, literal and escaped
    characters, bracket classes with ranges and negation, and counted
    repetition.  [Compile] is [None] outside this subset (catalog patterns never
    leave it: [Routes.catalog_compiles]).  Matching is over runes, as Go's. *)

From S2P Require Import Prelude GoStrings Encoding.
From stdpp Require Import options.

(** One character class repeated between [it_min] and [it_max] times. *)
Record item := {
  it_neg : bool;
  it_ranges : list (N * N);
  it_min : nat;
  it_max : nat;
}.

Definition lit (c : ascii) : item :=
  {| it_neg := false; it_ranges := [(code c, code c)]; it_min := 1; it_max := 1 |}.

(** ** regexp.QuoteMeta *)

Definition is_meta (c : ascii) : bool := IndexByte_found "\.+*?()|[]{}^$" c.

Fixpoint QuoteMeta (s : string) : string :=
  match s with
  | "" => ""
  | String c s' => if is_meta c then String "\" (String c (QuoteMeta s'))
                   else String c (QuoteMeta s')
  end.

(** ** Parsing *)

Definition is_alnum (c : ascii) : bool :=
  Utf8.in_range 48 57 (code c) || Utf8.in_range 65 90 (code c) ||
  Utf8.in_range 97 122 (code c).

Fixpoint digits (acc : nat) (s : string) : nat * string :=
  match s with
  | String c s' => if Utf8.in_range 48 57 (code c)
                   then digits (10 * acc + (N.to_nat (code c) - 48)) s' else (acc, s)
  | "" => (acc, "")
  end.

(** An optional [{n}] or [{n,m}] after a class or a literal; the bounds RE2
    enforces are [n <= m <= 1000]. *)
Definition parse_repeat (s : string) : option (nat * nat * string) :=
  match s with
  | String "{" s1 =>
      let '(n, s2) := digits 0 s1 in
      match s2 with
      | String "}" s3 => if (n <=? 1000) && negb (String.length s1 =? String.length s2)
                         then Some (n, n, s3) else None
      | String "," s3 =>
          let '(m, s4) := digits 0 s3 in
          match s4 with
          | String "}" s5 =>
              if (n <=? m) && (m <=? 1000) && negb (String.length s3 =? String.length s4)
                 && negb (String.length s1 =? String.length s2)
              then Some (n, m, s5) else None
          | _ => None
          end
      | _ => None
      end
  | _ => Some (1, 1, s)
  end.

(** The members of a bracket class up to the closing bracket. *)
Fixpoint parse_class (fuel : nat) (s : string) : option (list (N * N) * string) :=
  match fuel with
  | O => None
  | S fuel' =>
      match s with
      | String "]" s' => Some ([], s')
      | String "[" _ | String "\" _ | "" => None
      | String c s1 =>
          if negb (is_ascii c) then None else
          let '(r, s2) :=
            match s1 with
            | String "-" (String d s3) =>
                if (d =c? "]") then ((code c, code c), s1) else ((code c, code d), s3)
            | _ => ((code c, code c), s1)
            end in
          if N.ltb (snd r) (fst r) then None else
          match parse_class fuel' s2 with
          | Some (rs, rest) => Some (r :: rs, rest)
          | None => None
          end
      end
  end.

Definition with_repeat (neg : bool) (rs : list (N * N)) (s : string)
    : option (item * string) :=
  match parse_repeat s with
  | Some (n, m, s') => Some ({| it_neg := neg; it_ranges := rs; it_min := n; it_max := m |}, s')
  | None => None
  end.

(** The items up to the final [$]. *)
Fixpoint parse_items (fuel : nat) (s : string) : option (list item) :=
  match fuel with
  | O => None
  | S fuel' =>
      let continue (r : option (item * string)) :=
        match r with
        | Some (it, s') => option_map (cons it) (parse_items fuel' s')
        | None => None
        end in
      match s with
      | "$" => Some []
      | String "\" (String c s') =>
          if is_alnum c || negb (is_ascii c) then None
          else continue (with_repeat false [(code c, code c)] s')
      | String "[" s' =>
          let '(neg, s1) := match s' with String "^" s2 => (true, s2) | _ => (false, s') end in
          match parse_class (String.length s1) s1 with
          | Some ([], _) | None => None
          | Some (rs, s2) => continue (with_repeat neg rs s2)
          end
      | String c s' =>
          if is_meta c || negb (is_ascii c) then None
          else continue (with_repeat false [(code c, code c)] s')
      | "" => None
      end
  end.

Definition Compile (s : string) : option (list item) :=
  match s with
  | String "^" s' => parse_items (S (String.length s')) s'
  | _ => None
  end.

(** ** Matching *)

Definition class_mem (it : item) (r : N) : bool :=
  xorb (it_neg it) (existsb (fun lh => Utf8.in_range (fst lh) (snd lh) r) (it_ranges it)).

(** [extra] more characters after the [lo] required ones. *)
Fixpoint match_rep (p : N -> bool) (lo extra : nat) (k : list N -> bool) (s : list N) : bool :=
  match lo with
  | S lo' => match s with r :: s' => p r && match_rep p lo' extra k s' | [] => false end
  | O => k s ||
         (fix more (extra : nat) (s : list N) : bool :=
            match extra with
            | O => false
            | S e => match s with
                     | r :: s' => p r && (k s' || more e s')
                     | [] => false
                     end
            end) extra s
  end.

Fixpoint match_items (its : list item) (s : list N) : bool :=
  match its with
  | [] => match s with [] => true | _ => false end
  | it :: its' =>
      match_rep (class_mem it) (it_min it) (it_max it - it_min it) (match_items its') s
  end.

Definition MatchString (re : list item) (s : string) : bool := match_items re (Utf8.runes s).

(** ** What a match is *)

(** The declarative meaning of an item list: the text splits into one block per
    item, of an allowed length and made of characters of the class. *)
Inductive matches : list item -> list N -> Prop :=
  | matches_nil : matches [] []
  | matches_cons it its blk s :
      it_min it <= length blk <= it_max it ->
      Forall (fun r => class_mem it r = true) blk ->
      matches its s -> matches (it :: its) (blk ++ s).

Lemma match_rep_spec p lo extra k s :
  match_rep p lo extra k s = true <->
  exists blk s', s = blk ++ s' /\ lo <= length blk <= lo + extra /\
    Forall (fun r => p r = true) blk /\ k s' = true.
Proof.
  revert s. induction lo as [|lo IH]; intros s; simpl.
  - revert s. induction extra as [|e IHe]; intros s; simpl.
    + rewrite orb_false_r. split.
      * intros Hk. exists [], s. split_and!; simpl; try lia; done.
      * intros (blk & s' & -> & Hl & _ & Hk). destruct blk; simpl in *; [done|lia].
    + rewrite orb_true_iff. split.
      * intros [Hk|Hm]; [exists [], s; split_and!; simpl; try lia; done|].
        destruct s as [|r s]; [done|]. apply andb_true_iff in Hm as [Hp Hm].
        apply IHe in Hm as (blk & s' & -> & Hl & Hall & Hk).
        exists (r :: blk), s'. simpl. split_and!; try lia; auto.
      * intros (blk & s' & -> & Hl & Hall & Hk).
        destruct blk as [|r blk]; simpl in *; [by left|right].
        apply Forall_cons in Hall as [-> Hall]. simpl.
        apply IHe. exists blk, s'. split_and!; try lia; done.
  - destruct s as [|r s].
    { split; [done|]. intros (blk & s' & Heq & Hl & _).
      symmetry in Heq. apply app_eq_nil in Heq as [-> _]. simpl in Hl. lia. }
    rewrite andb_true_iff, IH. split.
    + intros (Hp & blk & s' & -> & Hl & Hall & Hk).
      exists (r :: blk), s'. simpl. split_and!; try lia; auto.
    + intros (blk & s' & Heq & Hl & Hall & Hk).
      destruct blk as [|r' blk]; simpl in *; [lia|]. injection Heq as -> ->.
      apply Forall_cons in Hall as [Hp Hall]. split; [done|].
      exists blk, s'. split_and!; try lia; done.
Qed.

(** The backtracking matcher decides the declarative relation. *)
Lemma match_items_spec its s :
  Forall (fun it => it_min it <= it_max it) its ->
  match_items its s = true <-> matches its s.
Proof.
  revert s. induction its as [|it its IH]; intros s Hwf; simpl.
  - destruct s; split; try done; [by constructor|by inversion 1].
  - apply Forall_cons in Hwf as [Hle Hwf]. rewrite match_rep_spec. split.
    + intros (blk & s' & -> & Hl & Hall & Hk). constructor; [lia|done|by apply IH].
    + inversion 1 as [|? ? blk s' Hl Hall Hk]; subst.
      exists blk, s'. split_and!; try lia; auto. by apply IH.
Qed.

(** ** Literals *)

Definition lits (s : list N) : list item :=
  map (fun c => {| it_neg := false; it_ranges := [(c, c)]; it_min := 1; it_max := 1 |}) s.

Lemma class_mem_lit c r :
  class_mem {| it_neg := false; it_ranges := [(c, c)]; it_min := 1; it_max := 1 |} r = true
  <-> r = c.
Proof.
  unfold class_mem. simpl. rewrite orb_false_r. unfold Utf8.in_range.
  rewrite andb_true_iff, !N.leb_le. lia.
Qed.

Lemma match_lits l its s :
  match_items (lits l ++ its) s = true <-> exists s', s = l ++ s' /\ match_items its s' = true.
Proof.
  revert s. induction l as [|c l IH]; intros s; simpl.
  - split; [by exists s|]. by intros (s' & -> & ?).
  - destruct s as [|r s].
    { split; [done|]. intros (s' & ? & _). done. }
    simpl. rewrite orb_false_r, andb_true_iff, IH.
    rewrite (class_mem_lit c r). split.
    + intros (-> & s' & -> & Hm). by exists s'.
    + intros (s' & [= -> ->] & Hm). split; [done|]. by exists s'.
Qed.

(** A block matched by a class that excludes the rune [sep], followed by text
    that is empty or starts with [sep], is the text before the first [sep]. *)
Fixpoint before (sep : N) (s : list N) : list N :=
  match s with
  | r :: s' => if N.eqb r sep then [] else r :: before sep s'
  | [] => []
  end.

Fixpoint after (sep : N) (s : list N) : list N :=
  match s with
  | r :: s' => if N.eqb r sep then s else after sep s'
  | [] => []
  end.

Lemma before_after sep s : before sep s ++ after sep s = s.
Proof.
  induction s as [|r s IH]; simpl; [done|].
  destruct (N.eqb_spec r sep); simpl; [done|]. by rewrite IH.
Qed.

Definition starts_sep (sep : N) (s : list N) : Prop :=
  match s with [] => True | r :: _ => r = sep end.

Lemma starts_sep_after sep s : starts_sep sep (after sep s).
Proof.
  induction s as [|r s IH]; simpl; [done|].
  destruct (N.eqb_spec r sep); simpl; done.
Qed.

Lemma before_app sep blk s :
  Forall (fun r => r <> sep) blk -> starts_sep sep s ->
  before sep (blk ++ s) = blk /\ after sep (blk ++ s) = s.
Proof.
  intros Hall Hs. induction Hall as [|r blk Hr Hall IH]; simpl.
  - destruct s as [|r s]; simpl in *; [done|]. subst. by rewrite N.eqb_refl.
  - rewrite (proj2 (N.eqb_neq _ _) Hr). destruct IH as [-> ->]. done.
Qed.
