(* ===== verification/Routes.v ===== *)
(** * internal/routes: the route catalog

    [Catalog] builds the table of Remnawave 2.8.1 operations the way the source
    does (the operation list, the overrides, the stable sort, [compile]);
    [Match] resolves a request; [CheckOpenAPI] compares the table with an OpenAPI
    document.  The proofs relate the compiled expressions to segment-by-segment
    matching and use that to settle which routes can compete for a path. *)

From S2P Require Import Prelude GoStrings Encoding Json Ratelimit Regexp.
From stdpp Require Import options.

(** ** Routes *)

(** [type Support string] with its constants. *)
Definition Support := string.
Definition PolicyEnforced : Support := "policy-enforced".
Definition Privileged : Support := "privileged".
Definition Unsupported : Support := "unsupported".
Definition PublicSubscription : Support := "public-subscription".

Record Route := {
  rt_Name : string;
  rt_Method : string;
  rt_Pattern : string;
  rt_Support : Support;
  rt_Scopes : list string;
  rt_QueryAllowed : list string;
  rt_BodyLimit : Z;
  rt_BodyObject : bool;
  rt_AllowedFields : list string;
  rt_RequiredBoolean : string;
  rt_Group : string;
  rt_UnsupportedReason : string;
  rt_re : option (list item);
}.

Definition mkRoute (name method pattern : string) (support : Support)
    (scopes query : list string) (limit : Z) (object : bool) (fields : list string)
    (required group : string) : Route := {|
  rt_Name := name; rt_Method := method; rt_Pattern := pattern; rt_Support := support;
  rt_Scopes := scopes; rt_QueryAllowed := query; rt_BodyLimit := limit;
  rt_BodyObject := object; rt_AllowedFields := fields; rt_RequiredBoolean := required;
  rt_Group := group; rt_UnsupportedReason := ""; rt_re := None;
|}.

(** [Route{}] *)
Definition zero_route : Route := mkRoute "" "" "" "" [] [] 0 false [] "" "".

Definition set_re (r : Route) (re : option (list item)) : Route := {|
  rt_Name := rt_Name r; rt_Method := rt_Method r; rt_Pattern := rt_Pattern r;
  rt_Support := rt_Support r; rt_Scopes := rt_Scopes r;
  rt_QueryAllowed := rt_QueryAllowed r; rt_BodyLimit := rt_BodyLimit r;
  rt_BodyObject := rt_BodyObject r; rt_AllowedFields := rt_AllowedFields r;
  rt_RequiredBoolean := rt_RequiredBoolean r; rt_Group := rt_Group r;
  rt_UnsupportedReason := rt_UnsupportedReason r; rt_re := re;
|}.

Definition userFields : list string :=
  ["username"; "status"; "shortUuid"; "short_uuid"; "trojanPassword"; "vlessUuid";
   "ssPassword"; "expireAt"; "createdAt"; "lastTrafficResetAt"; "trafficLimitBytes";
   "trafficLimitStrategy"; "telegramId"; "telegram_id"; "email"; "description"; "tag";
   "activeInternalSquads"; "hwidDeviceLimit"; "uuid"; "externalSquadUuid";
   "external_squad_uuid"; "subscriptionPageConfigUuid"; "subscriptionPageConfigUUID";
   "subscription_page_config_uuid"].

Definition userUpdateFields : list string :=
  ["username"; "uuid"; "status"; "expireAt"; "trafficLimitBytes"; "trafficLimitStrategy";
   "telegramId"; "telegram_id"; "email"; "description"; "tag"; "activeInternalSquads";
   "hwidDeviceLimit"; "externalSquadUuid"; "external_squad_uuid";
   "subscriptionPageConfigUuid"; "subscriptionPageConfigUUID";
   "subscription_page_config_uuid"].

Definition deletes_and_gets : string := "
DELETE /api/config-profiles/{uuid}
DELETE /api/external-squads/{uuid}
DELETE /api/external-squads/{uuid}/bulk-actions/remove-users
DELETE /api/hosts/{uuid}
DELETE /api/infra-billing/history/{uuid}
DELETE /api/infra-billing/nodes/{uuid}
DELETE /api/infra-billing/providers/{uuid}
DELETE /api/internal-squads/{uuid}
DELETE /api/internal-squads/{uuid}/bulk-actions/remove-users
DELETE /api/node-plugins/torrent-blocker/truncate
DELETE /api/node-plugins/{uuid}
DELETE /api/nodes/{uuid}
DELETE /api/passkeys
DELETE /api/snippets
DELETE /api/subscription-page-configs/{uuid}
DELETE /api/subscription-templates/{uuid}
DELETE /api/tokens/{uuid}
DELETE /api/users/{uuid}
GET /api/auth/passkey/authentication/options
GET /api/auth/status
GET /api/bandwidth-stats/nodes
GET /api/bandwidth-stats/nodes/{uuid}/users
GET /api/bandwidth-stats/nodes/{uuid}/users/legacy
GET /api/bandwidth-stats/users/{uuid}
GET /api/bandwidth-stats/users/{uuid}/legacy
GET /api/config-profiles
GET /api/config-profiles/inbounds
GET /api/config-profiles/{uuid}
GET /api/config-profiles/{uuid}/computed-config
GET /api/config-profiles/{uuid}/inbounds
GET /api/external-squads
GET /api/external-squads/{uuid}
GET /api/hosts
GET /api/hosts/tags
GET /api/hosts/{uuid}
GET /api/hwid/devices
GET /api/hwid/devices/stats
GET /api/hwid/devices/top-users
GET /api/hwid/devices/{userUuid}
GET /api/infra-billing/history
GET /api/infra-billing/nodes
GET /api/infra-billing/providers
GET /api/infra-billing/providers/{uuid}
GET /api/internal-squads
GET /api/internal-squads/{uuid}
GET /api/internal-squads/{uuid}/accessible-nodes
GET /api/ip-control/fetch-ips/result/{jobId}
GET /api/ip-control/fetch-users-ips/result/{jobId}
GET /api/keygen
GET /api/metadata/node/{uuid}
GET /api/metadata/user/{uuid}
GET /api/node-plugins
GET /api/node-plugins/torrent-blocker
GET /api/node-plugins/torrent-blocker/stats
GET /api/node-plugins/{uuid}
GET /api/nodes
GET /api/nodes/tags
GET /api/nodes/{uuid}
GET /api/passkeys
GET /api/passkeys/registration/options
GET /api/remnawave-settings
GET /api/snippets
GET /api/sub/{shortUuid}
GET /api/sub/{shortUuid}/info
GET /api/sub/{shortUuid}/{clientType}
GET /api/subscription-page-configs
GET /api/subscription-page-configs/{uuid}
GET /api/subscription-request-history
GET /api/subscription-request-history/stats
GET /api/subscription-settings
GET /api/subscription-templates
GET /api/subscription-templates/{uuid}
GET /api/subscriptions
GET /api/subscriptions/by-short-uuid/{shortUuid}
GET /api/subscriptions/by-short-uuid/{shortUuid}/raw
GET /api/subscriptions/by-username/{username}
GET /api/subscriptions/by-uuid/{uuid}
GET /api/subscriptions/connection-keys/{uuid}
GET /api/subscriptions/subpage-config/{shortUuid}
GET /api/system/health
GET /api/system/metadata
GET /api/system/nodes/metrics
GET /api/system/stats
GET /api/system/stats/bandwidth
GET /api/system/stats/nodes
GET /api/system/stats/recap
GET /api/system/tools/x25519/generate
GET /api/tokens
GET /api/tokens/scopes
GET /api/users
GET /api/users/by-email/{email}
GET /api/users/by-id/{id}
GET /api/users/by-short-uuid/{shortUuid}
GET /api/users/by-tag/{tag}
GET /api/users/by-telegram-id/{telegramId}
GET /api/users/by-username/{username}
GET /api/users/tags
GET /api/users/stream
GET /api/users/{uuid}
GET /api/users/{uuid}/accessible-nodes
GET /api/users/{uuid}/subscription-request-history
".

Definition other_operations : string := "PATCH /api/config-profiles
PATCH /api/external-squads
PATCH /api/hosts
PATCH /api/hosts/bulk/update
PATCH /api/infra-billing/nodes
PATCH /api/infra-billing/providers
PATCH /api/internal-squads
PATCH /api/node-plugins
PATCH /api/nodes
PATCH /api/passkeys
PATCH /api/remnawave-settings
PATCH /api/snippets
PATCH /api/subscription-page-configs
PATCH /api/subscription-settings
PATCH /api/subscription-templates
PATCH /api/users
POST /api/auth/login
POST /api/auth/oauth2/authorize
POST /api/auth/oauth2/callback
POST /api/auth/passkey/authentication/verify
POST /api/auth/register
POST /api/bandwidth-stats/nodes/users
POST /api/config-profiles
POST /api/config-profiles/actions/reorder
POST /api/external-squads
POST /api/external-squads/actions/reorder
POST /api/external-squads/{uuid}/bulk-actions/add-users
POST /api/hosts
POST /api/hosts/actions/reorder
POST /api/hosts/bulk/delete
POST /api/hosts/bulk/disable
POST /api/hosts/bulk/enable
POST /api/hwid/devices
POST /api/hwid/devices/delete
POST /api/hwid/devices/delete-all
POST /api/infra-billing/history
POST /api/infra-billing/nodes
POST /api/infra-billing/providers
POST /api/internal-squads
POST /api/internal-squads/actions/reorder
POST /api/internal-squads/{uuid}/bulk-actions/add-users
POST /api/ip-control/drop-connections
POST /api/ip-control/fetch-ips/{uuid}
POST /api/ip-control/fetch-users-ips/{nodeUuid}
POST /api/node-plugins
POST /api/node-plugins/actions/clone
POST /api/node-plugins/actions/reorder
POST /api/node-plugins/executor
POST /api/nodes
POST /api/nodes/actions/reorder
POST /api/nodes/actions/restart-all
POST /api/nodes/bulk-actions
POST /api/nodes/bulk-actions/profile-modification
POST /api/nodes/bulk-actions/update
POST /api/nodes/{uuid}/actions/disable
POST /api/nodes/{uuid}/actions/enable
POST /api/nodes/{uuid}/actions/reset-traffic
POST /api/nodes/{uuid}/actions/restart
POST /api/passkeys/registration/verify
POST /api/snippets
POST /api/subscription-page-configs
POST /api/subscription-page-configs/actions/clone
POST /api/subscription-page-configs/actions/reorder
POST /api/subscription-templates
POST /api/subscription-templates/actions/reorder
POST /api/system/testers/srr-matcher
POST /api/tokens
POST /api/users
POST /api/users/bulk/all/extend-expiration-date
POST /api/users/bulk/all/reset-traffic
POST /api/users/bulk/all/update
POST /api/users/bulk/delete
POST /api/users/bulk/delete-by-status
POST /api/users/bulk/extend-expiration-date
POST /api/users/bulk/reset-traffic
POST /api/users/bulk/revoke-subscription
POST /api/users/bulk/update
POST /api/users/bulk/update-squads
POST /api/users/resolve
POST /api/users/{uuid}/actions/disable
POST /api/users/{uuid}/actions/enable
POST /api/users/{uuid}/actions/reset-traffic
POST /api/users/{uuid}/actions/revoke
PUT /api/metadata/node/{uuid}
PUT /api/metadata/user/{uuid}
".

Definition remnawave281Operations : string := deletes_and_gets +:+ other_operations.

Definition overrides : list Route :=
  [
   mkRoute "user.read.uuid" "GET"
     "/api/users/{uuid}" PolicyEnforced ["users:read"]
     ["includeHwid"; "includeSubscription"] 0 false
     [] "" "users";
   mkRoute "user.read.username" "GET"
     "/api/users/by-username/{username}" PolicyEnforced ["users:read"]
     ["includeHwid"; "includeSubscription"] 0 false
     [] "" "users";
   mkRoute "user.read.telegram" "GET"
     "/api/users/by-telegram-id/{telegramId}" PolicyEnforced ["users:read"]
     ["includeHwid"; "includeSubscription"] 0 false
     [] "" "users";
   mkRoute "user.list" "GET"
     "/api/users" PolicyEnforced ["users:read"]
     ["page"; "size"; "limit"; "offset"; "start"; "search"; "username"; "includeHwid";
      "includeSubscription"; "filters"; "filterModes"; "sorting"] 0 false
     [] "" "users";
   mkRoute "user.create" "POST"
     "/api/users" Privileged ["remnawave:*"]
     [] 65536 true
     userFields "" "users";
   mkRoute "user.update" "PATCH"
     "/api/users" Privileged ["remnawave:*"]
     [] 65536 true
     userUpdateFields "" "users";
   mkRoute "user.delete" "DELETE"
     "/api/users/{uuid}" Privileged ["remnawave:*"]
     [] 0 false
     [] "" "users";
   mkRoute "user.actions.disable" "POST"
     "/api/users/{uuid}/actions/disable" Privileged ["remnawave:*"]
     [] 0 false
     [] "" "users";
   mkRoute "user.actions.enable" "POST"
     "/api/users/{uuid}/actions/enable" Privileged ["remnawave:*"]
     [] 0 false
     [] "" "users";
   mkRoute "user.actions.reset_traffic" "POST"
     "/api/users/{uuid}/actions/reset-traffic" Privileged ["remnawave:*"]
     [] 0 false
     [] "" "users";
   mkRoute "user.actions.revoke" "POST"
     "/api/users/{uuid}/actions/revoke" Privileged ["remnawave:*"]
     [] 0 false
     [] "" "users";
   mkRoute "hwid.list" "GET"
     "/api/hwid/devices/{userUuid}" PolicyEnforced ["hwid:read"]
     [] 0 false
     [] "" "hwid";
   mkRoute "hwid.create" "POST"
     "/api/hwid/devices" Privileged ["remnawave:*"]
     [] 8192 true
     ["hwid"; "userUuid"; "platform"; "osVersion"; "deviceModel"; "userAgent"] "" "hwid";
   mkRoute "hwid.delete" "POST"
     "/api/hwid/devices/delete" Privileged ["remnawave:*"]
     [] 8192 true
     ["userUuid"; "hwid"] "" "hwid";
   mkRoute "hwid.delete_all" "POST"
     "/api/hwid/devices/delete-all" Privileged ["remnawave:*"]
     [] 8192 true
     ["userUuid"] "" "hwid";
   mkRoute "squad.internal.read" "GET"
     "/api/internal-squads/{uuid}" PolicyEnforced ["squads:read"]
     [] 0 false
     [] "" "internal-squads";
   mkRoute "squad.external.read" "GET"
     "/api/external-squads/{uuid}" PolicyEnforced ["squads:read"]
     [] 0 false
     [] "" "external-squads";
   mkRoute "squad.internal.list" "GET"
     "/api/internal-squads" PolicyEnforced ["squads:read"]
     ["page"; "size"; "limit"; "offset"; "search"] 0 false
     [] "" "internal-squads";
   mkRoute "squad.external.list" "GET"
     "/api/external-squads" PolicyEnforced ["squads:read"]
     ["page"; "size"; "limit"; "offset"; "search"] 0 false
     [] "" "external-squads";
   mkRoute "system.health" "GET"
     "/api/system/health" PolicyEnforced ["system:read"]
     [] 0 false
     [] "" "system";
   mkRoute "system.metadata" "GET"
     "/api/system/metadata" PolicyEnforced ["metadata:read"]
     [] 0 false
     [] "" "metadata";
   mkRoute "system.bandwidth" "GET"
     "/api/system/stats/bandwidth" PolicyEnforced ["system:read"]
     ["tz"] 0 false
     [] "" "bandwidth-stats";
   mkRoute "system.stats" "GET"
     "/api/system/stats" PolicyEnforced ["system:read"]
     ["tz"] 0 false
     [] "" "system";
   mkRoute "post.nodes.uuid.actions.restart" "POST"
     "/api/nodes/{uuid}/actions/restart" Privileged ["remnawave:*"]
     [] 8192 true
     ["forceRestart"] "forceRestart" "nodes";
   mkRoute "post.nodes.actions.restart_all" "POST"
     "/api/nodes/actions/restart-all" Privileged ["remnawave:*"]
     [] 8192 true
     ["forceRestart"] "forceRestart" "nodes";
   mkRoute "sub.info" "GET"
     "/api/sub/{shortUuid}/info" PublicSubscription []
     [] 0 false
     [] "" "subscriptions";
   mkRoute "sub.base" "GET"
     "/api/sub/{shortUuid}" PublicSubscription []
     [] 0 false
     [] "" "subscriptions";
   mkRoute "sub.client" "GET"
     "/api/sub/{shortUuid}/{clientType}" PublicSubscription []
     [] 0 false
     [] "" "subscriptions";
   mkRoute "subscription_page_config.list" "GET"
     "/api/subscription-page-configs" PolicyEnforced ["subscription-pages:read"]
     [] 0 false
     [] "" "subscription-page-configs";
   mkRoute "subscription_page_config.read" "GET"
     "/api/subscription-page-configs/{uuid}" PolicyEnforced ["subscription-pages:read"]
     [] 0 false
     [] "" "subscription-page-configs";
   mkRoute "subscription.subpage_config" "GET"
     "/api/subscriptions/subpage-config/{shortUuid}" PolicyEnforced ["subscriptions:read"; "subscription:read"]
     [] 0 false
     [] "" "subscriptions"
  ].

(** ** Names, groups, order *)

(** [strings.ReplaceAll] for a text of any length, left to right and without
    overlap ([old] is never empty here). *)
Fixpoint replace_all (fuel : nat) (s old new : string) : string :=
  match fuel with
  | O => s
  | S fuel' =>
      match s with
      | "" => ""
      | String c s' =>
          if HasPrefix s old
          then new +:+ replace_all fuel' (drop_str (String.length old) s) old new
          else String c (replace_all fuel' s' old new)
      end
  end.

Definition ReplaceAllStr (s old new : string) : string :=
  replace_all (S (String.length s)) s old new.

(** [strings.NewReplacer("/", ".", "-", "_")] *)
Fixpoint name_replacer (s : string) : string :=
  match s with
  | "" => ""
  | String c s' =>
      String (if c =c? "/" then "." else if c =c? "-" then "_" else c) (name_replacer s')
  end.

Definition routeGroup (path : string) : string :=
  match Split "/" (Trim "/" path) with
  | _ :: p1 :: _ =>
      if (p1 =s? "system") && Contains path "/stats/bandwidth" then "bandwidth-stats"
      else if (p1 =s? "system") && Contains path "/tools/" then "keygen-tools"
      else if (p1 =s? "auth") || (p1 =s? "passkeys") then "auth-passkeys"
      else if (p1 =s? "metadata") || (p1 =s? "remnawave-settings") then "metadata"
      else if p1 =s? "sub" then "subscriptions"
      else p1
  | _ => "other"
  end.

Definition specificity (pattern : string) : Z :=
  Z.of_nat (length (Split "/" (Trim "/" pattern))) * 10 + len pattern
  - Count pattern "{" * 20.

(** Leftmost match of [open], one or more characters other than the closing
    brace, then [close]; the characters between are handed to [f].  With
    [open = "{"] this is the expression of [normalizeRouteShape]; [compile] looks
    for the quoted braces. *)
Fixpoint replace_params (fuel : nat) (quoted : bool) (f : string -> string) (s : string)
    : string :=
  match fuel with
  | O => s
  | S fuel' =>
      match s with
      | "" => ""
      | String c s' =>
          let skip := String c (replace_params fuel' quoted f s') in
          let open := if quoted then "\{" else "{" in
          if HasPrefix s open then
            match Cut "}" (drop_str (String.length open) s) with
            | (body, rest, true) =>
                let name := if quoted then TrimSuffix body "\" else body in
                if (name =s? "") || (quoted && negb (HasSuffix body "\")) then skip
                else f name +:+ replace_params fuel' quoted f rest
            | _ => skip
            end
          else skip
      end
  end.

Definition normalizeRouteShape (p : string) : string :=
  replace_params (S (String.length p)) false (fun _ => "{}") p.

Section routes.
Context `{Unicode}.

Definition routeName (method pattern : string) : string :=
  let name := TrimPrefix pattern "/api/" in
  let name := ReplaceAll name "{" "" in
  let name := ReplaceAll name "}" "" in
  ToLower method +:+ "." +:+ name_replacer name.

Definition routeKey (method pattern : string) : string :=
  ToUpper method +:+ " " +:+ pattern.

(** ** compile *)

Definition param_class (name : string) : string :=
  let lower := ToLower name in
  if contains_str ["uuid"; "useruuid"; "nodeuuid"] lower then "[0-9a-fA-F-]{36}"
  else if contains_str ["id"; "telegramid"] lower then "[0-9]{1,32}"
  else if lower =s? "shortuuid" then "[A-Za-z0-9_-]{6,64}"
  else if lower =s? "clienttype" then "[A-Za-z0-9_-]{1,64}"
  else "[^/]{1,256}".

Definition pattern_regexp (pattern : string) : string :=
  let p := QuoteMeta pattern in
  let p := replace_params (S (String.length p)) true param_class p in
  let p := ReplaceAllStr p "\{uuid\}" "[0-9a-fA-F-]{36}" in
  let p := ReplaceAllStr p "\{username\}" "[^/]{1,128}" in
  let p := ReplaceAllStr p "\{telegramId\}" "[0-9]{1,32}" in
  let p := ReplaceAllStr p "\{action\}" "[^/]{1,64}" in
  let p := ReplaceAllStr p "\{hwid\}" "[^/]{1,128}" in
  let p := ReplaceAllStr p "\{shortUuid\}" "[A-Za-z0-9_-]{6,64}" in
  let p := ReplaceAllStr p "\{clientType\}" "[A-Za-z0-9_-]{1,64}" in
  "^" +:+ p +:+ "$".

Definition compile (rs : list Route) : list Route :=
  map (fun r => set_re r (Compile (pattern_regexp (rt_Pattern r)))) rs.

(** ** The catalog *)

Definition operation_route (line : string) : Route :=
  let '(method, pattern, _) := Cut " " line in
  mkRoute (routeName method pattern) method pattern Privileged ["remnawave:*"]
    [] 0 false [] "" (routeGroup pattern).

Definition operation_routes : list Route :=
  map operation_route
    (List.filter (fun l => l <>s? "") (map TrimSpace (Split "010" remnawave281Operations))).

(** [byKey]: the last index of each method and pattern. *)
Fixpoint index_routes (i : nat) (rs : list Route) (byKey : gmap string nat)
    : gmap string nat :=
  match rs with
  | [] => byKey
  | r :: rs' =>
      index_routes (S i) rs' (<[routeKey (rt_Method r) (rt_Pattern r) := i]> byKey)
  end.

Fixpoint apply_overrides (byKey : gmap string nat) (ovs rs : list Route) : list Route :=
  match ovs with
  | [] => rs
  | o :: ovs' =>
      apply_overrides byKey ovs'
        (match byKey !! routeKey (rt_Method o) (rt_Pattern o) with
         | Some idx => <[idx := o]> rs
         | None => rs ++ [o]
         end)
  end.

Definition route_less (a b : Route) : bool :=
  if rt_Method a <>s? rt_Method b then str_lt (rt_Method a) (rt_Method b)
  else (specificity (rt_Pattern b) <? specificity (rt_Pattern a))%Z.

Definition remnawave281Catalog : list Route :=
  SliceStable route_less
    (apply_overrides (index_routes 0 operation_routes ∅) overrides operation_routes).

Definition Catalog (version : string) : list Route :=
  if version <>s? "2.8.1" then [] else compile remnawave281Catalog.

(** ** Match *)

Definition route_matches (method path : string) (r : Route) : bool :=
  (rt_Method r =s? method) &&
  match rt_re r with Some re => MatchString re path | None => false end.

(** The recursion of [Match]: a trimmed path has no trailing slash, so two
    rounds are all it can take ([Match_unfold] below). *)
Fixpoint match_fuel (fuel : nat) (catalog : list Route) (method path : string)
    : option Route :=
  match fuel with
  | O => None
  | S fuel' =>
      match List.find (route_matches method path) catalog with
      | Some r => Some r
      | None =>
          if (path <>s? "/api/") && HasSuffix path "/"
          then match_fuel fuel' catalog method (TrimRight "/" path)
          else None
      end
  end.

Definition Match : list Route -> string -> string -> option Route := match_fuel 2.
End routes.

(** ** Segment matching: what a route pattern means

    The reference semantics of a pattern: the path splits at slashes into as
    many segments as the pattern, each equal to the literal or accepted by the
    parameter. *)

Definition slash : N := 47.

Fixpoint split_runes (s : list N) : list (list N) :=
  match s with
  | [] => [[]]
  | r :: s' =>
      if N.eqb r slash then [] :: split_runes s'
      else match split_runes s' with
           | p :: ps => (r :: p) :: ps
           | [] => [[r]]
           end
  end.

Inductive segment :=
  | SLit (text : list N)
  | SParam (it : item).

(** What each parameter accepts, by its name in the pattern. *)
Definition param_item (name : string) : item :=
  let hex := [(48, 57); (97, 102); (65, 70); (45, 45)]%N in
  let word := [(65, 90); (97, 122); (48, 57); (95, 95); (45, 45)]%N in
  if contains_str ["uuid"; "userUuid"; "nodeUuid"] name
  then {| it_neg := false; it_ranges := hex; it_min := 36; it_max := 36 |}
  else if contains_str ["id"; "telegramId"] name
  then {| it_neg := false; it_ranges := [(48, 57)]%N; it_min := 1; it_max := 32 |}
  else if name =s? "shortUuid"
  then {| it_neg := false; it_ranges := word; it_min := 6; it_max := 64 |}
  else if name =s? "clientType"
  then {| it_neg := false; it_ranges := word; it_min := 1; it_max := 64 |}
  else {| it_neg := true; it_ranges := [(47, 47)]%N; it_min := 1; it_max := 256 |}.

Definition pattern_segment (part : string) : segment :=
  if HasPrefix part "{" && HasSuffix part "}"
  then SParam (param_item (TrimPrefix (TrimSuffix part "}") "{"))
  else SLit (Utf8.runes part).

Definition pattern_segments (pattern : string) : list segment :=
  map pattern_segment (Split "/" pattern).

Definition seg_accepts (sg : segment) (blk : list N) : bool :=
  match sg with
  | SLit l => bool_decide (blk = l)
  | SParam it =>
      (it_min it <=? length blk) && (length blk <=? it_max it) &&
      forallb (class_mem it) blk
  end.

Definition segs_match (segs : list segment) (blks : list (list N)) : Prop :=
  Forall2 (fun sg blk => seg_accepts sg blk = true) segs blks.

(** The items a segment list compiles to. *)
Definition seg_items (sg : segment) : list item :=
  match sg with SLit l => lits l | SParam it => [it] end.

Fixpoint segs_items (segs : list segment) : list item :=
  match segs with
  | [] => []
  | [sg] => seg_items sg
  | sg :: segs' => seg_items sg ++ lits [slash] ++ segs_items segs'
  end.

Definition seg_wf (sg : segment) : bool :=
  match sg with
  | SLit l => forallb (fun r => negb (N.eqb r slash)) l
  | SParam it => negb (class_mem it slash) && (it_min it <=? it_max it)
  end.

Lemma split_runes_app blk s :
  Forall (fun r => r <> slash) blk ->
  split_runes (blk ++ slash :: s) = blk :: split_runes s.
Proof.
  induction 1 as [|r blk Hr _ IH]; simpl; [done|].
  by rewrite (proj2 (N.eqb_neq _ _) Hr), IH.
Qed.

Lemma split_runes_free blk : Forall (fun r => r <> slash) blk -> split_runes blk = [blk].
Proof.
  induction 1 as [|r blk Hr _ IH]; simpl; [done|].
  by rewrite (proj2 (N.eqb_neq _ _) Hr), IH.
Qed.

(** A path is slash-free or has a first slash. *)
Lemma split_runes_cases s :
  Forall (fun r => r <> slash) s \/
  exists blk s', s = blk ++ slash :: s' /\ Forall (fun r => r <> slash) blk.
Proof.
  induction s as [|r s IH]; [by left|]. destruct (N.eqb_spec r slash) as [->|Hne].
  - right. by exists [], s.
  - destruct IH as [Hall|(blk & s' & -> & Hall)]; [left; by constructor|].
    right. exists (r :: blk), s'. split; [done|by constructor].
Qed.

Lemma split_runes_ne s : split_runes s <> [].
Proof.
  destruct (split_runes_cases s) as [Hall|(blk & s' & -> & Hall)].
  - by rewrite split_runes_free.
  - by rewrite split_runes_app.
Qed.

Lemma seg_accepts_free sg blk :
  seg_wf sg = true -> seg_accepts sg blk = true -> Forall (fun r => r <> slash) blk.
Proof.
  destruct sg as [l|it]; simpl; intros Hwf Hacc.
  - apply bool_decide_eq_true in Hacc as ->.
    apply Forall_forall. intros r Hin%list_elem_of_In.
    rewrite forallb_forall in Hwf. specialize (Hwf r Hin).
    by apply negb_true_iff, N.eqb_neq in Hwf.
  - apply andb_true_iff in Hacc as [_ Hacc]. apply andb_true_iff in Hwf as [Hwf _].
    apply Forall_forall. intros r Hin%list_elem_of_In ->.
    rewrite forallb_forall in Hacc. specialize (Hacc _ Hin).
    by rewrite Hacc in Hwf.
Qed.

Lemma match_seg_items sg its s :
  seg_wf sg = true ->
  match_items (seg_items sg ++ its) s = true <->
  exists blk s', s = blk ++ s' /\ seg_accepts sg blk = true /\ match_items its s' = true.
Proof.
  intros Hwf. destruct sg as [l|it]; simpl in *.
  - rewrite match_lits. split.
    + intros (s' & -> & Hm). exists l, s'. by rewrite bool_decide_eq_true_2.
    + intros (blk & s' & -> & ->%bool_decide_eq_true & Hm). by exists s'.
  - apply andb_true_iff in Hwf as [_ Hle%Nat.leb_le].
    rewrite match_rep_spec. split.
    + intros (blk & s' & -> & Hl & Hall & Hk). exists blk, s'. split; [done|].
      split; [|done]. rewrite !andb_true_iff, !Nat.leb_le, forallb_forall.
      split; [lia|]. intros r Hin%list_elem_of_In. rewrite Forall_forall in Hall. auto.
    + intros (blk & s' & -> & Hacc & Hk). exists blk, s'.
      rewrite !andb_true_iff, !Nat.leb_le, forallb_forall in Hacc.
      destruct Hacc as [[? ?] Hall]. split_and!; try lia; auto.
      apply Forall_forall. intros r Hin%list_elem_of_In. auto.
Qed.

(** The compiled form of a segment list matches exactly the paths the segments
    accept one by one. *)
Lemma match_segs_items segs s :
  segs <> [] -> forallb seg_wf segs = true ->
  match_items (segs_items segs) s = true <-> segs_match segs (split_runes s).
Proof.
  unfold segs_match. revert s. induction segs as [|sg segs IH]; [done|].
  intros s _ [Hwf Hwfs]%andb_true_iff. destruct segs as [|sg2 segs].
  - simpl. rewrite <- (app_nil_r (seg_items sg)), match_seg_items by done. split.
    + intros (blk & s' & -> & Hacc & Hm). destruct s'; [|done]. rewrite app_nil_r.
      rewrite split_runes_free by (by eapply seg_accepts_free). by repeat constructor.
    + intros Hf. destruct (split_runes_cases s) as [Hall|(blk & s' & -> & Hall)].
      * rewrite split_runes_free in Hf by done. apply Forall2_cons in Hf as [Hacc _].
        exists s, []. by rewrite app_nil_r.
      * rewrite split_runes_app in Hf by done. apply Forall2_cons in Hf as [_ Hf].
        apply Forall2_nil_inv_l in Hf. by destruct (split_runes_ne s').
  - change (segs_items (sg :: sg2 :: segs)) with
      (seg_items sg ++ lits [slash] ++ segs_items (sg2 :: segs)).
    rewrite match_seg_items by done. split.
    + intros (blk & s' & -> & Hacc & Hm). apply match_lits in Hm as (s'' & -> & Hm).
      simpl app. rewrite split_runes_app by (by eapply seg_accepts_free).
      constructor; [done|]. by apply IH.
    + intros Hf. destruct (split_runes_cases s) as [Hall|(blk & s' & -> & Hall)].
      * rewrite split_runes_free in Hf by done. apply Forall2_cons in Hf as [_ Hf].
        by apply Forall2_nil_inv_r in Hf.
      * rewrite split_runes_app in Hf by done. apply Forall2_cons in Hf as [Hacc Hf].
        exists blk, (slash :: s'). split_and!; [done|done|].
        apply match_lits. exists s'. split; [done|]. by apply IH.
Qed.

(** Two patterns that accept a common path overlap segment by segment. *)
Definition seg_overlap (a b : segment) : bool :=
  match a, b with
  | SLit l, SLit m => bool_decide (l = m)
  | SLit l, SParam _ => seg_accepts b l
  | SParam _, SLit m => seg_accepts a m
  | SParam _, SParam _ => true
  end.

Fixpoint segs_overlap (a b : list segment) : bool :=
  match a, b with
  | [], [] => true
  | x :: a', y :: b' => seg_overlap x y && segs_overlap a' b'
  | _, _ => false
  end.

Lemma segs_overlap_sound a b blks :
  segs_match a blks -> segs_match b blks -> segs_overlap a b = true.
Proof.
  intros Ha. revert b. induction Ha as [|x blk a blks Hx _ IH]; intros b Hb.
  - apply Forall2_nil_inv_r in Hb as ->. done.
  - apply Forall2_cons_inv_r in Hb as (y & b' & Hy & Hb' & ->).
    simpl. rewrite (IH _ Hb'), andb_true_r.
    destruct x as [l|it], y as [m|it']; simpl seg_overlap; [| | |done].
    + simpl in Hx, Hy. apply bool_decide_eq_true in Hx, Hy. subst.
      by rewrite bool_decide_eq_true_2.
    + simpl in Hx. apply bool_decide_eq_true in Hx. by subst.
    + simpl in Hy. apply bool_decide_eq_true in Hy. by subst.
Qed.

(** ** The 2.8.1 catalog *)

(** The proofs below evaluate the table only by [vm_compute]. *)
#[local] Opaque Catalog.

#[export] Instance item_eq_dec : EqDecision item.
Proof. solve_decision. Defined.

Section catalog_facts.
Context `{U : Unicode}.

Local Abbreviation catalog281 := (Catalog "2.8.1").

(** Checked by computation on the built table: every pattern compiles to the
    items of its segments. *)
Definition compiled_ok (r : Route) : bool :=
  let segs := pattern_segments (rt_Pattern r) in
  bool_decide (rt_re r = Some (segs_items segs)) && forallb seg_wf segs &&
  negb (match segs with [] => true | _ => false end).

Lemma catalog_compiles : forallb compiled_ok catalog281 = true.
Proof. vm_compute. reflexivity. Qed.

Lemma in_catalog (p : Route -> bool) r :
  forallb p catalog281 = true -> r ∈ catalog281 -> p r = true.
Proof. intros Hall Hin%list_elem_of_In. by apply (proj1 (forallb_forall p _) Hall). Qed.

Lemma route_matches_segments r method path :
  r ∈ catalog281 ->
  route_matches method path r = true <->
  rt_Method r = method /\
  segs_match (pattern_segments (rt_Pattern r)) (split_runes (Utf8.runes path)).
Proof.
  intros Hin. pose proof (in_catalog compiled_ok r catalog_compiles Hin) as Hok.
  unfold compiled_ok in Hok. rewrite !andb_true_iff in Hok.
  destruct Hok as [[Hre%bool_decide_eq_true Hwf] Hne].
  unfold route_matches. rewrite Hre, andb_true_iff, eqs_true. unfold MatchString.
  rewrite match_segs_items; [done| |done].
  intros Hnil. by rewrite Hnil in Hne.
Qed.

(** Equal routes, or the subscription pair. *)
Definition compete_ok (a b : Route) : bool :=
  (rt_Name a =s? rt_Name b) || (rt_Method a <>s? rt_Method b) ||
  negb (segs_overlap (pattern_segments (rt_Pattern a)) (pattern_segments (rt_Pattern b))) ||
  ((rt_Name a =s? "sub.info") && (rt_Name b =s? "sub.client")) ||
  ((rt_Name a =s? "sub.client") && (rt_Name b =s? "sub.info")).

Definition all_compete_ok (cat : list Route) : bool :=
  forallb (fun a => forallb (compete_ok a) cat) cat.

Lemma catalog_compete : all_compete_ok catalog281 = true.
Proof. vm_compute. reflexivity. Qed.

Lemma catalog_names : NoDup (map rt_Name catalog281).
Proof. eapply bool_decide_eq_true_1. vm_compute. reflexivity. Qed.

Lemma catalog_name_inj a b :
  a ∈ catalog281 -> b ∈ catalog281 -> rt_Name a = rt_Name b -> a = b.
Proof.
  exact (NoDup_map_inj rt_Name _ a b catalog_names).
Qed.

Lemma competing_routes a b method path :
  a ∈ catalog281 -> b ∈ catalog281 ->
  route_matches method path a = true -> route_matches method path b = true ->
  a = b \/ (rt_Name a = "sub.info" /\ rt_Name b = "sub.client") \/
  (rt_Name a = "sub.client" /\ rt_Name b = "sub.info").
Proof.
  intros Ha Hb Hma Hmb.
  pose proof catalog_compete as Hrow. unfold all_compete_ok in Hrow.
  apply (in_catalog _ a) in Hrow; [|done].
  pose proof (in_catalog (compete_ok a) b Hrow Hb) as Hok.
  apply route_matches_segments in Hma as [Hm1 Hs1]; [|done].
  apply route_matches_segments in Hmb as [Hm2 Hs2]; [|done].
  pose proof (segs_overlap_sound _ _ _ Hs1 Hs2) as Hov.
  unfold compete_ok in Hok. rewrite Hov, Hm1, Hm2, eqs_refl in Hok. simpl in Hok.
  rewrite !orb_false_r, !orb_true_iff, !andb_true_iff, !eqs_true in Hok.
  destruct Hok as [[Hn| ]| ]; [left; by apply catalog_name_inj|tauto|tauto].
Qed.

(** The literal route precedes the parametrised one of the pair. *)
Definition is_pair (r : Route) : bool :=
  (rt_Name r =s? "sub.info") || (rt_Name r =s? "sub.client").

Lemma catalog_pair : option_map rt_Name (List.find is_pair catalog281) = Some "sub.info".
Proof. vm_compute. reflexivity. Qed.

Lemma sub_info_first pre r post :
  catalog281 = pre ++ r :: post -> rt_Name r = "sub.client" ->
  exists i, i ∈ pre /\ rt_Name i = "sub.info".
Proof.
  intros Heq Hname. pose proof catalog_pair as Hfst. rewrite Heq in Hfst.
  destruct (find_hit is_pair pre r post) as (x & Hf & Hx).
  { unfold is_pair. by rewrite Hname. }
  rewrite Hf in Hfst. injection Hfst as Hnx.
  exists x. split; [|done]. destruct Hx as [Hx | ->]; [done|]. by rewrite Hname in Hnx.
Qed.

(** ** Match *)

Lemma TrimRight_slash_done path : HasSuffix (TrimRight "/" path) "/" = false.
Proof. apply TrimRight_suffix. Qed.

(** [Match] satisfies the recursive equation of the source, for every
    catalog: two rounds of fuel are enough. *)
Lemma Match_unfold catalog method path :
  Match catalog method path =
  match List.find (route_matches method path) catalog with
  | Some r => Some r
  | None => if (path <>s? "/api/") && HasSuffix path "/"
            then Match catalog method (TrimRight "/" path) else None
  end.
Proof.
  unfold Match. cbn [match_fuel].
  destruct (List.find _ _); [done|].
  destruct ((path <>s? "/api/") && HasSuffix path "/") eqn:Hs; [|done].
  destruct (List.find _ _); [done|].
  by rewrite TrimRight_slash_done, andb_false_r.
Qed.

Lemma Match_Some catalog method path r :
  Match catalog method path = Some r ->
  r ∈ catalog /\
  (route_matches method path r = true \/
   (HasSuffix path "/" = true /\ route_matches method (TrimRight "/" path) r = true)).
Proof.
  rewrite Match_unfold, Match_unfold.
  destruct (List.find (route_matches method path) catalog) as [r'|] eqn:Hf.
  { intros [= <-]. apply List.find_some in Hf as [? ?]. rewrite list_elem_of_In. auto. }
  destruct (_ && _) eqn:Hs; [|done]. apply andb_true_iff in Hs as [_ Hs].
  destruct (List.find (route_matches method (TrimRight "/" path)) catalog) as [r'|] eqn:Hf'.
  { intros [= <-]. apply List.find_some in Hf' as [? ?]. rewrite list_elem_of_In. auto. }
  by rewrite TrimRight_slash_done, andb_false_r.
Qed.

(** A parameter value each pattern accepts. *)
Definition sample_part (part : string) : string :=
  if negb (HasPrefix part "{") then part
  else if Contains (ToLower part) "uuid" && negb (Contains (ToLower part) "short")
  then "123e4567-e89b-12d3-a456-426614174000" else "1234567890".

Definition sample_path (pattern : string) : string :=
  Join (map sample_part (Split "/" pattern)) "/".

Definition found_as (cat : list Route) (r : Route) (path : string) : bool :=
  match Match cat (rt_Method r) path with
  | Some r' => rt_Name r' =s? rt_Name r
  | None => false
  end.

Definition sample_found (cat : list Route) (r : Route) : bool :=
  found_as cat r (sample_path (rt_Pattern r)) &&
  found_as cat r (sample_path (rt_Pattern r) +:+ "/").

Definition samples_found (cat : list Route) : bool := forallb (sample_found cat) cat.

Lemma catalog_samples : samples_found catalog281 = true.
Proof. vm_compute. reflexivity. Qed.

Lemma found_as_Match r path :
  r ∈ catalog281 -> found_as catalog281 r path = true ->
  Match catalog281 (rt_Method r) path = Some r.
Proof.
  unfold found_as. intros Hin Hf. destruct (Match _ _ _) as [r'|] eqn:Hm; [|done].
  apply Match_Some in Hm as [Hin' _]. apply eqs_true in Hf.
  by rewrite (catalog_name_inj r' r Hin' Hin Hf).
Qed.
End catalog_facts.

(** ** Properties *)

(** C33: the expression compiled for a catalog route matches a path exactly when
    the path splits at slashes into as many segments as the pattern, each equal
    to the pattern's literal or accepted by its parameter (a uuid is 36 hex
    digits or dashes, a shortUuid 6 to 64 word characters, and so on). *)
Theorem catalog_route_matches_segments `{Unicode} r method path :
  r ∈ Catalog "2.8.1" ->
  route_matches method path r = true <->
  rt_Method r = method /\
  segs_match (pattern_segments (rt_Pattern r)) (split_runes (Utf8.runes path)).
Proof. apply route_matches_segments. Qed.

Definition witness_route : Route :=
  default zero_route (Match (Catalog (H := ascii_only) "2.8.1") "GET" "/api/users").

Lemma catalog_route_matches_segments_witness :
  route_matches "GET" "/api/users" witness_route = true.
Proof.
  apply (@catalog_route_matches_segments ascii_only).
  - apply (@list_elem_of_lookup_2 _ _ 97). vm_compute. reflexivity.
  - split; vm_compute; repeat constructor.
Defined.

(** C34: the route table is unambiguous.  Whatever the path, [Match] on the path
    itself returns the only catalog route with that method that matches it; the
    single pair that can compete is sub.info and sub.client, and sub.info
    wins. *)
Theorem catalog_unambiguous `{Unicode} method path r r' :
  Match (Catalog "2.8.1") method path = Some r ->
  r' ∈ Catalog "2.8.1" -> route_matches method path r' = true ->
  r' = r \/ (rt_Name r = "sub.info" /\ rt_Name r' = "sub.client").
Proof.
  intros Hm Hin Hr'. rewrite Match_unfold in Hm.
  destruct (List.find (route_matches method path) (Catalog "2.8.1")) as [r1|] eqn:Hf.
  2: { rewrite list_elem_of_In in Hin. pose proof (List.find_none _ _ Hf _ Hin). congruence. }
  injection Hm as <-. apply List.find_some in Hf as Hs. destruct Hs as [Hin1 Hr1].
  apply list_elem_of_In in Hin1.
  destruct (competing_routes r1 r' method path) as [->|[Hp|[Hn1 Hn2]]]; auto.
  (* the route found first cannot be sub.client: sub.info comes before it *)
  destruct (find_split _ _ _ Hf) as (pre & post & Heq & _ & Hall).
  destruct (sub_info_first _ _ _ Heq Hn1) as (i & Hi & Hni).
  assert (i = r') as ->.
  { apply catalog_name_inj; [|exact Hin|congruence]. rewrite Heq, elem_of_app. left. exact Hi. }
  rewrite Forall_forall in Hall. rewrite (Hall _ Hi) in Hr'. discriminate Hr'.
Qed.

Lemma catalog_unambiguous_witness :
  witness_route = witness_route \/
  (rt_Name witness_route = "sub.info" /\ rt_Name witness_route = "sub.client").
Proof.
  apply (@catalog_unambiguous ascii_only "GET" "/api/users").
  - vm_compute. reflexivity.
  - apply (@list_elem_of_lookup_2 _ _ 97). vm_compute. reflexivity.
  - vm_compute. reflexivity.
Defined.

(** C35: no catalog route is shadowed: each of the 186 routes is what [Match]
    returns for some path, with and without a trailing slash. *)
Theorem catalog_reachable `{Unicode} :
  length (Catalog "2.8.1") = 186 /\
  forall r, r ∈ Catalog "2.8.1" ->
    exists path, Match (Catalog "2.8.1") (rt_Method r) path = Some r /\
                 Match (Catalog "2.8.1") (rt_Method r) (path +:+ "/") = Some r.
Proof.
  split; [vm_compute; reflexivity|]. intros r Hin.
  pose proof catalog_samples as Hok. unfold samples_found in Hok.
  apply (in_catalog _ r) in Hok; [|exact Hin]. apply andb_true_iff in Hok as [H1 H2].
  exists (sample_path (rt_Pattern r)).
  split; apply found_as_Match; assumption.
Qed.
