(* ===== verification/OpenAPI.v ===== *)
(** * internal/routes: comparing the catalog with an OpenAPI document

    [CheckOpenAPI], [CheckOpenAPIStrict] and [validateCatalog].  The maps of the
    source are sets or finite maps; every list built by ranging over one is
    sorted before it is returned, so the order of iteration does not show. *)

From S2P Require Import Prelude GoStrings Encoding Json Ratelimit Routes.
From Stdlib Require Import Floats.SpecFloat.
From stdpp Require Import options.

(** ** Reading the document *)

(** [strconv.ParseFloat(lit, 64)] of a valid number literal succeeds: the value
    rounds to a finite double, i.e. is below [2^1024 - 2^970]. *)
Definition mantissa_digits (lit : string) : string * Z :=
  let '(m, e, _) := Cut "e" (map_bytes lower_byte lit) in
  let '(ip, fp, _) := Cut "." (TrimPrefix m "-") in
  (ip +:+ fp,
   (match parse_digits (TrimPrefix (TrimPrefix e "-") "+") with Some z => z | None => 0 end
    * (if HasPrefix e "-" then -1 else 1) - len fp)%Z).

Definition fits_float64 (lit : string) : bool :=
  let '(ds, e) := mantissa_digits lit in
  match parse_digits ds with
  | Some m =>
      if (m =? 0)%Z then true
      else if (len ds + e <? 300)%Z then true
      else if (400 + len ds <? e)%Z then false
      else if (0 <=? e)%Z then (m * 10 ^ e <? 2 ^ 1024 - 2 ^ 970)%Z
      else (m <? (2 ^ 1024 - 2 ^ 970) * 10 ^ (- e))%Z
  | None => true
  end.

(** A value decodes into [any] unless one of its numbers is out of range. *)
Fixpoint decodes_any (j : json) : bool :=
  match j with
  | JNum l => fits_float64 l
  | JArr l => forallb decodes_any l
  | JObj fs => forallb (fun kv => decodes_any (snd kv)) fs
  | _ => true
  end.

(** The field [Paths map[string]map[string]any]: [None] is a nil inner map.
    A member of the document adds to the map an earlier one left. *)
Definition paths := list (string * option (list string)).

Definition read_methods (j : json) : option (option (list string)) :=
  match j with
  | JNull => Some None
  | JObj ms => if forallb (fun kv => decodes_any (snd kv)) ms
               then Some (Some (map fst (dedup ms))) else None
  | _ => None
  end.

Fixpoint read_paths (fs : list (string * json)) (acc : paths) : option paths :=
  match fs with
  | [] => Some acc
  | (p, v) :: fs' =>
      match read_methods v with
      | Some m => read_paths fs' (assoc_set p m acc)
      | None => None
      end
  end.

Fixpoint read_members (fs : list (string * json)) (acc : paths) : option paths :=
  match fs with
  | [] => Some acc
  | (k, v) :: fs' =>
      if field_matches "paths" k then
        match v with
        | JNull => read_members fs' []
        | JObj ps => match read_paths ps acc with
                     | Some acc' => read_members fs' acc'
                     | None => None
                     end
        | _ => None
        end
      else read_members fs' acc
  end.

Definition read_spec (b : string) : option paths :=
  match parse_all b with
  | Some (JObj fs) => read_members fs []
  | Some JNull => Some []
  | _ => None
  end.

(** ** Results *)

Record OpenAPIGroupResult := { gr_Covered : Z; gr_Unknown : Z; gr_Removed : Z }.

Record OpenAPIResult := {
  oa_Covered : list string;
  oa_Unknown : list string;
  oa_Removed : list string;
  oa_Invalid : list string;
  oa_Ambiguous : list string;
  oa_Duplicates : list string;
  oa_Coverage : spec_float;
  oa_ByGroup : gmap string OpenAPIGroupResult;
}.

Definition sort_strings : list string -> list string := SliceStable str_lt.

Section openapi.
Context `{Unicode}.

Definition http_methods : list string :=
  ["GET"; "POST"; "PUT"; "PATCH"; "DELETE"; "HEAD"; "OPTIONS"; "TRACE"].

Definition isHTTPMethod (method : string) : bool :=
  contains_str http_methods (ToUpper method).

(** The diagnostics of one route of [validateCatalog]. *)
Definition invalid_messages (r : Route) (key : string) : list string :=
  (if (rt_Name r =s? "") || (rt_Method r =s? "") || (rt_Pattern r =s? "") ||
      (rt_Support r =s? "")
   then [key +:+ ": empty required metadata"] else []) ++
  (if contains_str [PolicyEnforced; Privileged; PublicSubscription] (rt_Support r) then []
   else if rt_Support r =s? Unsupported then
     if rt_UnsupportedReason r =s? ""
     then [key +:+ ": unsupported route missing reason"] else []
   else [key +:+ ": invalid support level"]).

(** The loop over the catalog: duplicates and invalid messages, in order. *)
Fixpoint validate_routes (catalog : list Route) (seen : gset string)
    : list string * list string :=
  match catalog with
  | [] => ([], [])
  | r :: rs =>
      let key := routeKey (rt_Method r) (normalizeRouteShape (rt_Pattern r)) in
      let '(dups, inv) := validate_routes rs ({[key]} ∪ seen) in
      (if bool_decide (key ∈ seen) then key :: dups else dups, invalid_messages r key ++ inv)
  end.

Definition validateCatalog (catalog : list Route) : list string * list string :=
  validate_routes catalog ∅.

(** The key of a route in [want] and [shapeToKeys]. *)
Definition shape_key (r : Route) : string :=
  routeKey (ToUpper (rt_Method r)) (normalizeRouteShape (rt_Pattern r)).

(** The keys of the document, one per path and HTTP method, in order. *)
Definition path_keys (e : string * option (list string)) : list string :=
  let '(p, methods) := e in
  match methods with
  | None => []
  | Some ms => map (fun m => ToUpper m +:+ " " +:+ normalizeRouteShape p)
                   (List.filter isHTTPMethod ms)
  end.

Definition spec_keys (ps : paths) : list string := concat (map path_keys ps).

Definition count_key (key : string) (ks : list string) : nat :=
  length (List.filter (fun k => k =s? key) ks).

Definition add_group (fn : OpenAPIGroupResult -> OpenAPIGroupResult) (key : string)
    (byGroup : gmap string OpenAPIGroupResult) : gmap string OpenAPIGroupResult :=
  let '(_, path, _) := Cut " " key in
  let group := routeGroup path in
  <[group := fn (default {| gr_Covered := 0; gr_Unknown := 0; gr_Removed := 0 |}
                   (byGroup !! group))]> byGroup.

Definition groupOpenAPIResult (covered unknown removed : list string)
    : gmap string OpenAPIGroupResult :=
  let g1 := fold_left (fun g k => add_group (fun r =>
    {| gr_Covered := gr_Covered r + 1; gr_Unknown := gr_Unknown r;
       gr_Removed := gr_Removed r |}) k g) covered ∅ in
  let g2 := fold_left (fun g k => add_group (fun r =>
    {| gr_Covered := gr_Covered r; gr_Unknown := gr_Unknown r + 1;
       gr_Removed := gr_Removed r |}) k g) unknown g1 in
  fold_left (fun g k => add_group (fun r =>
    {| gr_Covered := gr_Covered r; gr_Unknown := gr_Unknown r;
       gr_Removed := gr_Removed r + 1 |}) k g) removed g2.

(** The comparison once the document is decoded.  [want] is the set of shape
    keys of the catalog, [got] that of the document. *)
Definition compare_paths (ps : paths) (catalog : list Route) : OpenAPIResult :=
  let '(dups, inv) := validateCatalog catalog in
  let keys := map shape_key catalog in
  let found := spec_keys ps in
  let want : gset string := list_to_set keys in
  let got : gset string := list_to_set found in
  let covered := sort_strings (elements (want ∩ got)) in
  let removed := sort_strings (elements (want ∖ got)) in
  let unknown := sort_strings (elements (got ∖ want)) in
  {| oa_Covered := covered; oa_Unknown := unknown; oa_Removed := removed;
     oa_Invalid := sort_strings inv;
     oa_Ambiguous := sort_strings
       (List.filter (fun k => Nat.ltb 1 (count_key k keys)) found);
     oa_Duplicates := sort_strings dups;
     oa_Coverage := if Nat.ltb 0 (size got)
       then f64_mul (f64_div (f64 (Z.of_nat (length covered))) (f64 (Z.of_nat (size got))))
              (f64 100)
       else f64 0;
     oa_ByGroup := groupOpenAPIResult covered unknown removed |}.

(** [stat_size] is [os.Stat(path).Size()], [read] is [os.ReadFile]; the text of
    the decoder's own error is not modelled. *)
Definition CheckOpenAPI (stat_size : string -> res Z) (read : string -> res string)
    (path : string) (catalog : list Route) : res OpenAPIResult :=
  if path =s? "" then Err "--spec is required" else
  let? size := stat_size path in
  if (20 * 2 ^ 20 <? size)%Z then Err "spec too large" else
  let? b := read path in
  let? spec := of_option "invalid spec" (read_spec b) in
  Ok (compare_paths spec catalog).

Definition is_empty (l : list string) : bool := match l with [] => true | _ => false end.

Definition strict_clean (r : OpenAPIResult) : bool :=
  is_empty (oa_Unknown r) && is_empty (oa_Removed r) && is_empty (oa_Invalid r) &&
  is_empty (oa_Ambiguous r) && is_empty (oa_Duplicates r).

Definition CheckOpenAPIStrict (stat_size : string -> res Z) (read : string -> res string)
    (path : string) (catalog : list Route) : res OpenAPIResult :=
  let? r := CheckOpenAPI stat_size read path catalog in
  if strict_clean r then Ok r else Err "route catalog is not strict-clean".
End openapi.

(** ** Facts *)

Section openapi_facts.
Context `{Unicode}.

Lemma elem_of_sort k l : k ∈ sort_strings l <-> k ∈ l.
Proof. apply elem_of_SliceStable. Qed.

Lemma is_empty_spec l : is_empty l = true <-> l = [].
Proof. by destruct l. Qed.

Lemma sort_strings_nil l : sort_strings l = [] <-> l = [].
Proof.
  split; [|by intros ->]. intros Hs. apply Permutation_nil_r.
  unfold sort_strings in Hs. rewrite <- Hs. symmetry. apply SliceStable_perm.
Qed.

Lemma compare_members ps catalog r :
  compare_paths ps catalog = r ->
  forall k, (k ∈ oa_Covered r <-> k ∈ map shape_key catalog /\ k ∈ spec_keys ps) /\
            (k ∈ oa_Removed r <-> k ∈ map shape_key catalog /\ k ∉ spec_keys ps) /\
            (k ∈ oa_Unknown r <-> k ∉ map shape_key catalog /\ k ∈ spec_keys ps).
Proof.
  intros <- k. unfold compare_paths. destruct (validateCatalog catalog) as [dups inv]. simpl.
  rewrite !elem_of_sort, !elem_of_elements. set_solver.
Qed.

(** The key [validateCatalog] gives a route. *)
Definition catalog_key (r : Route) : string :=
  routeKey (rt_Method r) (normalizeRouteShape (rt_Pattern r)).

Lemma validate_routes_clean catalog seen :
  validate_routes catalog seen = ([], []) <->
  NoDup (map catalog_key catalog) /\ Forall (fun r => catalog_key r ∉ seen) catalog /\
  Forall (fun r => invalid_messages r (catalog_key r) = []) catalog.
Proof.
  revert seen. induction catalog as [|r rs IH]; intros seen; simpl.
  { split; [intros _; split_and!; constructor|done]. }
  fold (catalog_key r). specialize (IH ({[catalog_key r]} ∪ seen)).
  destruct (validate_routes rs _) as [dups inv]. rewrite NoDup_cons, !Forall_cons.
  assert (Hsplit : Forall (fun r' => catalog_key r' ∉ {[catalog_key r]} ∪ seen) rs <->
            catalog_key r ∉ map catalog_key rs /\ Forall (fun r' => catalog_key r' ∉ seen) rs).
  { rewrite list_elem_of_In, in_map_iff, !Forall_forall. split.
    - intros Hall. split; [|intros r' Hr'; specialize (Hall r' Hr'); set_solver].
      intros (r' & Heq & Hin%list_elem_of_In). specialize (Hall r' Hin). set_solver.
    - intros [Hno Hall] r' Hr' [Heq%elem_of_singleton|Hs]%elem_of_union.
      + apply Hno. exists r'. by rewrite <- list_elem_of_In.
      + by apply (Hall r'). }
  rewrite Hsplit in IH. clear Hsplit.
  destruct (bool_decide_reflect (catalog_key r ∈ seen)) as [Hs|Hns].
  - split; [done|]. intros (_ & [? _] & _). done.
  - split.
    + intros [= -> Hinv]. apply app_eq_nil in Hinv as [Hm ->].
      destruct (proj1 IH eq_refl) as (? & [? ?] & ?). split_and!; auto.
    + intros ([Hnk Hnd] & [_ Hall] & [Hm Hinv]). rewrite Hm. simpl.
      by apply IH.
Qed.

Lemma ambiguous_nil ps catalog :
  oa_Ambiguous (compare_paths ps catalog) = [] <->
  Forall (fun k => count_key k (map shape_key catalog) <= 1) (spec_keys ps).
Proof.
  unfold compare_paths. destruct (validateCatalog catalog). simpl. rewrite sort_strings_nil.
  induction (spec_keys ps) as [|k ks IH]; simpl.
  { split; [constructor|done]. }
  rewrite Forall_cons, <- IH.
  destruct (Nat.ltb_spec 1 (count_key k (map shape_key catalog))); split; try done.
  - intros [Hle _]. lia.
  - by intros [_ ?].
Qed.

Lemma invalid_nil ps catalog :
  oa_Invalid (compare_paths ps catalog) = [] /\ oa_Duplicates (compare_paths ps catalog) = []
  <-> validate_routes catalog ∅ = ([], []).
Proof.
  unfold compare_paths, validateCatalog. destruct (validate_routes catalog ∅) as [d i].
  simpl. rewrite !sort_strings_nil. split; [by intros [-> ->]|by intros [= -> ->]].
Qed.

Lemma list_empty_iff (l : list string) : l = [] <-> forall k, k ∉ l.
Proof.
  split; [intros ->; apply not_elem_of_nil|].
  destruct l as [|x l]; [done|]. intros Hx. destruct (Hx x). apply list_elem_of_here.
Qed.
End openapi_facts.

(** ** Properties *)

(** The strict check accepts a document exactly when the catalog and the
    document name the same methods and path shapes, no shape is listed twice and
    every catalog route has its required metadata. *)
Theorem strict_clean_iff `{Unicode} ps catalog :
  strict_clean (compare_paths ps catalog) = true <->
  (forall k, k ∈ map shape_key catalog <-> k ∈ spec_keys ps) /\
  NoDup (map catalog_key catalog) /\
  Forall (fun r => invalid_messages r (catalog_key r) = []) catalog /\
  Forall (fun k => count_key k (map shape_key catalog) <= 1) (spec_keys ps).
Proof.
  pose proof (compare_members ps catalog _ eq_refl) as Hmem.
  pose proof (validate_routes_clean catalog ∅) as Hval.
  unfold strict_clean. rewrite !andb_true_iff, !is_empty_spec.
  rewrite (list_empty_iff (oa_Unknown _)), (list_empty_iff (oa_Removed _)), ambiguous_nil.
  pose proof (invalid_nil ps catalog) as Hvc.
  assert (Hempty : Forall (fun r => catalog_key r ∉ (∅ : gset string)) catalog)
    by (apply Forall_forall; set_solver).
  split.
  - intros ((((Hu & Hr) & Hi) & Ha) & Hd).
    destruct (proj1 Hval (proj1 Hvc (conj Hi Hd))) as (? & _ & ?). split_and!; auto.
    intros k. destruct (Hmem k) as (_ & Hrk & Huk). specialize (Hu k). specialize (Hr k).
    destruct (decide (k ∈ map shape_key catalog)), (decide (k ∈ spec_keys ps)); tauto.
  - intros (Hk & Hnd & Hinv & Ha).
    destruct (proj2 Hvc (proj2 Hval (conj Hnd (conj Hempty Hinv)))) as [Hi Hd].
    split_and!; auto; intros k; destruct (Hmem k) as (_ & Hrk & Huk);
      rewrite ?Huk, ?Hrk; specialize (Hk k); tauto.
Qed.

(** The built-in catalog is well formed: no duplicated shape and no route
    without its metadata, so the strict check can only fail on coverage. *)
Theorem catalog_well_formed `{Unicode} :
  validateCatalog (Catalog "2.8.1") = ([], []).
Proof. vm_compute. reflexivity. Qed.
