(* ===== verification/F64.v ===== *)
(** * Doubles that hold integers

    Conversions between small integers and binary64, as they occur in
    [time.Duration.Seconds]. *)

From S2P Require Import Prelude Ratelimit.
From Stdlib Require Import Floats.SpecFloat.
From stdpp Require Import options.

#[local] Open Scope Z_scope.

Lemma digits2_pos_bound p :
  2 ^ (Zpos (digits2_pos p) - 1) <= Zpos p < 2 ^ Zpos (digits2_pos p).
Proof.
  induction p as [p IH|p IH|]; simpl digits2_pos; [| |simpl; lia];
    rewrite Pos2Z.inj_succ, Z.pow_succ_r by lia;
    replace (Z.succ (Zpos (digits2_pos p)) - 1) with (Z.succ (Zpos (digits2_pos p) - 1)) by lia;
    rewrite Z.pow_succ_r by lia; lia.
Qed.

Lemma iter_xO_val p d : Zpos (Pos.iter xO p d) = Zpos p * 2 ^ Zpos d.
Proof.
  induction d as [|d IH] using Pos.peano_ind; [simpl; lia|].
  rewrite Pos.iter_succ, Pos2Z.inj_succ, Z.pow_succ_r by lia. lia.
Qed.

Lemma digits2_iter_xO p d : digits2_pos (Pos.iter xO p d) = (digits2_pos p + d)%positive.
Proof.
  induction d as [|d IH] using Pos.peano_ind; [simpl; lia|].
  rewrite Pos.iter_succ. simpl. rewrite IH. lia.
Qed.

(** A mantissa of 53 digits is already rounded. *)
Lemma round_aligned m e :
  digits2_pos m = 53%positive -> -1074 <= e <= 971 ->
  binary_round_aux 53 1024 false (Zpos m) e loc_Exact = S754_finite false m e.
Proof.
  intros Hd He. unfold binary_round_aux, shr_fexp. simpl Zdigits2. rewrite Hd.
  assert (Hf : fexp 53 1024 (53 + e) - e = 0) by (unfold fexp, emin; lia).
  rewrite Hf. cbn [shr shr_record_of_loc loc_of_shr_record round_nearest_even shr_m].
  simpl Zdigits2. rewrite Hd, Hf. cbn [shr shr_m].
  by replace (Z.leb e (1024 - 53)) with true by lia.
Qed.

(** Integers below 2^53 are exact. *)
Lemma f64_exact n :
  0 < n < 2 ^ 53 -> exists m e, f64 n = S754_finite false m e /\ f64_to_uint (f64 n) = n.
Proof.
  intros Hn. destruct n as [|p|p]; try lia.
  pose proof (digits2_pos_bound p) as Hb.
  assert (Hk : Zpos (digits2_pos p) <= 53).
  { apply Z.le_ngt. intros Hk.
    assert (2 ^ 53 <= 2 ^ (Zpos (digits2_pos p) - 1)) by (apply Z.pow_le_mono_r; lia). lia. }
  unfold f64. cbn [binary_normalize]. unfold binary_round.
  assert (Hf : fexp 53 1024 (Zpos (digits2_pos p) + 0) = Zpos (digits2_pos p) - 53)
    by (unfold fexp, emin; lia).
  rewrite Hf. unfold shl_align. rewrite Z.sub_0_r.
  destruct (Zpos (digits2_pos p) - 53) as [|d|d] eqn:He; [|lia|].
  - exists p, 0. rewrite round_aligned by lia. split; [done|]. cbn. lia.
  - change (Zneg d) with (- Zpos d) in *. exists (Pos.iter xO p d), (- Zpos d).
    assert (Hd : digits2_pos (Pos.iter xO p d) = 53%positive) by (rewrite digits2_iter_xO; lia).
    rewrite round_aligned by lia. split; [done|]. unfold f64_to_uint.
    replace (0 <=? - Zpos d) with false by lia. rewrite Z.opp_involutive.
    rewrite iter_xO_val. apply Z.div_mul. lia.
Qed.

Lemma whole_seconds n :
  0 < n < 2 ^ 53 -> f64_to_uint (SFadd 53 1024 (f64 n) (f64_div (f64 0) (f64 Second))) = n.
Proof.
  intros Hn. destruct (f64_exact n Hn) as (m & e & Hm & Hu).
  assert (Hz : f64_div (f64 0) (f64 Second) = S754_zero false) by (vm_compute; reflexivity).
  rewrite Hz. rewrite Hm in *. exact Hu.
Qed.
