(* ===== verification/Auth.v ===== *)
(** * internal/auth: bearer tokens and panel sessions *)

From S2P Require Import Prelude GoStrings Encoding Json JsonFacts Sha256 Ratelimit Config F64.
From Stdlib Require Import Floats.SpecFloat.
From stdpp Require Import options.

(** ** Bearer tokens (auth.go) *)

Definition ErrInvalid : string := "invalid bearer token".

Record Parsed := { CredentialID : string; Secret : string }.

Definition ParseBearer (header : string) : res Parsed :=
  if negb (HasPrefix header "Bearer ") then Err ErrInvalid else
  let raw := TrimSpace (TrimPrefix header "Bearer ") in
  if negb (HasPrefix raw "rg_") then Err ErrInvalid else
  match SplitN2 "." (TrimPrefix raw "rg_") with
  | [p0; p1] =>
      if (p0 =s? "") || (p1 =s? "") then Err ErrInvalid
      else Ok {| CredentialID := p0; Secret := p1 |}
  | _ => Err ErrInvalid
  end.

Definition Digest (secret pepper : string) : string :=
  Base64.EncodeToString (hmac_sha256 pepper secret).

(** [hmac.Equal] compares the bytes. *)
Definition Verify (secret pepper : string) (cred : Credential) : bool :=
  Digest secret pepper =s? cred_HMACSHA256 cred.

(** ** Panel sessions (panel_session.go)

    Times are nanoseconds since the epoch; [Unix] rounds down to seconds. *)

Definition ErrInvalidPanelSession : string := "invalid panel session token".
Definition panelSessionPrefix : string := "panel_".

Definition Unix (t : Z) : Z := (t / Second)%Z.

(** [int64(d.Seconds())] for a positive duration: [Seconds] adds the whole
    seconds and the fraction as doubles. *)
Definition int_seconds (d : Z) : Z :=
  f64_to_uint (SFadd 53 1024 (f64 (d / Second)) (f64_div (f64 (d mod Second)) (f64 Second))).

Record PanelSessionClaims := {
  cl_Issuer : string;
  cl_Audience : string;
  cl_ExpiresAt : Z;
  cl_IssuedAt : Z;
  cl_TelegramActorID : string;
}.

(** [json.Marshal] of the claims: struct fields in declaration order. *)
Definition marshal_claims (c : PanelSessionClaims) : string :=
  marshal_fields
    [("iss", marshal_string (cl_Issuer c)); ("aud", marshal_string (cl_Audience c));
     ("exp", Itoa (cl_ExpiresAt c)); ("iat", Itoa (cl_IssuedAt c));
     ("telegram_actor_id", marshal_string (cl_TelegramActorID c))].

(** [json.Unmarshal(payload, &claims)]; [None] is an error. *)
Definition unmarshal_claims (payload : string) : option PanelSessionClaims :=
  match parse_all payload with
  | Some (JObj fs) =>
      let '(iss, ok1) := string_field "iss" fs in
      let '(aud, ok2) := string_field "aud" fs in
      let '(exp, ok3) := int64_field "exp" fs in
      let '(iat, ok4) := int64_field "iat" fs in
      let '(actor, ok5) := string_field "telegram_actor_id" fs in
      if ok1 && ok2 && ok3 && ok4 && ok5
      then Some {| cl_Issuer := iss; cl_Audience := aud; cl_ExpiresAt := exp;
                   cl_IssuedAt := iat; cl_TelegramActorID := actor |}
      else None
  | Some JNull => Some {| cl_Issuer := ""; cl_Audience := ""; cl_ExpiresAt := 0;
                          cl_IssuedAt := 0; cl_TelegramActorID := "" |}
  | _ => None
  end.

Definition signPanelSession (encodedPayload secret : string) : string :=
  Base64.EncodeToString (hmac_sha256 secret encodedPayload).

Section session.
Context `{Host}.

Definition validatePanelSessionConfig (panel : PanelFacadeConfig) : res () :=
  let ses := pf_Session panel in
  deny_if (negb (pf_Enabled panel)) ErrInvalidPanelSession (
  deny_if (blank (pses_Issuer ses) || blank (pses_Audience ses) ||
           (pses_TokenTTL ses <=? 0)%Z) ErrInvalidPanelSession (
  deny_if (blank (pses_SecretEnv ses) || blank (Getenv (pses_SecretEnv ses)))
    ErrInvalidPanelSession (Ok ()))).

Definition session_claims (panel : PanelFacadeConfig) (actor : string) (now : Z)
    : PanelSessionClaims := {|
  cl_Issuer := pses_Issuer (pf_Session panel);
  cl_Audience := pses_Audience (pf_Session panel);
  cl_ExpiresAt := Unix (now + pses_TokenTTL (pf_Session panel));
  cl_IssuedAt := Unix now;
  cl_TelegramActorID := actor;
|}.

Definition IssuePanelSession (panel : PanelFacadeConfig) (telegramActorID : string)
    (now : Z) : res string :=
  check? validatePanelSessionConfig panel then
  let actor := TrimSpace telegramActorID in
  if actor =s? "" then Err ErrInvalidPanelSession else
  let payload := marshal_claims (session_claims panel actor now) in
  let encodedPayload := Base64.EncodeToString payload in
  let signature := signPanelSession encodedPayload
                     (Getenv (pses_SecretEnv (pf_Session panel))) in
  Ok (panelSessionPrefix +:+ encodedPayload +:+ "." +:+ signature).

Definition ValidatePanelSession (panel : PanelFacadeConfig) (token : string) (now : Z)
    : res PanelSessionClaims :=
  let invalid := Err ErrInvalidPanelSession in
  let ses := pf_Session panel in
  check? validatePanelSessionConfig panel then
  let token := TrimSpace token in
  if negb (HasPrefix token panelSessionPrefix) then invalid else
  match Split "." (TrimPrefix token panelSessionPrefix) with
  | [p0; p1] =>
      if (p0 =s? "") || (p1 =s? "") then invalid else
      if signPanelSession p0 (Getenv (pses_SecretEnv ses)) <>s? p1 then invalid else
      match Base64.DecodeString p0 with
      | None => invalid
      | Some payload =>
          match unmarshal_claims payload with
          | None => invalid
          | Some claims =>
              if (cl_Issuer claims <>s? pses_Issuer ses) ||
                 (cl_Audience claims <>s? pses_Audience ses) then invalid
              else if blank (cl_TelegramActorID claims) then invalid
              else if (Unix (now + Minute) <? cl_IssuedAt claims)%Z then invalid
              else if (cl_ExpiresAt claims <=? Unix now)%Z then invalid
              else if (int_seconds (pses_TokenTTL ses) + 60 <?
                       wrap64 (cl_ExpiresAt claims - cl_IssuedAt claims))%Z then invalid
              else Ok claims
          end
      end
  | _ => invalid
  end.
End session.

(** ** Facts *)

Lemma SplitN2_pair sep s p0 p1 :
  SplitN2 sep s = [p0; p1] <-> s = p0 +:+ String sep p1 /\ IndexByte_found p0 sep = false.
Proof.
  unfold SplitN2. destruct (Cut sep s) as [[b a] found] eqn:Hc. split.
  - destruct found; [|done]. intros [= -> ->]. by apply Cut_found in Hc.
  - intros [-> Hno]. rewrite Cut_app in Hc by done. by injection Hc as <- <- <-.
Qed.

Lemma ParseBearer_spec header p :
  ParseBearer header = Ok p <->
  exists rest, header = "Bearer " +:+ rest /\
    TrimSpace rest = "rg_" +:+ CredentialID p +:+ String "." (Secret p) /\
    CredentialID p <> "" /\ Secret p <> "" /\ IndexByte_found (CredentialID p) "." = false.
Proof.
  unfold ParseBearer. split.
  - destruct (HasPrefix header "Bearer ") eqn:Hh; [|done].
    apply HasPrefix_spec in Hh as [rest ->]. rewrite TrimPrefix_app.
    destruct (HasPrefix (TrimSpace rest) "rg_") eqn:Hr; [|done].
    apply HasPrefix_spec in Hr as [raw Hraw]. rewrite Hraw, TrimPrefix_app. cbn [negb].
    destruct (SplitN2 "." raw) as [|p0 [|p1 [|]]] eqn:Hs; try done.
    apply SplitN2_pair in Hs as [-> Hno].
    destruct ((p0 =s? "") || (p1 =s? "")) eqn:He; [done|].
    apply orb_false_iff in He as [?%eqs_false ?%eqs_false].
    intros [= <-]. exists rest. by rewrite Hraw.
  - intros (rest & -> & Hraw & Hne0 & Hne1 & Hno).
    rewrite HasPrefix_app, TrimPrefix_app, Hraw, HasPrefix_app, TrimPrefix_app. cbn [negb].
    rewrite (proj2 (SplitN2_pair _ _ (CredentialID p) (Secret p))) by done.
    rewrite (proj2 (eqs_false _ _) Hne0), (proj2 (eqs_false _ _) Hne1). by destruct p.
Qed.

(** The two texts around the only dot. *)
Lemma Split_dot_pair p0 p1 s :
  Split "." s = [p0; p1] -> s = p0 +:+ String "." p1.
Proof. intros Hs. rewrite <- (Join_Split "." s), Hs. done. Qed.

(** *** Text made of base64 characters *)

Lemma b64_not_space c s :
  Base64.is_b64 c = true -> starts (map rev_str space_encodings) (String c s) = false.
Proof. destruct c as [[] [] [] [] [] [] [] []]; try discriminate 1; reflexivity. Qed.

Lemma all_bytes_rev p s : all_bytes p (rev_str s) = all_bytes p s.
Proof.
  induction s as [|c s IH]; [done|]. rewrite rev_str_cons, all_bytes_app, IH. simpl.
  by rewrite andb_true_r, andb_comm.
Qed.

(** Text that ends in base64 has nothing to trim at its end. *)
Lemma b64_end_trimmed t sig :
  starts space_encodings (t +:+ sig) = false ->
  all_bytes Base64.is_b64 sig = true -> sig <> "" -> TrimSpace (t +:+ sig) = t +:+ sig.
Proof.
  intros Hs Hb Hne. apply TrimSpace_id; [exact Hs|].
  rewrite rev_str_app. rewrite <- all_bytes_rev in Hb.
  destruct (rev_str sig) as [|c s] eqn:Hr.
  - apply (f_equal rev_str) in Hr. by rewrite rev_str_involutive in Hr.
  - rewrite str_app_cons. apply b64_not_space. simpl in Hb.
    by apply andb_true_iff in Hb as [? _].
Qed.

Lemma panel_token_trimmed t sig :
  all_bytes Base64.is_b64 sig = true -> sig <> "" ->
  TrimSpace (panelSessionPrefix +:+ t +:+ sig) = panelSessionPrefix +:+ t +:+ sig.
Proof. intros Hb Hne. rewrite <- str_app_assoc. by apply b64_end_trimmed. Qed.

(** *** Claims *)

#[local] Opaque ParseInt Itoa hmac_sha256 signPanelSession.

Definition claims_ok (c : PanelSessionClaims) : bool :=
  all_bytes is_ascii (cl_Issuer c) && all_bytes is_ascii (cl_Audience c) &&
  all_bytes is_ascii (cl_TelegramActorID c) && in_int64 (cl_ExpiresAt c) &&
  in_int64 (cl_IssuedAt c).

Lemma unmarshal_marshal_claims c :
  claims_ok c = true -> unmarshal_claims (marshal_claims c) = Some c.
Proof.
  unfold claims_ok. rewrite !andb_true_iff. intros ((((Hi & Ha) & Ht) & He) & Hs).
  unfold unmarshal_claims, marshal_claims.
  rewrite (parse_all_fields _ [JStr (cl_Issuer c); JStr (cl_Audience c);
    JNum (Itoa (cl_ExpiresAt c)); JNum (Itoa (cl_IssuedAt c));
    JStr (cl_TelegramActorID c)]); [|done|].
  - cbv -[ParseInt Itoa]. destruct c as [iss aud exp iat actor]. simpl in He, Hs.
    by rewrite !ParseInt_Itoa by done.
  - repeat constructor; simpl; try reflexivity;
      try apply reads_int; by apply reads_string.
Qed.

(** *** Issue, then validate *)

Section session_facts.
Context `{Host}.

(** What a session token has to satisfy to be accepted at [now]. *)
Definition claims_valid (panel : PanelFacadeConfig) (c : PanelSessionClaims) (now : Z)
    : Prop :=
  let ses := pf_Session panel in
  cl_Issuer c = pses_Issuer ses /\ cl_Audience c = pses_Audience ses /\
  TrimSpace (cl_TelegramActorID c) <> "" /\
  (cl_IssuedAt c <= Unix (now + Minute))%Z /\ (Unix now < cl_ExpiresAt c)%Z /\
  (wrap64 (cl_ExpiresAt c - cl_IssuedAt c) <= int_seconds (pses_TokenTTL ses) + 60)%Z.

Lemma ValidatePanelSession_spec panel token now c :
  ValidatePanelSession panel token now = Ok c <->
  validatePanelSessionConfig panel = Ok () /\
  exists p0 payload,
    TrimSpace token = panelSessionPrefix +:+ p0 +:+ "." +:+
      signPanelSession p0 (Getenv (pses_SecretEnv (pf_Session panel))) /\
    p0 <> "" /\ IndexByte_found p0 "." = false /\
    Base64.DecodeString p0 = Some payload /\ unmarshal_claims payload = Some c /\
    claims_valid panel c now.
Proof.
  unfold ValidatePanelSession, claims_valid.
  set (secret := Getenv (pses_SecretEnv (pf_Session panel))). cbv zeta.
  assert (Hsig : forall p0, signPanelSession p0 secret <> "" /\
            IndexByte_found (signPanelSession p0 secret) "." = false).
  { intros p0. clear. with_strategy transparent [signPanelSession] unfold signPanelSession.
    split.
    - apply Base64.EncodeToString_nonempty, hmac_nonempty.
    - eapply all_bytes_not_in; [apply Base64.EncodeToString_alphabet|done]. }
  split.
  - destruct (validatePanelSessionConfig panel) as [[]|]; [|done].
    destruct (HasPrefix (TrimSpace token) panelSessionPrefix) eqn:Hp; [|done].
    apply HasPrefix_spec in Hp as [t Ht]. rewrite Ht, TrimPrefix_app. cbn [negb].
    destruct (Split "." t) as [|p0 [|p1 [|]]] eqn:Hs; try done.
    destruct (_ || _) eqn:He; [done|]. apply orb_false_iff in He as [Hne%eqs_false _].
    destruct (String.eqb_spec (signPanelSession p0 secret) p1) as [Heq|]; [|done].
    cbn [negb]. destruct (Base64.DecodeString p0) as [payload|] eqn:Hd; [|done].
    destruct (unmarshal_claims payload) as [c'|] eqn:Hu; [|done].
    destruct (_ || _) eqn:Hia; [done|].
    apply orb_false_iff in Hia as [Hi%negb_false_iff Ha%negb_false_iff].
    apply eqs_true in Hi, Ha.
    destruct (blank _) eqn:Hb; [done|]. apply eqs_false in Hb.
    destruct (Z.ltb_spec (Unix (now + Minute)) (cl_IssuedAt c')); [done|].
    destruct (Z.leb_spec (cl_ExpiresAt c') (Unix now)); [done|].
    destruct (Z.ltb_spec (int_seconds (pses_TokenTTL (pf_Session panel)) + 60)
      (wrap64 (cl_ExpiresAt c' - cl_IssuedAt c'))); [done|].
    intros [= <-]. split; [done|]. exists p0, payload.
    split_and!; try done.
    + f_equal. rewrite (Split_dot_pair _ _ _ Hs). by subst p1.
    + apply (Split_no_sep "." t). rewrite Hs. by left.
  - intros (-> & p0 & payload & -> & Hne & Hno & Hd & Hu & Hi & Ha & Hb & H1 & H2 & H3).
    rewrite HasPrefix_app, TrimPrefix_app. cbn [negb].
    destruct (Hsig p0) as [Hsne Hsno]. change ("." +:+ signPanelSession p0 secret) with (String "." (signPanelSession p0 secret)).
    rewrite Split_app by exact Hno.
    rewrite (Split_sep_free "." (signPanelSession p0 secret)) by exact Hsno. cbn.
    rewrite (proj2 (eqs_false _ _) Hne), (proj2 (eqs_false _ _) Hsne), eqs_refl. cbn.
    rewrite Hd, Hu.
    rewrite Hi, Ha, !eqs_refl. cbn. unfold blank. rewrite (proj2 (eqs_false _ _) Hb).
    rewrite !(proj2 (Z.ltb_ge _ _)) by lia. by rewrite (proj2 (Z.leb_gt _ _)) by lia.
Qed.
End session_facts.

(** ** Properties *)

(** A bearer header is accepted exactly when it is the prefix, then (after
    trimming white space) rg_, a non-empty credential id without a dot, a dot,
    and a non-empty secret, which may itself hold dots. *)
Theorem parse_bearer_iff header p :
  ParseBearer header = Ok p <->
  exists rest, header = "Bearer " +:+ rest /\
    TrimSpace rest = "rg_" +:+ CredentialID p +:+ String "." (Secret p) /\
    CredentialID p <> "" /\ Secret p <> "" /\ IndexByte_found (CredentialID p) "." = false.
Proof. apply ParseBearer_spec. Qed.

(** C26: no forged session.  A panel session is accepted exactly when it is
    panel_, a non-empty payload, a dot, and the HMAC-SHA256 of that payload under
    the configured secret, and the payload decodes to claims of this issuer and
    audience, for a named actor, issued no more than a minute in the future, not
    expired, and not living longer than the configured time to live plus a
    minute. *)
Theorem panel_session_accepted_iff `{Host} panel token now c :
  ValidatePanelSession panel token now = Ok c <->
  validatePanelSessionConfig panel = Ok () /\
  exists p0 payload,
    TrimSpace token = panelSessionPrefix +:+ p0 +:+ "." +:+
      signPanelSession p0 (Getenv (pses_SecretEnv (pf_Session panel))) /\
    p0 <> "" /\ IndexByte_found p0 "." = false /\
    Base64.DecodeString p0 = Some payload /\ unmarshal_claims payload = Some c /\
    claims_valid panel c now.
Proof. apply ValidatePanelSession_spec. Qed.

Lemma signature_b64 p0 secret :
  all_bytes Base64.is_b64 (signPanelSession p0 secret) = true /\ signPanelSession p0 secret <> "".
Proof.
  split; with_strategy transparent [signPanelSession] first
    [apply Base64.EncodeToString_alphabet|apply Base64.EncodeToString_nonempty, hmac_nonempty].
Qed.

(** What is issued is a panel token, without spaces around it. *)
Lemma issued_token `{Host} panel actor t0 token :
  IssuePanelSession panel actor t0 = Ok token ->
  pf_Enabled panel = true /\ TrimSpace token = token /\
  exists t, token = panelSessionPrefix +:+ t.
Proof.
  unfold IssuePanelSession. destruct (validatePanelSessionConfig panel) as [[]|] eqn:Hcfg; [|done].
  destruct (TrimSpace actor =s? ""); [done|]. intros Heq.
  assert (He : pf_Enabled panel = true).
  { unfold validatePanelSessionConfig in Hcfg. by destruct (pf_Enabled panel). }
  split; [done|]. injection Heq as <-. split; [|by eexists].
  pose proof (signature_b64 (Base64.EncodeToString (marshal_claims (session_claims panel
    (TrimSpace actor) t0))) (Getenv (pses_SecretEnv (pf_Session panel)))) as [Hsig Hne].
  pose proof (panel_token_trimmed (Base64.EncodeToString (marshal_claims (session_claims panel
    (TrimSpace actor) t0)) +:+ ".") _ Hsig Hne) as Htrim.
  rewrite str_app_assoc in Htrim. exact Htrim.
Qed.

(** An issued session is accepted, with the claims it was issued for, from a
    minute before it was issued until it expires (time to live a whole number of
    seconds, names in ASCII). *)
Theorem panel_session_roundtrip `{Host} panel actor t0 n token t :
  IssuePanelSession panel actor t0 = Ok token ->
  pses_TokenTTL (pf_Session panel) = (n * Second)%Z -> (0 < n < 2 ^ 53)%Z ->
  claims_ok (session_claims panel (TrimSpace actor) t0) = true ->
  (t0 - Minute <= t)%Z -> (Unix t < Unix (t0 + pses_TokenTTL (pf_Session panel)))%Z ->
  ValidatePanelSession panel token t = Ok (session_claims panel (TrimSpace actor) t0).
Proof.
  intros Hissue Httl Hn Hok Hlo Hhi. unfold IssuePanelSession in Hissue.
  destruct (validatePanelSessionConfig panel) as [[]|] eqn:Hcfg; [|done].
  destruct (String.eqb_spec (TrimSpace actor) "") as [|Hact]; [done|].
  injection Hissue as <-. set (c := session_claims panel (TrimSpace actor) t0) in *.
  set (p0 := Base64.EncodeToString (marshal_claims c)).
  set (secret := Getenv (pses_SecretEnv (pf_Session panel))).
  apply ValidatePanelSession_spec. split; [done|].
  exists p0, (marshal_claims c). fold secret.
  destruct (signature_b64 p0 secret) as [Hsig Hsne].
  split_and!.
  - pose proof (panel_token_trimmed (p0 +:+ ".") _ Hsig Hsne) as Htrim.
    rewrite str_app_assoc in Htrim. exact Htrim.
  - by apply Base64.EncodeToString_nonempty.
  - eapply all_bytes_not_in; [apply Base64.EncodeToString_alphabet|done].
  - apply Base64.DecodeString_EncodeToString.
  - by apply unmarshal_marshal_claims.
  - unfold claims_valid. subst c. cbn [cl_Issuer cl_Audience cl_TelegramActorID cl_IssuedAt
      cl_ExpiresAt session_claims]. rewrite Httl in *.
    assert (Hsec : int_seconds (n * Second) = n).
    { unfold int_seconds. rewrite Z.div_mul, Z.mod_mul by done. by apply whole_seconds. }
    assert (Hu : Unix (t0 + n * Second) = (Unix t0 + n)%Z) by (unfold Unix; by rewrite Z.div_add).
    rewrite Hsec, Hu in *. split_and!; try done.
    + by rewrite TrimSpace_idemp.
    + unfold Unix. apply Z.div_le_mono; [done|]. lia.
    + replace (Unix t0 + n - Unix t0)%Z with n by lia. rewrite wrap64_id; [lia|].
      unfold in_int64, int64_min, int64_max. rewrite andb_true_iff, !Z.leb_le. lia.
Qed.

Definition witness_session : PanelFacadeConfig := {|
  pf_Enabled := true;
  pf_Session := {| pses_Issuer := "remnaguard"; pses_Audience := "panel";
                   pses_TokenTTL := 3600 * Second; pses_SecretEnv := "S" |};
  pf_Telegram := Build_PanelFacadeTelegramConfig "" "" "" "" "" 0;
  pf_Actors_Telegram := None |}.

Definition witness_host : Host := {|
  Getenv := fun _ => "0123456789abcdef0123456789abcdef";
  ReadFile := fun _ => Err "no file"; StatPerm := fun _ => Err "no file";
  Glob := fun _ _ => Ok [] |}.

Lemma panel_session_roundtrip_witness :
  let t0 := (1700000000 * Second)%Z in
  match IssuePanelSession (H := witness_host) witness_session " 42 " t0 with
  | Ok token => ValidatePanelSession (H := witness_host) witness_session token
                  (t0 + 1800 * Second)
                = Ok (session_claims witness_session "42" t0)
  | Err _ => False
  end.
Proof.
  intros t0.
  destruct (IssuePanelSession (H := witness_host) witness_session " 42 " t0) as [token|e] eqn:Hi.
  - apply (panel_session_roundtrip (H := witness_host) witness_session " 42 " t0 3600 token);
      [exact Hi|reflexivity|lia|vm_compute; reflexivity|subst t0; vm_compute; discriminate|].
    subst t0. vm_compute. reflexivity.
  - vm_compute in Hi. discriminate Hi.
Defined.
