(* ===== verification/Policy.v ===== *)
(** * internal/policy: authorisation decisions and the actor resolver *)

From S2P Require Import Prelude GoStrings Config Routes.
From stdpp Require Import options.

(** ** policy.go *)

Record Decision := { d_Allow : bool; d_Reason : string; d_Route : Route }.

Definition Decision_String (d : Decision) : string :=
  if d_Allow d then "allow: " +:+ rt_Name (d_Route d) else "deny: " +:+ d_Reason d.

Definition hasScope (scopes : list string) (want : string) : bool := contains_str scopes want.

Definition hasPrivilegedScope (scopes : list string) : bool :=
  hasScope scopes "remnawave:*" || hasScope scopes "privileged:*".

Definition allow (route : Route) : Decision :=
  {| d_Allow := true; d_Reason := ""; d_Route := route |}.
Definition deny (reason : string) (route : Route) : Decision :=
  {| d_Allow := false; d_Reason := reason; d_Route := route |}.

(** [None] is the nil token. *)
Definition Decide (tok : option TokenPolicy) (route : Route) : Decision :=
  match tok with
  | None => deny "missing_token" route
  | Some tok =>
      if tok_Disabled tok then deny "missing_token" route
      else if rt_Support route =s? Unsupported then deny "unsupported_route" route
      else if rt_Support route =s? Privileged then
        if hasPrivilegedScope (tok_Scopes tok) then allow route
        else deny "privileged_scope_required" route
      else if rt_Support route =s? PolicyEnforced then
        if existsb (fun scope => hasScope (tok_Scopes tok) scope ||
                                 hasPrivilegedScope (tok_Scopes tok)) (rt_Scopes route)
        then allow route else deny "missing_scope" route
      else if rt_Support route =s? PublicSubscription
      then deny "public_subscription_not_authenticated" route
      else deny "unknown_support" route
  end.

(** ** actor_resolver.go *)

Definition ErrActorResolverInvalidConfig : string := "actor_resolver_invalid_config".
Definition ErrActorResolverUnmappedActor : string := "actor_resolver_unmapped_actor".
Definition ErrActorResolverMissingCredential : string := "actor_resolver_missing_credential".
Definition ErrActorResolverDisabledCredential : string := "actor_resolver_disabled_credential".

(** The inner loop over one token's credentials, then the loop over tokens: the
    first credential with this ID decides. *)
Fixpoint exists_disabled (toks : list TokenPolicy) (credentialID : string) : bool :=
  match toks with
  | [] => false
  | t :: toks' =>
      match List.find (fun cr => cred_ID cr =s? credentialID) (tok_Credentials t) with
      | Some cr => tok_Disabled t || cred_Disabled cr
      | None => exists_disabled toks' credentialID
      end
  end.

Definition credentialExistsDisabled (c : Config) (credentialID : string) : bool :=
  exists_disabled (cfg_Tokens c) credentialID.

(** [None] is the nil configuration. *)
Definition ResolveTelegramActorCredential (c : option Config) (actorID : string)
    : res (TokenPolicy * Credential) :=
  match c with
  | None => Err ErrActorResolverInvalidConfig
  | Some c =>
      if negb (pf_Enabled (cfg_PanelFacade c)) then Err ErrActorResolverInvalidConfig else
      match pf_Actors_Telegram (cfg_PanelFacade c) with
      | None => Err ErrActorResolverInvalidConfig
      | Some actors =>
          let actorID := TrimSpace actorID in
          if actorID =s? "" then Err ErrActorResolverUnmappedActor else
          match actors !! actorID with
          | None => Err ErrActorResolverUnmappedActor
          | Some actor =>
              let credentialID := TrimSpace (act_CredentialID actor) in
              if (credentialID =s? "") || HasPrefix credentialID "rg_"
              then Err ErrActorResolverInvalidConfig else
              match FindCredential c credentialID with
              | Some tc => Ok tc
              | None =>
                  if credentialExistsDisabled c credentialID
                  then Err ErrActorResolverDisabledCredential
                  else Err ErrActorResolverMissingCredential
              end
          end
      end
  end.

(** ** Facts *)

Lemma hasPrivilegedScope_spec scopes :
  hasPrivilegedScope scopes = true <-> "remnawave:*" ∈ scopes \/ "privileged:*" ∈ scopes.
Proof. unfold hasPrivilegedScope, hasScope. by rewrite orb_true_iff, !contains_str_spec. Qed.

(** When a token may use a route. *)
Definition grants (tok : TokenPolicy) (route : Route) : Prop :=
  tok_Disabled tok = false /\
  ((rt_Support route = Privileged /\ hasPrivilegedScope (tok_Scopes tok) = true) \/
   (rt_Support route = PolicyEnforced /\
    exists scope, scope ∈ rt_Scopes route /\
      (scope ∈ tok_Scopes tok \/ hasPrivilegedScope (tok_Scopes tok) = true))).

Lemma Decide_allow tok route :
  d_Allow (Decide tok route) = true <-> exists t, tok = Some t /\ grants t route.
Proof.
  destruct tok as [t|]; simpl; [|split; [done|by intros (? & ? & _)]].
  assert (Hex : existsb (fun scope => hasScope (tok_Scopes t) scope ||
                  hasPrivilegedScope (tok_Scopes t)) (rt_Scopes route) = true <->
                exists scope, scope ∈ rt_Scopes route /\
                  (scope ∈ tok_Scopes t \/ hasPrivilegedScope (tok_Scopes t) = true)).
  { rewrite existsb_exists. unfold hasScope.
    apply exist_proper. intros sc.
    by rewrite <- list_elem_of_In, orb_true_iff, contains_str_spec. }
  unfold grants. split.
  - intros Hd. exists t. split; [done|].
    destruct (tok_Disabled t); [done|]. split; [done|].
    destruct (String.eqb_spec (rt_Support route) Unsupported) as [|Hu]; [done|].
    destruct (String.eqb_spec (rt_Support route) Privileged) as [Hp|Hp].
    { left. split; [done|]. by destruct (hasPrivilegedScope _). }
    destruct (String.eqb_spec (rt_Support route) PolicyEnforced) as [He|He].
    { right. split; [done|]. apply Hex. by destruct (existsb _ _). }
    by destruct (rt_Support route =s? PublicSubscription).
  - intros (t' & [= <-] & Hd & Hg). rewrite Hd.
    destruct Hg as [[-> Hp]|[-> Hs]]; simpl.
    + by rewrite Hp.
    + by rewrite (proj2 Hex Hs).
Qed.

(** Every refusal carries one of the six reasons. *)
Lemma Decide_deny tok route :
  d_Allow (Decide tok route) = false ->
  d_Reason (Decide tok route) ∈
    ["missing_token"; "unsupported_route"; "privileged_scope_required"; "missing_scope";
     "public_subscription_not_authenticated"; "unknown_support"].
Proof.
  unfold Decide. intros Hd. repeat case_match; try discriminate Hd; set_solver.
Qed.

Lemma exists_disabled_spec toks id :
  exists_disabled toks id = true ->
  exists t cr, t ∈ toks /\ cr ∈ tok_Credentials t /\ cred_ID cr = id /\
    (tok_Disabled t = true \/ cred_Disabled cr = true).
Proof.
  induction toks as [|t toks IH]; simpl; [done|].
  destruct (List.find _ (tok_Credentials t)) as [cr|] eqn:Hf.
  - apply List.find_some in Hf as [Hin Hid%eqs_true]. intros Hd%orb_true_iff.
    apply list_elem_of_In in Hin. exists t, cr. split_and!; auto. apply elem_of_cons. by left.
  - intros (t' & cr & Ht & Hrest)%IH. exists t', cr. rewrite elem_of_cons. auto.
Qed.

(** ** Properties *)

(** C24: the gate of the proxy.  [Decide] allows a request exactly when the
    token exists, is enabled, and either the route is privileged and the token
    holds remnawave:* or privileged:*, or the route is policy-enforced and the
    token holds one of its scopes (or a privileged one). *)
Theorem decide_allow_iff tok route :
  d_Allow (Decide tok route) = true <-> exists t, tok = Some t /\ grants t route.
Proof. apply Decide_allow. Qed.

(** Among the routes of the catalog, a token without a privileged scope is
    only ever allowed GET requests on the sixteen policy-enforced read
    routes. *)
Theorem unprivileged_tokens_only_read `{Unicode} t route :
  hasPrivilegedScope (tok_Scopes t) = false ->
  route ∈ Catalog "2.8.1" -> d_Allow (Decide (Some t) route) = true ->
  rt_Method route = "GET" /\ rt_Support route = PolicyEnforced.
Proof.
  intros Hp Hin (t' & [= <-] & _ & Hg)%Decide_allow.
  destruct Hg as [[_ Hpriv]|[Hs _]]; [congruence|]. split; [|exact Hs].
  assert (Hall : forallb (fun r => (rt_Support r <>s? PolicyEnforced) || (rt_Method r =s? "GET"))
                   (Catalog "2.8.1") = true) by (vm_compute; reflexivity).
  rewrite forallb_forall in Hall. apply list_elem_of_In in Hin. specialize (Hall _ Hin).
  rewrite Hs, eqs_refl in Hall. by apply eqs_true in Hall.
Qed.

Lemma unprivileged_tokens_only_read_witness :
  rt_Method witness_route = "GET" /\ rt_Support witness_route = PolicyEnforced.
Proof.
  apply (@unprivileged_tokens_only_read ascii_only
    (Build_TokenPolicy "t" [] ["users:read"] false empty_constraints)).
  - reflexivity.
  - apply (@list_elem_of_lookup_2 _ _ 97). vm_compute. reflexivity.
  - vm_compute. reflexivity.
Defined.

Lemma actor_credential c actorID t cr :
  ResolveTelegramActorCredential (Some c) actorID = Ok (t, cr) ->
  exists actors actor,
    pf_Enabled (cfg_PanelFacade c) = true /\
    pf_Actors_Telegram (cfg_PanelFacade c) = Some actors /\
    actors !! TrimSpace actorID = Some actor /\
    TrimSpace (act_CredentialID actor) <> "" /\
    HasPrefix (TrimSpace (act_CredentialID actor)) "rg_" = false /\
    FindCredential c (TrimSpace (act_CredentialID actor)) = Some (t, cr).
Proof.
  unfold ResolveTelegramActorCredential.
  destruct (pf_Enabled (cfg_PanelFacade c)) eqn:Hen; [|done]. cbn [negb].
  destruct (pf_Actors_Telegram (cfg_PanelFacade c)) as [actors|] eqn:Hac; [|done].
  destruct (TrimSpace actorID =s? ""); [done|].
  destruct (actors !! TrimSpace actorID) as [actor|] eqn:Hlk; [|done].
  destruct (_ || _) eqn:Hbad; [done|]. apply orb_false_iff in Hbad as [Hne%eqs_false Hrg].
  destruct (FindCredential c (TrimSpace (act_CredentialID actor))) as [tc|] eqn:Hf;
    [|by destruct (credentialExistsDisabled _ _)].
  intros [= ->]. by exists actors, actor.
Qed.

(** C25: the actor resolver answers only with an enabled credential of an
    enabled token, the one the actor map names; it never resolves an actor the
    map does not list, nor a value that looks like a raw token. *)
Theorem resolver_sound c actorID t cr :
  ResolveTelegramActorCredential (Some c) actorID = Ok (t, cr) ->
  exists actors actor,
    pf_Enabled (cfg_PanelFacade c) = true /\
    pf_Actors_Telegram (cfg_PanelFacade c) = Some actors /\
    actors !! TrimSpace actorID = Some actor /\
    cred_ID cr = TrimSpace (act_CredentialID actor) /\ cred_ID cr <> "" /\
    HasPrefix (cred_ID cr) "rg_" = false /\
    t ∈ cfg_Tokens c /\ cr ∈ tok_Credentials t /\
    tok_Disabled t = false /\ cred_Disabled cr = false.
Proof.
  intros (actors & actor & He & Ha & Hl & Hne & Hrg & Hf)%actor_credential.
  apply find_credential_Some in Hf as (Ht & Hcr & Hid & Hdt & Hdc).
  exists actors, actor. rewrite Hid. split_and!; auto.
Qed.

Definition witness_panel (credential : string) : Config :=
  let c := add_tokens zero_config
    [{| tok_ID := "t1"; tok_Disabled := false; tok_Scopes := ["users:read"];
        tok_Constraints := empty_constraints;
        tok_Credentials := [{| cred_ID := "c1"; cred_HMACSHA256 := "x";
                               cred_Disabled := false |}] |}] in
  Build_Config (cfg_Server c) (cfg_Upstream c) (cfg_Compatibility c) (cfg_Limits c)
    (cfg_Metrics c) (cfg_Audit c) (cfg_Alerts c) (cfg_Report c) (cfg_PublicSubs c)
    {| pf_Enabled := true; pf_Session := pf_Session (cfg_PanelFacade c);
       pf_Telegram := pf_Telegram (cfg_PanelFacade c);
       pf_Actors_Telegram := Some {[ "42" := {| act_CredentialID := credential;
                                               act_DisplayName := "ops" |} ]} |}
    (cfg_Reload c) (cfg_WriteSafety c) (cfg_Tokens c) (cfg_Include c) (cfg_path c).

Lemma resolver_sound_witness :
  exists t cr, cred_ID cr = "c1" /\ t ∈ cfg_Tokens (witness_panel " c1 ").
Proof.
  destruct (resolver_sound (witness_panel " c1 ") "42 "
    (default (Build_TokenPolicy "" [] [] false empty_constraints)
       (FindToken (witness_panel " c1 ") "t1"))
    {| cred_ID := "c1"; cred_HMACSHA256 := "x"; cred_Disabled := false |})
    as (actors & actor & _ & _ & _ & _ & _ & _ & Ht & _); [vm_compute; reflexivity|].
  eexists _, {| cred_ID := "c1"; cred_HMACSHA256 := ""; cred_Disabled := false |}.
  split; [reflexivity|exact Ht].
Defined.
