(* ===== verification/EffectiveRoute.v ===== *)
(** * internal/server: the route a configuration makes effective

    [effectiveRoute] widens a catalog route: reads that read:* may use, and the
    restricted writes that an explicit, single-writer configuration enables. *)

From S2P Require Import Prelude GoStrings Config Routes Policy.
From stdpp Require Import options.

Definition safeReadAllQueryFields : list string :=
  ["page"; "size"; "limit"; "offset"; "start"; "search"; "username"; "email"; "tag"; "tags";
   "status"; "sort"; "order"; "sorting"; "filters"; "filterModes"; "includeHwid";
   "includeSubscription"; "includeStats"; "includeUsers"; "tz"].

Definition safeReadAllRoutes : list string :=
  ["user.read.uuid"; "user.read.username"; "user.read.telegram"; "user.list";
   "get.users.by_email.email"; "get.users.by_id.id"; "get.users.by_short_uuid.shortuuid";
   "get.users.by_tag.tag"; "get.users.tags"; "get.users.uuid.accessible_nodes"; "hwid.list";
   "get.hwid.devices"; "get.hwid.devices.stats"; "get.hwid.devices.top_users";
   "squad.internal.read"; "squad.external.read"; "squad.internal.list"; "squad.external.list";
   "get.internal_squads.uuid.accessible_nodes"; "get.config_profiles";
   "get.config_profiles.inbounds"; "get.config_profiles.uuid";
   "get.config_profiles.uuid.inbounds"; "get.hosts"; "get.hosts.tags"; "get.hosts.uuid";
   "get.nodes"; "get.nodes.tags"; "get.nodes.uuid"; "subscription_page_config.list";
   "subscription_page_config.read"; "subscription.subpage_config";
   "get.subscription_templates"; "get.subscription_templates.uuid"; "get.subscriptions";
   "get.subscriptions.by_short_uuid.shortuuid"; "get.subscriptions.by_username.username";
   "get.subscriptions.by_uuid.uuid"; "system.health"; "system.metadata"; "system.bandwidth";
   "system.stats"; "get.system.nodes.metrics"; "get.system.stats.nodes";
   "get.system.stats.recap"; "get.bandwidth_stats.nodes";
   "get.bandwidth_stats.nodes.uuid.users"; "get.bandwidth_stats.nodes.uuid.users.legacy";
   "get.bandwidth_stats.users.uuid"; "get.bandwidth_stats.users.uuid.legacy";
   "get.metadata.node.uuid"; "get.metadata.user.uuid"].

Definition safeReadAllRoute (route : Route) : bool :=
  contains_str safeReadAllRoutes (rt_Name route).

Definition restrictedUserUpdateFields : list string :=
  ["username"; "uuid"; "status"; "expireAt"; "trafficLimitBytes"; "trafficLimitStrategy";
   "telegramId"; "telegram_id"; "email"; "description"; "tag"; "activeInternalSquads";
   "hwidDeviceLimit"; "externalSquadUuid"; "external_squad_uuid";
   "subscriptionPageConfigUuid"; "subscriptionPageConfigUUID";
   "subscription_page_config_uuid"].

Definition userCreateFields : list string :=
  ["username"; "status"; "shortUuid"; "short_uuid"; "trojanPassword"; "vlessUuid";
   "ssPassword"; "expireAt"; "createdAt"; "lastTrafficResetAt"; "trafficLimitBytes";
   "trafficLimitStrategy"; "telegramId"; "telegram_id"; "email"; "description"; "tag";
   "activeInternalSquads"; "hwidDeviceLimit"; "uuid"; "externalSquadUuid";
   "external_squad_uuid"; "subscriptionPageConfigUuid"; "subscriptionPageConfigUUID";
   "subscription_page_config_uuid"].

Definition restricted_writes : list string :=
  ["user.create"; "user.update"; "user.actions.disable"; "user.actions.enable";
   "user.actions.reset_traffic"; "user.actions.revoke"; "hwid.create"; "hwid.delete";
   "hwid.delete_all"; "post.config_profiles"; "patch.config_profiles"; "post.hosts";
   "patch.hosts"; "patch.hosts.bulk.update"; "post.nodes"; "patch.nodes";
   "post.nodes.uuid.actions.disable"; "post.nodes.uuid.actions.enable";
   "post.nodes.uuid.actions.restart"; "post.nodes.uuid.actions.reset_traffic";
   "patch.subscription_templates"; "patch.internal_squads"; "patch.external_squads"].

Definition isRestrictedWrite (route : Route) : bool :=
  contains_str restricted_writes (rt_Name route).

(** Field updates of the value [route]. *)
Definition with_policy (r : Route) (support : Support) (scopes query : list string) : Route := {|
  rt_Name := rt_Name r; rt_Method := rt_Method r; rt_Pattern := rt_Pattern r;
  rt_Support := support; rt_Scopes := scopes; rt_QueryAllowed := query;
  rt_BodyLimit := rt_BodyLimit r; rt_BodyObject := rt_BodyObject r;
  rt_AllowedFields := rt_AllowedFields r; rt_RequiredBoolean := rt_RequiredBoolean r;
  rt_Group := rt_Group r; rt_UnsupportedReason := rt_UnsupportedReason r; rt_re := rt_re r;
|}.

Definition with_body (r : Route) (limit : Z) (fields : list string) : Route := {|
  rt_Name := rt_Name r; rt_Method := rt_Method r; rt_Pattern := rt_Pattern r;
  rt_Support := rt_Support r; rt_Scopes := rt_Scopes r; rt_QueryAllowed := rt_QueryAllowed r;
  rt_BodyLimit := limit; rt_BodyObject := true; rt_AllowedFields := fields;
  rt_RequiredBoolean := rt_RequiredBoolean r; rt_Group := rt_Group r;
  rt_UnsupportedReason := rt_UnsupportedReason r; rt_re := rt_re r;
|}.

Definition enforced (r : Route) (scopes : list string) : Route :=
  with_policy r PolicyEnforced scopes (rt_QueryAllowed r).

(** The reads read:* covers. *)
Definition widen_reads (route : Route) : Route :=
  if (rt_Method route =s? "GET") && safeReadAllRoute route then
    let route :=
      if rt_Support route =s? Privileged then
        with_policy route PolicyEnforced (rt_Scopes route)
          (if is_nil (rt_QueryAllowed route) then safeReadAllQueryFields
           else rt_QueryAllowed route)
      else route in
    if (rt_Support route =s? PolicyEnforced) && negb (contains_str (rt_Scopes route) "read:*")
    then with_policy route (rt_Support route) (rt_Scopes route ++ ["read:*"])
           (rt_QueryAllowed route)
    else route
  else route.

(** The switch on the route name for enabled writes. *)
Definition widen_writes (max_body : Z) (route : Route) : Route :=
  let named l := contains_str l (rt_Name route) in
  if named ["user.create"] then
    with_body (enforced route ["users:create"; "user:write"]) 65536 userCreateFields
  else if named ["user.update"] then
    with_body (enforced route ["users:update"; "users:write"; "user:write"]) 65536
      restrictedUserUpdateFields
  else if named ["user.actions.disable"; "user.actions.enable"; "user.actions.reset_traffic";
              "user.actions.revoke"] then
    enforced route ["users:action"; "users:write"; "user:action"]
  else if named ["hwid.create"; "hwid.delete"; "hwid.delete_all"] then
    enforced route ["hwid:write"]
  else if named ["post.config_profiles"; "patch.config_profiles"] then
    with_body (enforced route ["config-profiles:write"]) max_body (rt_AllowedFields route)
  else if named ["post.hosts"; "patch.hosts"; "patch.hosts.bulk.update"] then
    with_body (enforced route ["hosts:write"]) max_body (rt_AllowedFields route)
  else if named ["post.nodes"; "patch.nodes"; "post.nodes.uuid.actions.disable";
              "post.nodes.uuid.actions.enable"; "post.nodes.uuid.actions.restart";
              "post.nodes.uuid.actions.reset_traffic"] then
    let route' := enforced route ["nodes:write"] in
    if (rt_Method route <>s? "POST") || negb (Contains (rt_Pattern route) "/actions/")
    then with_body route' max_body (rt_AllowedFields route) else route'
  else if named ["patch.subscription_templates"] then
    with_body (enforced route ["subscription-templates:write"]) max_body (rt_AllowedFields route)
  else if named ["patch.internal_squads"] then
    with_body (enforced route ["internal-squads:write"]) max_body (rt_AllowedFields route)
  else if named ["patch.external_squads"] then
    with_body (enforced route ["external-squads:write"]) max_body (rt_AllowedFields route)
  else route.

Definition writes_enabled (c : Config) : bool :=
  RestrictedWritesEnabled (cfg_WriteSafety c) && ws_SingleWriter (cfg_WriteSafety c).

Definition effectiveRoute (c : Config) (route : Route) : Route :=
  let route := widen_reads route in
  if negb (RestrictedWritesEnabled (cfg_WriteSafety c)) ||
     negb (ws_SingleWriter (cfg_WriteSafety c))
  then route else widen_writes (lim_MaxBodyBytes (cfg_Limits c)) route.

(** ** Facts *)

#[local] Opaque Catalog.

Section facts.
Context `{Unicode}.

Lemma effectiveRoute_kept c r :
  rt_Name (effectiveRoute c r) = rt_Name r /\ rt_Method (effectiveRoute c r) = rt_Method r /\
  rt_Pattern (effectiveRoute c r) = rt_Pattern r.
Proof.
  unfold effectiveRoute, widen_reads, widen_writes. cbv zeta.
  repeat case_match; simpl; auto.
Qed.

Lemma widen_writes_other max_body r :
  isRestrictedWrite r = false -> widen_writes max_body r = r.
Proof.
  unfold isRestrictedWrite. intros Hr.
  assert (Hsub : forall l, forallb (contains_str restricted_writes) l = true ->
            contains_str l (rt_Name r) = false).
  { intros l Hl. apply contains_str_false. apply contains_str_false in Hr. intros Hin.
    apply Hr. rewrite forallb_forall in Hl. apply list_elem_of_In, Hl in Hin.
    by apply contains_str_spec. }
  unfold widen_writes. cbv zeta. by rewrite !Hsub by reflexivity.
Qed.

(** The scopes that allow the restricted writes, a row for each kind of write. *)
Definition write_scope_table : list (list string * list string) :=
  [(["user.create"], ["users:create"; "user:write"]);
   (["user.update"], ["users:update"; "users:write"; "user:write"]);
   (["user.actions.disable"; "user.actions.enable"; "user.actions.reset_traffic";
     "user.actions.revoke"], ["users:action"; "users:write"; "user:action"]);
   (["hwid.create"; "hwid.delete"; "hwid.delete_all"], ["hwid:write"]);
   (["post.config_profiles"; "patch.config_profiles"], ["config-profiles:write"]);
   (["post.hosts"; "patch.hosts"; "patch.hosts.bulk.update"], ["hosts:write"]);
   (["post.nodes"; "patch.nodes"; "post.nodes.uuid.actions.disable";
     "post.nodes.uuid.actions.enable"; "post.nodes.uuid.actions.restart";
     "post.nodes.uuid.actions.reset_traffic"], ["nodes:write"]);
   (["patch.subscription_templates"], ["subscription-templates:write"]);
   (["patch.internal_squads"], ["internal-squads:write"]);
   (["patch.external_squads"], ["external-squads:write"])].

Definition write_scopes (name : string) : list string :=
  concat (map (fun row => if contains_str (fst row) name then snd row else [])
            write_scope_table).

(** What a non-privileged token may do with an effective catalog route, as a
    check over the table. *)
Definition write_needs_scope (writes : bool) (max_body : Z) (r : Route) : bool :=
  let e := if writes then widen_writes max_body (widen_reads r) else widen_reads r in
  (rt_Support e <>s? PolicyEnforced) || (rt_Method e =s? "GET") ||
  (writes && isRestrictedWrite e && negb (contains_str (rt_Scopes e) "read:*") &&
   forallb (contains_str (write_scopes (rt_Name e))) (rt_Scopes e)).

Definition table_write_needs_scope (max_body : Z) (cat : list Route) : bool :=
  forallb (fun r => write_needs_scope true max_body r && write_needs_scope false max_body r)
    cat.

Lemma table_ok max_body : table_write_needs_scope max_body (Catalog "2.8.1") = true.
Proof. vm_compute. reflexivity. Qed.
End facts.

Section write_facts.
Context `{Unicode}.

Lemma table_row max_body r writes :
  r ∈ Catalog "2.8.1" -> write_needs_scope writes max_body r = true.
Proof.
  intros Hin. pose proof (table_ok max_body) as Hall. unfold table_write_needs_scope in Hall.
  rewrite forallb_forall in Hall. apply list_elem_of_In in Hin.
  specialize (Hall r Hin). apply andb_true_iff in Hall as [Ht Hf]. by destruct writes.
Qed.

Lemma effectiveRoute_cases c r :
  effectiveRoute c r =
  if writes_enabled c then widen_writes (lim_MaxBodyBytes (cfg_Limits c)) (widen_reads r)
  else widen_reads r.
Proof.
  unfold effectiveRoute, writes_enabled. cbv zeta.
  by destruct (RestrictedWritesEnabled _), (ws_SingleWriter _).
Qed.

Lemma write_granted c r t :
  r ∈ Catalog "2.8.1" -> rt_Method r <> "GET" ->
  hasPrivilegedScope (tok_Scopes t) = false -> grants t (effectiveRoute c r) ->
  writes_enabled c = true /\ isRestrictedWrite r = true /\
  exists sc, sc ∈ tok_Scopes t /\ sc <> "read:*" /\ sc ∈ write_scopes (rt_Name r).
Proof.
  intros Hin Hm Hp [_ Hg].
  destruct (effectiveRoute_kept c r) as (Hn & Hme & _).
  destruct Hg as [[_ Hpriv]|[Hs (sc & Hsc & Ht)]]; [congruence|].
  destruct Ht as [Ht|Ht]; [|congruence].
  pose proof (table_row (lim_MaxBodyBytes (cfg_Limits c)) r (writes_enabled c) Hin) as Hrow.
  unfold write_needs_scope in Hrow. cbv zeta in Hrow.
  rewrite <- (effectiveRoute_cases c r) in Hrow.
  rewrite Hs, Hme, eqs_refl, (proj2 (eqs_false _ _) Hm) in Hrow. simpl in Hrow.
  apply andb_true_iff in Hrow as [Hrow Hall]. apply andb_true_iff in Hrow as [Hrow Hread].
  apply andb_true_iff in Hrow as [Hw Hrw]. split; [exact Hw|].
  unfold isRestrictedWrite in *. rewrite Hn in Hrw. split; [exact Hrw|].
  exists sc. split; [exact Ht|]. split.
  - intros ->. apply negb_true_iff, contains_str_false in Hread. contradiction.
  - rewrite forallb_forall, Hn in Hall. by apply contains_str_spec, Hall, list_elem_of_In.
Qed.
End write_facts.

(** ** Properties *)

(** C20: writes are opt-in.  A token without a privileged scope passes the gate
    on a non-GET catalog route only when the configuration enables restricted
    writes with a single writer, the route is one of the restricted writes, and
    the token holds one of the write scopes of that route, as the table
    [write_scope_table] lists them; read:* never grants one. *)
Theorem writes_need_optin_and_scope `{Unicode} c r t :
  r ∈ Catalog "2.8.1" -> rt_Method r <> "GET" ->
  hasPrivilegedScope (tok_Scopes t) = false ->
  d_Allow (Decide (Some t) (effectiveRoute c r)) = true ->
  writes_enabled c = true /\ isRestrictedWrite r = true /\
  exists sc, sc ∈ tok_Scopes t /\ sc <> "read:*" /\ sc ∈ write_scopes (rt_Name r).
Proof.
  intros Hin Hm Hp (t' & [= <-] & Hg)%Decide_allow. exact (write_granted c r t Hin Hm Hp Hg).
Qed.

Definition witness_writes : Config :=
  let c := zero_config in
  Build_Config (cfg_Server c) (cfg_Upstream c) (cfg_Compatibility c) (cfg_Limits c)
    (cfg_Metrics c) (cfg_Audit c) (cfg_Alerts c) (cfg_Report c) (cfg_PublicSubs c)
    (cfg_PanelFacade c) (cfg_Reload c)
    {| ws_SingleWriter := true; ws_EnableRestrictedWrites := true;
       ws_EnableTenantWritesLegacy := false |}
    (cfg_Tokens c) (cfg_Include c) (cfg_path c).

Lemma writes_need_optin_and_scope_witness :
  writes_enabled witness_writes = true /\
  exists sc, sc ∈ ["read:*"; "hwid:write"] /\ sc <> "read:*" /\ sc ∈ ["hwid:write"].
Proof.
  pose (r := default zero_route
    (Match (Catalog (H := ascii_only) "2.8.1") "POST" "/api/hwid/devices/delete")).
  destruct (@writes_need_optin_and_scope ascii_only witness_writes r
    (Build_TokenPolicy "t" [] ["read:*"; "hwid:write"] false empty_constraints))
    as (Hw & _ & Hsc).
  - apply (Match_Some _ "POST" "/api/hwid/devices/delete"). vm_compute. reflexivity.
  - vm_compute. discriminate.
  - reflexivity.
  - vm_compute. reflexivity.
  - split; [exact Hw|exact Hsc].
Defined.

(** A defect.  The list of routes read:* covers names the two short-uuid
    reads in lower case, but [routeName] keeps the case of the parameter
    (shortUuid), so no catalog route has these names and read:* is refused on
    both reads. *)
Theorem short_uuid_reads_refused `{Unicode} c r t :
  r ∈ Catalog "2.8.1" ->
  rt_Pattern r ∈ ["/api/users/by-short-uuid/{shortUuid}";
                  "/api/subscriptions/by-short-uuid/{shortUuid}"] ->
  tok_Scopes t = ["read:*"] ->
  contains_str safeReadAllRoutes (ToLower (rt_Name r)) = true /\
  d_Allow (Decide (Some t) (effectiveRoute c r)) = false.
Proof.
  intros Hin Hpat Hsc.
  assert (Hall : forallb (fun r => negb (contains_str
      ["/api/users/by-short-uuid/{shortUuid}"; "/api/subscriptions/by-short-uuid/{shortUuid}"]
      (rt_Pattern r)) ||
      (contains_str safeReadAllRoutes (ToLower (rt_Name r)) &&
       negb (contains_str safeReadAllRoutes (rt_Name r)) && (rt_Support r =s? Privileged) &&
       negb (isRestrictedWrite r))) (Catalog "2.8.1") = true) by (vm_compute; reflexivity).
  rewrite forallb_forall in Hall. apply list_elem_of_In in Hin. specialize (Hall r Hin).
  rewrite (proj2 (contains_str_spec _ _) Hpat) in Hall. cbn [negb orb] in Hall.
  rewrite !andb_true_iff, !negb_true_iff, eqs_true in Hall.
  destruct Hall as [[[Hlow Hname] Hpriv] Hrw]. split; [exact Hlow|].
  apply not_true_iff_false. intros (t' & [= <-] & _ & Hg)%Decide_allow.
  assert (Heff : effectiveRoute c r = r).
  { unfold effectiveRoute, widen_reads, safeReadAllRoute. rewrite Hname, andb_false_r.
    destruct (_ || _); [done|]. by apply widen_writes_other. }
  rewrite Heff, Hpriv, Hsc in Hg. destruct Hg as [[_ Hg]|[Hg _]]; discriminate Hg.
Qed.

Lemma short_uuid_reads_refused_witness :
  let r := default zero_route
    (Match (Catalog (H := ascii_only) "2.8.1") "GET" "/api/users/by-short-uuid/abcdef") in
  d_Allow (Decide (Some (Build_TokenPolicy "t" [] ["read:*"] false empty_constraints))
             (effectiveRoute zero_config r)) = false.
Proof.
  intros r. apply (@short_uuid_reads_refused ascii_only).
  - apply (Match_Some _ "GET" "/api/users/by-short-uuid/abcdef"). vm_compute. reflexivity.
  - vm_compute. left.
  - reflexivity.
Defined.
