(* ===== verification/Httputil.v ===== *)
(** * net/http headers, net/url escapes, and internal/httputil *)

From S2P Require Import Prelude GoStrings Encoding.
From stdpp Require Import options.

(** ** net/http.Header *)

Definition Header := gmap string (list string).

(** RFC 7230 token characters. *)
Definition is_token (c : ascii) : bool :=
  Utf8.in_range 48 57 (code c) || Utf8.in_range 65 90 (code c) ||
  Utf8.in_range 97 122 (code c) || IndexByte_found "!#$%&'*+-.^_`|~" c.

Fixpoint canonical_go (upper : bool) (s : string) : string :=
  match s with
  | "" => ""
  | String c s' =>
      String (if upper then upper_byte c else lower_byte c) (canonical_go (c =c? "-") s')
  end.

(** [http.CanonicalHeaderKey]: a name with a byte outside the token characters
    is left alone. *)
Definition CanonicalHeaderKey (name : string) : string :=
  if all_bytes is_token name then canonical_go true name else name.

Definition Values (name : string) (h : Header) : list string :=
  default [] (h !! CanonicalHeaderKey name).

Definition Get (name : string) (h : Header) : string :=
  match Values name h with v :: _ => v | [] => "" end.

Definition Set_ (name value : string) (h : Header) : Header :=
  <[CanonicalHeaderKey name := [value]]> h.

Definition Add (name value : string) (h : Header) : Header :=
  <[CanonicalHeaderKey name := Values name h ++ [value]]> h.

Definition Del (name : string) (h : Header) : Header := delete (CanonicalHeaderKey name) h.

(** ** net/url escapes *)

Definition unhex (c : ascii) : option N :=
  let n := code c in
  if Utf8.in_range 48 57 n then Some (n - 48)%N
  else if Utf8.in_range 97 102 n then Some (n - 87)%N
  else if Utf8.in_range 65 70 n then Some (n - 55)%N
  else None.

(** [unescape]; [plus] is the query mode, where [+] is a space. *)
Fixpoint unescape (plus : bool) (s : string) : option string :=
  match s with
  | "" => Some ""
  | String c s1 =>
      if c =c? "%" then
        match s1 with
        | String a (String b s2) =>
            match unhex a, unhex b with
            | Some x, Some y =>
                option_map (String (ascii_of_N (16 * x + y))) (unescape plus s2)
            | _, _ => None
            end
        | _ => None
        end
      else option_map (String (if plus && (c =c? "+") then " "%char else c))
             (unescape plus s1)
  end.

Definition PathUnescape : string -> option string := unescape false.
Definition QueryUnescape : string -> option string := unescape true.

(** [url.Values], in the order in which the keys first occur. *)
Definition QueryValues := list (string * list string).

Definition add_value (k v : string) (vs : QueryValues) : QueryValues :=
  assoc_set k (default [] (assoc k vs) ++ [v]) vs.

(** The parameters in turn; the flag records an error. *)
Fixpoint parse_params (params : list string) (vs : QueryValues) : QueryValues * bool :=
  match params with
  | [] => (vs, true)
  | p :: ps =>
      if IndexByte_found p ";" then
        let '(r, _) := parse_params ps vs in (r, false)
      else if p =s? "" then parse_params ps vs
      else
        let '(k, v, _) := Cut "=" p in
        match QueryUnescape k, QueryUnescape v with
        | Some k', Some v' => parse_params ps (add_value k' v' vs)
        | _, _ => let '(r, _) := parse_params ps vs in (r, false)
        end
  end.

(** The parser refuses more than this many parameters. *)
Definition max_query_params : Z := 10000.

(** [url.ParseQuery]: what was parsed, and success. *)
Definition parse_query (query : string) : QueryValues * bool :=
  if (max_query_params <? Count query "&" + 1)%Z then ([], false)
  else if query =s? "" then ([], true) else parse_params (Split "&" query) [].

Definition ParseQuery (query : string) : option QueryValues :=
  let '(vs, ok) := parse_query query in if ok then Some vs else None.

(** [u.Query()] drops the error. *)
Definition Query (query : string) : QueryValues := fst (parse_query query).

Definition query_get (key : string) (vs : QueryValues) : string :=
  match assoc key vs with Some (v :: _) => v | _ => "" end.

(** ** Requests *)

(** Who a panel request acts for (server.go). *)
Record panelAuditContext := {
  pac_ActorType : string;
  pac_ActorID : string;
  pac_DisplayName : string;
  pac_CredentialID : string;
  pac_AuthEventType : string;
}.

(** The parts of an [http.Request] the program reads.  [req_Body] is [None] for
    no body, and otherwise what reading it to the end gives; the last two fields
    are the values the server stores in the request's context. *)
Record Request := {
  req_ProtoMajor : Z;
  req_Method : string;
  req_RequestURI : string;
  req_Host : string;
  req_Header : Header;
  req_RemoteAddr : string;
  req_Body : option (res string);
  req_ContentLength : Z;
  req_bodyCache : option string;
  req_panelAudit : option panelAuditContext;
}.

Definition set_body (r : Request) (body : option (res string)) (n : Z)
    (cache : option string) : Request := {|
  req_ProtoMajor := req_ProtoMajor r; req_Method := req_Method r;
  req_RequestURI := req_RequestURI r; req_Host := req_Host r; req_Header := req_Header r;
  req_RemoteAddr := req_RemoteAddr r; req_Body := body; req_ContentLength := n;
  req_bodyCache := cache; req_panelAudit := req_panelAudit r;
|}.

Definition set_header (r : Request) (h : Header) : Request := {|
  req_ProtoMajor := req_ProtoMajor r; req_Method := req_Method r;
  req_RequestURI := req_RequestURI r; req_Host := req_Host r; req_Header := h;
  req_RemoteAddr := req_RemoteAddr r; req_Body := req_Body r;
  req_ContentLength := req_ContentLength r; req_bodyCache := req_bodyCache r;
  req_panelAudit := req_panelAudit r;
|}.

Definition set_method (r : Request) (m : string) : Request := {|
  req_ProtoMajor := req_ProtoMajor r; req_Method := m;
  req_RequestURI := req_RequestURI r; req_Host := req_Host r; req_Header := req_Header r;
  req_RemoteAddr := req_RemoteAddr r; req_Body := req_Body r;
  req_ContentLength := req_ContentLength r; req_bodyCache := req_bodyCache r;
  req_panelAudit := req_panelAudit r;
|}.

Definition set_panel (r : Request) (p : option panelAuditContext) : Request := {|
  req_ProtoMajor := req_ProtoMajor r; req_Method := req_Method r;
  req_RequestURI := req_RequestURI r; req_Host := req_Host r; req_Header := req_Header r;
  req_RemoteAddr := req_RemoteAddr r; req_Body := req_Body r;
  req_ContentLength := req_ContentLength r; req_bodyCache := req_bodyCache r;
  req_panelAudit := p;
|}.

Definition CRLF_space : string := bytes [32; 9; 13; 10].
Definition unsafe_value_chars : string := bytes [0; 13; 10].

Section httputil.
Context `{Unicode}.

Definition ValidateRawRequest (r : Request) (maxPath maxQuery : Z)
    : res (string * string) :=
  if (2 <=? req_ProtoMajor r)%Z then Err "http2_disabled" else
  if (req_Method r =s? "CONNECT") ||
     ((req_Method r =s? "OPTIONS") && (req_RequestURI r =s? "*"))
  then Err "unsupported_request_target" else
  if (req_Host r =s? "") || ContainsAny (req_Host r) CRLF_space
  then Err "invalid_host" else
  let uri := req_RequestURI r in
  if (uri =s? "") || HasPrefix uri "http://" || HasPrefix uri "https://" ||
     negb (HasPrefix uri "/")
  then Err "invalid_request_target" else
  let '(path, rawQuery, _) := Cut "?" uri in
  if (maxPath <? len path)%Z || (maxQuery <? len rawQuery)%Z
  then Err "request_target_too_large" else
  let lower := ToLower path in
  if Contains path "//" || Contains path "\" || Contains path "/./" ||
     Contains path "/../" || HasSuffix path "/." || HasSuffix path "/.."
  then Err "ambiguous_path" else
  if Contains lower "%2f" || Contains lower "%5c" || Contains lower "%2e"
  then Err "unsafe_encoded_path" else
  if negb (match PathUnescape path with Some u => u =s? path | None => false end)
  then Err "path_normalization_changed" else
  match ParseQuery rawQuery with
  | None => Err "invalid_query"
  | Some _ =>
      if (Get "X-HTTP-Method-Override" (req_Header r) <>s? "") ||
         (Get "X-Method-Override" (req_Header r) <>s? "")
      then Err "method_override_denied" else
      if negb (HasPrefix path "/api/") && (path <>s? "/api") then Err "outside_api" else
      Ok (path, rawQuery)
  end.

Definition hop_names : list string :=
  ["Connection"; "Proxy-Connection"; "Keep-Alive"; "Proxy-Authenticate";
   "Proxy-Authorization"; "TE"; "Trailer"; "Transfer-Encoding"; "Upgrade"; "Forwarded";
   "X-Forwarded-For"; "X-Forwarded-Host"; "X-Forwarded-Proto"; "X-Real-IP"].

(** The names listed by the Connection header. *)
Definition connection_tokens (h : Header) : list string :=
  List.filter (fun n => n <>s? "")
    (concat (map (fun v => map TrimSpace (Split "," v)) (Values "Connection" h))).

Definition del_all (names : list string) (h : Header) : Header :=
  fold_left (fun h n => Del n h) names h.

Definition forwarded_names (h : Header) : list string :=
  List.filter (fun n => HasPrefix (ToLower n) "x-forwarded-") (map fst (map_to_list h)).

Definition StripHopByHop (h : Header) : Header :=
  let h1 := del_all (connection_tokens h) h in
  let h2 := del_all hop_names h1 in
  del_all (forwarded_names h2) h2.

(** One key of the query.  The source ranges over a map: with several faults
    the one reported first is the map's choice; here it is the first in the
    query. *)
Definition check_values (allowed : option (list string)) (kv : string * list string)
    : res () :=
  let '(key, vals) := kv in
  if Nat.ltb 1 (length vals) then Err "duplicate_query_param" else
  if match allowed with Some a => negb (contains_str a key) | None => false end
  then Err "unknown_query_param" else
  if existsb (fun v => ContainsAny v unsafe_value_chars) vals
  then Err "unsafe_query_value" else Ok ().

Fixpoint check_query (allowed : option (list string)) (vs : QueryValues) : res () :=
  match vs with
  | [] => Ok ()
  | kv :: vs' => check? check_values allowed kv then check_query allowed vs'
  end.

Definition ValidateQuery (rawQuery : string) (allowed : list string) : res () :=
  match ParseQuery rawQuery with
  | None => Err "invalid_query"
  | Some vs => check_query (Some allowed) vs
  end.

Definition ValidateQueryStructural (rawQuery : string) : res () :=
  match ParseQuery rawQuery with
  | None => Err "invalid_query"
  | Some vs => check_query None vs
  end.
End httputil.

(** ** Facts *)

Section httputil_facts.
Context `{Unicode}.

Lemma lookup_Del name h k :
  Del name h !! k = if CanonicalHeaderKey name =s? k then None else h !! k.
Proof.
  unfold Del. destruct (String.eqb_spec (CanonicalHeaderKey name) k) as [->|Hne].
  - by apply lookup_delete_eq.
  - by apply lookup_delete_ne.
Qed.

(** [k] is the canonical form of one of the names. *)
Definition hits (names : list string) (k : string) : bool :=
  existsb (fun n => CanonicalHeaderKey n =s? k) names.

Lemma lookup_del_all names h k :
  del_all names h !! k = if hits names k then None else h !! k.
Proof.
  revert h. induction names as [|n names IH]; intros h; simpl; [done|].
  rewrite IH, lookup_Del.
  destruct (CanonicalHeaderKey n =s? k); simpl; [by destruct (hits _ _)|done].
Qed.

(** A header map as [net/http] builds it. *)
Definition canonical (h : Header) : Prop :=
  forall k v, h !! k = Some v -> CanonicalHeaderKey k = k.

(** The header names the proxy drops. *)
Definition hop_by_hop (h : Header) (k : string) : bool :=
  hits (connection_tokens h) k || hits hop_names k || HasPrefix (ToLower k) "x-forwarded-".

Lemma forwarded_hits h k v :
  canonical h -> h !! k = Some v ->
  hits (forwarded_names h) k = HasPrefix (ToLower k) "x-forwarded-".
Proof.
  intros Hc Hk. apply eq_true_iff_eq. unfold hits, forwarded_names.
  rewrite existsb_exists. split.
  - intros (n & Hin & Heq%eqs_true). apply List.filter_In in Hin as [Hin Hp].
    apply in_map_iff in Hin as ([n' v'] & Hn' & Hin). simpl in Hn'. subst n'.
    apply list_elem_of_In, elem_of_map_to_list, Hc in Hin.
    rewrite Hin in Heq. by subst n.
  - intros Hp. exists k. rewrite (Hc _ _ Hk), eqs_refl. split; [|done].
    apply List.filter_In. split; [|done]. apply in_map_iff. exists (k, v).
    split; [done|]. by apply list_elem_of_In, elem_of_map_to_list.
Qed.

Lemma canonical_del_all names h : canonical h -> canonical (del_all names h).
Proof.
  intros Hc k v. rewrite lookup_del_all. destruct (hits names k); [done|]. apply Hc.
Qed.

Lemma StripHopByHop_lookup h k :
  canonical h ->
  StripHopByHop h !! k = if hop_by_hop h k then None else h !! k.
Proof.
  intros Hc. unfold StripHopByHop, hop_by_hop. cbv zeta.
  assert (Hh2 := lookup_del_all hop_names (del_all (connection_tokens h) h) k).
  rewrite (lookup_del_all (connection_tokens h)) in Hh2.
  assert (Hc2 : canonical (del_all hop_names (del_all (connection_tokens h) h)))
    by (by apply canonical_del_all, canonical_del_all).
  revert Hh2 Hc2. generalize (del_all hop_names (del_all (connection_tokens h) h)).
  intros h2 Hh2 Hc2. rewrite lookup_del_all, Hh2.
  destruct (hits (connection_tokens h) k), (hits hop_names k); simpl;
    try (by destruct (hits (forwarded_names h2) k)).
  destruct (h !! k) as [v|] eqn:Hk.
  - by rewrite (forwarded_hits h2 k v).
  - by destruct (hits (forwarded_names h2) k), (HasPrefix (ToLower k) "x-forwarded-").
Qed.
End httputil_facts.

(** ** Accepted requests *)

Lemma unescape_len plus s u :
  unescape plus s = Some u -> String.length u <= String.length s /\
    (IndexByte_found s "%" = true -> String.length u < String.length s).
Proof.
  revert u. assert (Hlen : forall n s u, String.length s <= n -> unescape plus s = Some u ->
    String.length u <= String.length s /\
    (IndexByte_found s "%" = true -> String.length u < String.length s)).
  2: { intros u Hu. by eapply Hlen. }
  clear s. induction n as [|n IH]; intros s u Hn Hu.
  { destruct s; [|simpl in Hn; lia]. injection Hu as <-. simpl. split; [lia|done]. }
  destruct s as [|c s1]; [injection Hu as <-; simpl; split; [lia|done]|].
  cbn [unescape] in Hu. cbn [IndexByte_found].
  destruct (c =c? "%").
  - destruct s1 as [|a [|b s2]]; try done.
    destruct (unhex a), (unhex b); try done.
    destruct (unescape plus s2) as [u2|] eqn:H2; [|done]. injection Hu as <-.
    apply IH in H2 as [Hle _]; [|simpl in *; lia]. simpl in *. lia.
  - destruct (unescape plus s1) as [u1|] eqn:H1; [|done]. injection Hu as <-.
    apply IH in H1 as [Hle Hlt]; [|simpl in *; lia]. simpl in *. split; [lia|].
    intros Hin. apply Hlt in Hin. lia.
Qed.

(** A text that decodes to itself has no percent sign. *)
Lemma unescape_fixed plus s : unescape plus s = Some s -> IndexByte_found s "%" = false.
Proof.
  intros Hu. apply unescape_len in Hu as [_ Hlt]. destruct (IndexByte_found s "%"); [|done].
  specialize (Hlt eq_refl). lia.
Qed.

(** A text is its first part, or its first part, a separator and the rest. *)
Lemma Split_uncons sep s q qs :
  Split sep s = q :: qs ->
  (qs = [] /\ s = q) \/ (exists s', s = q +:+ String sep s' /\ qs = Split sep s').
Proof.
  revert q qs. induction s as [|c s IH]; intros q qs Hs; cbn [Split] in Hs.
  { injection Hs as <- <-. by left. }
  destruct (c =c? sep) eqn:Hc.
  - injection Hs as <- <-. apply eqc_true in Hc as ->. right. by exists s.
  - destruct (Split_cons_ne sep s) as (q' & qs' & Hs'). rewrite Hs' in Hs.
    injection Hs as <- <-. destruct (IH _ _ Hs') as [[-> ->]|(s' & -> & ->)]; [by left|].
    right. by exists s'.
Qed.

(** A part of a split text is delimited by separators or the ends. *)
Lemma Split_In sep s p :
  In p (Split sep s) ->
  exists a b, s = a +:+ p +:+ b /\
    (a = "" \/ exists a', a = a' +:+ String sep "") /\
    (b = "" \/ exists b', b = String sep b').
Proof.
  revert s. assert (Hlen : forall n s, String.length s <= n -> In p (Split sep s) ->
    exists a b, s = a +:+ p +:+ b /\ (a = "" \/ exists a', a = a' +:+ String sep "") /\
      (b = "" \/ exists b', b = String sep b')); [|intros s; by eapply Hlen].
  induction n as [|n IH]; intros s Hn Hin;
    destruct (Split_cons_ne sep s) as (q & qs & Hs); rewrite Hs in Hin;
    apply Split_uncons in Hs as [[-> ->]|(s' & -> & ->)].
  - destruct Hin as [<-|[]]. exists "", "". rewrite str_app_nil_r. auto.
  - rewrite str_length_app in Hn. simpl in Hn. lia.
  - destruct Hin as [<-|[]]. exists "", "". rewrite str_app_nil_r. auto.
  - destruct Hin as [<-|Hin]; [exists "", (String sep s'); split_and!; eauto|].
    rewrite str_length_app in Hn. simpl in Hn.
    apply IH in Hin as (a & b & -> & Ha & Hb); [|lia].
    exists (q +:+ String sep a), b. split_and!; [by rewrite str_app_assoc| |done]. right.
    destruct Ha as [->|[a' ->]]; [by exists q|].
    exists (q +:+ String sep a'). by rewrite str_app_assoc.
Qed.

Section accepted.
Context `{Unicode}.

(** A path no upstream can read as another path. *)
Definition plain_path (path : string) : Prop :=
  IndexByte_found path "%" = false /\ IndexByte_found path "\" = false /\
  (forall seg, In seg (Split "/" path) -> seg <> "." /\ seg <> "..") /\
  Contains path "//" = false.

Lemma dot_segment path seg :
  HasPrefix path "/" = true -> In seg (Split "/" path) -> seg <> "" ->
  Contains path ("/" +:+ seg +:+ "/") = true \/ HasSuffix path ("/" +:+ seg) = true.
Proof.
  intros Hp Hin Hne. pose proof (Split_no_sep _ _ _ Hin) as Hno. apply Split_In in Hin as (a & b & -> & Ha & Hb).
  destruct Ha as [->|[a' ->]].
  - exfalso. rewrite str_app_nil_l in Hp. destruct seg as [|c seg]; [done|].
    apply HasPrefix_spec in Hp as [t Ht]. rewrite !str_app_cons in Ht.
    injection Ht as -> _. by cbn [IndexByte_found] in Hno.
  - destruct Hb as [->|[b' ->]].
    + right. apply HasSuffix_spec. exists a'. by rewrite str_app_nil_r, str_app_assoc.
    + left. apply Contains_spec. exists a', b'. rewrite !str_app_assoc. done.
Qed.

Lemma ValidateRawRequest_path r maxPath maxQuery path rawQuery :
  ValidateRawRequest r maxPath maxQuery = Ok (path, rawQuery) ->
  (path = "/api" \/ HasPrefix path "/api/" = true) /\
  HasPrefix path "/" = true /\ plain_path path.
Proof.
  unfold ValidateRawRequest. cbv zeta. intros Hv.
  destruct (2 <=? req_ProtoMajor r)%Z; [done|].
  destruct (_ || (_ && _)); [done|]. destruct (_ || _) in Hv; [done|].
  destruct (_ || negb (HasPrefix (req_RequestURI r) "/")) eqn:Huri; [done|].
  destruct (Cut "?" (req_RequestURI r)) as [[p q] found] eqn:Hcut.
  destruct (_ || _)%Z in Hv; [done|].
  destruct (_ || HasSuffix p "/..") eqn:Hamb; [done|].
  destruct (_ || Contains (ToLower p) "%2e") in Hv; [done|].
  destruct (PathUnescape p) as [u|] eqn:Hun; [|done].
  destruct (String.eqb_spec u p) as [->|]; [|done]. cbn [negb] in Hv.
  destruct (ParseQuery q); [|done]. destruct (_ || _) in Hv; [done|].
  destruct (negb (HasPrefix p "/api/") && (p <>s? "/api")) eqn:Hapi; [done|].
  injection Hv as <- <-.
  assert (Hslash : HasPrefix p "/" = true).
  { apply andb_false_iff in Hapi as [Hapi%negb_false_iff|Hapi%negb_false_iff].
    - apply HasPrefix_spec in Hapi as [t ->]. done.
    - apply eqs_true in Hapi as ->. done. }
  split.
  { apply andb_false_iff in Hapi as [Hapi%negb_false_iff|Hapi%negb_false_iff]; [by right|].
    left. by apply eqs_true in Hapi. }
  split; [done|]. rewrite !orb_false_iff in Hamb.
  destruct Hamb as (((((H1 & H2) & H3) & H4) & H5) & H6).
  split_and!.
  - by eapply unescape_fixed.
  - apply not_true_iff_false. intros Hin. apply IndexByte_found_spec in Hin as (a & b & ->).
    apply not_true_iff_false in H2. apply H2, Contains_spec. by exists a, b.
  - intros seg Hin. split; intros ->;
      (destruct (dot_segment p _ Hslash Hin) as [Hc|Hc]; [done| |]).
    + change (Contains p "/./" = true) in Hc. congruence.
    + change (HasSuffix p "/." = true) in Hc. congruence.
    + change (Contains p "/../" = true) in Hc. congruence.
    + change (HasSuffix p "/.." = true) in Hc. congruence.
  - done.
Qed.
End accepted.

(** ** Query checks *)

Section query_facts.
Lemma check_query_Ok allowed vs :
  check_query allowed vs = Ok () <->
  Forall (fun kv => length (snd kv) <= 1 /\
    match allowed with Some a => fst kv ∈ a | None => True end /\
    Forall (fun v => ContainsAny v unsafe_value_chars = false) (snd kv)) vs.
Proof.
  induction vs as [|[k vals] vs IH]; simpl; [by split|]. rewrite Forall_cons, <- IH. simpl.
  assert (Hun : existsb (fun v => ContainsAny v unsafe_value_chars) vals = false <->
            Forall (fun v => ContainsAny v unsafe_value_chars = false) vals).
  { clear. induction vals as [|v vals IH]; simpl; [by split|].
    by rewrite orb_false_iff, Forall_cons, IH. }
  rewrite <- Hun. destruct (Nat.ltb_spec 1 (length vals)); [split; [done|]; intros [[? _] _]; lia|].
  assert (Hal : match allowed with Some a => negb (contains_str a k) | None => false end = false
            <-> match allowed with Some a => k ∈ a | None => True end).
  { destruct allowed as [a|]; [|done]. by rewrite negb_false_iff, contains_str_spec. }
  rewrite <- Hal. destruct (match allowed with Some a => _ | None => false end).
  { split; [done|]. by intros [(_ & ? & _) _]. }
  destruct (existsb _ vals).
  { split; [done|]. by intros [(_ & _ & ?) _]. }
  split; [intros Hc; split_and!; auto|tauto].
Qed.
End query_facts.

(** ** Properties *)

(** C36: the path handed to the route matcher and to the upstream is plain.  An
    accepted path is /api or lies under /api/, and has no percent escape, no
    backslash, no empty inner segment and no dot or dot-dot segment, so the matcher
    and Remnawave cannot read it differently. *)
Theorem accepted_path_plain `{Unicode} r maxPath maxQuery path rawQuery :
  ValidateRawRequest r maxPath maxQuery = Ok (path, rawQuery) ->
  (path = "/api" \/ HasPrefix path "/api/" = true) /\
  HasPrefix path "/" = true /\ plain_path path.
Proof. apply ValidateRawRequest_path. Qed.

Lemma accepted_path_plain_witness :
  let r := {| req_ProtoMajor := 1; req_Method := "GET"; req_RequestURI := "/api/users?page=2";
              req_Host := "h"; req_Header := ∅; req_RemoteAddr := "1.2.3.4:5";
              req_Body := None; req_ContentLength := 0; req_bodyCache := None;
              req_panelAudit := None |} in
  ("/api/users" = "/api" \/ HasPrefix "/api/users" "/api/" = true) /\
  HasPrefix "/api/users" "/" = true /\ plain_path "/api/users".
Proof.
  intros r. apply (@accepted_path_plain ascii_only r 2048 4096 "/api/users" "page=2").
  vm_compute. reflexivity.
Defined.

(** C37: what the proxy strips.  For headers as net/http builds them, a header is
    dropped exactly when it is a hop-by-hop or forwarding name, is named by a
    Connection header, or starts with x-forwarded-; every other header is kept
    unchanged. *)
Theorem strip_hop_by_hop_exact `{Unicode} h k :
  canonical h -> StripHopByHop h !! k = if hop_by_hop h k then None else h !! k.
Proof. apply StripHopByHop_lookup. Qed.

Lemma strip_hop_by_hop_exact_witness :
  let h := <["Connection" := ["x-secret, keep-alive"]]> (<["X-Secret" := ["1"]]>
             (<["Accept" := ["*/*"]]> (∅ : gmap string (list string)))) in
  StripHopByHop (H := ascii_only) h !! "X-Secret" = None /\
  StripHopByHop (H := ascii_only) h !! "Accept" = Some ["*/*"].
Proof.
  intros h. assert (Hc : canonical h).
  { intros k v Hk. subst h. revert Hk. unfold Header. rewrite !lookup_insert_Some, lookup_empty.
    intros [[<- _]|[_ [[<- _]|[_ [[<- _]|[_ ?]]]]]]; done. }
  split; rewrite (@strip_hop_by_hop_exact ascii_only h _ Hc); vm_compute; reflexivity.
Defined.

(** The query whitelist.  A query is accepted for a route exactly when it
    parses, every parameter is allowed, none is repeated, and no value holds a
    NUL, CR or LF. *)
Theorem validate_query_iff rawQuery allowed :
  ValidateQuery rawQuery allowed = Ok () <->
  exists vs, ParseQuery rawQuery = Some vs /\
    Forall (fun kv => length (snd kv) <= 1 /\ fst kv ∈ allowed /\
      Forall (fun v => ContainsAny v unsafe_value_chars = false) (snd kv)) vs.
Proof.
  unfold ValidateQuery. destruct (ParseQuery rawQuery) as [vs|].
  - rewrite check_query_Ok. split; [by exists vs|]. by intros (vs' & [= ->] & ?).
  - split; [done|]. by intros (vs' & ? & _).
Qed.
