(* ===== verification/JsonPolicy.v ===== *)
(** * internal/jsonpolicy: objects without duplicate keys *)

From S2P Require Import Prelude GoStrings Encoding Json.
From stdpp Require Import options.

(** The text of an error of the JSON decoder itself is not modelled. *)
Definition json_error : string := "malformed JSON".

(** The token loop: [s] starts at a key.  The values are decoded one by one by
    [dec.Decode(&raw)], each with a fresh nesting count. *)
Fixpoint decode_members `{Unicode} (fuel : nat) (out : list (string * string)) (s : string)
    : res (list (string * string)) :=
  match fuel with
  | O => Err json_error
  | S fuel' =>
      match s with
      | String c s1 =>
          if c =c? quote then
            match parse_string s1 with
            | None => Err json_error
            | Some (key, s2) =>
                if contains_str (map fst out) key
                then Err ("duplicate JSON key " +:+ strconv_quote key) else
                match skip_ws s2 with
                | String ":" s3 =>
                    match parse_value (parse_fuel s3) 0 s3 with
                    | None => Err json_error
                    | Some (_, s4) =>
                        let out' := out ++ [(key, raw_text (skip_ws s3) s4)] in
                        match skip_ws s4 with
                        | String "," s5 => decode_members fuel' out' (skip_ws s5)
                        | String "}" _ => Ok out'
                        | _ => Err json_error
                        end
                    end
                | _ => Err json_error
                end
            end
          else Err json_error
      | "" => Err json_error
      end
  end.

(** The members of the first object of the (limited) input, in document order;
    what follows the object is not read. *)
Definition DecodeObjectNoDuplicateKeys `{Unicode} (body : string) (maxBytes : Z)
    : res (list (string * string)) :=
  let s := take_str (Z.to_nat maxBytes) body in
  match skip_ws s with
  | String "{" s1 =>
      match skip_ws s1 with
      | String "}" _ => Ok []
      | r => decode_members (String.length s) [] r
      end
  | r => if parse_value (parse_fuel r) 0 r then Err "top-level JSON object required"
         else Err json_error
  end.

(** The source ranges over the map: with several unknown fields the one named is
    the map's choice; here it is the first in the document. *)
Fixpoint ValidateFields `{Unicode} (obj : list (string * string)) (allowed : list string)
    : res () :=
  match obj with
  | [] => Ok ()
  | (field, _) :: obj' =>
      if contains_str allowed field then ValidateFields obj' allowed
      else Err ("unknown JSON field " +:+ strconv_quote field)
  end.

(** ** Facts *)

Section facts.
Context `{Unicode}.

Lemma decode_members_spec fuel out s ms :
  decode_members fuel out s = Ok ms ->
  exists added, ms = out ++ added /\ (NoDup (map fst out) -> NoDup (map fst ms)).
Proof.
  revert out s. induction fuel as [|fuel IH]; intros out s Hd; [done|].
  cbn [decode_members] in Hd. destruct s as [|c s1]; [done|].
  destruct (c =c? quote); [|done].
  destruct (parse_string s1) as [[key s2]|]; [|done].
  destruct (contains_str (map fst out) key) eqn:Hdup; [done|].
  apply contains_str_false in Hdup.
  destruct (skip_ws s2) as [|c2 s3]; [done|].
  destruct (decide (c2 = ":"%char)) as [->|Hne].
  2: { by destruct c2 as [[] [] [] [] [] [] [] []]. }
  destruct (parse_value (parse_fuel s3) 0 s3) as [[v s4]|]; [|done].
  set (m := (key, raw_text (skip_ws s3) s4)) in *.
  assert (Hnd : NoDup (map fst out) -> NoDup (map fst (out ++ [m]))).
  { intros Ho. rewrite map_app. apply NoDup_app. split_and!; [done| |apply NoDup_singleton].
    intros k Hk Hk'. apply list_elem_of_singleton in Hk' as ->. done. }
  destruct (skip_ws s4) as [|c4 s5]; [done|].
  destruct (decide (c4 = ","%char)) as [->|Hn1].
  { apply IH in Hd as (added & -> & Hr). exists (m :: added).
    rewrite <- app_assoc in *. auto. }
  destruct (decide (c4 = "}"%char)) as [->|Hn2].
  { injection Hd as <-. by exists [m]. }
  by destruct c4 as [[] [] [] [] [] [] [] []].
Qed.

Lemma DecodeObject_NoDup body maxBytes ms :
  DecodeObjectNoDuplicateKeys body maxBytes = Ok ms -> NoDup (map fst ms).
Proof.
  unfold DecodeObjectNoDuplicateKeys. cbv zeta.
  assert (Hm : forall f s, decode_members f [] s = Ok ms -> NoDup (map fst ms)).
  { intros f s (added & -> & Hnd)%decode_members_spec. by apply Hnd, NoDup_nil_2. }
  destruct (skip_ws (take_str _ body)) as [|c s1].
  { by destruct (parse_value _ _ _). }
  destruct (decide (c = "{"%char)) as [->|Hne].
  2: { destruct c as [[] [] [] [] [] [] [] []]; try done;
         by destruct (parse_value _ _ _). }
  destruct (skip_ws s1) as [|c' s2]; [apply Hm|].
  destruct (decide (c' = "}"%char)) as [->|Hne]; [intros [= <-]; apply NoDup_nil_2|].
  destruct c' as [[] [] [] [] [] [] [] []]; first [apply Hm|done].
Qed.

Lemma ValidateFields_Ok obj allowed :
  ValidateFields obj allowed = Ok () <-> Forall (fun kv => fst kv ∈ allowed) obj.
Proof.
  induction obj as [|[k v] obj IH]; simpl; [by split|]. rewrite Forall_cons, <- IH. simpl.
  rewrite <- contains_str_spec. destruct (contains_str allowed k); [tauto|].
  split; [done|]. by intros [? _].
Qed.
End facts.

Example trailing_data_accepted :
  DecodeObjectNoDuplicateKeys (H := ascii_only) (jtext "{'a':1} trailing") 100 = Ok [("a", "1")].
Proof. reflexivity. Qed.

Example nested_duplicates_accepted :
  is_ok (DecodeObjectNoDuplicateKeys (H := ascii_only) (jtext "{'a':{'b':1,'b':2}}") 100) = true.
Proof. reflexivity. Qed.

(** ** Properties *)

(** A decoded body has no repeated top-level key, so the fields the policy
    checks are the fields any decoder of the same object sees. *)
Theorem decoded_object_keys_distinct `{Unicode} body maxBytes ms :
  DecodeObjectNoDuplicateKeys body maxBytes = Ok ms -> NoDup (map fst ms).
Proof. apply DecodeObject_NoDup. Qed.

Lemma decoded_object_keys_distinct_witness : NoDup (map fst [("a", "1"); ("b", "[2]")]).
Proof.
  apply (@decoded_object_keys_distinct ascii_only (jtext "{'a':1, 'b' : [2]}") 100).
  vm_compute. reflexivity.
Defined.
