(* ===== verification/Remnawave.v ===== *)
(** * internal/remnawave: users as Remnawave returns them, and ownership *)

From S2P Require Import Prelude GoStrings Encoding Json Config.
From stdpp Require Import options.

(** ** Numbers in text *)

(** [json.Number.Int64]: [strconv.ParseInt] of the literal, whose value on a
    range error is the nearest bound and on a syntax error is zero. *)
Definition ParseInt_value (s : string) : Z :=
  let '(neg, body) :=
    match s with
    | String "-" r => (true, r)
    | String "+" r => (false, r)
    | _ => (false, s)
    end in
  match parse_digits body with
  | None => 0
  | Some n => if neg : bool then Z.max int64_min (- n) else Z.min int64_max n
  end.

Definition in_set (cs : string) (c : ascii) : bool := IndexByte_found cs c.

Fixpoint take_in (cs : string) (s : string) : string :=
  match s with
  | String c s' => if in_set cs c then String c (take_in cs s') else ""
  | "" => ""
  end.

Definition digit_value (c : ascii) : option Z :=
  let n := code c in
  if Utf8.in_range 48 57 n then Some (Z.of_N n - 48)%Z
  else if Utf8.in_range 97 122 n then Some (Z.of_N n - 87)%Z
  else if Utf8.in_range 65 90 n then Some (Z.of_N n - 55)%Z
  else None.

(** The digits of a literal in [base], underscores skipped. *)
Fixpoint digits_value (base : Z) (acc : Z) (s : string) : option Z :=
  match s with
  | "" => Some acc
  | String c s' =>
      if c =c? "_" then digits_value base acc s' else
      match digit_value c with
      | Some d => if (d <? base)%Z then digits_value base (acc * base + d)%Z s' else None
      | None => None
      end
  end.

(** [underscoreOK] after the base prefix: [prev] says the previous character was
    a digit (or the prefix). *)
Fixpoint underscores_ok (prev : bool) (s : string) : bool :=
  match s with
  | "" => true
  | String c s' =>
      if c =c? "_" then
        prev && match s' with
                | String d _ => negb (d =c? "_") && underscores_ok false s'
                | "" => false
                end
      else underscores_ok true s'
  end.

(** [strconv.ParseInt(tok, 0, 64)] of an unsigned token that starts with a
    digit. *)
Definition ParseBase0 (tok : string) : option Z :=
  let parse base body prefixed :=
    match digits_value base 0 body with
    | Some n => if IndexByte_found tok "_" && negb (underscores_ok prefixed body)
                then None else Some n
    | None => None
    end in
  match tok with
  | String "0" (String b (String d r)) =>
      let lower := lower_byte b in
      if lower =c? "b" then parse 2%Z (String d r) true
      else if lower =c? "o" then parse 8%Z (String d r) true
      else if lower =c? "x" then parse 16%Z (String d r) true
      else parse 8%Z (String b (String d r)) true
  | String "0" r => parse 8%Z r true
  | _ => parse 10%Z tok false
  end.

Definition decimal_digits : string := "0123456789_".
Definition octal_digits : string := "01234567_".
Definition binary_digits : string := "01_".
Definition hex_digits : string := "0123456789aAbBcCdDeEfF_".

(** The token [fmt] scans for the [v] verb after an optional sign: a base prefix
    and the digits of that base; [None] is no integer. *)
Definition scan_token (s : string) : option string :=
  match s with
  | String "0" (String b r) =>
      let lower := lower_byte b in
      if lower =c? "b" then Some (String "0" (String b (take_in binary_digits r)))
      else if lower =c? "o" then Some (String "0" (String b (take_in octal_digits r)))
      else if lower =c? "x" then Some (String "0" (String b (take_in hex_digits r)))
      else Some (String "0" (take_in octal_digits (String b r)))
  | String "0" "" => Some "0"
  | String c _ => if in_set decimal_digits c then Some (take_in decimal_digits s) else None
  | "" => None
  end.

(** [var n int64; fmt.Sscan(v, &n)]: [n] stays zero on any error. *)
Definition Sscan_int64 (v : string) : Z :=
  let s := TrimSpaceLeft v in
  let '(neg, body) :=
    match s with
    | String "-" r => (true, r)
    | String "+" r => (false, r)
    | _ => (false, s)
    end in
  match scan_token body with
  | None => 0
  | Some tok =>
      match ParseBase0 tok with
      | None => 0
      | Some n => let z := if neg : bool then (- n)%Z else n in
                  if in_int64 z then z else 0
      end
  end.

(** ** Users *)

Record SquadRef := { sq_UUID : string }.

Record User := {
  u_UUID : string;
  u_ShortUUID : string;
  u_Username : string;
  u_TelegramID : Z;
  u_Email : string;
  u_InternalSquads : list SquadRef;
  u_ActiveInternalSquads : list SquadRef;
  u_ExternalSquads : list SquadRef;
  u_ExternalSquad : option SquadRef;
  u_ExternalSquadUUID : string;
  u_SubscriptionPageConfigUUID : string;
  u_Raw : string;
}.

(** A decoded object, [map[string]any]. *)
Definition object := list (string * json).

Definition stringField (obj : object) (key : string) : string :=
  match assoc key obj with Some (JStr s) => s | _ => "" end.

Fixpoint firstString (obj : object) (keys : list string) : string :=
  match keys with
  | [] => ""
  | k :: ks => if stringField obj k <>s? "" then stringField obj k else firstString obj ks
  end.

(** Decoding uses [UseNumber], so a number is never a [float64]. *)
Fixpoint int64Field (obj : object) (keys : list string) : Z :=
  match keys with
  | [] => 0
  | k :: ks =>
      match assoc k obj with
      | Some (JNum l) => ParseInt_value l
      | Some (JStr v) => Sscan_int64 v
      | _ => int64Field obj ks
      end
  end.

Definition parseSquadRef (v : option json) : option SquadRef :=
  match v with
  | Some (JStr s) => if s <>s? "" then Some {| sq_UUID := s |} else None
  | Some (JObj obj) =>
      let uuid := firstString obj ["uuid"; "squadUuid"; "squad_uuid"; "externalSquadUuid";
                                   "external_squad_uuid"] in
      if uuid <>s? "" then Some {| sq_UUID := uuid |} else None
  | _ => None
  end.

Definition squadRefs (v : option json) : list SquadRef :=
  match v with
  | Some (JArr items) => omap (fun item => parseSquadRef (Some item)) items
  | _ => []
  end.

Definition parseUserObject (v : json) : option User :=
  match v with
  | JObj obj =>
      let username := stringField obj "username" in
      let uuid := stringField obj "uuid" in
      if (username =s? "") && (uuid =s? "") then None else
      Some {|
        u_UUID := uuid;
        u_ShortUUID := firstString obj ["shortUuid"; "short_uuid"];
        u_Username := username;
        u_TelegramID := int64Field obj ["telegramId"; "telegram_id"];
        u_Email := stringField obj "email";
        u_InternalSquads := squadRefs (assoc "internalSquads" obj);
        u_ActiveInternalSquads := squadRefs (assoc "activeInternalSquads" obj);
        u_ExternalSquads := squadRefs (assoc "externalSquads" obj);
        u_ExternalSquad := parseSquadRef (assoc "externalSquad" obj);
        u_ExternalSquadUUID := firstString obj ["externalSquadUuid"; "external_squad_uuid"];
        u_SubscriptionPageConfigUUID :=
          firstString obj ["subscriptionPageConfigUuid"; "subscriptionPageConfigUUID";
                           "subscription_page_config_uuid"];
        u_Raw := Marshal v;
      |}
  | _ => None
  end.

Definition wrapper_keys : list string := ["response"; "user"; "users"; "items"; "data"].

(** The first key present decides. *)
Fixpoint first_present {A} (keys : list string) (fs : list (string * A)) : option A :=
  match keys with
  | [] => None
  | k :: ks => match assoc k fs with Some a => Some a | None => first_present ks fs end
  end.

Fixpoint isEmptyUserNode (v : json) : bool :=
  match v with
  | JArr l => match l with [] => true | _ => false end
  | JObj fs =>
      default false
        (first_present wrapper_keys (map (fun '(k, c) => (k, isEmptyUserNode c)) fs))
  | _ => false
  end.

Definition IsEmptyUserResponse (body : string) : bool :=
  match Decode body with Some root => isEmptyUserNode root | None => false end.

(** The first key whose child yields users. *)
Fixpoint first_users (keys : list string) (fs : list (string * list User)) : list User :=
  match keys with
  | [] => []
  | k :: ks =>
      match assoc k fs with
      | Some (u :: us) => u :: us
      | _ => first_users ks fs
      end
  end.

Fixpoint collectUsers (v : json) : list User :=
  match v with
  | JArr l => omap parseUserObject l
  | JObj fs =>
      match parseUserObject v with
      | Some user => [user]
      | None => first_users wrapper_keys (map (fun '(k, c) => (k, collectUsers c)) fs)
      end
  | _ => []
  end.

Definition unparseable : string := "unparseable_user_response".

Definition DecodeUsers (body : string) : res (list User) :=
  match Decode body with
  | None => Err "malformed JSON"
  | Some root =>
      match collectUsers root with
      | [] => Err unparseable
      | users => Ok users
      end
  end.

Definition DecodeUser (body : string) : res User :=
  let? users := DecodeUsers body in
  match users with [u] => Ok u | _ => Err unparseable end.

(** ** Ownership *)

Definition squadsAllowed (squads : list SquadRef) (allowed : list string) : bool :=
  forallb (fun sq => (sq_UUID sq =s? "") || contains_str allowed (sq_UUID sq)) squads.

Section ownership.
Context `{Unicode} `{Regexps}.

Definition containsFold (xs : list string) (want : string) : bool :=
  existsb (fun x => EqualFold x want) xs.

Definition ValidateUsername (c : Constraints) (username : string) : res () :=
  deny_if ((username =s? "") &&
           ((c_UsernamePrefix c <>s? "") || (c_UsernameSuffix c <>s? "") ||
            (c_UsernameContains c <>s? "") || (c_UsernameRegex c <>s? "")))
    "missing_username" (
  deny_if ((c_UsernamePrefix c <>s? "") && negb (HasPrefix username (c_UsernamePrefix c)))
    "foreign_username" (
  deny_if ((c_UsernameSuffix c <>s? "") && negb (HasSuffix username (c_UsernameSuffix c)))
    "username_suffix_denied" (
  deny_if ((c_UsernameContains c <>s? "") &&
           negb (Contains username (c_UsernameContains c)))
    "username_contains_denied" (
  if c_UsernameRegex c <>s? "" then
    match regexp_Compile (c_UsernameRegex c) with
    | Err _ => Err "invalid_username_regex"
    | Ok re => deny_if (negb (re username)) "username_regex_denied" (Ok ())
    end
  else Ok ())))).

Definition ValidateEmail (c : Constraints) (email : string) : res () :=
  if email =s? "" then
    deny_if ((c_EmailContains c <>s? "") || negb (is_nil (c_EmailDomains c)))
      "missing_email" (Ok ())
  else
  let lower := ToLower email in
  deny_if ((c_EmailContains c <>s? "") && negb (Contains lower (ToLower (c_EmailContains c))))
    "email_contains_denied" (
  if is_nil (c_EmailDomains c) then Ok () else
  let '(_, domain, ok) := Cut "@" lower in
  deny_if (negb ok || negb (containsFold (c_EmailDomains c) domain))
    "email_domain_denied" (Ok ())).

Definition ValidateTelegramID (c : Constraints) (id : Z) : res () :=
  if is_nil (c_TelegramIDRanges c) then Ok () else
  deny_if (id =? 0)%Z "missing_telegram_id" (
  if existsb (fun r => (rng_Min r <=? id)%Z && (id <=? rng_Max r)%Z) (c_TelegramIDRanges c)
  then Ok () else Err "telegram_id_denied").

Definition internal_squads (u : User) : list SquadRef :=
  u_InternalSquads u ++ u_ActiveInternalSquads u.

Definition external_squads (u : User) : list SquadRef :=
  u_ExternalSquads u ++
  (match u_ExternalSquad u with Some s => [s] | None => [] end) ++
  (if u_ExternalSquadUUID u <>s? "" then [{| sq_UUID := u_ExternalSquadUUID u |}] else []).

Definition check_squads (allowed : list string) (squads : list SquadRef)
    (missing denied : string) : res () :=
  if is_nil allowed then Ok () else
  deny_if (is_nil squads) missing (
  deny_if (negb (squadsAllowed squads allowed)) denied (Ok ())).

Definition OwnsUser (tok : option TokenPolicy) (user : User) : res () :=
  match tok with
  | None => Err "missing_token"
  | Some tok =>
      let c := tok_Constraints tok in
      check? ValidateUsername c (u_Username user) then
      check? ValidateEmail c (u_Email user) then
      check? ValidateTelegramID c (u_TelegramID user) then
      check? check_squads (c_AllowedInternalSquads c) (internal_squads user)
               "missing_internal_squad" "internal_squad_denied" then
      check? check_squads (c_AllowedExternalSquads c) (external_squads user)
               "missing_external_squad" "external_squad_denied" then
      if is_nil (c_AllowedSubscriptionPageConfigs c) then Ok () else
      deny_if (u_SubscriptionPageConfigUUID user =s? "") "missing_subscription_page_config" (
      deny_if (negb (contains_str (c_AllowedSubscriptionPageConfigs c)
                                  (u_SubscriptionPageConfigUUID user)))
        "subscription_page_config_denied" (Ok ()))
  end.
End ownership.

Example sscan_ex : (Sscan_int64 " 12abc", Sscan_int64 "0x1F", Sscan_int64 "-7", Sscan_int64 "x",
                    Sscan_int64 "010") = (12, 31, -7, 0, 8)%Z.
Proof. reflexivity. Qed.

Example number_ex : (ParseInt_value "99999999999999999999", ParseInt_value "1e3")
  = (9223372036854775807, 0)%Z.
Proof. reflexivity. Qed.

(** ** What ownership means *)

Section owned.
Context `{Unicode} `{Regexps}.

(** A constraint that is set holds; an unset one asks nothing. *)
Definition when_set (s : string) (P : Prop) : Prop := s = "" \/ P.

Definition username_ok (c : Constraints) (username : string) : Prop :=
  (username = "" -> c_UsernamePrefix c = "" /\ c_UsernameSuffix c = "" /\
     c_UsernameContains c = "" /\ c_UsernameRegex c = "") /\
  when_set (c_UsernamePrefix c) (HasPrefix username (c_UsernamePrefix c) = true) /\
  when_set (c_UsernameSuffix c) (HasSuffix username (c_UsernameSuffix c) = true) /\
  when_set (c_UsernameContains c) (Contains username (c_UsernameContains c) = true) /\
  when_set (c_UsernameRegex c)
    (exists re, regexp_Compile (c_UsernameRegex c) = Ok re /\ re username = true).

Definition email_ok (c : Constraints) (email : string) : Prop :=
  if email =s? "" then c_EmailContains c = "" /\ c_EmailDomains c = [] else
  when_set (c_EmailContains c)
    (Contains (ToLower email) (ToLower (c_EmailContains c)) = true) /\
  (c_EmailDomains c = [] \/
   exists local domain, Cut "@" (ToLower email) = (local, domain, true) /\
     containsFold (c_EmailDomains c) domain = true).

Definition telegram_ok (c : Constraints) (id : Z) : Prop :=
  c_TelegramIDRanges c = [] \/
  (id <> 0%Z /\ exists r, r ∈ c_TelegramIDRanges c /\ (rng_Min r <= id <= rng_Max r)%Z).

Definition squads_ok (allowed : list string) (squads : list SquadRef) : Prop :=
  allowed = [] \/
  (squads <> [] /\ Forall (fun sq => sq_UUID sq = "" \/ sq_UUID sq ∈ allowed) squads).

Definition owned (c : Constraints) (u : User) : Prop :=
  username_ok c (u_Username u) /\ email_ok c (u_Email u) /\
  telegram_ok c (u_TelegramID u) /\
  squads_ok (c_AllowedInternalSquads c) (internal_squads u) /\
  squads_ok (c_AllowedExternalSquads c) (external_squads u) /\
  (c_AllowedSubscriptionPageConfigs c = [] \/
   (u_SubscriptionPageConfigUUID u <> "" /\
    u_SubscriptionPageConfigUUID u ∈ c_AllowedSubscriptionPageConfigs c)).

Lemma is_nil_true {A} (l : list A) : is_nil l = true <-> l = [].
Proof. by destruct l. Qed.

Lemma guard_set s b : ((s <>s? "") && negb b) = false <-> when_set s (b = true).
Proof.
  unfold when_set. destruct (String.eqb_spec s ""), b; simpl; split; auto; try done.
  by intros [?|?].
Qed.

Lemma deny_Ok b e (k : res ()) : deny_if b e k = Ok () <-> b = false /\ k = Ok ().
Proof. apply deny_if_Ok. Qed.

Lemma ValidateUsername_Ok c username :
  ValidateUsername c username = Ok () <-> username_ok c username.
Proof.
  unfold ValidateUsername, username_ok. rewrite !deny_Ok, !guard_set.
  assert (Hmiss : ((username =s? "") && ((c_UsernamePrefix c <>s? "") ||
            (c_UsernameSuffix c <>s? "") || (c_UsernameContains c <>s? "") ||
            (c_UsernameRegex c <>s? ""))) = false <->
            (username = "" -> c_UsernamePrefix c = "" /\ c_UsernameSuffix c = "" /\
               c_UsernameContains c = "" /\ c_UsernameRegex c = "")).
  { rewrite andb_false_iff, !orb_false_iff, !negb_false_iff, !eqs_true, eqs_false.
    destruct (String.eqb_spec username ""); tauto. }
  assert (Hre : (if c_UsernameRegex c <>s? "" then
              match regexp_Compile (c_UsernameRegex c) with
              | Err _ => Err "invalid_username_regex"
              | Ok re => deny_if (negb (re username)) "username_regex_denied" (Ok ())
              end else Ok ()) = Ok () <->
            when_set (c_UsernameRegex c)
              (exists re, regexp_Compile (c_UsernameRegex c) = Ok re /\ re username = true)).
  { unfold when_set. destruct (String.eqb_spec (c_UsernameRegex c) ""); simpl.
    { split; [by left|done]. }
    destruct (regexp_Compile (c_UsernameRegex c)) as [re|e].
    - rewrite deny_Ok, negb_false_iff. split.
      + intros [Hm _]. right. by exists re.
      + intros [?|(re' & [= <-] & Hm)]; done.
    - split; [done|]. by intros [?|(re & ? & _)]. }
  rewrite Hmiss, Hre. tauto.
Qed.

Lemma ValidateEmail_Ok c email : ValidateEmail c email = Ok () <-> email_ok c email.
Proof.
  unfold ValidateEmail, email_ok. destruct (String.eqb_spec email ""); cbv zeta.
  - rewrite deny_Ok, orb_false_iff, !negb_false_iff, eqs_true, is_nil_true. tauto.
  - rewrite deny_Ok, guard_set.
    destruct (is_nil (c_EmailDomains c)) eqn:Hn.
    { apply is_nil_true in Hn. tauto. }
    destruct (Cut "@" (ToLower email)) as [[local domain] ok].
    rewrite deny_Ok, orb_false_iff, !negb_false_iff. split.
    + intros (Hc & (-> & Hf) & _). split; [done|]. right. by exists local, domain.
    + intros (Hc & [Hnil|(l & d & [= -> -> ->] & Hf)]); [by rewrite Hnil in Hn|done].
Qed.

Lemma ValidateTelegramID_Ok c id : ValidateTelegramID c id = Ok () <-> telegram_ok c id.
Proof.
  unfold ValidateTelegramID, telegram_ok.
  destruct (is_nil (c_TelegramIDRanges c)) eqn:Hn.
  { apply is_nil_true in Hn. tauto. }
  assert (Hne : c_TelegramIDRanges c <> []) by (intros Heq; by rewrite Heq in Hn).
  rewrite deny_Ok, Z.eqb_neq.
  assert (Hex : existsb (fun r => (rng_Min r <=? id)%Z && (id <=? rng_Max r)%Z)
                  (c_TelegramIDRanges c) = true <->
            exists r, r ∈ c_TelegramIDRanges c /\ (rng_Min r <= id <= rng_Max r)%Z).
  { rewrite existsb_exists. apply exist_proper. intros r.
    by rewrite andb_true_iff, !Z.leb_le, list_elem_of_In. }
  rewrite <- Hex. destruct (existsb _ _); intuition congruence.
Qed.

Lemma check_squads_Ok allowed squads m d :
  check_squads allowed squads m d = Ok () <-> squads_ok allowed squads.
Proof.
  unfold check_squads, squads_ok, squadsAllowed.
  destruct (is_nil allowed) eqn:Hn.
  { apply is_nil_true in Hn. tauto. }
  assert (Hne : allowed <> []) by (intros Heq; by rewrite Heq in Hn).
  rewrite !deny_Ok, negb_false_iff.
  assert (Hall : forallb (fun sq => (sq_UUID sq =s? "") || contains_str allowed (sq_UUID sq))
                   squads = true <->
            Forall (fun sq => sq_UUID sq = "" \/ sq_UUID sq ∈ allowed) squads).
  { rewrite forallb_forall, Forall_forall. split; intros Hx sq Hin; specialize (Hx sq);
      rewrite <- list_elem_of_In, orb_true_iff, eqs_true, contains_str_spec in Hx || idtac;
      try rewrite <- list_elem_of_In in Hin; auto.
    rewrite orb_true_iff, eqs_true, contains_str_spec. auto. }
  rewrite Hall. destruct squads as [|s ss]; simpl.
  - split; [by intros [? _]|]. by intros [?|[? _]].
  - split; [intros (_ & ? & _); by right|]. by intros [?|[_ ?]].
Qed.

Lemma OwnsUser_Ok tok u : OwnsUser (Some tok) u = Ok () <-> owned (tok_Constraints tok) u.
Proof.
  unfold OwnsUser, owned. cbv zeta. set (c := tok_Constraints tok).
  rewrite <- ValidateUsername_Ok, <- ValidateEmail_Ok, <- ValidateTelegramID_Ok.
  rewrite <- (check_squads_Ok (c_AllowedInternalSquads c) _
    "missing_internal_squad" "internal_squad_denied").
  rewrite <- (check_squads_Ok (c_AllowedExternalSquads c) _
    "missing_external_squad" "external_squad_denied").
  destruct (ValidateUsername c (u_Username u)) as [[]|]; [|split; [done|by intros (? & _)]].
  destruct (ValidateEmail c (u_Email u)) as [[]|]; [|split; [done|by intros (_ & ? & _)]].
  destruct (ValidateTelegramID c (u_TelegramID u)) as [[]|];
    [|split; [done|by intros (_ & _ & ? & _)]].
  destruct (check_squads (c_AllowedInternalSquads c) _ _ _) as [[]|];
    [|split; [done|by intros (_ & _ & _ & ? & _)]].
  destruct (check_squads (c_AllowedExternalSquads c) _ _ _) as [[]|];
    [|split; [done|by intros (_ & _ & _ & _ & ? & _)]].
  destruct (is_nil (c_AllowedSubscriptionPageConfigs c)) eqn:Hn.
  { apply is_nil_true in Hn. split; [intros _; split_and!; auto|done]. }
  rewrite !deny_Ok, eqs_false, negb_false_iff, contains_str_spec. split.
  - intros (? & ? & _). split_and!; auto.
  - intros (_ & _ & _ & _ & _ & [Hnil|[? ?]]); [by rewrite Hnil in Hn|done].
Qed.
End owned.

(** ** Properties *)

(** C23: a token owns a user exactly when every constraint that is configured
    holds: user name prefix, suffix, substring and expression, e-mail substring
    and domain, telegram id ranges, internal and external squads, subscription
    page configuration; a constraint on an attribute the user lacks denies. *)
Theorem owns_user_iff `{Unicode} `{Regexps} tok u :
  OwnsUser (Some tok) u = Ok () <-> owned (tok_Constraints tok) u.
Proof. apply OwnsUser_Ok. Qed.
