(* ===== verification/BodyPolicy.v ===== *)
(** * internal/server: what a request body may say

    [validateBodyPolicy] and the checks it composes, with the buffering of the
    body.  The body arrives as text; the object it holds is a list of raw members
    with distinct keys. *)

From S2P Require Import Prelude GoStrings Encoding Json Config Routes Httputil JsonPolicy Remnawave.
From stdpp Require Import options.

(** ** mime.ParseMediaType *)

Fixpoint consumeToken (s : string) : string * string :=
  match s with
  | String c s' => if is_token c then let '(t, r) := consumeToken s' in (String c t, r)
                   else ("", s)
  | "" => ("", "")
  end.

Definition checkMediaTypeDisposition (s : string) : bool :=
  let '(typ, rest) := consumeToken s in
  if typ =s? "" then false
  else match rest with
       | "" => true
       | String "/" rest1 =>
           let '(subtype, rest2) := consumeToken rest1 in
           (subtype <>s? "") && (rest2 =s? "")
       | _ => false
       end.

Definition is_tspecial (c : ascii) : bool :=
  (c =c? quote) || IndexByte_found "()<>@,;:\/[]?=" c.

(** The rest of a quoted string: its value and what follows; [None] when the
    closing quote is missing or a line break comes first. *)
Fixpoint quoted (s : string) : option (string * string) :=
  match s with
  | "" => None
  | String c s1 =>
      if c =c? quote then Some ("", s1)
      else match s1 with
           | String d s2 =>
               if (c =c? "\") && is_tspecial d then cons_res (String d "") (quoted s2)
               else if (code c =? 13)%N || (code c =? 10)%N then None
               else cons_res (String c "") (quoted s1)
           | "" => None
           end
  end.

(** [None] stands for the result that consumes nothing. *)
Definition consumeValue (v : string) : option (string * string) :=
  match v with
  | String c r =>
      if c =c? quote then quoted r
      else match consumeToken v with ("", _) => None | p => Some p end
  | "" => None
  end.

Section mime.
Context `{Unicode}.

Definition consumeMediaParam (v : string) : option (string * string * string) :=
  match TrimSpaceLeft v with
  | String ";" rest =>
      let '(param, rest1) := consumeToken (TrimSpaceLeft rest) in
      if param =s? "" then None else
      match TrimSpaceLeft rest1 with
      | String "=" rest2 =>
          match consumeValue (TrimSpaceLeft rest2) with
          | Some (value, rest3) => Some (ToLower param, value, rest3)
          | None => None
          end
      | _ => None
      end
  | _ => None
  end.

(** The parameter loop: whether it ends without an error. *)
Fixpoint media_params (fuel : nat) (seen : list (string * string)) (v : string) : bool :=
  match fuel with
  | O => false
  | S fuel' =>
      let v := TrimSpaceLeft v in
      if v =s? "" then true else
      match consumeMediaParam v with
      | None => TrimSpace v =s? ";"
      | Some (key, value, rest) =>
          match assoc key seen with
          | Some value' => (value =s? value') && media_params fuel' seen rest
          | None => media_params fuel' ((key, value) :: seen) rest
          end
      end
  end.

(** [ct, _, err := mime.ParseMediaType(v)]: [None] is an error. *)
Definition ParseMediaType (v : string) : option string :=
  let '(base, _, _) := Cut ";" v in
  let mediatype := TrimSpace (ToLower base) in
  if checkMediaTypeDisposition mediatype &&
     media_params (S (String.length v)) [] (drop_str (String.length base) v)
  then Some mediatype else None.
End mime.

Example media_ex :
  (ParseMediaType (H := ascii_only) (jtext "Application/JSON; charset='utf-8';"),
   ParseMediaType (H := ascii_only) "application/json; charset",
   ParseMediaType (H := ascii_only) "text/plain")
  = (Some "application/json", None, Some "text/plain").
Proof. reflexivity. Qed.

(** ** Buffering the body *)

Definition errBodyTooLarge : string := "body_too_large".

Definition bufferRequestBody (req : Request) (limit : Z) : res Request :=
  match req_Body req with
  | None => Ok req
  | Some content =>
      if (limit <=? 0)%Z || (limit <? req_ContentLength req)%Z then Err errBodyTooLarge else
      match content with
      | Err e => Err e
      | Ok body =>
          if (limit <? len body)%Z then Err errBodyTooLarge
          else Ok (set_body req (Some (Ok body)) (len body) (Some body))
      end
  end.

Definition requestBodyBytes (req : Request) (limit : Z) : res (string * Request) :=
  match req_bodyCache req with
  | Some body => if (limit <? len body)%Z then Err errBodyTooLarge else Ok (body, req)
  | None =>
      let? req' := bufferRequestBody req limit in
      Ok (default "" (req_bodyCache req'), req')
  end.

Definition raw_obj := list (string * string).

(** [bodyString]: the member as a string, or empty. *)
Definition bodyString (req : Request) (field : string) : string :=
  let body := match req_bodyCache req with
              | Some b => Some b
              | None => match req_Body req with Some (Ok b) => Some b | _ => None end
              end in
  match body with
  | None => ""
  | Some b =>
      match UnmarshalRawMap b with
      | None => ""
      | Some obj =>
          match assoc field obj with
          | Some raw => default "" (unmarshal_as as_string raw)
          | None => ""
          end
      end
  end.

(** ** Field checks *)

Section body_policy.
Context `{Unicode} `{Regexps}.

Definition requireAllowedUUID (uuid : string) (allowed : list string) (reason : string)
    : res () :=
  deny_if (uuid =s? "") "missing_uuid" (
  deny_if (negb (contains_str allowed uuid)) reason (Ok ())).

Definition requireAllowedUUIDOrAll (uuid : string) (allowed : list string) (allowAll : bool)
    (reason : string) : res () :=
  if allowAll then deny_if (uuid =s? "") "missing_uuid" (Ok ())
  else requireAllowedUUID uuid allowed reason.

(** The first of the fields that decodes to a string. *)
Fixpoint first_uuid (obj : raw_obj) (fields : list string) : string :=
  match fields with
  | [] => ""
  | f :: fs =>
      match assoc f obj with
      | None => first_uuid obj fs
      | Some raw => match unmarshal_as as_string raw with
                    | Some uuid => uuid
                    | None => first_uuid obj fs
                    end
      end
  end.

Definition objectUUIDFromRaw (obj : raw_obj) : string := first_uuid obj ["uuid"; "id"].

Definition validateResourceCreateConstraints (route : Route) (tok : option TokenPolicy)
    : res () :=
  match tok with
  | None => Ok ()
  | Some tok =>
      let c := tok_Constraints tok in
      if rt_Method route <>s? "POST" then Ok ()
      else if rt_Name route =s? "post.config_profiles" then
        deny_if (negb (c_AllowAllConfigProfiles c)) "config_profile_denied" (Ok ())
      else if rt_Name route =s? "post.hosts" then
        deny_if (negb (c_AllowAllHosts c)) "host_denied" (Ok ())
      else if rt_Name route =s? "post.nodes" then
        deny_if (negb (c_AllowAllNodes c)) "node_denied" (Ok ())
      else Ok ()
  end.

Definition validate_host_uuids (c : Constraints) (obj : raw_obj) : res () :=
  match assoc "uuids" obj with
  | None => Err "missing_uuids"
  | Some raw =>
      match parse_all raw with
      | None => Err "invalid_uuids"
      | Some v =>
          let '(uuids, ok) := as_strings v in
          if negb ok || is_nil uuids then Err "invalid_uuids" else
          each (fun u => requireAllowedUUIDOrAll u (c_AllowedHosts c) (c_AllowAllHosts c)
                           "host_denied") uuids
      end
  end.

Definition validateResourceWriteConstraints (obj : raw_obj) (route : Route)
    (tok : option TokenPolicy) : res () :=
  match tok with
  | None => Ok ()
  | Some tok =>
      let c := tok_Constraints tok in
      let uuid := objectUUIDFromRaw obj in
      let name := rt_Name route in
      if rt_Method route <>s? "PATCH" then Ok ()
      else if name =s? "patch.subscription_templates" then
        requireAllowedUUID uuid (c_AllowedSubscriptionTemplates c)
          "subscription_template_denied"
      else if name =s? "patch.internal_squads" then
        requireAllowedUUID uuid (c_AllowedWritableInternalSquads c) "internal_squad_denied"
      else if name =s? "patch.external_squads" then
        requireAllowedUUID uuid (c_AllowedWritableExternalSquads c) "external_squad_denied"
      else if name =s? "patch.config_profiles" then
        requireAllowedUUIDOrAll uuid (c_AllowedConfigProfiles c) (c_AllowAllConfigProfiles c)
          "config_profile_denied"
      else if name =s? "patch.hosts" then
        requireAllowedUUIDOrAll uuid (c_AllowedHosts c) (c_AllowAllHosts c) "host_denied"
      else if name =s? "patch.hosts.bulk.update" then validate_host_uuids c obj
      else if name =s? "patch.nodes" then
        requireAllowedUUIDOrAll uuid (c_AllowedNodes c) (c_AllowAllNodes c) "node_denied"
      else Ok ()
  end.

(** A present member, decoded by [conv], then checked. *)
Definition check_member {A} (obj : raw_obj) (field : string) (conv : json -> option A)
    (invalid : string) (check : A -> res ()) : res () :=
  match assoc field obj with
  | None => Ok ()
  | Some raw =>
      match unmarshal_as conv raw with
      | None => Err invalid
      | Some a => check a
      end
  end.

(** A check on a pointer: nil passes. *)
Definition when_some {A} (check : A -> res ()) (o : option A) : res () :=
  match o with Some a => check a | None => Ok () end.

(** The [[]struct{UUID string}] a squad list may be instead of strings. *)
Fixpoint ref_uuids (l : list json) : option (list string) :=
  match l with
  | [] => Some []
  | JNull :: l' => option_map (cons "") (ref_uuids l')
  | JObj fs :: l' =>
      let '(u, ok) := string_field "uuid" fs in
      if ok : bool then option_map (cons u) (ref_uuids l') else None
  | _ => None
  end.

Definition squad_ids (v : json) : option (list string) :=
  let '(ids, ok) := as_strings v in
  if ok : bool then Some ids else
  match v with
  | JArr l => option_map (app ids) (ref_uuids l)
  | _ => None
  end.

Definition all_allowed (allowed ids : list string) (denied : string) : res () :=
  each (fun id => deny_if ((id <>s? "") && negb (contains_str allowed id)) denied (Ok ())) ids.

Definition validateSquadBodyFields (obj : raw_obj) (c : Constraints) : res () :=
  check? (if is_nil (c_AllowedInternalSquads c) then Ok () else
          check_member obj "activeInternalSquads" squad_ids "invalid_internal_squads"
            (fun ids => all_allowed (c_AllowedInternalSquads c) ids
                          "internal_squad_denied")) then
  if is_nil (c_AllowedExternalSquads c) then Ok () else
  each (fun field =>
          check_member obj field as_string_ptr "invalid_external_squad"
            (when_some (fun id => all_allowed (c_AllowedExternalSquads c) [id]
                                    "external_squad_denied")))
    ["externalSquadUuid"; "external_squad_uuid"].

Definition validateSubscriptionPageConfig (obj : raw_obj) (c : Constraints) : res () :=
  if is_nil (c_AllowedSubscriptionPageConfigs c) then Ok () else
  each (fun field =>
          check_member obj field as_string_ptr "invalid_subscription_page_config"
            (when_some (fun id => all_allowed (c_AllowedSubscriptionPageConfigs c) [id]
                                    "subscription_page_config_denied")))
    ["subscriptionPageConfigUuid"; "subscriptionPageConfigUUID";
     "subscription_page_config_uuid"].

Definition check_traffic (c : Constraints) (n : string) : res () :=
  match ParseInt n with
  | None => Err "invalid_traffic_limit"
  | Some v =>
      deny_if (c_ForbidUnlimitedTraffic c && (v <=? 0)%Z) "unlimited_traffic_denied" (
      deny_if ((0 <? c_MaxTrafficLimitBytes c)%Z && (c_MaxTrafficLimitBytes c <? v)%Z)
        "traffic_limit_too_large" (Ok ()))
  end.

(** A traffic limit whose text is null and that did not decode ends the whole
    check; [json.Number] decodes null, so this never happens ([null_traffic]). *)
Definition validate_traffic (obj : raw_obj) (c : Constraints) (rest : res ()) : res () :=
  match assoc "trafficLimitBytes" obj with
  | None => rest
  | Some raw =>
      match unmarshal_as as_Number raw with
      | None => if raw =s? "null" then Ok () else Err "invalid_traffic_limit"
      | Some n => check? check_traffic c n then rest
      end
  end.

Definition validateUserConstraints (obj : raw_obj) (tok : option TokenPolicy) : res () :=
  match tok with
  | None => Ok ()
  | Some tok =>
      let c := tok_Constraints tok in
      check? check_member obj "username" as_string "invalid_username"
               (ValidateUsername c) then
      check? check_member obj "email" as_string_ptr "invalid_email"
               (when_some (ValidateEmail c)) then
      check? each (fun field =>
                     check_member obj field as_int64_ptr "invalid_telegram_id"
                       (when_some (ValidateTelegramID c))) ["telegramId"; "telegram_id"] then
      check? (if (0 <? c_MaxDescriptionLength c)%Z then
                check_member obj "description" as_string_ptr "invalid_description"
                  (when_some (fun d => deny_if (c_MaxDescriptionLength c <? len d)%Z
                                         "description_too_long" (Ok ())))
              else Ok ()) then
      validate_traffic obj c (
      check? validateSquadBodyFields obj c then
      validateSubscriptionPageConfig obj c)
  end.

Definition validateTokenRequestFields (obj : raw_obj) (route : Route)
    (tok : option TokenPolicy) : res () :=
  match tok with
  | None => Ok ()
  | Some tok =>
      let m := c_AllowedRequestFields (tok_Constraints tok) in
      match (match m !! rt_Name route with
             | Some allowed => Some allowed
             | None => m !! (rt_Method route +:+ " " +:+ rt_Pattern route)
             end) with
      | None => Ok ()
      | Some allowed =>
          each (fun kv => deny_if (negb (contains_str allowed (fst kv)))
                            "request_field_denied" (Ok ())) obj
      end
  end.

Definition check_required_boolean (obj : raw_obj) (field : string) : res () :=
  if field =s? "" then Ok () else
  match assoc field obj with
  | None => Err ("missing_" +:+ ToLower field)
  | Some raw =>
      if (TrimSpace raw =s? "null") ||
         negb (match unmarshal_as as_bool raw with Some _ => true | None => false end)
      then Err ("invalid_" +:+ ToLower field) else Ok ()
  end.

(** The checks on the decoded object, in the order of the source. *)
Definition check_object (obj : raw_obj) (route : Route) (tok : option TokenPolicy) : res () :=
  check? (if is_nil (rt_AllowedFields route) then Ok ()
          else ValidateFields obj (rt_AllowedFields route)) then
  check? check_required_boolean obj (rt_RequiredBoolean route) then
  check? validateTokenRequestFields obj route tok then
  check? (if HasPrefix (rt_Name route) "user." then validateUserConstraints obj tok
          else Ok ()) then
  check? validateResourceWriteConstraints obj route tok then
  check? validateResourceCreateConstraints route tok then
  if HasPrefix (rt_Name route) "hwid." then
    match assoc "userUuid" obj with
    | Some _ => Ok ()
    | None => Err "missing_user_uuid"
    end
  else Ok ().

Definition body_limit (cfg : Config) (route : Route) : Z :=
  let max := lim_MaxBodyBytes (cfg_Limits cfg) in
  if (rt_BodyLimit route <=? 0)%Z || (max <? rt_BodyLimit route)%Z then max
  else rt_BodyLimit route.

(** The request as forwarded (its body buffered), or the reason to deny. *)
Definition validateBodyPolicy (req : Request) (cfg : Config) (route : Route)
    (tok : option TokenPolicy) : res Request :=
  if (rt_Support route =s? Privileged) && (rt_RequiredBoolean route =s? "") then Ok req else
  if negb (rt_BodyObject route) then Ok req else
  match ParseMediaType (Get "Content-Type" (req_Header req)) with
  | Some "application/json" =>
      if Get "Content-Encoding" (req_Header req) <>s? "" then Err "content_encoding_denied" else
      let limit := body_limit cfg route in
      let? br := requestBodyBytes req limit in
      let '(body, req') := br in
      let? obj := DecodeObjectNoDuplicateKeys body limit in
      check? check_object obj route tok then
      Ok (set_body req' (Some (Ok body)) (len body) (req_bodyCache req'))
  | _ => Err "json_content_type_required"
  end.
End body_policy.

(** ** Facts *)

Section body_facts.
Context `{U : Unicode} `{R : Regexps}.

Lemma seq_Ok (a b : res ()) :
  match a with Ok tt => b | Err e => Err e end = Ok () <-> a = Ok () /\ b = Ok ().
Proof. destruct a as [[]|]; split; try done; intros [? ?]; done. Qed.

Lemma check_member_Ok {A} obj field (conv : json -> option A) invalid check :
  check_member obj field conv invalid check = Ok () <->
  forall raw, assoc field obj = Some raw ->
    exists a, unmarshal_as conv raw = Some a /\ check a = Ok ().
Proof.
  unfold check_member. destruct (assoc field obj) as [raw|].
  - split.
    + intros Hc raw' [= <-]. destruct (unmarshal_as conv raw) as [a|]; [|done]. by exists a.
    + intros Hall. destruct (Hall raw eq_refl) as (a & -> & ?). done.
  - by split.
Qed.

Lemma when_some_Ok {A} (check : A -> res ()) o :
  when_some check o = Ok () <-> forall a, o = Some a -> check a = Ok ().
Proof.
  destruct o as [a|]; simpl; split; try done.
  - by intros ? a' [= <-].
  - intros Hc. by apply Hc.
Qed.

Lemma all_allowed_Ok allowed ids denied :
  all_allowed allowed ids denied = Ok () <-> Forall (fun id => id = "" \/ id ∈ allowed) ids.
Proof.
  unfold all_allowed. rewrite each_Forall. apply Forall_proper; [|done]. intros id.
  rewrite deny_if_Ok, andb_false_iff, !negb_false_iff, eqs_true, contains_str_spec. tauto.
Qed.

Lemma requireAllowedUUID_Ok uuid allowed reason :
  requireAllowedUUID uuid allowed reason = Ok () <-> uuid <> "" /\ uuid ∈ allowed.
Proof.
  unfold requireAllowedUUID.
  rewrite !deny_if_Ok, eqs_false, negb_false_iff, contains_str_spec. tauto.
Qed.

Lemma requireAllowedUUIDOrAll_Ok uuid allowed all reason :
  requireAllowedUUIDOrAll uuid allowed all reason = Ok () <->
  uuid <> "" /\ (all = true \/ uuid ∈ allowed).
Proof.
  unfold requireAllowedUUIDOrAll. destruct all.
  - rewrite deny_if_Ok, eqs_false. tauto.
  - rewrite requireAllowedUUID_Ok. split; [tauto|]. intros [? [?|?]]; done.
Qed.

(** A present member decodes, to a value with the property. *)
Definition member_is {A} (obj : raw_obj) (field : string) (conv : json -> option A)
    (P : A -> Prop) : Prop :=
  forall raw, assoc field obj = Some raw -> exists a, unmarshal_as conv raw = Some a /\ P a.

(** nil, or a value with the property. *)
Definition if_some {A} (P : A -> Prop) (o : option A) : Prop := forall a, o = Some a -> P a.

(** What an accepted body promises about a user. *)
Record user_fields_ok (c : Constraints) (obj : raw_obj) : Prop := {
  uf_username : member_is obj "username" as_string (username_ok c);
  uf_email : member_is obj "email" as_string_ptr (if_some (email_ok c));
  uf_telegram : forall f, f ∈ ["telegramId"; "telegram_id"] ->
    member_is obj f as_int64_ptr (if_some (telegram_ok c));
  uf_description : (0 < c_MaxDescriptionLength c)%Z ->
    member_is obj "description" as_string_ptr
      (if_some (fun d => (len d <= c_MaxDescriptionLength c)%Z));
  uf_traffic : member_is obj "trafficLimitBytes" as_Number (fun n =>
    exists v, ParseInt n = Some v /\
      (c_ForbidUnlimitedTraffic c = true -> (0 < v)%Z) /\
      ((0 < c_MaxTrafficLimitBytes c)%Z -> (v <= c_MaxTrafficLimitBytes c)%Z));
  uf_internal : c_AllowedInternalSquads c <> [] ->
    member_is obj "activeInternalSquads" squad_ids
      (Forall (fun id => id = "" \/ id ∈ c_AllowedInternalSquads c));
  uf_external : c_AllowedExternalSquads c <> [] ->
    forall f, f ∈ ["externalSquadUuid"; "external_squad_uuid"] ->
    member_is obj f as_string_ptr
      (if_some (fun id => id = "" \/ id ∈ c_AllowedExternalSquads c));
  uf_page_config : c_AllowedSubscriptionPageConfigs c <> [] ->
    forall f, f ∈ ["subscriptionPageConfigUuid"; "subscriptionPageConfigUUID";
                   "subscription_page_config_uuid"] ->
    member_is obj f as_string_ptr
      (if_some (fun id => id = "" \/ id ∈ c_AllowedSubscriptionPageConfigs c));
}.

Lemma check_member_is {A} obj field (conv : json -> option A) invalid check P :
  (forall a, check a = Ok () <-> P a) ->
  check_member obj field conv invalid check = Ok () <-> member_is obj field conv P.
Proof. intros HP. rewrite check_member_Ok. unfold member_is. by setoid_rewrite HP. Qed.

Lemma when_some_is {A} (check : A -> res ()) P :
  (forall a, check a = Ok () <-> P a) -> forall o, when_some check o = Ok () <-> if_some P o.
Proof. intros HP o. rewrite when_some_Ok. unfold if_some. by setoid_rewrite HP. Qed.

Lemma each_member_is {A} fields obj (conv : json -> option A) invalid check P :
  (forall a, check a = Ok () <-> P a) ->
  each (fun f => check_member obj f conv invalid check) fields = Ok () <->
  forall f, f ∈ fields -> member_is obj f conv P.
Proof.
  intros HP. rewrite each_Forall, Forall_forall. by setoid_rewrite (check_member_is _ _ _ _ _ P HP).
Qed.

(** A check that is made only when a list is configured. *)
Lemma unless_nil_Ok {A} (l : list A) (r : res ()) P :
  (r = Ok () <-> P) -> (if is_nil l then Ok () else r) = Ok () <-> (l <> [] -> P).
Proof.
  intros HP. destruct (is_nil l) eqn:Hl.
  - apply is_nil_true in Hl. by rewrite Hl.
  - rewrite HP. split; [auto|]. intros Hp. apply Hp. intros ->. done.
Qed.

Lemma one_allowed_Ok allowed id denied :
  all_allowed allowed [id] denied = Ok () <-> id = "" \/ id ∈ allowed.
Proof. by rewrite all_allowed_Ok, Forall_singleton. Qed.

(** [json.Number] decodes null, so an undecodable limit is not the text null. *)
Lemma null_traffic : unmarshal_as as_Number "null" = Some "".
Proof. reflexivity. Qed.

Lemma check_traffic_Ok c n :
  check_traffic c n = Ok () <->
  exists v, ParseInt n = Some v /\ (c_ForbidUnlimitedTraffic c = true -> (0 < v)%Z) /\
    ((0 < c_MaxTrafficLimitBytes c)%Z -> (v <= c_MaxTrafficLimitBytes c)%Z).
Proof.
  unfold check_traffic. destruct (ParseInt n) as [v|]; [|by split; [|intros (? & ? & _)]].
  assert (Hex : forall P : Z -> Prop, (exists v', Some v = Some v' /\ P v') <-> P v)
    by (intros P; split; [by intros (v' & [= <-] & ?)|by exists v]).
  rewrite Hex, !deny_if_Ok, !andb_false_iff, Z.leb_gt, !Z.ltb_ge.
  destruct (c_ForbidUnlimitedTraffic c), (Z.le_gt_cases (c_MaxTrafficLimitBytes c) 0);
    intuition (done || lia).
Qed.

Lemma validate_traffic_Ok obj c rest :
  validate_traffic obj c rest = Ok () <->
  member_is obj "trafficLimitBytes" as_Number (fun n => check_traffic c n = Ok ()) /\ rest = Ok ().
Proof.
  unfold validate_traffic, member_is. destruct (assoc "trafficLimitBytes" obj) as [raw|].
  2: { split; [by split|by intros [_ ?]]. }
  destruct (unmarshal_as as_Number raw) as [n|] eqn:Hn.
  - rewrite seq_Ok. split.
    + intros [Hc Hr]. split; [|done]. intros raw' [= <-]. by exists n.
    + intros [Hall Hr]. destruct (Hall raw eq_refl) as (n' & Hn' & Hc). rewrite Hn in Hn'.
      by injection Hn' as <-.
  - split.
    + destruct (String.eqb_spec raw "null") as [->|]; [|done]. by rewrite null_traffic in Hn.
    + intros [Hall _]. destruct (Hall raw eq_refl) as (n' & Hn' & _). congruence.
Qed.

Lemma description_Ok obj c :
  (if (0 <? c_MaxDescriptionLength c)%Z then
     check_member obj "description" as_string_ptr "invalid_description"
       (when_some (fun d => deny_if (c_MaxDescriptionLength c <? len d)%Z
                              "description_too_long" (Ok ())))
   else Ok ()) = Ok () <->
  ((0 < c_MaxDescriptionLength c)%Z -> member_is obj "description" as_string_ptr
     (if_some (fun d => (len d <= c_MaxDescriptionLength c)%Z))).
Proof.
  destruct (Z.ltb_spec 0 (c_MaxDescriptionLength c)) as [Hpos|Hneg].
  - rewrite (check_member_is _ _ _ _ _
      (if_some (fun d => (len d <= c_MaxDescriptionLength c)%Z))).
    { split; [done|]. intros Hm. by apply Hm. }
    apply when_some_is. intros d. rewrite deny_if_Ok, Z.ltb_ge. tauto.
  - split; [lia|done].
Qed.

Lemma validateSquadBodyFields_Ok obj c :
  validateSquadBodyFields obj c = Ok () <->
  (c_AllowedInternalSquads c <> [] -> member_is obj "activeInternalSquads" squad_ids
     (Forall (fun id => id = "" \/ id ∈ c_AllowedInternalSquads c))) /\
  (c_AllowedExternalSquads c <> [] ->
   forall f, f ∈ ["externalSquadUuid"; "external_squad_uuid"] -> member_is obj f as_string_ptr
     (if_some (fun id => id = "" \/ id ∈ c_AllowedExternalSquads c))).
Proof.
  unfold validateSquadBodyFields. rewrite seq_Ok. apply Morphisms_Prop.and_iff_morphism; apply unless_nil_Ok.
  - apply check_member_is. intros ids. apply all_allowed_Ok.
  - apply each_member_is, when_some_is. intros id. apply one_allowed_Ok.
Qed.

Lemma validateSubscriptionPageConfig_Ok obj c :
  validateSubscriptionPageConfig obj c = Ok () <->
  (c_AllowedSubscriptionPageConfigs c <> [] ->
   forall f, f ∈ ["subscriptionPageConfigUuid"; "subscriptionPageConfigUUID";
                  "subscription_page_config_uuid"] ->
   member_is obj f as_string_ptr
     (if_some (fun id => id = "" \/ id ∈ c_AllowedSubscriptionPageConfigs c))).
Proof.
  apply unless_nil_Ok, each_member_is, when_some_is. intros id. apply one_allowed_Ok.
Qed.

(** The checks accept exactly the bodies that keep every constraint. *)
Lemma validateUserConstraints_Ok obj tok :
  validateUserConstraints obj (Some tok) = Ok () <-> user_fields_ok (tok_Constraints tok) obj.
Proof.
  unfold validateUserConstraints. cbv zeta. set (c := tok_Constraints tok).
  rewrite !seq_Ok, validate_traffic_Ok, seq_Ok, description_Ok, validateSquadBodyFields_Ok,
    validateSubscriptionPageConfig_Ok.
  rewrite (check_member_is _ "username" _ _ _ (username_ok c)) by apply ValidateUsername_Ok.
  rewrite (check_member_is _ "email" _ _ _ (if_some (email_ok c)))
    by apply when_some_is, ValidateEmail_Ok.
  rewrite (each_member_is _ _ _ _ _ (if_some (telegram_ok c)))
    by apply when_some_is, ValidateTelegramID_Ok.
  assert (Ht : member_is obj "trafficLimitBytes" as_Number (fun n => check_traffic c n = Ok ()) <->
    member_is obj "trafficLimitBytes" as_Number (fun n => exists v, ParseInt n = Some v /\
      (c_ForbidUnlimitedTraffic c = true -> (0 < v)%Z) /\
      ((0 < c_MaxTrafficLimitBytes c)%Z -> (v <= c_MaxTrafficLimitBytes c)%Z)))
    by (unfold member_is; by setoid_rewrite check_traffic_Ok).
  rewrite Ht. split; [intros (? & ? & ? & ? & ? & [? ?] & ?)|intros []]; by split_and?.
Qed.

(** *** The other checks on an object *)

(** A bulk update names hosts, all of which the token may write. *)
Lemma validate_host_uuids_Ok c obj :
  validate_host_uuids c obj = Ok () <->
  exists raw v uuids, assoc "uuids" obj = Some raw /\ parse_all raw = Some v /\
    as_strings v = (uuids, true) /\ uuids <> [] /\
    Forall (fun u => u <> "" /\ (c_AllowAllHosts c = true \/ u ∈ c_AllowedHosts c)) uuids.
Proof.
  unfold validate_host_uuids. destruct (assoc "uuids" obj) as [raw|].
  2: { split; [done|]. by intros (? & ? & ? & ? & _). }
  destruct (parse_all raw) as [v|] eqn:Hp.
  2: { split; [done|]. intros (? & ? & ? & [= <-] & Hp' & _). congruence. }
  destruct (as_strings v) as [uuids ok] eqn:Hs.
  assert (Hall : each (fun u => requireAllowedUUIDOrAll u (c_AllowedHosts c) (c_AllowAllHosts c)
      "host_denied") uuids = Ok () <->
    Forall (fun u => u <> "" /\ (c_AllowAllHosts c = true \/ u ∈ c_AllowedHosts c)) uuids).
  { rewrite each_Forall. apply Forall_proper; [|done]. intros u. apply requireAllowedUUIDOrAll_Ok. }
  destruct ok; cbn [negb orb].
  - destruct (is_nil uuids) eqn:Hnil.
    + apply is_nil_true in Hnil. split; [done|].
      intros (raw' & v' & uuids' & [= <-] & Hp' & Hs' & Hne & _). congruence.
    + rewrite Hall. split.
      * intros Hf. exists raw, v, uuids. split_and!; try done. by intros ->.
      * intros (raw' & v' & uuids' & [= <-] & Hp' & Hs' & _ & Hf). rewrite Hp in Hp'. injection Hp' as <-.
        rewrite Hs in Hs'. by injection Hs' as <-.
  - split; [done|]. intros (raw' & v' & uuids' & [= <-] & Hp' & Hs' & _). congruence.
Qed.

(** The fields the token may send on the route, when it names any. *)
Definition token_fields (tok : TokenPolicy) (route : Route) : option (list string) :=
  let m := c_AllowedRequestFields (tok_Constraints tok) in
  match m !! rt_Name route with
  | Some allowed => Some allowed
  | None => m !! (rt_Method route +:+ " " +:+ rt_Pattern route)
  end.

Lemma validateTokenRequestFields_Ok obj route tok :
  validateTokenRequestFields obj route (Some tok) = Ok () <->
  forall allowed, token_fields tok route = Some allowed ->
    Forall (fun kv => fst kv ∈ allowed) obj.
Proof.
  unfold validateTokenRequestFields. cbv zeta. fold (token_fields tok route).
  destruct (token_fields tok route) as [allowed|]; [|by split].
  assert (Hf : each (fun kv : string * string => deny_if (negb (contains_str allowed (fst kv)))
      "request_field_denied" (Ok ())) obj = Ok () <-> Forall (fun kv => fst kv ∈ allowed) obj).
  { rewrite each_Forall. apply Forall_proper; [|done]. intros kv.
    rewrite deny_if_Ok, negb_false_iff, contains_str_spec. tauto. }
  rewrite Hf. split; [by intros Ha a [= <-]|auto].
Qed.

Lemma check_required_boolean_Ok obj field :
  check_required_boolean obj field = Ok () <->
  (field <> "" -> exists raw b, assoc field obj = Some raw /\ TrimSpace raw <> "null" /\
     unmarshal_as as_bool raw = Some b).
Proof.
  unfold check_required_boolean. destruct (String.eqb_spec field "") as [->|Hne]; [by split|].
  destruct (assoc field obj) as [raw|].
  2: { split; [done|]. intros Hb. by destruct (Hb Hne) as (? & ? & ? & _). }
  destruct (String.eqb_spec (TrimSpace raw) "null") as [Hn|Hn].
  { split; [done|]. intros Hb. destruct (Hb Hne) as (raw' & b & [= <-] & ? & _). done. }
  destruct (unmarshal_as as_bool raw) as [b|] eqn:Hb.
  - split; [intros _ _; by exists raw, b|done].
  - split; [done|]. intros Hall. destruct (Hall Hne) as (raw' & b & [= <-] & _ & ?). congruence.
Qed.
End body_facts.

Section body_sound.
Context `{U : Unicode} `{R : Regexps}.

(** What is checked of the object a body starts with. *)
Record checked_object (route : Route) (tok : TokenPolicy) (obj : raw_obj) : Prop := {
  co_fields : rt_AllowedFields route <> [] ->
    Forall (fun kv => fst kv ∈ rt_AllowedFields route) obj;
  co_boolean : rt_RequiredBoolean route <> "" ->
    exists raw b, assoc (rt_RequiredBoolean route) obj = Some raw /\ TrimSpace raw <> "null" /\
      unmarshal_as as_bool raw = Some b;
  co_token_fields : forall allowed, token_fields tok route = Some allowed ->
    Forall (fun kv => fst kv ∈ allowed) obj;
  co_user : HasPrefix (rt_Name route) "user." = true -> user_fields_ok (tok_Constraints tok) obj;
  co_write : validateResourceWriteConstraints obj route (Some tok) = Ok ();
  co_create : validateResourceCreateConstraints route (Some tok) = Ok ();
  co_hwid : HasPrefix (rt_Name route) "hwid." = true -> is_Some (assoc "userUuid" obj);
}.

(** The part of an accepted request the policy looked at. *)
Definition checked_body (cfg : Config) (route : Route) (tok : TokenPolicy)
    (body : string) (obj : raw_obj) : Prop :=
  (len body <= body_limit cfg route)%Z /\
  DecodeObjectNoDuplicateKeys body (body_limit cfg route) = Ok obj /\
  NoDup (map fst obj) /\ checked_object route tok obj.

Lemma requestBodyBytes_len req limit body req' :
  requestBodyBytes req limit = Ok (body, req') -> (0 <= limit)%Z -> (len body <= limit)%Z.
Proof.
  unfold requestBodyBytes, bufferRequestBody. intros Hb Hlim.
  destruct (req_bodyCache req) as [b|] eqn:Hc.
  { destruct (Z.ltb_spec limit (len b)); [done|]. by injection Hb as <- _. }
  destruct (req_Body req) as [[b|e]|].
  - destruct (_ || _)%Z; [done|]. destruct (Z.ltb_spec limit (len b)); [done|].
    by injection Hb as <- _.
  - by destruct (_ || _)%Z.
  - rewrite Hc in Hb. by injection Hb as <- _.
Qed.

Lemma check_object_Ok obj route tok :
  check_object obj route (Some tok) = Ok () <-> checked_object route tok obj.
Proof.
  unfold check_object.
  rewrite !seq_Ok, check_required_boolean_Ok, validateTokenRequestFields_Ok.
  rewrite (unless_nil_Ok _ _ _ (ValidateFields_Ok obj (rt_AllowedFields route))).
  assert (Hu : (if HasPrefix (rt_Name route) "user." then validateUserConstraints obj (Some tok)
                else Ok ()) = Ok () <->
    (HasPrefix (rt_Name route) "user." = true -> user_fields_ok (tok_Constraints tok) obj)).
  { destruct (HasPrefix (rt_Name route) "user."); [|by split].
    rewrite validateUserConstraints_Ok. tauto. }
  assert (Hh : (if HasPrefix (rt_Name route) "hwid." then
                  match assoc "userUuid" obj with Some _ => Ok () | None => Err "missing_user_uuid" end
                else Ok ()) = Ok () <->
    (HasPrefix (rt_Name route) "hwid." = true -> is_Some (assoc "userUuid" obj))).
  { destruct (HasPrefix (rt_Name route) "hwid."); [|by split].
    destruct (assoc "userUuid" obj); [by split|]. split; [done|].
    intros Hs. by destruct (Hs eq_refl). }
  rewrite Hu, Hh. split; [intros (? & ? & ? & ? & ? & ? & ?)|intros []]; by split_and?.
Qed.

Lemma validateBodyPolicy_Ok req cfg route tok req' :
  validateBodyPolicy req cfg route (Some tok) = Ok req' ->
  rt_BodyObject route = true -> rt_Support route <> Privileged ->
  (0 < lim_MaxBodyBytes (cfg_Limits cfg))%Z ->
  exists body obj, req_Body req' = Some (Ok body) /\ checked_body cfg route tok body obj.
Proof.
  unfold validateBodyPolicy. intros Hv Hbo Hs Hmax.
  rewrite (proj2 (eqs_false _ _) Hs), Hbo in Hv. cbn [andb negb] in Hv.
  destruct (ParseMediaType _) as [ct|]; [|done].
  destruct (decide (ct = "application/json")) as [->|Hne].
  2: { exfalso. clear -Hv Hne. revert Hv. repeat case_match; subst; try done. }
  destruct (_ <>s? ""); [done|]. cbv zeta in Hv.
  destruct (requestBodyBytes req (body_limit cfg route)) as [[body req1]|] eqn:Hb; [|done].
  destruct (DecodeObjectNoDuplicateKeys body (body_limit cfg route)) as [obj|] eqn:Hd; [|done].
  destruct (check_object obj route (Some tok)) as [[]|] eqn:Hc; [|done].
  injection Hv as <-. exists body, obj. split; [done|]. apply check_object_Ok in Hc.
  unfold checked_body. split_and!; [|done|by eapply DecodeObject_NoDup|done].
  eapply requestBodyBytes_len; [exact Hb|]. unfold body_limit.
  destruct (_ || _)%Z eqn:Hl; [lia|]. apply orb_false_iff in Hl as [?%Z.leb_gt _]. lia.
Qed.
End body_sound.

(** ** Properties *)

(** C21: what a checked write forwards.  When the body policy lets a write of a
    restricted token through, the body it forwards is within the limit and begins
    with a JSON object (what follows the object is not looked at) that has
    distinct keys, all of them among the route's fields and among those the token
    lists for the route, and the boolean the route requires; a write on devices
    names a user; on user routes each field that is set obeys the token's
    constraints: user name, e-mail, telegram id, description length, traffic limit,
    squads and subscription page configurations; and the checks on shared
    resources have passed. *)
Theorem body_policy_sound `{Unicode} `{Regexps} req cfg route tok req' :
  validateBodyPolicy req cfg route (Some tok) = Ok req' ->
  rt_BodyObject route = true -> rt_Support route <> Privileged ->
  (0 < lim_MaxBodyBytes (cfg_Limits cfg))%Z ->
  exists body obj, req_Body req' = Some (Ok body) /\ checked_body cfg route tok body obj.
Proof. apply validateBodyPolicy_Ok. Qed.

Definition no_regexps : Regexps := {| regexp_Compile := fun _ => Err "none" |}.

Definition witness_limits : Config :=
  let c := zero_config in
  Build_Config (cfg_Server c) (cfg_Upstream c) (cfg_Compatibility c)
    (Build_LimitsConfig 2048 4096 1000 4 4 "" 1000 0)
    (cfg_Metrics c) (cfg_Audit c) (cfg_Alerts c) (cfg_Report c) (cfg_PublicSubs c)
    (cfg_PanelFacade c) (cfg_Reload c) (cfg_WriteSafety c)
    (cfg_Tokens c) (cfg_Include c) (cfg_path c).

Definition witness_token : TokenPolicy := {|
  tok_ID := "t"; tok_Credentials := []; tok_Scopes := ["users:update"]; tok_Disabled := false;
  tok_Constraints := Build_Constraints "acme_" "" "" "" "" [] [] ["s1"] [] [] [] [] [] false
    false false [] [] [] [] 100 true 0 ∅ |}.

Definition witness_update : Route :=
  mkRoute "user.update" "PATCH" "/api/users" PolicyEnforced ["users:update"] [] 65536 true
    userUpdateFields "" "users".

Definition witness_request (body : string) : Request := {|
  req_ProtoMajor := 1; req_Method := "PATCH"; req_RequestURI := "/api/users"; req_Host := "h";
  req_Header := <["Content-Type" := ["application/json"]]> ∅;
  req_RemoteAddr := "1.2.3.4:5"; req_Body := Some (Ok body); req_ContentLength := len body;
  req_bodyCache := None; req_panelAudit := None |}.

Lemma body_policy_sound_witness :
  let body := jtext "{'uuid':'u','username':'acme_1','trafficLimitBytes':50}" in
  exists b obj, b = body /\ checked_body (R := no_regexps) (U := ascii_only) witness_limits
                               witness_update witness_token b obj.
Proof.
  intros body.
  destruct (@body_policy_sound ascii_only no_regexps (witness_request body) witness_limits
    witness_update witness_token
    (set_body (witness_request body) (Some (Ok body)) (len body) (Some body)))
    as (b & obj & Hb & Hc); [vm_compute; reflexivity|reflexivity|discriminate|reflexivity|].
  exists b, obj. split; [|exact Hc]. injection Hb as <-. reflexivity.
Defined.

(** A defect.  A null traffic limit is refused: [json.Number] decodes null
    without an error, so the branch of [validateUserConstraints] that would accept
    it is never reached, and the empty number then fails to convert. *)
Theorem null_traffic_limit_refused obj c rest :
  assoc "trafficLimitBytes" obj = Some "null" ->
  validate_traffic obj c rest = Err "invalid_traffic_limit".
Proof. intros Hn. unfold validate_traffic. rewrite Hn. reflexivity. Qed.

Lemma null_traffic_limit_refused_witness :
  validate_traffic [("trafficLimitBytes", "null")] empty_constraints (Ok ())
  = Err "invalid_traffic_limit".
Proof. apply null_traffic_limit_refused. reflexivity. Defined.

(** The lists a PATCH of one shared resource is held against. *)
Definition patch_lists (c : Constraints) : list (string * list string * bool) :=
  [("patch.subscription_templates", c_AllowedSubscriptionTemplates c, false);
   ("patch.internal_squads", c_AllowedWritableInternalSquads c, false);
   ("patch.external_squads", c_AllowedWritableExternalSquads c, false);
   ("patch.config_profiles", c_AllowedConfigProfiles c, c_AllowAllConfigProfiles c);
   ("patch.hosts", c_AllowedHosts c, c_AllowAllHosts c);
   ("patch.nodes", c_AllowedNodes c, c_AllowAllNodes c)].

(** C38: writes to shared resources stay in the allow-lists.  A PATCH of an
    internal or external squad, subscription template, configuration profile,
    host or node passes only when its uuid is named and is in the token's list
    for that resource (or the token may write all of them); a bulk update of hosts
    only when it names at least one host and each of them is. *)
Theorem patch_stays_in_allowlist obj route tok :
  validateResourceWriteConstraints obj route (Some tok) = Ok () ->
  rt_Method route = "PATCH" ->
  (forall allowed all, In (rt_Name route, allowed, all) (patch_lists (tok_Constraints tok)) ->
     objectUUIDFromRaw obj <> "" /\ (all = true \/ objectUUIDFromRaw obj ∈ allowed)) /\
  (rt_Name route = "patch.hosts.bulk.update" ->
     exists raw v uuids, assoc "uuids" obj = Some raw /\ parse_all raw = Some v /\
       as_strings v = (uuids, true) /\ uuids <> [] /\
       Forall (fun u => u <> "" /\ (c_AllowAllHosts (tok_Constraints tok) = true \/
                                    u ∈ c_AllowedHosts (tok_Constraints tok))) uuids).
Proof.
  unfold validateResourceWriteConstraints. intros Hv Hm. rewrite Hm in Hv. cbv zeta in Hv. split.
  - intros allowed all Hin. simpl in Hin.
    repeat (destruct Hin as [Heq|Hin]; [injection Heq as Hn <- <-; rewrite <- Hn in Hv;
      simpl in Hv; first [apply requireAllowedUUIDOrAll_Ok in Hv; exact Hv
                         |apply requireAllowedUUID_Ok in Hv; tauto]|]).
    destruct Hin.
  - intros Hn. rewrite Hn in Hv. simpl in Hv. by apply validate_host_uuids_Ok.
Qed.

Definition writing_token : TokenPolicy :=
  Build_TokenPolicy "t" [] [] false
    (Build_Constraints "" "" "" "" "" [] [] [] [] [] [] ["h1"; "h2"] ["n1"; "n2"] false
      false false [] [] [] [] 0 false 0 ∅).

Definition shared_route (name path : string) : Route :=
  mkRoute name "PATCH" path PolicyEnforced [] [] 0 true [] "" "".

Lemma patch_stays_in_allowlist_witness :
  ("n1" <> "" /\ (false = true \/ "n1" ∈ ["n1"; "n2"])) /\
  exists uuids, as_strings (JArr [JStr "h2"; JStr "h1"]) = (uuids, true) /\ uuids <> [] /\
    Forall (fun u => u <> "" /\ (false = true \/ u ∈ ["h1"; "h2"])) uuids.
Proof.
  split.
  - destruct (patch_stays_in_allowlist [("uuid", jtext "'n1'")]
      (shared_route "patch.nodes" "/api/nodes") writing_token) as [Hone _]; [reflexivity..|].
    apply Hone. simpl. right. right. right. right. right. left. reflexivity.
  - destruct (patch_stays_in_allowlist [("uuids", jtext "['h2','h1']")]
      (shared_route "patch.hosts.bulk.update" "/api/hosts/bulk/update") writing_token)
      as [_ Hbulk]; [reflexivity..|].
    destruct (Hbulk eq_refl) as (raw & v & uuids & Hraw & Hv & Hu & Hne & Hall).
    exists uuids. split; [|split; [exact Hne|exact Hall]]. rewrite <- Hu. injection Hraw as <-.
    vm_compute in Hv. injection Hv as <-. reflexivity.
Defined.
