(* ===== verification/ResponsePolicy.v ===== *)
(** * internal/server: what a response may show

    The checks and filters on upstream responses.  A decoded body is a tree, so
    the in-place updates of the source are functions from trees to trees. *)

From S2P Require Import Prelude GoStrings Encoding Json Config Routes Policy Httputil Remnawave.
From stdpp Require Import options.

(** [proxy.Response]. *)
Record Response := {
  res_StatusCode : Z;
  res_Header : Header;
  res_Body : string;
}.

Definition with_body_of (r : Response) (body : string) : Response := {|
  res_StatusCode := res_StatusCode r;
  res_Header := Del "Content-Length" (res_Header r);
  res_Body := body |}.

Definition success (r : Response) : bool :=
  (200 <=? res_StatusCode r)%Z && (res_StatusCode r <? 300)%Z.

Definition objectUUID (item : json) : string :=
  match item with JObj fs => stringField fs "uuid" | _ => "" end.

Definition tokenHasPrivilegedScope (tok : option TokenPolicy) : bool :=
  match tok with
  | None => false
  | Some tok => existsb (fun s => (s =s? "remnawave:*") || (s =s? "privileged:*")) (tok_Scopes tok)
  end.

(** ** Single resources *)

Definition subscriptionPageConfigAllowed (tok : TokenPolicy) (uuid : string) : bool :=
  let allowed := c_AllowedSubscriptionPageConfigs (tok_Constraints tok) in
  if is_nil allowed then true else (uuid <>s? "") && contains_str allowed uuid.

(** The source tests the keys in order and stops at the first that is allowed;
    only whether one is matters. *)
Fixpoint subscriptionPageConfigNodeAllowed (tok : TokenPolicy) (node : json) : bool :=
  match node with
  | JObj fs =>
      subscriptionPageConfigAllowed tok (objectUUID node) ||
      existsb (fun key => match assoc key fs with
                          | Some (JStr s) => subscriptionPageConfigAllowed tok s
                          | _ => false
                          end)
        ["subscriptionPageConfigUuid"; "subscriptionPageConfigUUID";
         "subscription_page_config_uuid"; "uuid"] ||
      (let rs := map (fun '(k, v) => (k, subscriptionPageConfigNodeAllowed tok v)) fs in
       existsb (fun key => default false (assoc key rs))
         ["response"; "config"; "subscriptionPageConfig"; "subscription_page_config";
          "subpageConfig"; "subpage_config"])
  | JArr l => existsb (subscriptionPageConfigNodeAllowed tok) l
  | _ => false
  end.

Definition json_error : string := "malformed JSON".

Definition enforceSubscriptionPageConfigResponse (tok : TokenPolicy) (r : Response) : res () :=
  if is_nil (c_AllowedSubscriptionPageConfigs (tok_Constraints tok)) then Ok () else
  match Decode (res_Body r) with
  | None => Err json_error
  | Some root => if subscriptionPageConfigNodeAllowed tok root then Ok ()
                 else Err "subscription_page_config_denied"
  end.

Definition squad_fields : list string := ["uuid"; "name"; "viewPosition"].

Definition sanitizeSquadObject (item : json) : json :=
  match item with
  | JObj fs => JObj (List.filter (fun kv => contains_str squad_fields (fst kv)) fs)
  | _ => item
  end.

(** The first key whose child is accepted, with the replacement. *)
Fixpoint first_some {A} (keys : list string) (rs : list (string * option A))
    : option (string * A) :=
  match keys with
  | [] => None
  | k :: ks => match assoc k rs with
               | Some (Some a) => Some (k, a)
               | _ => first_some ks rs
               end
  end.

(** The members a squad may be wrapped in, in the order they are tried. *)
Definition squad_wrappers : list string :=
  ["response"; "squad"; "internalSquad"; "externalSquad"].

(** The tree with its squad object sanitised; [None] when there is none. *)
Fixpoint sanitizeSquadNode (node : json) : option json :=
  match node with
  | JObj fs =>
      if objectUUID node <>s? "" then Some (sanitizeSquadObject node)
      else
        match first_some squad_wrappers
                (map (fun '(k, v) => (k, sanitizeSquadNode v)) fs) with
        | Some (k, v) => Some (JObj (assoc_set k v fs))
        | None => None
        end
  | _ => None
  end.

Definition redactSquadResponse (r : Response) : res Response :=
  match Decode (res_Body r) with
  | None => Err json_error
  | Some root =>
      match sanitizeSquadNode root with
      | None => Err "unfilterable_squad_response"
      | Some root' => Ok (with_body_of r (Marshal root'))
      end
  end.

Section enforce.
Context `{Unicode} `{Regexps}.

Definition enforceResponsePolicy (route : Route) (tok : TokenPolicy) (r : Response)
    : res Response :=
  if rt_Support route <>s? PolicyEnforced then Ok r else
  if negb (success r) then Ok r else
  let name := rt_Name route in
  if contains_str ["user.read.uuid"; "user.read.username"; "user.read.telegram"] name then
    match DecodeUser (res_Body r) with
    | Err e => if IsEmptyUserResponse (res_Body r) then Ok r else Err e
    | Ok user => check? OwnsUser (Some tok) user then Ok r
    end
  else if contains_str ["squad.internal.read"; "squad.external.read"] name then
    redactSquadResponse r
  else if name =s? "subscription_page_config.read" then
    check? enforceSubscriptionPageConfigResponse tok r then Ok r
  else Ok r.
End enforce.

(** ** Lists *)

Record responsePage := { pg_start : Z; pg_size : Z }.

Fixpoint first_int (ok : Z -> bool) (values : QueryValues) (keys : list string) : Z :=
  match keys with
  | [] => 0
  | k :: ks =>
      let value := TrimSpace (query_get k values) in
      if value =s? "" then first_int ok values ks
      else match Atoi value with
           | Some n => if ok n then n else first_int ok values ks
           | None => first_int ok values ks
           end
  end.

Definition firstPositiveInt := first_int (fun n => 0 <? n)%Z.
Definition firstNonNegativeInt := first_int (fun n => 0 <=? n)%Z.

Definition panelResponsePage (req : Request) (rawQuery : string) : option responsePage :=
  match req_panelAudit req with
  | None => None
  | Some _ =>
      match ParseQuery rawQuery with
      | None => None
      | Some values =>
          let size := firstPositiveInt values ["size"; "limit"] in
          if (size <=? 0)%Z then None else
          let start := firstNonNegativeInt values ["start"; "offset"] in
          let start :=
            if (start =? 0)%Z then
              let page := firstPositiveInt values ["page"] in
              if (1 <? page)%Z then wrap64 ((page - 1) * size) else start
            else start in
          Some {| pg_start := start; pg_size := size |}
      end
  end.

(** [items[start:end]]: a run-time panic ([None]) unless
    [0 <= start <= end <= len(items)]. *)
Definition slice {A} (items : list A) (start stop : Z) : option (list A) :=
  if (0 <=? start)%Z && (start <=? stop)%Z && (stop <=? Z.of_nat (length items))%Z
  then Some (firstn (Z.to_nat (stop - start)) (skipn (Z.to_nat start) items))
  else None.

Definition slicePage {A} (items : list A) (page : option responsePage) : option (list A) :=
  match page with
  | None => Some items
  | Some p =>
      if (pg_size p <=? 0)%Z then Some items else
      if (Z.of_nat (length items) <=? pg_start p)%Z then Some [] else
      let stop := wrap64 (pg_start p + pg_size p) in
      let stop := if (Z.of_nat (length items) <? stop)%Z then Z.of_nat (length items)
                  else stop in
      slice items (pg_start p) stop
  end.

(** The outcome of filtering: no list found, a panic, or the filtered tree and
    the number of visible items. *)
Inductive filtered :=
  | NoList
  | Panic
  | Filtered (node : json) (count : Z).

Definition list_keys : list string :=
  ["response"; "users"; "internalSquads"; "externalSquads"; "subscriptionPageConfigs";
   "subscription_page_configs"; "configs"; "items"; "data"].

(** The first key that holds a list. *)
Fixpoint first_filtered (keys : list string) (rs : list (string * filtered))
    : option (string * filtered) :=
  match keys with
  | [] => None
  | k :: ks => match assoc k rs with
               | None | Some NoList => first_filtered ks rs
               | Some f => Some (k, f)
               end
  end.

(** [keep] gives the item as it is shown, or drops it. *)
Fixpoint filterListNodePaged (page : option responsePage) (keep : json -> option json)
    (node : json) : filtered :=
  match node with
  | JArr items =>
      let out := omap keep items in
      match slicePage out page with
      | Some out' => Filtered (JArr out') (Z.of_nat (length out))
      | None => Panic
      end
  | JObj fs =>
      match first_filtered list_keys
              (map (fun '(k, v) => (k, filterListNodePaged page keep v)) fs) with
      | Some (k, Filtered v count) => Filtered (JObj (assoc_set k v fs)) count
      | Some (_, _) => Panic
      | None => NoList
      end
  | _ => NoList
  end.

Definition count_keys : list string :=
  ["total"; "count"; "totalItems"; "total_items"; "recordsTotal"; "records_total"].
Definition nested_keys : list string := ["response"; "meta"; "pagination"].

Fixpoint redactCountMetadata (visible : Z) (node : json) : json :=
  match node with
  | JObj fs =>
      JObj (map (fun '(k, v) =>
        (k, if contains_str count_keys k then JNum (Itoa visible)
            else if contains_str nested_keys k then redactCountMetadata visible v
            else v)) fs)
  | _ => node
  end.

(** [None] is a panic. *)
Definition filterJSONListPaged (r : Response) (page : option responsePage)
    (keep : json -> option json) : option (res Response) :=
  match Decode (res_Body r) with
  | None => Some (Err json_error)
  | Some root =>
      match filterListNodePaged page keep root with
      | NoList => Some (Err "unfilterable_list_response")
      | Panic => None
      | Filtered v count => Some (Ok (with_body_of r (Marshal (redactCountMetadata count v))))
      end
  end.

Definition filterJSONList (r : Response) (keep : json -> option json) : option (res Response) :=
  filterJSONListPaged r None keep.

Definition sanitizeSquadListObject (item : json) : json :=
  match item with
  | JObj fs => JObj (assoc_del "raw_inbounds" (assoc_del "raw_inbound"
                       (assoc_del "rawInbounds" (assoc_del "rawInbound" fs))))
  | _ => item
  end.

Section filter.
Context `{Unicode} `{Regexps}.

Definition keep_owned_user (tok : TokenPolicy) (item : json) : option json :=
  match DecodeUser (Marshal item) with
  | Ok user => if is_ok (OwnsUser (Some tok) user) then Some item else None
  | Err _ => None
  end.

Definition keep_squad (allowed : list string) (item : json) : option json :=
  if is_nil allowed || contains_str allowed (objectUUID item)
  then Some (sanitizeSquadListObject item) else None.

Definition keep_page_config (tok : TokenPolicy) (item : json) : option json :=
  if subscriptionPageConfigAllowed tok (objectUUID item) then Some item else None.

Definition filterResponsePolicy (route : Route) (tok : TokenPolicy) (r : Response)
    (req : Request) (rawQuery : string) : option (res Response) :=
  let c := tok_Constraints tok in
  if (rt_Support route <>s? PolicyEnforced) || negb (success r) then Some (Ok r) else
  if tokenHasPrivilegedScope (Some tok) then Some (Ok r) else
  if rt_Name route =s? "user.list" then
    filterJSONListPaged r (panelResponsePage req rawQuery) (keep_owned_user tok)
  else if rt_Name route =s? "squad.internal.list" then
    filterJSONList r (keep_squad (c_AllowedInternalSquads c))
  else if rt_Name route =s? "squad.external.list" then
    filterJSONList r (keep_squad (c_AllowedExternalSquads c))
  else if rt_Name route =s? "subscription_page_config.list" then
    filterJSONList r (keep_page_config tok)
  else Some (Ok r).
End filter.

(** ** Which list is filtered *)

(** The first key, in the order of [list_keys], under which there is a list. *)
Fixpoint first_list (keys : list string) (rs : list (string * option (list json)))
    : option (string * list json) :=
  match keys with
  | [] => None
  | k :: ks => match assoc k rs with
               | Some (Some l) => Some (k, l)
               | _ => first_list ks rs
               end
  end.

(** The list of items a response carries. *)
Fixpoint listed (node : json) : option (list json) :=
  match node with
  | JArr l => Some l
  | JObj fs => option_map snd (first_list list_keys (map (fun '(k, v) => (k, listed v)) fs))
  | _ => None
  end.

Lemma assoc_map {A B} (f : A -> B) k (fs : list (string * A)) :
  assoc k (map (fun '(k, v) => (k, f v)) fs) = option_map f (assoc k fs).
Proof.
  induction fs as [|[k' v] fs IH]; simpl; [done|]. by destruct (k =s? k').
Qed.

Section filter_facts.
Context (page : option responsePage) (keep : json -> option json).

(** What filtering does to the list a node carries. *)
Definition filter_spec (node : json) : Prop :=
  match filterListNodePaged page keep node with
  | NoList => listed node = None
  | Panic => exists l, listed node = Some l /\ slicePage (omap keep l) page = None
  | Filtered v n => exists l l', listed node = Some l /\
      slicePage (omap keep l) page = Some l' /\ listed v = Some l' /\
      n = Z.of_nat (length (omap keep l))
  end.

Lemma first_filtered_spec keys fs :
  (forall k v, assoc k fs = Some v -> filter_spec v) ->
  match first_filtered keys (map (fun '(k, v) => (k, filterListNodePaged page keep v)) fs) with
  | None => first_list keys (map (fun '(k, v) => (k, listed v)) fs) = None
  | Some (k, f) => exists v l, assoc k fs = Some v /\ f = filterListNodePaged page keep v /\
      f <> NoList /\ listed v = Some l /\
      first_list keys (map (fun '(k, v) => (k, listed v)) fs) = Some (k, l) /\
      forall v' l', listed v' = Some l' ->
        first_list keys (map (fun '(k, v) => (k, listed v)) (assoc_set k v' fs)) = Some (k, l')
  end.
Proof.
  intros Hfs. induction keys as [|k ks IH]; simpl; [done|].
  rewrite !assoc_map. destruct (assoc k fs) as [v|] eqn:Hk; simpl.
  - specialize (Hfs k v Hk). unfold filter_spec in Hfs.
    destruct (filterListNodePaged page keep v) as [| |v1 n1] eqn:Hf.
    + rewrite Hfs.
      destruct (first_filtered ks _) as [[k' f]|]; [|done].
      destruct IH as (v' & l & Hk' & Hf' & Hne & Hl & Hfl & Hset).
      exists v', l. split_and!; try done. intros v2 l2 Hl2. rewrite assoc_map.
      destruct (decide (k = k')) as [->|Hkk]; [rewrite Hk' in Hk; simplify_eq; congruence|].
      rewrite assoc_set_ne, Hk by done. simpl. rewrite Hfs. by apply Hset.
    + destruct Hfs as (l & Hl & _). exists v, l. rewrite Hl. split_and!; try done.
      intros v2 l2 Hl2. by rewrite assoc_map, assoc_set_eq; simpl; rewrite Hl2.
    + destruct Hfs as (l & l' & Hl & _). exists v, l. rewrite Hl. split_and!; try done.
      intros v2 l2 Hl2. by rewrite assoc_map, assoc_set_eq; simpl; rewrite Hl2.
  - destruct (first_filtered ks _) as [[k' f]|]; [|done].
    destruct IH as (v' & l & Hk' & Hf' & Hne & Hl & Hfl & Hset).
    exists v', l. split_and!; try done. intros v2 l2 Hl2. rewrite assoc_map.
    destruct (decide (k = k')) as [->|Hkk]; [congruence|].
    rewrite assoc_set_ne, Hk by done. simpl. by apply Hset.
Qed.

Lemma filterListNodePaged_spec node : filter_spec node.
Proof.
  induction node as [| | | |l _|fs IH] using json_ind'; try done; unfold filter_spec.
  - simpl. destruct (slicePage (omap keep l) page) as [l'|] eqn:Hs; eauto.
    exists l, l'. done.
  - cbn [filterListNodePaged listed].
    pose proof (first_filtered_spec list_keys fs) as Hff.
    destruct (first_filtered list_keys _) as [[k f]|].
    + destruct Hff as (v & l & Hk & -> & Hne & Hl & Hfl & Hset).
      { intros k' v' Hin%assoc_In. rewrite Forall_forall in IH.
        by apply (IH (k', v')), list_elem_of_In. }
      apply assoc_In in Hk. rewrite Forall_forall in IH.
      specialize (IH (k, v) (proj2 (list_elem_of_In _ _) Hk)). simpl in IH.
      unfold filter_spec in IH.
      destruct (filterListNodePaged page keep v) as [| |v1 n1]; [done| |].
      * destruct IH as (l0 & Hl0 & Hs). rewrite Hl in Hl0. injection Hl0 as <-.
        exists l. by rewrite Hfl.
      * destruct IH as (l0 & l' & Hl0 & Hs & Hv1 & Hn). rewrite Hl in Hl0. injection Hl0 as <-.
        exists l, l'. rewrite Hfl. split_and!; try done.
        cbn [listed]. by rewrite (Hset v1 l' Hv1).
    + rewrite Hff; [done|]. intros k' v' Hin%assoc_In. rewrite Forall_forall in IH.
      by apply (IH (k', v')), list_elem_of_In.
Qed.
End filter_facts.

(** A page is a part of the visible list. *)
Lemma slicePage_sublist {A} (items : list A) page out :
  slicePage items page = Some out -> forall x, x ∈ out -> x ∈ items.
Proof.
  unfold slicePage, slice. intros Hs x Hx.
  destruct page as [p|]; [|by injection Hs as ->].
  destruct (_ <=? _)%Z; [by injection Hs as ->|].
  destruct (_ <=? _)%Z; [injection Hs as <-; by apply not_elem_of_nil in Hx|].
  destruct (_ && _ && _); [|done]. injection Hs as <-.
  rewrite <- (take_drop (Z.to_nat (pg_start p)) items), elem_of_app. right.
  match type of Hx with _ ∈ firstn ?n _ => rewrite <- (take_drop n (drop _ items)) end.
  rewrite elem_of_app. by left.
Qed.

(** Pages of ordinary size never panic. *)
Lemma slicePage_total {A} (items : list A) page :
  match page with
  | Some p => (0 <= pg_start p)%Z /\ (0 <= pg_size p)%Z /\
              in_int64 (Z.of_nat (length items) + pg_size p) = true
  | None => True
  end -> slicePage items page <> None.
Proof.
  unfold slicePage, slice. destruct page as [p|]; [|done]. intros (Hs & Hz & Hr).
  destruct (Z.leb_spec (pg_size p) 0); [done|].
  destruct (Z.leb_spec (Z.of_nat (length items)) (pg_start p)); [done|].
  unfold in_int64, int64_min, int64_max in Hr. rewrite andb_true_iff, !Z.leb_le in Hr.
  rewrite wrap64_id; [|unfold in_int64, int64_min, int64_max; rewrite andb_true_iff, !Z.leb_le; lia].
  destruct (Z.ltb_spec (Z.of_nat (length items)) (pg_start p + pg_size p));
    rewrite !(proj2 (Z.leb_le _ _)) by lia; done.
Qed.

(** *** The page that is shown *)

(** The part of a list a page shows. *)
Definition page_of {A} (page : option responsePage) (items : list A) : list A :=
  match page with
  | None => items
  | Some p => firstn (Z.to_nat (pg_size p)) (skipn (Z.to_nat (pg_start p)) items)
  end.

Definition page_ok (page : option responsePage) : Prop :=
  match page with
  | None => True
  | Some p => (0 < pg_size p)%Z /\ in_int64 (pg_start p) = true /\ in_int64 (pg_size p) = true
  end.

Lemma ParseInt_range s z : ParseInt s = Some z -> in_int64 z = true.
Proof.
  unfold ParseInt. intros Hp. repeat case_match; try done; by simplify_eq.
Qed.

Lemma first_int_range ok values keys : in_int64 (first_int ok values keys) = true.
Proof.
  induction keys as [|k ks IH]; simpl; [done|]. destruct (_ =s? ""); [done|].
  destruct (Atoi _) as [n|] eqn:Hn; [|done]. destruct (ok n); [|done]. by eapply ParseInt_range.
Qed.

Lemma panelResponsePage_ok req rawQuery : page_ok (panelResponsePage req rawQuery).
Proof.
  unfold panelResponsePage. destruct (req_panelAudit req); [|done].
  destruct (ParseQuery rawQuery) as [values|]; [|done]. cbv zeta.
  destruct (Z.leb_spec (firstPositiveInt values ["size"; "limit"]) 0); [done|].
  split_and!; cbn [pg_size pg_start]; [done| |apply first_int_range].
  destruct (_ =? 0)%Z; [|apply first_int_range].
  destruct (_ <? _)%Z; [apply wrap64_range|apply first_int_range].
Qed.

(** A sum of two ints that does not come out negative has not overflowed. *)
Lemma wrap64_exact a b :
  (0 <= a < 2 ^ 63)%Z -> (0 <= b < 2 ^ 63)%Z -> (0 <= wrap64 (a + b))%Z -> wrap64 (a + b) = (a + b)%Z.
Proof.
  intros Ha Hb Hw. destruct (Z.lt_ge_cases (a + b) (2 ^ 63)) as [Hlt|Hge].
  - apply wrap64_id. unfold in_int64, int64_min, int64_max. rewrite andb_true_iff, !Z.leb_le. lia.
  - exfalso. unfold wrap64 in Hw.
    rewrite <- (Z.mod_unique (a + b + 2 ^ 63) (2 ^ 64) 1 (a + b + 2 ^ 63 - 2 ^ 64)) in Hw; lia.
Qed.

(** Unless it panics, [slicePage] gives the page. *)
Lemma slicePage_page {A} (items : list A) page out :
  slicePage items page = Some out -> page_ok page -> out = page_of page items.
Proof.
  unfold slicePage, slice, page_ok, page_of. destruct page as [p|]; [|by intros [= ->]].
  intros Hs (Hz & Hst & Hsz). unfold in_int64, int64_min, int64_max in Hst, Hsz.
  rewrite andb_true_iff, !Z.leb_le in Hst, Hsz.
  destruct (Z.leb_spec (pg_size p) 0); [lia|].
  destruct (Z.leb_spec (Z.of_nat (length items)) (pg_start p)) as [Hle|Hlt].
  { injection Hs as <-. rewrite skipn_all2 by lia. by rewrite take_nil. }
  set (stop := wrap64 (pg_start p + pg_size p)) in *.
  destruct (Z.ltb_spec (Z.of_nat (length items)) stop) as [Hl|Hl];
    destruct (_ && _ && _) eqn:Hb; try done; injection Hs as <-;
    rewrite !andb_true_iff, !Z.leb_le in Hb; destruct Hb as [[Hb1 Hb2] Hb3].
  all: assert (Hst' : stop = (pg_start p + pg_size p)%Z) by (apply wrap64_exact; fold stop; lia).
  - rewrite !(take_ge (skipn _ items)); [done|rewrite length_skipn; lia..].
  - rewrite Hst'. f_equal. lia.
Qed.

Lemma first_list_ext keys rs rs' :
  (forall k, k ∈ keys -> assoc k rs = assoc k rs') -> first_list keys rs = first_list keys rs'.
Proof.
  induction keys as [|k ks IH]; intros Hk; simpl; [done|].
  rewrite (Hk k), IH; [done|..]; [intros k' Hin; apply Hk; by right|by left].
Qed.

(** The counts are not the list. *)
Lemma listed_redacted n node : listed (redactCountMetadata n node) = listed node.
Proof.
  induction node as [| | | |l _|fs IH] using json_ind'; try done. cbn [redactCountMetadata listed].
  f_equal. apply first_list_ext. intros k Hin.
  assert (Hc : contains_str count_keys k = false).
  { assert (Hall : forallb (fun k => negb (contains_str count_keys k)) list_keys = true)
      by reflexivity.
    rewrite forallb_forall in Hall. by apply negb_true_iff, Hall, list_elem_of_In. }
  clear Hin. induction fs as [|[k0 v] fs IHfs]; [done|].
  apply Forall_cons in IH as [Hv IH]. cbn [map assoc].
  destruct (String.eqb_spec k k0) as [<-|]; [|by apply IHfs].
  rewrite Hc. cbn [snd] in Hv. by destruct (contains_str nested_keys k); rewrite ?Hv.
Qed.

Section keep_facts.
Context `{Unicode} `{Regexps}.

Lemma keep_owned_user_spec tok item item' :
  keep_owned_user tok item = Some item' ->
  item' = item /\ exists u, DecodeUser (Marshal item) = Ok u /\ owned (tok_Constraints tok) u.
Proof.
  unfold keep_owned_user. destruct (DecodeUser (Marshal item)) as [u|]; [|done].
  destruct (OwnsUser (Some tok) u) as [[]|] eqn:Ho; [|done]. intros [= <-].
  split; [done|]. exists u. split; [done|]. by apply OwnsUser_Ok.
Qed.

Lemma elem_of_omap_inv {A B} (f : A -> option B) (l : list A) (y : B) :
  y ∈ omap f l -> exists x, x ∈ l /\ f x = Some y.
Proof. by rewrite list_elem_of_omap. Qed.

(** An item that decodes to a user the token owns. *)
Definition owned_item (tok : TokenPolicy) (item : json) : Prop :=
  exists u, DecodeUser (Marshal item) = Ok u /\ owned (tok_Constraints tok) u.

Lemma keep_owned_user_Some tok item :
  is_Some (keep_owned_user tok item) <-> owned_item tok item.
Proof.
  unfold keep_owned_user, owned_item. destruct (DecodeUser (Marshal item)) as [u|].
  - destruct (OwnsUser (Some tok) u) as [[]|] eqn:Ho; simpl.
    + split; [|by eexists]. intros _. exists u. split; [done|]. by apply OwnsUser_Ok.
    + split; [by intros []|]. intros (u' & [= <-] & Hu%OwnsUser_Ok). congruence.
  - split; [by intros []|]. by intros (u & ? & _).
Qed.

#[export] Instance owned_item_dec tok item : base.Decision (owned_item tok item).
Proof.
  refine (cast_if (decide (is_Some (keep_owned_user tok item))));
    by rewrite <- keep_owned_user_Some.
Defined.

Lemma keep_owned_users tok (items : list json) :
  omap (keep_owned_user tok) items = filter (owned_item tok) items.
Proof.
  induction items as [|x items IH]; [done|]. rewrite filter_cons, <- IH. simpl.
  pose proof (keep_owned_user_Some tok x) as Hx. case_decide as Ho.
  - apply Hx in Ho as [y Hy]. by destruct (keep_owned_user_spec _ _ _ Hy) as [-> _]; rewrite Hy.
  - destruct (keep_owned_user tok x); [|done]. by destruct Ho; apply Hx.
Qed.

Lemma filtered_squads allowed root v n :
  filterListNodePaged None (keep_squad allowed) root = Filtered v n ->
  exists all shown, listed root = Some all /\ listed v = Some shown /\
    (forall item, item ∈ shown -> exists orig, orig ∈ all /\
       item = sanitizeSquadListObject orig /\
       (allowed = [] \/ objectUUID orig ∈ allowed)).
Proof.
  intros Hf. pose proof (filterListNodePaged_spec None (keep_squad allowed) root) as Hspec.
  unfold filter_spec in Hspec. rewrite Hf in Hspec.
  destruct Hspec as (l & l' & Hl & Hs & Hv & Hn). exists l, l'. split_and!; try done.
  intros item Hin. simpl in Hs. injection Hs as <-.
  apply elem_of_omap_inv in Hin as (x & Hx & Hk). exists x. unfold keep_squad in Hk.
  destruct (is_nil allowed || contains_str allowed (objectUUID x)) eqn:Ha; [|done].
  injection Hk as <-. split_and!; try done.
  apply orb_true_iff in Ha as [Ha|Ha]; [left; by apply is_nil_true|].
  right. by apply contains_str_spec.
Qed.
End keep_facts.

(** *** Squads *)

(** No object with a uuid, neither here nor in a wrapper. *)
Inductive no_squad : json -> Prop :=
  | no_object node : (forall fs, node <> JObj fs) -> no_squad node
  | no_child fs : objectUUID (JObj fs) = "" ->
      (forall k v, k ∈ squad_wrappers -> assoc k fs = Some v -> no_squad v) -> no_squad (JObj fs).

(** A tree, and the same with the fields of its squad cut down: the squad is the
    first object with a uuid, the wrappers tried in their order; nothing else
    differs. *)
Inductive squad_redacted : json -> json -> Prop :=
  | squad_here fs fs' : objectUUID (JObj fs) <> "" ->
      (forall k, assoc k fs' = if bool_decide (k ∈ squad_fields) then assoc k fs else None) ->
      squad_redacted (JObj fs) (JObj fs')
  | squad_under before k after fs v v' : objectUUID (JObj fs) = "" ->
      squad_wrappers = before ++ k :: after ->
      (forall k0 v0, k0 ∈ before -> assoc k0 fs = Some v0 -> no_squad v0) ->
      assoc k fs = Some v -> squad_redacted v v' ->
      squad_redacted (JObj fs) (JObj (assoc_set k v' fs)).

Lemma first_some_spec {A} keys (rs : list (string * option A)) :
  match first_some keys rs with
  | Some (k, a) => exists before after, keys = before ++ k :: after /\
      assoc k rs = Some (Some a) /\ forall k0 o, k0 ∈ before -> assoc k0 rs = Some o -> o = None
  | None => forall k o, k ∈ keys -> assoc k rs = Some o -> o = None
  end.
Proof.
  induction keys as [|k ks IH]; simpl; [by intros k o ?%not_elem_of_nil|].
  destruct (assoc k rs) as [[a|]|] eqn:Hk.
  { exists [], ks. split_and!; [done..|]. by intros k0 o ?%not_elem_of_nil. }
  all: destruct (first_some ks rs) as [[k' a]|];
    [destruct IH as (before & after & -> & Ha & Hb); exists (k :: before), after;
     split_and!; [done..|]; intros k0 o [->|Hin]%elem_of_cons; [congruence|by apply Hb]
    |intros k0 o [->|Hin]%elem_of_cons; [congruence|by apply IH]].
Qed.

Lemma sanitizeSquadNode_spec node :
  match sanitizeSquadNode node with
  | Some node' => squad_redacted node node'
  | None => no_squad node
  end.
Proof.
  induction node as [| | | |l _|fs IH] using json_ind'; try by apply no_object.
  assert (Hfs : forall k v, assoc k fs = Some v ->
    match sanitizeSquadNode v with Some v' => squad_redacted v v' | None => no_squad v end).
  { intros k v Hin%assoc_In%list_elem_of_In. rewrite Forall_forall in IH. by apply (IH (k, v)). }
  cbn [sanitizeSquadNode]. destruct (String.eqb_spec (objectUUID (JObj fs)) "") as [He|Hne].
  - cbn [negb]. pose proof (first_some_spec squad_wrappers
      (map (fun '(k, v) => (k, sanitizeSquadNode v)) fs)) as Hf.
    destruct (first_some _ _) as [[k v']|].
    + destruct Hf as (before & after & Hw & Hk & Hb). rewrite assoc_map in Hk.
      destruct (assoc k fs) as [v|] eqn:Hv; [|done]. injection Hk as Hk.
      pose proof (Hfs k v Hv) as Hr. rewrite Hk in Hr.
      eapply squad_under; [exact He|exact Hw| |exact Hv|exact Hr].
      intros k0 v0 Hin Hv0. pose proof (Hfs k0 v0 Hv0) as H0.
      rewrite (Hb k0 (sanitizeSquadNode v0)) in H0; [done|done|].
      by rewrite assoc_map, Hv0.
    + apply no_child; [done|]. intros k v Hk Hv. pose proof (Hfs k v Hv) as Hn.
      rewrite (Hf k (sanitizeSquadNode v)) in Hn; [done|done|]. by rewrite assoc_map, Hv.
  - cbn [negb]. apply squad_here; [done|]. intros k.
    change (assoc k (List.filter (fun kv => contains_str squad_fields (fst kv)) fs) =
      if bool_decide (k ∈ squad_fields) then assoc k fs else None).
    rewrite (assoc_filter (contains_str squad_fields)).
    destruct (bool_decide_reflect (k ∈ squad_fields)) as [Hin|Hin].
    + by rewrite (proj2 (contains_str_spec _ _) Hin).
    + by rewrite (proj2 (contains_str_false _ _) Hin).
Qed.

(** A squad in wrappers that hold nothing else. *)
Definition wrap_in (ks : list string) (node : json) : json :=
  fold_right (fun k n => JObj [(k, n)]) node ks.

Lemma wrap_redacted ks node out :
  Forall (fun k => k ∈ squad_wrappers) ks -> (exists fs, node = JObj fs) ->
  objectUUID node <> "" -> squad_redacted (wrap_in ks node) out ->
  exists fs', out = wrap_in ks (JObj fs') /\ forall k, is_Some (assoc k fs') -> k ∈ squad_fields.
Proof.
  intros Hks (fs & ->) Hu. revert out. induction Hks as [|k ks Hk _ IH]; intros out Hr; simpl in *.
  - inversion Hr as [fs0 fs' _ Hf|]; subst; [|done]. exists fs'. split; [done|].
    intros k Hs. rewrite Hf in Hs. by destruct (bool_decide_reflect (k ∈ squad_fields)), Hs.
  - assert (Hk' : k <> "uuid") by (intros ->; by apply contains_str_spec in Hk).
    inversion Hr as [fs0 fs' Hn|before k1 after fs0 v v' He Hw Hb Hv Hr']; subst.
    + destruct Hn. unfold objectUUID, stringField. cbn [assoc].
      by destruct (String.eqb_spec "uuid" k) as [<-|].
    + simpl in Hv. destruct (String.eqb_spec k1 k) as [->|]; [|done]. injection Hv as <-.
      destruct (IH _ Hr') as (fs' & -> & Hf). exists fs'. split; [|done].
      simpl. by rewrite eqs_refl.
Qed.

(** ** Properties *)


Definition witness_users : json :=
  JObj [("response", JObj [("users", JArr [JObj [("username", JStr "acme_1")];
                                           JObj [("username", JStr "other")]]);
                           ("total", JNum "2")])].

Definition prefix_token (prefix : string) : TokenPolicy := {|
  tok_ID := "t"; tok_Credentials := []; tok_Scopes := []; tok_Disabled := false;
  tok_Constraints := Build_Constraints prefix "" "" "" "" [] [] [] [] [] [] [] [] false
    false false [] [] [] [] 0 false 0 ∅ |}.

Definition user_list : Route :=
  mkRoute "user.list" "GET" "/api/users" PolicyEnforced ["users:read"] [] 0 false [] "" "users".

Definition list_request : Request := {|
  req_ProtoMajor := 1; req_Method := "GET"; req_RequestURI := "/api/users"; req_Host := "h";
  req_Header := ∅; req_RemoteAddr := ""; req_Body := None; req_ContentLength := 0;
  req_bodyCache := None; req_panelAudit := None |}.


(** A read of one user is passed on only for an owned user.  A successful
    upstream answer on the policy-enforced user reads is forwarded unchanged, and
    only when it decodes to exactly one user the token owns, or to no user at
    all. *)
Theorem user_read_owned_or_empty `{Unicode} `{Regexps} route tok r r' :
  enforceResponsePolicy route tok r = Ok r' ->
  rt_Support route = PolicyEnforced -> success r = true ->
  rt_Name route ∈ ["user.read.uuid"; "user.read.username"; "user.read.telegram"] ->
  r' = r /\
  ((exists u, DecodeUser (res_Body r) = Ok u /\ owned (tok_Constraints tok) u) \/
   IsEmptyUserResponse (res_Body r) = true).
Proof.
  unfold enforceResponsePolicy. intros He Hs Hok Hn.
  rewrite Hs, Hok, (proj2 (contains_str_spec _ _) Hn) in He. cbn [negb] in He.
  change (PolicyEnforced <>s? PolicyEnforced) with false in He. cbv iota zeta in He.
  destruct (DecodeUser (res_Body r)) as [u|e].
  - destruct (OwnsUser (Some tok) u) as [[]|] eqn:Ho; [|done]. injection He as <-.
    split; [done|]. left. exists u. split; [done|]. by apply OwnsUser_Ok.
  - destruct (IsEmptyUserResponse (res_Body r)); [|done]. injection He as <-. auto.
Qed.

Lemma user_read_owned_or_empty_witness :
  let R : Regexps := {| regexp_Compile := fun _ => Err "none" |} in
  let r := {| res_StatusCode := 200; res_Header := ∅;
              res_Body := jtext "{'response':{'username':'acme_1'}}" |} in
  (exists u, DecodeUser (res_Body r) = Ok u /\
     owned (H := ascii_only) (tok_Constraints (prefix_token "acme_")) u) \/
  IsEmptyUserResponse (res_Body r) = true.
Proof.
  intros R r.
  apply (@user_read_owned_or_empty ascii_only R
    (mkRoute "user.read.uuid" "GET" "" PolicyEnforced [] [] 0 false [] "" "users")
    (prefix_token "acme_") r r); [vm_compute; reflexivity|reflexivity|reflexivity|].
  left.
Defined.

(** C39: a squad read shows three fields of the squad.  When the policy passes on
    a successful policy-enforced read of a squad, the body is the upstream's with
    one change: of the squad object -- the first object with a uuid, at the top or
    in the wrappers response, squad, internalSquad and externalSquad, tried in that
    order -- no field is left but uuid, name and viewPosition, which are as
    received.  A squad whose wrappers hold nothing else, as Remnawave sends it, is
    thus all cut down to these fields; members beside a wrapper are passed on. *)
Theorem squad_read_redacted `{Unicode} `{Regexps} route tok r r' :
  enforceResponsePolicy route tok r = Ok r' ->
  rt_Support route = PolicyEnforced -> success r = true ->
  rt_Name route ∈ ["squad.internal.read"; "squad.external.read"] ->
  exists root root', Decode (res_Body r) = Some root /\ squad_redacted root root' /\
    res_Body r' = Marshal root' /\
    res_Header r' !! CanonicalHeaderKey "Content-Length" = None /\
    forall ks node, Forall (fun k => k ∈ squad_wrappers) ks -> (exists fs, node = JObj fs) ->
      objectUUID node <> "" -> root = wrap_in ks node ->
      exists fs', root' = wrap_in ks (JObj fs') /\
        forall k, is_Some (assoc k fs') -> k ∈ squad_fields.
Proof.
  unfold enforceResponsePolicy. intros He Hs Hok Hn.
  rewrite Hs, Hok in He. change (PolicyEnforced <>s? PolicyEnforced) with false in He.
  cbn [negb] in He. cbv iota zeta in He. rewrite (proj2 (contains_str_spec _ _) Hn) in He.
  replace (contains_str ["user.read.uuid"; "user.read.username"; "user.read.telegram"]
    (rt_Name route)) with false in He.
  2: { symmetry. apply contains_str_false. intros Hu.
       repeat (apply elem_of_cons in Hn as [Hn|Hn]; [rewrite Hn in Hu;
         by apply contains_str_spec in Hu|]). by apply not_elem_of_nil in Hn. }
  unfold redactSquadResponse in He. destruct (Decode (res_Body r)) as [root|]; [|done].
  pose proof (sanitizeSquadNode_spec root) as Hspec.
  destruct (sanitizeSquadNode root) as [root'|]; [|done]. injection He as <-.
  exists root, root'. split_and!; [done..|apply lookup_delete_eq|].
  intros ks node Hks Hobj Hu ->. by eapply wrap_redacted.
Qed.

Definition squad_read : Route :=
  mkRoute "squad.internal.read" "GET" "/api/internal-squads/{uuid}" PolicyEnforced
    ["squads:read"] [] 0 false [] "" "squads".

Lemma squad_read_redacted_witness :
  let R : Regexps := {| regexp_Compile := fun _ => Err "none" |} in
  let r := {| res_StatusCode := 200; res_Header := ∅;
              res_Body := jtext "{'response':{'uuid':'u','name':'n','inbounds':[1]}}" |} in
  exists fs', jtext "{'response':{'name':'n','uuid':'u'}}" = Marshal (wrap_in ["response"] (JObj fs')) /\
    forall k, is_Some (assoc k fs') -> k ∈ squad_fields.
Proof.
  intros R r.
  destruct (@squad_read_redacted ascii_only R squad_read (prefix_token "") r
    {| res_StatusCode := 200; res_Header := ∅;
       res_Body := jtext "{'response':{'name':'n','uuid':'u'}}" |})
    as (root & root' & Hd & _ & Hb & _ & Hw);
    [vm_compute; reflexivity|reflexivity|reflexivity|vm_compute; left|].
  vm_compute in Hd. injection Hd as <-.
  match type of Hw with context [JObj [("response", ?n)] = _] =>
    destruct (Hw ["response"] n) as (fs' & Hr & Hf) end.
  - by repeat constructor.
  - by eexists.
  - discriminate.
  - reflexivity.
  - exists fs'. split; [rewrite <- Hr; exact Hb|exact Hf].
Defined.

(** What is beside a wrapper is passed on. *)
Example squad_sibling_passed_on :
  option_map Marshal (match Decode (jtext "{'response':{'uuid':'u','inbounds':[1]},'extra':[2]}") with
                      | Some root => sanitizeSquadNode root | None => None end)
  = Some (jtext "{'extra':[2],'response':{'uuid':'u'}}").
Proof. vm_compute. reflexivity. Qed.

(** A defect.  The page of a panel request is computed in 64-bit arithmetic
    on numbers the client chooses, so a large size makes the end of the slice
    negative and the handler panics. *)
Theorem large_page_panics {A} (items : list A) req rawQuery :
  req_panelAudit req <> None ->
  ParseQuery rawQuery = Some [("start", ["1"]); ("size", ["9223372036854775807"])] ->
  2 <= length items ->
  (Z.of_nat (length items) <= int64_max)%Z ->
  slicePage items (panelResponsePage req rawQuery) = None.
Proof.
  intros Hp Hq Hl Hmax. unfold panelResponsePage. destruct (req_panelAudit req); [|done].
  rewrite Hq.
  change (firstPositiveInt [("start", ["1"]); ("size", ["9223372036854775807"])]
            ["size"; "limit"]) with 9223372036854775807%Z.
  change (firstNonNegativeInt [("start", ["1"]); ("size", ["9223372036854775807"])]
            ["start"; "offset"]) with 1%Z.
  unfold slicePage, slice. cbn [pg_start pg_size].
  change (9223372036854775807 <=? 0)%Z with false. change (1 =? 0)%Z with false. cbv iota zeta.
  cbn [pg_start pg_size].
  change (wrap64 (1 + 9223372036854775807)) with (- 9223372036854775808)%Z.
  rewrite (proj2 (Z.ltb_ge _ _)) by lia.
  replace (Z.of_nat (length items) <=? 1)%Z with false by lia. reflexivity.
Qed.

Lemma large_page_panics_witness :
  let req := {| req_ProtoMajor := 1; req_Method := "GET"; req_RequestURI := "/api/users";
                req_Host := "h"; req_Header := ∅; req_RemoteAddr := ""; req_Body := None;
                req_ContentLength := 0; req_bodyCache := None;
                req_panelAudit := Some (Build_panelAuditContext "" "" "" "" "session") |} in
  slicePage [JNull; JNull] (panelResponsePage req "start=1&size=9223372036854775807") = None.
Proof.
  intros req. apply large_page_panics; [discriminate|vm_compute; reflexivity|simpl; lia|].
  vm_compute. discriminate.
Defined.
