(* ===== verification/Proxy.v ===== *)
(** * internal/proxy: what is sent upstream and what is passed back

    The HTTP client is not modelled here: [request_out] is the request handed to
    it, [response_in] what is made of its answer, and Effects.v puts the call in
    between.  Certificate parsing and the path of a parsed base URL come from
    the standard library and are parameters. *)

From S2P Require Import Prelude GoStrings Ratelimit Config ConfigFacts Httputil ResponsePolicy.
From stdpp Require Import options.

Local Open Scope Z_scope.

Class NetFiles := {
  (** [CertPool.AppendCertsFromPEM] *)
  pem_HasCerts : string -> bool;
  (** [tls.LoadX509KeyPair] *)
  tls_LoadKeyPair : string -> string -> res ();
  (** The field [Path] of the parsed base URL. *)
  url_Path : string -> string;
}.

(** ** The proxy *)

Record TLSConfig := {
  tls_InsecureSkipVerify : bool;
  tls_RootCAs : option string;
  tls_Certificate : option (string * string);
}.

Record Proxy := {
  px_cfg : Config;
  px_tls : TLSConfig;
  px_ResponseHeaderTimeout : Z;
  px_bearer : string;
  px_publicAuth : string;
  px_publicAuthName : string;
}.

Section proxy.
Context `{Unicode} `{Host} `{NetFiles}.

Definition loadCAPool (path : string) : res string :=
  let? b := ReadFile path in
  if negb (pem_HasCerts b) then Err "custom CA file has no PEM certificates" else Ok b.

Definition New (cfg : Config) : res Proxy :=
  let up := cfg_Upstream cfg in
  let? pool := if up_CustomCAFile up <>s? ""
               then (let? p := loadCAPool (up_CustomCAFile up) in Ok (Some p))
               else Ok None in
  let? cert := if (up_MTLSCertFile up <>s? "") && (up_MTLSKeyFile up <>s? "")
               then (check? tls_LoadKeyPair (up_MTLSCertFile up) (up_MTLSKeyFile up) then
                     Ok (Some (up_MTLSCertFile up, up_MTLSKeyFile up)))
               else Ok None in
  Ok {| px_cfg := cfg;
        px_tls := {| tls_InsecureSkipVerify := up_AllowInsecureTLS up;
                     tls_RootCAs := pool; tls_Certificate := cert |};
        px_ResponseHeaderTimeout :=
          if up_ResponseHeaderTimeout up =? 0 then 15 * Second
          else up_ResponseHeaderTimeout up;
        px_bearer := ResolveBearer cfg;
        px_publicAuth := TrimSpace (Getenv (ps_AuthHeaderEnv (cfg_PublicSubs cfg)));
        px_publicAuthName := ps_AuthHeaderName (cfg_PublicSubs cfg) |}.

(** ** Requests *)

(** The request given to the client: the parsed base URL with its path and query
    replaced. *)
Record OutRequest := {
  out_Base : string;
  out_Path : string;
  out_RawQuery : string;
  out_Method : string;
  out_Header : Header;
  out_Body : option (res string);
  out_ContentLength : Z;
}.

Definition lowerSet (xs : list string) : gset string := list_to_set (map ToLower xs).

Definition filterHeaders (h : Header) (allowed : list string) : Header :=
  del_all (List.filter (fun name => negb (bool_decide (ToLower name ∈ lowerSet allowed)))
             (map fst (map_to_list h))) h.

(** [for k, v := range m { h.Set(k, v) }] *)
Definition set_all (m : gmap string string) (h : Header) : Header :=
  fold_left (fun h '(k, v) => Set_ k v h) (map_to_list m) h.

Definition outgoing_header (p : Proxy) (publicSub : bool) (h : Header) : Header :=
  let h := StripHopByHop h in
  let h := Del "Authorization" h in
  let h := Set_ "Accept-Encoding" "identity" h in
  if negb publicSub then
    set_all (up_ExtraHeaders (cfg_Upstream (px_cfg p)))
      (Set_ "Authorization" ("Bearer " +:+ px_bearer p) h)
  else
    let ps := cfg_PublicSubs (px_cfg p) in
    let h := set_all (ps_ExtraHeaders ps) (filterHeaders h (ps_RequestHeaderAllowlist ps)) in
    if px_publicAuthName p <>s? "" then Set_ (px_publicAuthName p) (px_publicAuth p) h else h.

Definition request_out (p : Proxy) (r : Request) (path rawQuery : string) (publicSub : bool)
    : OutRequest :=
  let base := up_BaseURL (cfg_Upstream (px_cfg p)) in
  {| out_Base := base;
     out_Path := TrimRight "/" (url_Path base) +:+ path;
     out_RawQuery := rawQuery;
     out_Method := req_Method r;
     out_Header := outgoing_header p publicSub (req_Header r);
     out_Body := req_Body r;
     out_ContentLength := req_ContentLength r |}.

(** ** Responses *)

(** What the client returns; reading the body may fail. *)
Record Reply := {
  rep_StatusCode : Z;
  rep_Header : Header;
  rep_Body : res string;
}.

Definition readLimited (body : res string) (limit : Z) : res string :=
  let? b := body in
  if limit <=? 0 then Ok b
  else if limit <? len b then Err "upstream_response_too_large" else Ok b.

Definition response_in (p : Proxy) (reply : Reply) : res Response :=
  let? body := readLimited (rep_Body reply) (lim_UpstreamBodyBytes (cfg_Limits (px_cfg p))) in
  Ok {| res_StatusCode := rep_StatusCode reply; res_Header := rep_Header reply;
        res_Body := body |}.

Definition hidden_response_names : list string :=
  ["set-cookie"; "authorization"; "proxy-authenticate"; "location";
   "connection"; "proxy-connection"; "keep-alive"; "te"; "trailer"; "transfer-encoding";
   "upgrade"].

Definition protectedResponseHeader (name : string) : bool :=
  let lower := ToLower name in
  contains_str hidden_response_names lower || HasPrefix lower "x-debug".

(** A header of the response that is passed on. *)
Definition passes (publicSub : bool) (allowed : list string) (k : string) : bool :=
  let lower := ToLower k in
  negb (protectedResponseHeader lower) &&
  (negb publicSub || bool_decide (lower ∈ lowerSet allowed)).

Definition add_all (k : string) (vals : list string) (h : Header) : Header :=
  fold_left (fun h v => Add k v h) vals h.

Definition copyHeader (dst src : Header) (publicSub : bool) (allowed : list string) : Header :=
  StripHopByHop (fold_left (fun h '(k, vals) =>
    if passes publicSub allowed k then add_all k vals h else h) (map_to_list src) dst).

(** The header, status and body that are written; [w] is the header of the
    response writer so far. *)
Definition WriteResponse (p : Proxy) (w : Header) (r : Response) (publicSub : bool)
    : Header * Z * string :=
  let ps := cfg_PublicSubs (px_cfg p) in
  let h := copyHeader w (res_Header r) publicSub (ps_ResponseHeaderAllowlist ps) in
  let h := if publicSub then set_all (ps_ExtraResponseHeaders ps) h else h in
  (h, res_StatusCode r, res_Body r).
End proxy.

(** ** Facts on header maps *)

Lemma token_ascii c : is_token c = true -> is_ascii c = true.
Proof. destruct c as [[] [] [] [] [] [] [] []]; vm_compute; congruence. Qed.

Lemma lower_upper c : lower_byte (upper_byte c) = lower_byte c.
Proof. destruct c as [[] [] [] [] [] [] [] []]; reflexivity. Qed.

Lemma lower_lower c : lower_byte (lower_byte c) = lower_byte c.
Proof. destruct c as [[] [] [] [] [] [] [] []]; reflexivity. Qed.

Lemma upper_upper c : upper_byte (upper_byte c) = upper_byte c.
Proof. destruct c as [[] [] [] [] [] [] [] []]; reflexivity. Qed.

Lemma case_kept c :
  is_token (upper_byte c) = is_token c /\ is_token (lower_byte c) = is_token c /\
  (upper_byte c =c? "-") = (c =c? "-") /\ (lower_byte c =c? "-") = (c =c? "-").
Proof. destruct c as [[] [] [] [] [] [] [] []]; vm_compute; auto. Qed.

Lemma canonical_go_token u s : all_bytes is_token (canonical_go u s) = all_bytes is_token s.
Proof.
  revert u. induction s as [|c s IH]; intros u; simpl; [done|]. rewrite IH.
  destruct (case_kept c) as (Hu & Hl & _). by destruct u; rewrite ?Hu, ?Hl.
Qed.

Lemma canonical_go_lower u s :
  map_bytes lower_byte (canonical_go u s) = map_bytes lower_byte s.
Proof.
  revert u. induction s as [|c s IH]; intros u; simpl; [done|]. rewrite IH.
  by destruct u; rewrite ?lower_upper, ?lower_lower.
Qed.

Lemma canonical_go_idem u s : canonical_go u (canonical_go u s) = canonical_go u s.
Proof.
  revert u. induction s as [|c s IH]; intros u; simpl; [done|].
  destruct (case_kept c) as (_ & _ & Hu & Hl).
  destruct u; rewrite ?Hu, ?Hl, IH, ?upper_upper, ?lower_lower; done.
Qed.

(** Canonical keys are fixed points. *)
Lemma canonical_idem name :
  CanonicalHeaderKey (CanonicalHeaderKey name) = CanonicalHeaderKey name.
Proof.
  unfold CanonicalHeaderKey. destruct (all_bytes is_token name) eqn:Ht; [|by rewrite Ht].
  by rewrite canonical_go_token, Ht, canonical_go_idem.
Qed.

Lemma all_bytes_impl (p q : ascii -> bool) s :
  (forall c, p c = true -> q c = true) -> all_bytes p s = true -> all_bytes q s = true.
Proof.
  intros Hpq. induction s as [|c s IH]; simpl; [done|].
  rewrite !andb_true_iff. intros [Hc Hs]. auto.
Qed.

(** Canonical form does not change a name's lower-case form. *)
Lemma canonical_lower `{Unicode} name : ToLower (CanonicalHeaderKey name) = ToLower name.
Proof.
  unfold CanonicalHeaderKey. destruct (all_bytes is_token name) eqn:Ht; [|done].
  unfold ToLower. rewrite !(all_bytes_impl is_token is_ascii) by
    (rewrite ?canonical_go_token; eauto using token_ascii).
  apply canonical_go_lower.
Qed.

Lemma lookup_Set name v h k :
  Set_ name v h !! k = if CanonicalHeaderKey name =s? k then Some [v] else h !! k.
Proof.
  unfold Set_. destruct (String.eqb_spec (CanonicalHeaderKey name) k) as [->|Hne].
  - by apply lookup_insert_eq.
  - by apply lookup_insert_ne.
Qed.

Lemma canonical_Set name v h : canonical h -> canonical (Set_ name v h).
Proof.
  intros Hc k w. rewrite lookup_Set.
  destruct (String.eqb_spec (CanonicalHeaderKey name) k) as [<-|Hne]; [|apply Hc].
  intros _. apply canonical_idem.
Qed.

Lemma canonical_Del name h : canonical h -> canonical (Del name h).
Proof. intros Hc k w. rewrite lookup_Del. case_match; [done|]. apply Hc. Qed.

Lemma lookup_Add name v h k :
  Add name v h !! k =
  if CanonicalHeaderKey name =s? k then Some (default [] (h !! k) ++ [v]) else h !! k.
Proof.
  unfold Add, Values. destruct (String.eqb_spec (CanonicalHeaderKey name) k) as [->|Hne].
  - by apply lookup_insert_eq.
  - by apply lookup_insert_ne.
Qed.

Lemma lookup_set_all_other (m : gmap string string) h k :
  (forall n v, m !! n = Some v -> CanonicalHeaderKey n <> k) -> set_all m h !! k = h !! k.
Proof.
  intros Hm. unfold set_all.
  assert (Hl : forall n v, In (n, v) (map_to_list m) -> CanonicalHeaderKey n <> k).
  { intros n v Hin%list_elem_of_In%elem_of_map_to_list. by apply (Hm n v). }
  revert h. induction (map_to_list m) as [|[n v] l IH]; intros h; simpl; [done|].
  rewrite IH by (intros; eapply Hl; by right). rewrite lookup_Set.
  rewrite (proj2 (eqs_false _ _)); [done|]. apply (Hl n v). by left.
Qed.

(** A value set by a map comes from the map. *)
Lemma lookup_set_all_from (m : gmap string string) h k v :
  set_all m h !! k = Some v ->
  h !! k = Some v \/ exists n x, m !! n = Some x /\ CanonicalHeaderKey n = k /\ v = [x].
Proof.
  unfold set_all. set (P := fun n x => m !! n = Some x).
  assert (Hl : forall n x, In (n, x) (map_to_list m) -> P n x)
    by (intros n x Hin%list_elem_of_In; by apply elem_of_map_to_list).
  revert h Hl. induction (map_to_list m) as [|[n x] l IH]; intros h Hl; simpl; [by left|].
  intros Hk. apply IH in Hk as [Hk|Hk]; [|by right|by intros; apply Hl; right].
  rewrite lookup_Set in Hk. destruct (String.eqb_spec (CanonicalHeaderKey n) k) as [Heq|Hne];
    [right|by left]. injection Hk as <-. exists n, x. split_and!; try done. apply Hl. by left.
Qed.

(** ** Facts on what is sent and passed back *)

Section proxy_facts.
Context `{Unicode} `{Host} `{Regexps} `{NetParsers} `{NetFiles}.

Lemma outbound_names n :
  protectedOutboundHeader n = false -> ToLower n ∉ protected_outbound_names /\
  HasPrefix (ToLower n) "proxy-" = false.
Proof.
  unfold protectedOutboundHeader. destruct (validHeaderName n); cbn [negb]; [|done].
  destruct (HasPrefix (ToLower n) "x-forwarded-"); cbn [orb]; [done|].
  destruct (HasPrefix (ToLower n) "proxy-"); [done|]. by intros Hn%contains_str_false.
Qed.

(** An unprotected name never sets a protected header. *)
Lemma unprotected_ne n k :
  protectedOutboundHeader n = false -> ToLower k ∈ protected_outbound_names ->
  CanonicalHeaderKey n <> k.
Proof.
  intros [Hn _]%outbound_names Hk <-. by rewrite canonical_lower in Hk.
Qed.

Lemma rejected_names bad msg (m : gmap string string) n v :
  each (reject_header bad msg) (map fst (map_to_list m)) = Ok () -> m !! n = Some v ->
  bad n = false.
Proof.
  rewrite each_Forall, Forall_forall. intros Hall Hn.
  assert (Hin : n ∈ map fst (map_to_list m)).
  { apply list_elem_of_In, in_map_iff. exists (n, v). split; [done|].
    by apply list_elem_of_In, elem_of_map_to_list. }
  apply Hall, deny_if_Ok in Hin as [Hb _]. done.
Qed.

(** The header rules of a validated configuration. *)
Record safe_headers (c : Config) : Prop := {
  sh_upstream : forall n v, up_ExtraHeaders (cfg_Upstream c) !! n = Some v ->
    protectedOutboundHeader n = false;
  sh_public : forall n v, ps_ExtraHeaders (cfg_PublicSubs c) !! n = Some v ->
    protectedOutboundHeader n = false;
  sh_auth : ps_AuthHeaderName (cfg_PublicSubs c) <> "" ->
    protectedOutboundHeader (ps_AuthHeaderName (cfg_PublicSubs c)) = false;
  sh_response : forall n v, ps_ExtraResponseHeaders (cfg_PublicSubs c) !! n = Some v ->
    Config.protectedResponseHeader n = false;
}.

Lemma Validate_safe_headers c : Validate c = Ok () -> safe_headers c.
Proof.
  intros (_ & _ & _ & _ & _ & _ & Hps & _ & _ & Hup)%Validate_Ok.
  unfold validate_public_subs in Hps. destruct (regexp_Compile _); [|done].
  apply deny_if_Ok in Hps as [Ha Hps]. apply deny_if_Ok in Hps as [_ Hps].
  apply deny_if_Ok in Hps as [_ Hps].
  destruct (each _ (ps_RequestHeaderAllowlist _)) as [[]|]; [|done].
  destruct (each _ (ps_ResponseHeaderAllowlist _)) as [[]|]; [|done].
  destruct (each _ (map fst (map_to_list (ps_ExtraResponseHeaders _)))) as [[]|] eqn:Hr; [|done].
  destruct (each _ (map fst (map_to_list (ps_ExtraHeaders _)))) as [[]|] eqn:He; [|done].
  split.
  - intros n v. exact (rejected_names _ _ _ n v Hup).
  - intros n v. exact (rejected_names _ _ _ n v He).
  - intros Hne. by apply andb_false_iff in Ha as [Ha%negb_false_iff%eqs_true|Ha].
  - intros n v. exact (rejected_names _ _ _ n v Hr).
Qed.

Lemma lookup_filterHeaders h allowed k :
  canonical h ->
  filterHeaders h allowed !! k =
  if bool_decide (ToLower k ∈ lowerSet allowed) then h !! k else None.
Proof.
  intros Hc. unfold filterHeaders. rewrite lookup_del_all.
  set (names := List.filter _ _).
  assert (Hn : forall v, h !! k = Some v ->
    hits names k = negb (bool_decide (ToLower k ∈ lowerSet allowed))).
  { intros v Hk. apply eq_true_iff_eq. unfold hits. rewrite existsb_exists. split.
    - intros (n & Hin & Heq%eqs_true). apply List.filter_In in Hin as [Hin Hp].
      apply in_map_iff in Hin as ([n' v'] & <- & Hin%list_elem_of_In%elem_of_map_to_list).
      simpl in *. rewrite (Hc _ _ Hin) in Heq. by subst.
    - intros Hp. exists k. rewrite (Hc _ _ Hk), eqs_refl. split; [|done].
      apply List.filter_In. split; [|done]. apply in_map_iff. exists (k, v).
      split; [done|]. by apply list_elem_of_In, elem_of_map_to_list. }
  destruct (h !! k) as [v|] eqn:Hk.
  - rewrite (Hn v) by done. by destruct (bool_decide _).
  - by destruct (hits names k), (bool_decide _).
Qed.

Lemma canonical_Strip h : canonical h -> canonical (StripHopByHop h).
Proof. intros Hc k v. rewrite StripHopByHop_lookup by done. case_match; [done|]. apply Hc. Qed.

(** The headers of every request before the choice of credentials. *)
Definition stripped (h : Header) : Header :=
  Set_ "Accept-Encoding" "identity" (Del "Authorization" (StripHopByHop h)).

Lemma canonical_stripped h : canonical h -> canonical (stripped h).
Proof. intros Hc. by apply canonical_Set, canonical_Del, canonical_Strip. Qed.

Lemma stripped_authorization h : stripped h !! "Authorization" = None.
Proof.
  unfold stripped. rewrite lookup_Set, lookup_Del.
  change (CanonicalHeaderKey "Accept-Encoding" =s? "Authorization") with false.
  by change (CanonicalHeaderKey "Authorization" =s? "Authorization") with true.
Qed.

Lemma New_spec cfg p :
  New cfg = Ok p -> px_cfg p = cfg /\ px_bearer p = ResolveBearer cfg /\
  px_publicAuthName p = ps_AuthHeaderName (cfg_PublicSubs cfg).
Proof.
  unfold New. intros Hn.
  repeat match type of Hn with
  | match ?x with _ => _ end = _ => destruct x; [|done]
  end. by injection Hn as <-.
Qed.

Lemma private_authorization cfg p h :
  safe_headers cfg -> New cfg = Ok p ->
  outgoing_header p false h !! "Authorization" = Some ["Bearer " +:+ ResolveBearer cfg].
Proof.
  intros Hs (Hcfg & Hb & _)%New_spec. unfold outgoing_header. cbn [negb].
  rewrite Hcfg, Hb, lookup_set_all_other.
  - rewrite lookup_Set. by change (CanonicalHeaderKey "Authorization" =s? "Authorization") with true.
  - intros n v Hn. eapply unprotected_ne; [by eapply sh_upstream|].
    by apply contains_str_spec.
Qed.

(** The headers in which a client sends a credential to a server or proxy. *)
Definition client_credentials : list string := ["Authorization"; "Proxy-Authorization"].

(** A header of the client that is passed on as it is. *)
Definition passed_on (client : Header) (k : string) (v : list string) : Prop :=
  client !! k = Some v /\ hop_by_hop client k = false /\ k ∉ client_credentials.

(** A header the configuration adds. *)
Definition added (extra : gmap string string) (k : string) (v : list string) : Prop :=
  exists n x, extra !! n = Some x /\ CanonicalHeaderKey n = k /\ v = [x].

(** Where a header of a request made with the panel's bearer comes from. *)
Inductive private_origin (p : Proxy) (client : Header) (k : string) (v : list string) : Prop :=
  | private_bearer : k = "Authorization" -> v = ["Bearer " +:+ px_bearer p] ->
      private_origin p client k v
  | private_encoding : k = "Accept-Encoding" -> v = ["identity"] -> private_origin p client k v
  | private_extra : added (up_ExtraHeaders (cfg_Upstream (px_cfg p))) k v ->
      private_origin p client k v
  | private_client : passed_on client k v -> private_origin p client k v.

(** The same for a public subscription. *)
Inductive public_origin (p : Proxy) (client : Header) (k : string) (v : list string) : Prop :=
  | public_auth : px_publicAuthName p <> "" -> k = CanonicalHeaderKey (px_publicAuthName p) ->
      v = [px_publicAuth p] -> public_origin p client k v
  | public_extra : added (ps_ExtraHeaders (cfg_PublicSubs (px_cfg p))) k v ->
      public_origin p client k v
  | public_encoding : k = "Accept-Encoding" -> v = ["identity"] ->
      ToLower k ∈ lowerSet (ps_RequestHeaderAllowlist (cfg_PublicSubs (px_cfg p))) ->
      public_origin p client k v
  | public_client : passed_on client k v ->
      ToLower k ∈ lowerSet (ps_RequestHeaderAllowlist (cfg_PublicSubs (px_cfg p))) ->
      public_origin p client k v.

Lemma stripped_from h k v :
  canonical h -> stripped h !! k = Some v ->
  (k = "Accept-Encoding" /\ v = ["identity"]) \/ passed_on h k v.
Proof.
  intros Hc Hk. unfold stripped in Hk. rewrite lookup_Set, lookup_Del in Hk.
  destruct (String.eqb_spec (CanonicalHeaderKey "Accept-Encoding") k) as [<-|_].
  { injection Hk as <-. by left. }
  destruct (String.eqb_spec (CanonicalHeaderKey "Authorization") k) as [|Ha]; [done|].
  rewrite StripHopByHop_lookup in Hk by done. destruct (hop_by_hop h k) eqn:Hh; [done|].
  right. split_and!; [done..|]. intros Hin. unfold client_credentials in Hin.
  apply elem_of_cons in Hin as [->|Hin%list_elem_of_singleton]; [by apply Ha|subst k].
  revert Hh. unfold hop_by_hop. change (hits hop_names "Proxy-Authorization") with true.
  by rewrite orb_true_r.
Qed.

Lemma private_from p h k v :
  canonical h -> outgoing_header p false h !! k = Some v -> private_origin p h k v.
Proof.
  intros Hc Hk. unfold outgoing_header in Hk. cbn [negb] in Hk. fold (stripped h) in Hk.
  apply lookup_set_all_from in Hk as [Hk|(n & x & Hn)]; [|apply private_extra; by exists n, x].
  rewrite lookup_Set in Hk.
  destruct (String.eqb_spec (CanonicalHeaderKey "Authorization") k) as [<-|_].
  { injection Hk as <-. by apply private_bearer. }
  apply stripped_from in Hk as [[-> ->]|Hk]; [by apply private_encoding|by apply private_client|done].
Qed.

Lemma public_from p h k v :
  canonical h -> outgoing_header p true h !! k = Some v -> public_origin p h k v.
Proof.
  intros Hc Hk. unfold outgoing_header in Hk. cbn [negb] in Hk. fold (stripped h) in Hk.
  set (ps := cfg_PublicSubs (px_cfg p)) in *.
  assert (Hs : set_all (ps_ExtraHeaders ps)
      (filterHeaders (stripped h) (ps_RequestHeaderAllowlist ps)) !! k = Some v ->
    public_origin p h k v).
  { intros [Hf|(n & x & Hn)]%lookup_set_all_from; [|apply public_extra; by exists n, x].
    rewrite lookup_filterHeaders in Hf by (by apply canonical_stripped).
    destruct (bool_decide_reflect (ToLower k ∈ lowerSet (ps_RequestHeaderAllowlist ps)))
      as [Ha|]; [|done].
    apply stripped_from in Hf as [[-> ->]|Hf];
      [by apply public_encoding|by apply public_client|done]. }
  destruct (String.eqb_spec (px_publicAuthName p) "") as [|Hne]; [by apply Hs|].
  cbn [negb] in Hk. rewrite lookup_Set in Hk.
  destruct (String.eqb_spec (CanonicalHeaderKey (px_publicAuthName p)) k) as [<-|_];
    [|by apply Hs]. injection Hk as <-. by apply public_auth.
Qed.

(** With a validated configuration the client's credentials are never passed on,
    and the configuration adds none of them. *)
Lemma public_no_credentials cfg p h k :
  safe_headers cfg -> New cfg = Ok p -> canonical h -> k ∈ client_credentials ->
  outgoing_header p true h !! k = None.
Proof.
  intros Hs (Hcfg & _ & Hname)%New_spec Hc Hk.
  destruct (outgoing_header p true h !! k) as [v|] eqn:Ho; [exfalso|done].
  assert (Hp : forall n, protectedOutboundHeader n = false -> CanonicalHeaderKey n <> k).
  { intros n [Hn Hpre]%outbound_names <-. unfold client_credentials in Hk.
    apply elem_of_cons in Hk as [Hk|Hk%list_elem_of_singleton]; apply (f_equal ToLower) in Hk;
      rewrite canonical_lower in Hk.
    - rewrite Hk in Hn. apply Hn. by apply contains_str_spec.
    - by rewrite Hk in Hpre. }
  apply public_from in Ho as [Hne Hpk _|(n & x & Hn & Heq & _)|Hpk _ _|(_ & _ & Hn) _];
    [subst k; rewrite Hname in *|rewrite Hcfg in Hn|subst k|done|done].
  - by eapply Hp; [apply sh_auth|].
  - by eapply Hp; [eapply sh_public|].
  - by apply contains_str_spec in Hk.
Qed.

Lemma private_no_proxy_credentials cfg p h :
  safe_headers cfg -> New cfg = Ok p -> canonical h ->
  outgoing_header p false h !! "Proxy-Authorization" = None.
Proof.
  intros Hs (Hcfg & _ & _)%New_spec Hc.
  destruct (outgoing_header p false h !! "Proxy-Authorization") as [v|] eqn:Ho; [exfalso|done].
  apply private_from in Ho as [?|?|(n & x & Hn & Heq & _)|(_ & _ & Hn)]; try done.
  - rewrite Hcfg in Hn. apply (sh_upstream _ Hs) in Hn. apply outbound_names in Hn as [_ Hpre].
    apply (f_equal ToLower) in Heq. rewrite canonical_lower in Heq. by rewrite Heq in Hpre.
  - apply Hn. by apply contains_str_spec.
Qed.

(** *** Responses *)

Lemma add_all_from k vals h k' v :
  add_all k vals h !! k' = Some v -> h !! k' <> None \/ CanonicalHeaderKey k = k'.
Proof.
  unfold add_all. revert h. induction vals as [|x vals IH]; intros h; simpl.
  { intros ->. by left. }
  intros [Hl|Hl]%IH; [|by right]. rewrite lookup_Add in Hl.
  destruct (String.eqb_spec (CanonicalHeaderKey k) k'); [by right|by left].
Qed.

Lemma hidden_lower x : x ∈ hidden_response_names -> ToLower x = x.
Proof.
  unfold hidden_response_names. intros Hx.
  repeat (apply elem_of_cons in Hx as [->|Hx]; [reflexivity|]). by apply not_elem_of_nil in Hx.
Qed.

Lemma passes_visible pub allowed k :
  passes pub allowed k = true -> ToLower k ∉ hidden_response_names.
Proof.
  unfold passes, protectedResponseHeader. intros [Hp _]%andb_true_iff Hin.
  rewrite (hidden_lower _ Hin) in Hp. apply contains_str_spec in Hin. by rewrite Hin in Hp.
Qed.

Lemma copy_from dst src pub allowed k v :
  fold_left (fun h '(k, vals) => if passes pub allowed k then add_all k vals h else h)
    (map_to_list src) dst !! k = Some v ->
  dst !! k <> None \/ exists k', CanonicalHeaderKey k' = k /\ passes pub allowed k' = true.
Proof.
  revert dst. induction (map_to_list src) as [|[k' vals] l IH]; intros dst; simpl.
  { intros ->. by left. }
  intros [Hd|Hd]%IH; [|by right]. destruct (passes pub allowed k') eqn:Hp; [|by left].
  destruct (add_all k' vals dst !! k) as [w|] eqn:Ha; [|done].
  apply add_all_from in Ha as [Ha|Ha]; [by left|right; eauto].
Qed.

Lemma del_all_from names h k v : del_all names h !! k = Some v -> h !! k = Some v.
Proof. rewrite lookup_del_all. by case_match. Qed.

Lemma Strip_from h k v : StripHopByHop h !! k = Some v -> h !! k = Some v.
Proof. intros Hk. by do 3 apply del_all_from in Hk. Qed.

(** Where a header of the written response comes from. *)
Lemma response_from p w r pub k v :
  fst (fst (WriteResponse p w r pub)) !! k = Some v ->
  w !! k <> None \/
  (exists k', CanonicalHeaderKey k' = k /\
    passes pub (ps_ResponseHeaderAllowlist (cfg_PublicSubs (px_cfg p))) k' = true) \/
  (pub = true /\ exists n, CanonicalHeaderKey n = k /\
    is_Some (ps_ExtraResponseHeaders (cfg_PublicSubs (px_cfg p)) !! n)).
Proof.
  unfold WriteResponse. cbn [fst]. intros Hk.
  assert (Hc : copyHeader w (res_Header r) pub
    (ps_ResponseHeaderAllowlist (cfg_PublicSubs (px_cfg p))) !! k = Some v \/
    (pub = true /\ exists n, CanonicalHeaderKey n = k /\
    is_Some (ps_ExtraResponseHeaders (cfg_PublicSubs (px_cfg p)) !! n))).
  { destruct pub; [|by left]. apply lookup_set_all_from in Hk as [Hk|(n & x & Hn & Heq & _)];
      [by left|right]. split; [done|]. exists n. split; [done|by exists x]. }
  destruct Hc as [Hc|Hc]; [|by right; right].
  apply Strip_from, copy_from in Hc as [Hc|Hc]; auto.
Qed.

Lemma response_name n :
  Config.protectedResponseHeader n = false -> ToLower n ∉ hidden_response_names.
Proof.
  unfold Config.protectedResponseHeader. intros Hn.
  destruct (protectedOutboundHeader n) eqn:Ho; [done|]. apply eqs_false in Hn.
  apply outbound_names in Ho as [Ho Hp]. revert Ho Hp Hn. generalize (ToLower n). intros x Ho Hp Hn Hin.
  assert (Hall : forallb (fun y => (y =s? "location") || HasPrefix y "proxy-" ||
    contains_str protected_outbound_names y) hidden_response_names = true) by reflexivity.
  rewrite forallb_forall in Hall. apply list_elem_of_In, Hall in Hin.
  rewrite Hp, orb_false_r in Hin. apply orb_true_iff in Hin as [Hin%eqs_true|Hin]; [done|].
  by apply contains_str_spec in Hin.
Qed.
End proxy_facts.

(** ** Properties *)

(** Credentials are replaced.  With a validated configuration every request
    to the panel carries exactly the configured bearer, whatever the client sent,
    and a public subscription request carries no Authorization at all; every
    header comes from the configuration or is one of the client's, unchanged. *)
Theorem outgoing_credentials `{Unicode} `{Host} `{Regexps} `{NetParsers} `{NetFiles} cfg p h :
  Validate cfg = Ok () -> New cfg = Ok p -> canonical h ->
  outgoing_header p false h !! "Authorization" = Some ["Bearer " +:+ ResolveBearer cfg] /\
  outgoing_header p true h !! "Authorization" = None /\
  (forall k v, outgoing_header p false h !! k = Some v -> private_origin p h k v) /\
  (forall k v, outgoing_header p true h !! k = Some v -> public_origin p h k v).
Proof.
  intros Hv%Validate_safe_headers Hp Hc. split_and!.
  - by apply private_authorization.
  - eapply public_no_credentials; [done..|]. by apply contains_str_spec.
  - intros k v. by apply private_from.
  - intros k v. by apply public_from.
Qed.

Definition example_files : NetFiles := {|
  pem_HasCerts := fun _ => true; tls_LoadKeyPair := fun _ _ => Ok (); url_Path := fun _ => "/" |}.

Definition example_proxy : Proxy := {|
  px_cfg := example_config;
  px_tls := {| tls_InsecureSkipVerify := false; tls_RootCAs := None; tls_Certificate := None |};
  px_ResponseHeaderTimeout := 15 * Second; px_bearer := "upstream-secret";
  px_publicAuth := ""; px_publicAuthName := "" |}.

Definition client_header : Header :=
  Set_ "Authorization" "Bearer rg_x.y" (Set_ "User-Agent" "clash" ∅).

Lemma client_header_canonical : canonical client_header.
Proof.
  apply canonical_Set, canonical_Set. intros k v Hk.
  discriminate Hk.
Qed.

Lemma outgoing_credentials_witness :
  outgoing_header (H := ascii_only) example_proxy false client_header !! "Authorization"
  = Some ["Bearer " +:+ ResolveBearer (H0 := example_host) example_config].
Proof.
  refine (proj1 (outgoing_credentials (H := ascii_only) (H0 := example_host)
    (H1 := example_regexps) (H2 := example_parsers) (H3 := example_files) example_config
    example_proxy client_header _ _ client_header_canonical)); vm_compute; reflexivity.
Defined.

(** C19: hidden response headers stay hidden.  A response written to a fresh
    writer under a validated configuration has no cookie, credential, redirect
    or connection header, and a public one has only allow-listed or configured
    names. *)
Theorem response_headers_safe `{Unicode} `{Host} `{Regexps} `{NetParsers} `{NetFiles}
    cfg p r pub k v :
  Validate cfg = Ok () -> New cfg = Ok p ->
  fst (fst (WriteResponse p ∅ r pub)) !! k = Some v ->
  ToLower k ∉ hidden_response_names /\
  (pub = true ->
     ToLower k ∈ lowerSet (ps_ResponseHeaderAllowlist (cfg_PublicSubs cfg)) \/
     exists n, CanonicalHeaderKey n = k /\
       is_Some (ps_ExtraResponseHeaders (cfg_PublicSubs cfg) !! n)).
Proof.
  intros Hv%Validate_safe_headers (Hcfg & _)%New_spec.
  intros [Hw|[(k' & <- & Hp)|(_ & n & <- & [x Hn])]]%response_from; [done| |]; rewrite Hcfg in *.
  - rewrite canonical_lower. split; [by eapply passes_visible|]. intros ->. left.
    unfold passes in Hp. apply andb_true_iff in Hp as [_ Hp]. by apply bool_decide_eq_true in Hp.
  - split; [|intros _; right; exists n; split; [done|by exists x]].
    rewrite canonical_lower. apply response_name. by eapply sh_response.
Qed.

Lemma response_headers_safe_witness :
  ToLower (H := ascii_only) "Content-Type" ∉ hidden_response_names.
Proof.
  refine (proj1 (response_headers_safe (H := ascii_only) (H0 := example_host)
    (H1 := example_regexps) (H2 := example_parsers)
    (H3 := example_files) example_config example_proxy
    {| res_StatusCode := 200;
       res_Header := <["Set-Cookie" := ["a=b"]]> {["Content-Type" := ["text/plain"]]};
       res_Body := "" |} false "Content-Type" ["text/plain"] _ _ _));
    vm_compute; reflexivity.
Defined.
