(* ===== verification/Effects.v ===== *)
(** * The effects of a request handler

    A handler is a program over the calls it makes on the world outside it: the
    runtime it shares with the other requests (state, limiters, locks, pending
    logins), the clock and the random source, the upstream and Telegram, the
    audit log, the alert queue and the response it writes.  [prog] is the tree of
    the calls it can make, with one branch for every answer; the values the
    handler computes with are ordinary functions of the other files. *)

From S2P Require Import Prelude GoStrings Config Httputil ResponsePolicy Proxy Alerts AuditLog.
From S2P Require Import OAuthStore.
From stdpp Require Import options.

(** ** Calls and answers *)

(** The part of [runtimeState] that does not change once it is stored; its
    limiters and version flag are named by its generation. *)
Record runtimeState := {
  rs_cfg : Config;
  rs_proxy : Proxy;
  rs_generation : Z;
}.

(** The semaphores of a [limitState], and its rate limiters. *)
Inductive limit :=
  | LGlobal
  | LToken (tokenID : string)
  | LSubIP (ip : string).

Inductive rate :=
  | RToken (tokenID : string)
  | RSubIP (ip : string).

#[export] Instance limit_eq_dec : EqDecision limit.
Proof. solve_decision. Defined.

#[export] Instance rate_eq_dec : EqDecision rate.
Proof. solve_decision. Defined.

(** A request made with a client of its own (to Telegram). *)
Record FetchRequest := {
  fq_Method : string;
  fq_URL : string;
  fq_Header : Header;
  fq_Body : string;
}.

Inductive call :=
  | Load                                           (* r.state.Load() *)
  | Acquire (g : Z) (l : limit)
  | Release (g : Z) (l : limit)
  | VersionOK (g : Z)                              (* st.versionOK.Load() *)
  | Allow (g : Z) (r : rate)
  | Lock (key : string)                            (* r.lockResource(key) *)
  | Unlock (key : string)
  | Now                                            (* time.Now() *)
  | Random (n : nat)                               (* rand.Read of n bytes *)
  | PutAttempt (state : string) (attempt : panelOAuthAttempt) (now : Z)
  | TakeAttempt (state : string) (now : Z)
  | Upstream (o : OutRequest)                      (* p.client.Do *)
  | Fetch (q : FetchRequest)
  | Emit (e : Entry)                               (* r.audit.Emit... *)
  | Notify (e : Event)                             (* r.alerts.Notify *)
  | Write (h : Header) (status : Z) (body : string).

Definition answer (c : call) : Type :=
  match c with
  | Load => runtimeState
  | Acquire _ _ | VersionOK _ | Allow _ _ | PutAttempt _ _ _ => bool
  | Now => Z
  | Random _ => option string
  | TakeAttempt _ _ => option panelOAuthAttempt
  | Upstream _ | Fetch _ => res Reply
  | _ => ()
  end.

(** A call with its answer. *)
Inductive obs :=
  | OLoad (s : runtimeState)
  | OAcquire (g : Z) (l : limit) (ok : bool)
  | ORelease (g : Z) (l : limit)
  | OVersionOK (g : Z) (ok : bool)
  | OAllow (g : Z) (r : rate) (ok : bool)
  | OLock (key : string)
  | OUnlock (key : string)
  | ONow (t : Z)
  | ORandom (n : nat) (b : option string)
  | OPut (state : string) (attempt : panelOAuthAttempt) (now : Z) (ok : bool)
  | OTake (state : string) (now : Z) (a : option panelOAuthAttempt)
  | OUpstream (o : OutRequest) (r : res Reply)
  | OFetch (q : FetchRequest) (r : res Reply)
  | OEmit (e : Entry)
  | ONotify (e : Event)
  | OWrite (h : Header) (status : Z) (body : string).

Definition observe (c : call) : answer c -> obs :=
  match c with
  | Load => OLoad
  | Acquire g l => OAcquire g l
  | Release g l => fun _ => ORelease g l
  | VersionOK g => OVersionOK g
  | Allow g r => OAllow g r
  | Lock k => fun _ => OLock k
  | Unlock k => fun _ => OUnlock k
  | Now => ONow
  | Random n => ORandom n
  | PutAttempt s a t => OPut s a t
  | TakeAttempt s t => OTake s t
  | Upstream o => OUpstream o
  | Fetch q => OFetch q
  | Emit e => fun _ => OEmit e
  | Notify e => fun _ => ONotify e
  | Write h s b => fun _ => OWrite h s b
  end.

(** ** Programs *)

Inductive prog (A : Type) : Type :=
  | Ret (a : A)
  | Vis (c : call) (k : answer c -> prog A).
Arguments Ret {A} a.
Arguments Vis {A} c k.

Fixpoint bind {A B} (p : prog A) (f : A -> prog B) : prog B :=
  match p with
  | Ret a => f a
  | Vis c k => Vis c (fun r => bind (k r) f)
  end.

Definition perform (c : call) : prog (answer c) := Vis c Ret.

Notation "'let!' x := p 'in' k" := (bind p (fun x => k))
  (at level 10, x name, p at level 200, k at level 200) : go_scope.
Notation "'do!' p 'then' k" := (bind p (fun _ => k))
  (at level 10, p at level 200, k at level 200) : go_scope.

(** How a handler ends: it returns, or panics, after which the server closes the
    connection.  Deferred calls run in both cases. *)
Inductive outcome := Returned | Panicked.

Definition defer (cleanup : call) (body : prog outcome) : prog outcome :=
  let! o := body in do! perform cleanup then Ret o.

(** ** Executions *)

(** [exec p tr a]: the calls and answers [tr] lead [p] to the result [a]. *)
Fixpoint exec {A} (p : prog A) (tr : list obs) (a : A) : Prop :=
  match p with
  | Ret b => tr = [] /\ a = b
  | Vis c k => exists r tr', tr = observe c r :: tr' /\ exec (k r) tr' a
  end.

(** Running a program against a world that answers. *)
Fixpoint run_in {S A} (world : S -> forall c, answer c * S) (s : S) (p : prog A)
    : A * S * list obs :=
  match p with
  | Ret a => (a, s, [])
  | Vis c k =>
      let '(r, s1) := world s c in
      let '(a, s2, tr) := run_in world s1 (k r) in (a, s2, observe c r :: tr)
  end.

Lemma run_in_exec {S A} world (s : S) (p : prog A) a s' tr :
  run_in world s p = (a, s', tr) -> exec p tr a.
Proof.
  revert s tr. induction p as [b|c k IH]; simpl; intros s tr; [by intros [= <- <- <-]|].
  destruct (world s c) as [r s1]. destruct (run_in world s1 (k r)) as [[a1 s2] tr1] eqn:Hr.
  intros [= <- <- <-]. exists r, tr1. split; [done|]. by eapply IH.
Qed.

Lemma exec_bind {A B} (p : prog A) (f : A -> prog B) tr b :
  exec (bind p f) tr b ->
  exists tr1 tr2 a, tr = tr1 ++ tr2 /\ exec p tr1 a /\ exec (f a) tr2 b.
Proof.
  revert tr. induction p as [a|c k IH]; simpl; intros tr.
  - intros He. by exists [], tr, a.
  - intros (r & tr' & -> & He). apply IH in He as (tr1 & tr2 & a & -> & H1 & H2).
    exists (observe c r :: tr1), tr2, a. split_and!; [done| |done]. by exists r, tr1.
Qed.

(** ** Reasoning about every execution

    [wp G p h Q]: after the history [h] (latest first), every call of [p] meets
    [G] of the history before it, and every result meets [Q]. *)
Section wp.
Context (G : list obs -> call -> Prop).

Fixpoint wp {A} (p : prog A) (h : list obs) (Q : list obs -> A -> Prop) : Prop :=
  match p with
  | Ret a => Q h a
  | Vis c k => G h c /\ forall r, wp (k r) (observe c r :: h) Q
  end.

Lemma wp_bind {A B} (p : prog A) (f : A -> prog B) h Q :
  wp (bind p f) h Q <-> wp p h (fun h' a => wp (f a) h' Q).
Proof.
  revert h. induction p as [a|c k IH]; intros h; simpl; [done|]. by setoid_rewrite IH.
Qed.

Lemma wp_mono {A} (p : prog A) h Q Q' :
  wp p h Q -> (forall h' a, Q h' a -> Q' h' a) -> wp p h Q'.
Proof.
  intros Hp HQ. revert h Hp. induction p as [a|c k IH]; intros h; simpl; [apply HQ|].
  intros [Hc Hk]. eauto.
Qed.

Lemma wp_perform c h Q :
  wp (perform c) h Q <-> G h c /\ forall r, Q (observe c r :: h) r.
Proof. done. Qed.

Lemma wp_exec {A} (p : prog A) h Q tr a :
  wp p h Q -> exec p tr a ->
  Q (rev tr ++ h) a /\
  forall pre ob post, tr = pre ++ ob :: post ->
    exists c r, ob = observe c r /\ G (rev pre ++ h) c.
Proof.
  revert h tr. induction p as [b|c k IH]; simpl; intros h tr.
  - intros HQ [-> ->]. split; [done|]. intros [|] ob post; done.
  - intros [Hc Hk] (r & tr' & -> & He). destruct (IH r _ _ (Hk r) He) as [HQ HG].
    simpl. rewrite <- app_assoc. split; [done|].
    intros [|ob' pre] ob post [= <- Hpost]; simpl.
    + by exists c, r.
    + rewrite <- app_assoc. by eapply HG.
Qed.

(** Conjunction of postconditions. *)
Lemma wp_and {A} (p : prog A) h Q1 Q2 :
  wp p h Q1 -> wp p h Q2 -> wp p h (fun h a => Q1 h a /\ Q2 h a).
Proof.
  revert h. induction p as [a|c k IH]; intros h; simpl; [done|].
  intros [Hc H1] [_ H2]. eauto.
Qed.
End wp.

Lemma wp_weaken {A} (G G' : list obs -> call -> Prop) (p : prog A) h Q :
  (forall h c, G h c -> G' h c) -> wp G p h Q -> wp G' p h Q.
Proof.
  intros HG. revert h. induction p as [a|c k IH]; intros h; simpl; [done|].
  intros [Hc Hk]. eauto.
Qed.

(** A deferred call is made whatever the result. *)
Lemma wp_defer G cleanup body h Q :
  wp G (defer cleanup body) h Q <->
  wp G body h (fun h' o => G h' cleanup /\ forall r, Q (observe cleanup r :: h') o).
Proof. apply wp_bind. Qed.

(** ** The calls a program can make *)

Fixpoint only {A} (P : call -> Prop) (p : prog A) : Prop :=
  match p with
  | Ret _ => True
  | Vis c k => P c /\ forall r, only P (k r)
  end.

Lemma only_bind {A B} P (p : prog A) (f : A -> prog B) :
  only P p -> (forall a, only P (f a)) -> only P (bind p f).
Proof.
  intros Hp Hf. induction p as [a|c k IH]; simpl in *; [apply Hf|].
  destruct Hp as [Hc Hk]. auto.
Qed.

Lemma only_perform P c : P c -> only P (perform c).
Proof. by split. Qed.

Lemma only_defer P cleanup body : P cleanup -> only P body -> only P (defer cleanup body).
Proof. intros Hc Hb. apply only_bind; [done|]. intros o. by apply only_bind. Qed.

Lemma only_mono {A} (P P' : call -> Prop) (p : prog A) :
  (forall c, P c -> P' c) -> only P p -> only P' p.
Proof. intros HP. induction p as [a|c k IH]; simpl; [done|]. intros [Hc Hk]. auto. Qed.

(** What the calls [P] preserve holds throughout and at the end. *)
Lemma wp_only {A} (P : call -> Prop) (I : list obs -> Prop) G (p : prog A) h :
  only P p -> I h ->
  (forall h c r, P c -> I h -> I (observe c r :: h)) -> (forall h c, P c -> I h -> G h c) ->
  wp G p h (fun h' _ => I h').
Proof.
  intros Hp HI HP HG. revert h HI. induction p as [a|c k IH]; simpl in *; intros h HI; [done|].
  destruct Hp as [Hc Hk]. split; [auto|]. intros r. apply IH; auto.
Qed.

Lemma only_true {A} (p : prog A) : only (fun _ => True) p.
Proof. induction p; simpl; auto. Qed.

(** What every call preserves. *)
Lemma wp_kept {A} (I : list obs -> Prop) G (p : prog A) h :
  I h -> (forall h o, I h -> I (o :: h)) -> (forall h c, I h -> G h c) ->
  wp G p h (fun h' _ => I h').
Proof. intros HI HP HG. eapply wp_only; eauto using only_true. Qed.

(** The guard of the call observed at position [n] of an execution. *)
Lemma wp_at {A} G (p : prog A) Q tr a (n : nat) ob :
  wp G p [] Q -> exec p tr a -> tr !! n = Some ob ->
  exists c r, ob = observe c r /\ G (rev (firstn n tr)) c.
Proof.
  intros Hp He Hn. destruct (wp_exec G p [] Q tr a Hp He) as [_ HG].
  destruct (HG (firstn n tr) ob (skipn (S n) tr)) as (c & r & -> & Hc).
  { symmetry. by apply take_drop_middle. }
  exists c, r. by rewrite app_nil_r in Hc.
Qed.

Lemma observe_Upstream c r out rep : observe c r = OUpstream out rep -> c = Upstream out.
Proof. destruct c; try discriminate. simpl. congruence. Qed.
