(* ===== verification/PanelFacade.v ===== *)
(** * internal/server: the panel facade

    Requests of the web panel carry an audit context; they get JSON answers of
    their own, empty lists instead of denials of list reads, and user lists put
    together from several upstream pages.  This file has the functions that
    compute those; the handlers that use them are in Handler.v. *)

From S2P Require Import Prelude GoStrings Encoding Json Config Routes Auth Httputil ResponsePolicy.
From stdpp Require Import options.

Local Open Scope Z_scope.

(** ** url.Values.Encode *)

Definition upper_hex (n : N) : ascii := ascii_of_N (if N.ltb n 10 then 48 + n else 55 + n)%N.

(** Bytes a query component keeps. *)
Definition query_safe (c : ascii) : bool :=
  Utf8.in_range 48 57 (code c) || Utf8.in_range 65 90 (code c) ||
  Utf8.in_range 97 122 (code c) || IndexByte_found "-_.~" c.

Fixpoint QueryEscape (s : string) : string :=
  match s with
  | "" => ""
  | String c s' =>
      if c =c? " " then String "+" (QueryEscape s')
      else if query_safe c then String c (QueryEscape s')
      else String "%" (String (upper_hex (code c / 16)) (String (upper_hex (code c mod 16))
             (QueryEscape s')))
  end.

Definition encode_param (k v : string) : string := QueryEscape k +:+ "=" +:+ QueryEscape v.

(** Keys in byte order. *)
Definition Encode (vs : QueryValues) : string :=
  Join (concat (map (fun '(k, vals) => map (encode_param k) vals) (sort_keys vs))) "&".

Definition values_set (k v : string) (vs : QueryValues) : QueryValues := assoc_set k [v] vs.
Definition values_del (k : string) (vs : QueryValues) : QueryValues := assoc_del k vs.

(** ** The audit context of a request *)

Section facade.
Context `{Unicode}.

Definition bearerToken (header : string) : option string :=
  if negb (HasPrefix header "Bearer ") then None else
  let token := TrimSpace (TrimPrefix header "Bearer ") in
  if token =s? "" then None else Some token.

Definition or_else (next base : string) : string := if next <>s? "" then next else base.

Definition mergePanelAuditContext (base next : panelAuditContext) : panelAuditContext := {|
  pac_ActorType := or_else (pac_ActorType next) (pac_ActorType base);
  pac_ActorID := or_else (pac_ActorID next) (pac_ActorID base);
  pac_DisplayName := or_else (pac_DisplayName next) (pac_DisplayName base);
  pac_CredentialID := or_else (pac_CredentialID next) (pac_CredentialID base);
  pac_AuthEventType := or_else (pac_AuthEventType next) (pac_AuthEventType base);
|}.

Definition panelAuditContextFromRequest (req : Request) : option panelAuditContext :=
  req_panelAudit req.

Definition setPanelAuditContext (req : Request) (ctx : panelAuditContext) : Request :=
  set_panel req (Some (match req_panelAudit req with
                       | Some existing => mergePanelAuditContext existing ctx
                       | None => ctx
                       end)).

Definition event_context (eventType : string) : panelAuditContext :=
  Build_panelAuditContext "" "" "" "" eventType.

Definition setPanelAuditAuthEventType (req : Request) (eventType : string) : Request :=
  if eventType =s? "" then req else setPanelAuditContext req (event_context eventType).

Definition markPanelBearerCandidate (cfg : Config) (req : Request) : Request :=
  if negb (pf_Enabled (cfg_PanelFacade cfg)) then req else
  match panelAuditContextFromRequest req with
  | Some _ => req
  | None =>
      match bearerToken (Get "Authorization" (req_Header req)) with
      | None => req
      | Some token => if HasPrefix token "rg_" then req
                      else setPanelAuditContext req (event_context "session")
      end
  end.

(** A member when its value is not empty. *)
Definition nonempty (key value : string) : list (string * json) :=
  if value <>s? "" then [(key, JStr value)] else [].

Definition status_field (upstreamStatus : Z) : list (string * json) :=
  if upstreamStatus =? 0 then [] else [("upstream_status", JNum (Itoa upstreamStatus))].

(** [None] is the nil map. *)
Definition panelAuditFields (req : Request) (authEventType : string) (upstreamStatus : Z)
    : option (list (string * json)) :=
  match panelAuditContextFromRequest req with
  | None => if upstreamStatus =? 0 then None else Some (status_field upstreamStatus)
  | Some ctx =>
      let authEventType := if authEventType =s? "" then pac_AuthEventType ctx
                           else authEventType in
      Some (nonempty "actor_type" (pac_ActorType ctx) ++
            nonempty "actor_id" (pac_ActorID ctx) ++
            nonempty "display_name" (pac_DisplayName ctx) ++
            nonempty "mapped_credential_id" (pac_CredentialID ctx) ++
            nonempty "auth_event_type" authEventType ++ status_field upstreamStatus)
  end.

(** ** Queries *)

Definition restricted_panel_list (req : Request) (route : Route) (tok : TokenPolicy) : bool :=
  match panelAuditContextFromRequest req with
  | None => false
  | Some _ => (rt_Name route =s? "user.list") && negb (tokenHasPrivilegedScope (Some tok))
  end.

(** [start] and [size] replace every other way to ask for a page. *)
Definition page_values (start size : string) (values : QueryValues) : QueryValues :=
  values_del "limit" (values_del "page" (values_del "offset"
    (values_set "size" size (values_set "start" start values)))).

Definition panelUpstreamRawQuery (req : Request) (route : Route) (tok : TokenPolicy)
    (rawQuery : string) : string :=
  if negb (restricted_panel_list req route tok) then rawQuery else
  match ParseQuery rawQuery with
  | None => rawQuery
  | Some values => Encode (page_values "0" "1000" values)
  end.

Definition panelUserListPageQuery (rawQuery : string) (start size : Z) : string :=
  let values := default [] (ParseQuery rawQuery) in
  Encode (page_values (Itoa start) (Itoa size) values).

(** ** User lists *)

Definition asObject (value : option json) : option (list (string * json)) :=
  match value with Some (JObj fs) => Some fs | _ => None end.

Definition decodeUserListPage (body : string) : res (list json * Z) :=
  let unfilterable := Err "unfilterable_list_response" in
  match Decode body with
  | Some (JObj root) =>
      match asObject (assoc "response" root) with
      | None => unfilterable
      | Some response =>
          match assoc "users" response with
          | Some (JArr users) =>
              let total := match assoc "total" response with
                           | Some (JNum n) => Atoi n
                           | _ => None
                           end in
              Ok (users, default (Z.of_nat (length users)) total)
          | _ => unfilterable
          end
      end
  | Some JNull => unfilterable
  | _ => Err json_error
  end.

(** ** Answers *)

Definition StatusText (status : Z) : string :=
  if status =? 200 then "OK" else if status =? 400 then "Bad Request"
  else if status =? 401 then "Unauthorized" else if status =? 403 then "Forbidden"
  else if status =? 404 then "Not Found" else if status =? 413 then "Request Entity Too Large"
  else if status =? 422 then "Unprocessable Entity" else if status =? 429 then "Too Many Requests"
  else if status =? 500 then "Internal Server Error" else if status =? 502 then "Bad Gateway"
  else if status =? 503 then "Service Unavailable" else "".

Definition isPanelListLikeRead (route : Route) (path : string) : bool :=
  if HasSuffix path "/tags" || HasSuffix path "/inbounds" then true
  else negb (Contains (rt_Pattern route) "{").

Definition panelPolicyDenyStatus (method : string) (route : Route) (path : string) : Z :=
  if method <>s? "GET" then 422
  else if isPanelListLikeRead route path then 200 else 404.

Definition empty_list (key : string) : json := JObj [(key, JArr []); ("total", JNum "0")].

Definition panelEmptyResponse (route : Route) (path : string) : json :=
  let group := rt_Group route in
  if HasSuffix path "/tags" then JObj [("tags", JArr [])]
  else if HasSuffix path "/inbounds" then JObj [("inbounds", JArr [])]
  else if group =s? "users" then empty_list "users"
  else if group =s? "internal-squads" then empty_list "internalSquads"
  else if group =s? "external-squads" then empty_list "externalSquads"
  else if group =s? "config-profiles" then empty_list "configProfiles"
  else if group =s? "subscription-settings" then JObj []
  else if group =s? "subscription-templates" then empty_list "templates"
  else if group =s? "subscription-page-configs" then empty_list "configs"
  else if contains_str ["system"; "bandwidth-stats"; "metadata"] group then JObj []
  else JArr [].

Definition error_body (path message errorCode reason : string) : json :=
  JObj [("path", JStr path); ("message", JStr message); ("errorCode", JStr errorCode);
        ("reason", JStr reason)].

Definition panelSafeReadDenyBody (route : Route) (path : string) (status : Z) (reason : string)
    : json :=
  if status =? 404 then error_body path (StatusText 404) "REMNAGUARD_NOT_FOUND" reason
  else JObj [("response", panelEmptyResponse route path)].

Definition stripConditionalRequestHeaders (req : Request) : Request :=
  set_header req (Del "If-Range" (Del "If-Modified-Since" (Del "If-None-Match" (req_Header req)))).

Definition disablePanelCacheHeaders (h : Header) : Header :=
  Set_ "Expires" "0" (Set_ "Pragma" "no-cache" (Set_ "Cache-Control" "no-store"
    (Del "Last-Modified" (Del "Etag" h)))).

Definition disabled : json := JObj [("enabled", JBool false)].

Definition brand : json :=
  JObj [("title", JStr "RemnaGuard Restricted Panel"); ("logoUrl", JNull)].

Definition panelAuthStatusResponse : json :=
  JObj [("response", JObj [
    ("isLoginAllowed", JBool true);
    ("isRegisterAllowed", JBool false);
    ("authentication", JObj [
      ("passkey", disabled);
      ("oauth2", JObj [("providers", JObj [
        ("telegram", JBool true); ("github", JBool false); ("pocketid", JBool false);
        ("yandex", JBool false); ("keycloak", JBool false); ("generic", JBool false)])]);
      ("password", disabled)]);
    ("branding", brand)])].

Definition panelTelegramActorIDs (cfg : Config) : list string :=
  SliceStable str_lt
    (map fst (map_to_list (default ∅ (pf_Actors_Telegram (cfg_PanelFacade cfg))))).

(** A provider that is off: the named settings are null. *)
Definition provider_off (nulls : list string) : json :=
  JObj (("enabled", JBool false) :: ("allowedEmails", JArr []) ::
        map (fun k => (k, JNull)) nulls).

Definition panelRemnawaveSettingsResponse `{Host} (cfg : Config) : json :=
  let tg := pf_Telegram (cfg_PanelFacade cfg) in
  JObj [("response", JObj [
    ("passkeySettings", JObj [("enabled", JBool false); ("rpId", JNull); ("origin", JNull)]);
    ("passwordSettings", disabled);
    ("brandingSettings", brand);
    ("oauth2Settings", JObj [
      ("github", provider_off ["clientId"; "clientSecret"]);
      ("pocketid", provider_off ["clientId"; "clientSecret"; "plainDomain"]);
      ("yandex", provider_off ["clientId"; "clientSecret"]);
      ("keycloak", provider_off
        ["realm"; "clientId"; "clientSecret"; "frontendDomain"; "keycloakDomain"]);
      ("generic", JObj [("enabled", JBool false); ("clientId", JNull); ("clientSecret", JNull);
        ("withPkce", JBool false); ("authorizationUrl", JNull); ("tokenUrl", JNull);
        ("frontendDomain", JNull); ("allowedEmails", JArr [])]);
      ("telegram", JObj [("enabled", JBool true);
        ("clientId", JStr (Getenv (ptg_ClientIDEnv tg))); ("clientSecret", JNull);
        ("allowedIds", JArr (map JStr (panelTelegramActorIDs cfg)));
        ("frontendDomain", JStr (ptg_FrontendDomain tg))])])])].

Definition panelAPITokensResponse : json :=
  JObj [("response", JObj [("apiKeys", JArr []);
    ("docs", JObj [("isDocsEnabled", JBool false); ("scalarPath", JNull);
                   ("swaggerPath", JNull)])])].

Definition panelPasskeysResponse : json :=
  JObj [("response", JObj [("passkeys", JArr [])])].
End facade.

(** ** Facts *)

Lemma upper_hex_val n : (n < 16)%N -> unhex (upper_hex n) = Some n.
Proof.
  intros Hn. assert (Hin : List.In n (map N.of_nat (seq 0 16))).
  { apply in_map_iff. exists (N.to_nat n). split; [lia|]. apply in_seq. lia. }
  simpl in Hin. repeat (destruct Hin as [<-|Hin]; [reflexivity|]). done.
Qed.

Lemma code_split c : ascii_of_N (16 * (code c / 16) + code c mod 16) = c.
Proof. rewrite <- N.Div0.div_mod. apply ascii_N_embedding. Qed.

Lemma query_safe_plain c : query_safe c = true -> (c =c? "%") = false /\ (c =c? "+") = false.
Proof. destruct c as [[] [] [] [] [] [] [] []]; vm_compute; auto. Qed.

(** Decoding undoes encoding, for any bytes. *)
Lemma QueryUnescape_QueryEscape s : QueryUnescape (QueryEscape s) = Some s.
Proof.
  unfold QueryUnescape. induction s as [|c s IH]; [done|]. cbn [QueryEscape].
  destruct (Ascii.eqb_spec c " ") as [->|Hsp].
  { cbn [unescape]. change ("+"%char =c? "%") with false. simpl. by rewrite IH. }
  destruct (query_safe c) eqn:Hs.
  - destruct (query_safe_plain c Hs) as [Hp Hplus]. cbn [unescape]. rewrite Hp, Hplus, IH.
    by rewrite andb_false_r.
  - cbn [unescape]. change ("%"%char =c? "%") with true. cbv iota.
    assert (code c < 256)%N by apply Base64.code_bound.
    rewrite !upper_hex_val by (first [apply N.mod_lt; lia|apply N.Div0.div_lt_upper_bound; lia]).
    rewrite IH. simpl. by rewrite code_split.
Qed.
