(* ===== verification/Respond.v ===== *)
(** * internal/server: denials and other answers written by the server itself *)

From S2P Require Import Prelude GoStrings Encoding Json Ratelimit Config Httputil ResponsePolicy.
From S2P Require Import Proxy Alerts AuditLog Effects PanelFacade.
From stdpp Require Import options.

Local Open Scope Z_scope.

(** [net/url] as the handlers use it. *)
Class RequestURLs := {
  (** [req.URL.EscapedPath()], the URL being parsed from the request target. *)
  EscapedPath : string -> string;
  (** The text of a URL with its query replaced, and with its path replaced and
      its query removed. *)
  url_WithQuery : string -> string -> string;
  url_WithPath : string -> string -> string;
}.

Definition text_line (s : string) : string := s +:+ newline.

Definition writeJSON (w : Header) (status : Z) (body : json) : prog () :=
  perform (Write (Set_ "Content-Type" "application/json" w) status (text_line (Marshal body))).

(** [http.Error] *)
Definition http_Error (w : Header) (msg : string) (status : Z) : prog () :=
  perform (Write (Set_ "X-Content-Type-Options" "nosniff"
    (Set_ "Content-Type" "text/plain; charset=utf-8" (Del "Content-Length" w)))
    status (text_line msg)).

Section respond.
Context `{Unicode} `{RequestURLs}.

Definition safeRequestContext (req : Request) : string * string :=
  let path := EscapedPath (req_RequestURI req) in
  let path := if path =s? "" then "/" else path in
  let path := if 256 <? len path then take_str 256 path +:+ "..." else path in
  (req_Method req, path).

(** The alert of a denial. *)
Definition denial_event (req : Request) (route tokenID reason : string) (status now : Z)
    : Event :=
  let '(method, path) := safeRequestContext req in
  {| ev_Name := "request_denied"; ev_Method := method; ev_Path := path; ev_Route := route;
     ev_TokenID := tokenID; ev_Reason := reason; ev_Status := status;
     ev_HasAuthHint := Get "Authorization" (req_Header req) <>s? ""; ev_CreatedAt := now |}.

Definition deny (w : Header) (req : Request) (route tokenID credentialID reason : string)
    (status : Z) : prog () :=
  let '(method, path) := safeRequestContext req in
  let fields := panelAuditFields req "" 0 in
  do! perform (Emit (EmitRequestFields "request_denied" route tokenID credentialID reason
                       method path status (default [] fields))) then
  let! now := perform Now in
  do! perform (Notify (denial_event req route tokenID reason status now)) then
  if match fields with Some _ => true | None => false end || HasPrefix path "/api/auth/"
  then writeJSON w status (error_body path (StatusText status) "REMNAGUARD_DENIED" reason)
  else http_Error w ("denied: " +:+ reason) status.
End respond.
