(* ===== verification/PanelOAuth.v ===== *)
(** * internal/server: logging in to the panel with Telegram

    The authorize handler files an attempt under a fresh state and answers with
    the authorization URL; the callback handler takes the attempt, exchanges the
    code for an ID token, checks it, and answers with a panel session. *)

From S2P Require Import Prelude GoStrings Encoding Json Sha256 Ratelimit Config Routes.
From S2P Require Import Auth Policy Httputil BodyPolicy ResponsePolicy Proxy Alerts AuditLog.
From S2P Require Import OAuthStore Effects PanelFacade Respond.
From stdpp Require Import options.

Local Open Scope Z_scope.

(** ** Cookies *)

Definition ascii_space (c : ascii) : bool :=
  (c =c? " ") || IndexByte_found (bytes [9; 10; 13]%nat) c.

Fixpoint trim_left_spaces (s : string) : string :=
  match s with
  | String c s' => if ascii_space c then trim_left_spaces s' else s
  | "" => ""
  end.

(** [textproto.TrimString] *)
Definition TrimString (s : string) : string :=
  rev_str (trim_left_spaces (rev_str (trim_left_spaces s))).

Definition cookie_value_byte (c : ascii) : bool :=
  N.leb 32 (code c) && N.ltb (code c) 127 && negb (IndexByte_found (bytes [34; 59; 92]%nat) c).

(** [parseCookieValue]: a pair of quotes around the value is dropped. *)
Definition parseCookieValue (raw : string) : option string :=
  let raw :=
    if (1 <? len raw) && HasPrefix raw (String quote "") && HasSuffix raw (String quote "")
    then TrimSuffix (TrimPrefix raw (String quote "")) (String quote "") else raw in
  if all_bytes cookie_value_byte raw then Some raw else None.

Definition cookie_of_part (name part : string) : option string :=
  let part := TrimString part in
  if part =s? "" then None else
  let '(n, v, _) := Cut "=" part in
  let n := TrimString n in
  if (n =s? "") || negb (all_bytes is_token n) || (n <>s? name) then None
  else parseCookieValue v.

(** [req.Cookie(name)]: the first cookie of that name. *)
Definition Cookie (req : Request) (name : string) : option string :=
  head (omap (cookie_of_part name)
    (concat (map (fun line => Split ";" (TrimString line)) (Values "Cookie" (req_Header req))))).

Definition panelOAuthStateCookie : string := "remnaguard_panel_oauth_state".

(** [http.SetCookie] of the state cookie. *)
Definition state_cookie (value : string) (maxAge : Z) : string :=
  panelOAuthStateCookie +:+ "=" +:+ value +:+ "; Path=/api/auth/oauth2/callback" +:+
  (if 0 <? maxAge then "; Max-Age=" +:+ Itoa maxAge
   else if maxAge <? 0 then "; Max-Age=0" else "") +:+
  "; HttpOnly; Secure; SameSite=Lax".

Definition setPanelOAuthStateCookie (w : Header) (state : string) (ttl : Z) : Header :=
  Add "Set-Cookie" (state_cookie state (int_seconds ttl)) w.

Definition clearPanelOAuthStateCookie (w : Header) : Header :=
  Add "Set-Cookie" (state_cookie "" (-1)) w.

(** ** Small functions *)

Definition pkceChallenge (verifier : string) : string :=
  Base64.EncodeToString (sha256 verifier).

Definition randomURLToken (n : nat) : prog (option string) :=
  let! b := perform (Random n) in Ret (option_map Base64.EncodeToString b).

(** Padded base64 in the standard alphabet, for basic authentication. *)
Definition std_base64 (s : string) : string :=
  let e := map_bytes (fun c => if c =c? "-" then "+"%char else if c =c? "_" then "/"%char else c)
             (Base64.EncodeToString s) in
  e +:+ (if len e mod 4 =? 2 then "==" else if len e mod 4 =? 3 then "=" else "").

Definition invalid : string := "telegram_oauth_invalid".

(** [*rsa.PublicKey] *)
Record PublicKey := { pk_N : Z; pk_E : Z }.

(** Big-endian bytes; the exponent is an [int]. *)
Definition big_endian (s : string) : Z :=
  fold_left (fun n c => n * 256 + Z.of_N (code c)) (String.list_ascii_of_string s) 0.

Definition exponent (s : string) : Z :=
  fold_left (fun e c => wrap64 (wrap64 (Z.shiftl e 8) + Z.of_N (code c)))
    (String.list_ascii_of_string s) 0.

Definition rsaPublicKeyFromJWK (nRaw eRaw : string) : res PublicKey :=
  match Base64.DecodeString nRaw with
  | None | Some "" => Err invalid
  | Some nBytes =>
      match Base64.DecodeString eRaw with
      | None | Some "" => Err invalid
      | Some eBytes =>
          if exponent eBytes <? 3 then Err invalid
          else Ok {| pk_N := big_endian nBytes; pk_E := exponent eBytes |}
      end
  end.

(** A [json.RawMessage] field of a struct target, read from the text of the
    object: the last member whose name matches, empty when there is none. *)
Definition raw_field (field : string) (ms : list (string * string)) : string :=
  fold_left (fun cur '(k, v) => if field_matches field k then v else cur) ms "".

Definition FormatInt := Itoa.

Section oauth.
Context `{Unicode}.

Definition audienceContains (raw want : string) : bool :=
  let want := TrimSpace want in
  if want =s? "" then false else
  match unmarshal_as as_string raw with
  | Some single => single =s? want
  | None =>
      match parse_all raw with
      | None => false
      | Some v => let '(many, ok) := as_strings v in
                  (ok : bool) && contains_str many want
      end
  end.

Definition telegramIDClaimString (raw : string) : res string :=
  let number :=
    match parse_prefix raw with
    | Some (v, _) =>
        match as_Number v with
        | Some n => match ParseInt n with
                    | Some id => if 0 <? id then Ok (FormatInt id) else Err invalid
                    | None => Err invalid
                    end
        | None => Err invalid
        end
    | None => Err invalid
    end in
  match unmarshal_as as_string raw with
  | Some s => if TrimSpace s <>s? "" then Ok (TrimSpace s) else number
  | None => number
  end.

(** ** The ID token *)

Context `{Host} `{NetParsers} `{RequestURLs}.

(** [rsa.VerifyPKCS1v15] of a SHA-256 digest. *)
Context (VerifyPKCS1v15 : PublicKey -> string -> string -> bool).

Definition client_id (cfg : Config) : string :=
  Getenv (ptg_ClientIDEnv (pf_Telegram (cfg_PanelFacade cfg))).

Definition panelTelegramRedirectURL (cfg : Config) : string :=
  "https://" +:+ ptg_FrontendDomain (pf_Telegram (cfg_PanelFacade cfg)) +:+
  "/oauth2/callback/telegram".

Definition panelTelegramAuthorizationURL (cfg : Config) (state codeVerifier nonce : string)
    : string :=
  let values := values_set "code_challenge" (pkceChallenge codeVerifier)
    (values_set "code_challenge_method" "S256"
    (values_set "scope" "openid profile telegram:bot_access"
    (values_set "nonce" nonce
    (values_set "state" state
    (values_set "redirect_uri" (panelTelegramRedirectURL cfg)
    (values_set "client_id" (client_id cfg)
    (values_set "response_type" "code" []))))))) in
  url_WithQuery (ptg_AuthURL (pf_Telegram (cfg_PanelFacade cfg))) (Encode values).

Definition loopbackHost (host : string) : bool :=
  (host =s? "localhost") || match ip_IsLoopback host with Some l => l | None => false end.

Definition telegramJWKSURL (cfg : Config) : string :=
  let tokenURL := ptg_TokenURL (pf_Telegram (cfg_PanelFacade cfg)) in
  let telegram := "https://oauth.telegram.org/.well-known/jwks.json" in
  match url_Parse tokenURL with
  | Ok u => if loopbackHost (url_Hostname u)
            then url_WithPath tokenURL "/.well-known/jwks.json" else telegram
  | Err _ => telegram
  end.

(** The first [n] bytes of the body, as a JSON decoder is given them; an answer
    that fails while it is read does not decode. *)
Definition limited (body : res string) (n : Z) : string :=
  match body with
  | Ok b => if len b <=? n then b else take_str (Z.to_nat n) b
  | Err _ => ""
  end.

Definition megabyte : Z := 2 ^ 20.

(** [[]struct{Kty, Use, Kid, Alg, N, E string}]: the key ids, types, algorithms and
    numbers, and whether every member has a usable type. *)
Record JWK := { jwk_Kty : string; jwk_Kid : string; jwk_Alg : string; jwk_N : string;
                jwk_E : string }.

Definition as_jwk (j : json) : JWK * bool :=
  match j with
  | JObj fs =>
      let '(kty, ok1) := string_field "kty" fs in
      let '(_, ok2) := string_field "use" fs in
      let '(kid, ok3) := string_field "kid" fs in
      let '(alg, ok4) := string_field "alg" fs in
      let '(n, ok5) := string_field "n" fs in
      let '(e, ok6) := string_field "e" fs in
      ({| jwk_Kty := kty; jwk_Kid := kid; jwk_Alg := alg; jwk_N := n; jwk_E := e |},
       ok1 && ok2 && ok3 && ok4 && ok5 && ok6)
  | _ => ({| jwk_Kty := ""; jwk_Kid := ""; jwk_Alg := ""; jwk_N := ""; jwk_E := "" |},
          match j with JNull => true | _ => false end)
  end.

(** The member [keys]; of a document that repeats it the last one is read. *)
Definition decode_jwks (body : string) : option (list JWK) :=
  match parse_prefix body with
  | Some (JNull, _) => Some []
  | Some (JObj fs, _) =>
      fold_left (fun acc '(k, v) =>
        if field_matches "keys" k then
          match v with
          | JNull => match acc with Some _ => Some [] | None => None end
          | JArr l => if forallb (fun j => snd (as_jwk j)) l
                      then match acc with Some _ => Some (map (fun j => fst (as_jwk j)) l)
                                        | None => None end
                      else None
          | _ => None
          end
        else acc) fs (Some [])
  | _ => None
  end.

Definition usable_key (kid : string) (key : JWK) : bool :=
  (jwk_Kid key =s? kid) && (jwk_Kty key =s? "RSA") && (jwk_Alg key =s? "RS256") &&
  (jwk_N key <>s? "") && (jwk_E key <>s? "").

Definition is_2xx (status : Z) : bool := (200 <=? status) && (status <? 300).

Definition fetchTelegramJWK (cfg : Config) (kid : string) : prog (res PublicKey) :=
  let! r := perform (Fetch {| fq_Method := "GET"; fq_URL := telegramJWKSURL cfg;
                              fq_Header := ∅; fq_Body := "" |}) in
  Ret match r with
      | Err _ => Err "telegram_oauth_unavailable"
      | Ok reply =>
          if negb (is_2xx (rep_StatusCode reply)) then Err "telegram_oauth_unavailable" else
          match decode_jwks (limited (rep_Body reply) megabyte) with
          | None => Err invalid
          | Some keys =>
              match List.find (usable_key kid) keys with
              | Some key => rsaPublicKeyFromJWK (jwk_N key) (jwk_E key)
              | None => Err invalid
              end
          end
      end.

Record IDClaims := {
  id_Issuer : string; id_Audience : string; id_ExpiresAt : Z; id_IssuedAt : Z;
  id_Nonce : string; id_ID : string;
}.

Definition decode_claims (payload : string) : option IDClaims :=
  match parse_all payload with
  | Some (JObj fs) =>
      let '(iss, ok1) := string_field "iss" fs in
      let '(exp, ok2) := int64_field "exp" fs in
      let '(iat, ok3) := int64_field "iat" fs in
      let '(nonce, ok4) := string_field "nonce" fs in
      let ms := match raw_object 1 payload with Some (ms, _) => ms | None => [] end in
      if ok1 && ok2 && ok3 && ok4
      then Some {| id_Issuer := iss; id_Audience := raw_field "aud" ms; id_ExpiresAt := exp;
                   id_IssuedAt := iat; id_Nonce := nonce; id_ID := raw_field "id" ms |}
      else None
  | Some JNull => Some (Build_IDClaims "" "" 0 0 "" "")
  | _ => None
  end.

(** The algorithm and key id of the token's header. *)
Definition decode_header (header : string) : option (string * string) :=
  match parse_all header with
  | Some (JObj fs) =>
      let '(alg, ok1) := string_field "alg" fs in
      let '(kid, ok2) := string_field "kid" fs in
      if ok1 && ok2 then Some (alg, kid) else None
  | Some JNull => Some ("", "")
  | _ => None
  end.

(** The checks after the claims are accepted: key, signature, actor. *)
Definition verify_signature (cfg : Config) (kid p0 p1 p2 : string) (claims : IDClaims)
    : prog (res string) :=
  let! key := fetchTelegramJWK cfg kid in
  Ret (let? key := key in
       match Base64.DecodeString p2 with
       | None => Err invalid
       | Some sig =>
           if negb (VerifyPKCS1v15 key (sha256 (p0 +:+ "." +:+ p1)) sig) then Err invalid
           else telegramIDClaimString (id_ID claims)
       end).

Definition telegramActorIDFromIDToken (cfg : Config) (idToken nonce : string)
    : prog (res string) :=
  match Split "." idToken with
  | [p0; p1; p2] =>
      if (p0 =s? "") || (p1 =s? "") || (p2 =s? "") then Ret (Err invalid) else
      match (match Base64.DecodeString p0 with Some h => decode_header h | None => None end) with
      | None => Ret (Err invalid)
      | Some (alg, kid) =>
          if (alg <>s? "RS256") || blank kid then Ret (Err invalid) else
          match (match Base64.DecodeString p1 with Some p => decode_claims p | None => None end) with
          | None => Ret (Err invalid)
          | Some claims =>
              if (id_Issuer claims <>s? "https://oauth.telegram.org") ||
                 negb (audienceContains (id_Audience claims) (client_id cfg))
              then Ret (Err invalid) else
              let! t1 := perform Now in
              if id_ExpiresAt claims <=? Unix t1 then Ret (Err invalid) else
              let! t2 := perform Now in
              if (Unix (t2 + Minute) <? id_IssuedAt claims) || (id_Nonce claims <>s? nonce)
              then Ret (Err invalid)
              else verify_signature cfg kid p0 p1 p2 claims
          end
      end
  | _ => Ret (Err invalid)
  end.

(** ** The exchange of the code *)

Definition token_form (cfg : Config) (code codeVerifier : string) : string :=
  Encode (values_set "code_verifier" codeVerifier
    (values_set "client_id" (client_id cfg)
    (values_set "redirect_uri" (panelTelegramRedirectURL cfg)
    (values_set "code" code
    (values_set "grant_type" "authorization_code" []))))).

Definition token_request (cfg : Config) (code codeVerifier : string) : FetchRequest :=
  let tg := pf_Telegram (cfg_PanelFacade cfg) in
  {| fq_Method := "POST"; fq_URL := ptg_TokenURL tg;
     fq_Header := Set_ "Authorization"
       ("Basic " +:+ std_base64 (client_id cfg +:+ ":" +:+ Getenv (ptg_ClientSecretEnv tg)))
       (Set_ "Content-Type" "application/x-www-form-urlencoded" ∅);
     fq_Body := token_form cfg code codeVerifier |}.

Definition decode_id_token (body : string) : option string :=
  match parse_prefix body with
  | Some (JObj fs, _) => let '(t, ok) := string_field "id_token" fs in
                         if (ok : bool) && negb (blank t) then Some t else None
  | _ => None
  end.

Definition exchangeTelegramOAuthCode (cfg : Config) (code codeVerifier nonce : string)
    : prog (res string) :=
  match url_Parse (ptg_TokenURL (pf_Telegram (cfg_PanelFacade cfg))) with
  | Err _ => Ret (Err invalid)
  | Ok _ =>
      let! r := perform (Fetch (token_request cfg code codeVerifier)) in
      match r with
      | Err _ => Ret (Err "telegram_oauth_unavailable")
      | Ok reply =>
          if negb (is_2xx (rep_StatusCode reply)) then Ret (Err "telegram_oauth_denied") else
          match decode_id_token (limited (rep_Body reply) megabyte) with
          | None => Ret (Err invalid)
          | Some t => telegramActorIDFromIDToken cfg t nonce
          end
      end
  end.
End oauth.
