(* ===== verification/PanelLogin.v ===== *)
(** * internal/server: the handlers of /api/auth *)

From S2P Require Import Prelude GoStrings Encoding Json Sha256 Ratelimit Config Routes.
From S2P Require Import Auth Policy Httputil BodyPolicy ResponsePolicy Proxy Alerts AuditLog.
From S2P Require Import OAuthStore Effects PanelFacade Respond PanelOAuth.
From stdpp Require Import options.

Local Open Scope Z_scope.

Section login.
Context `{Unicode} `{Host} `{NetParsers} `{RequestURLs}.
Context (VerifyPKCS1v15 : PublicKey -> string -> string -> bool).

(** The entries of the audit log made here. *)
Definition audit (event : string) (req : Request) (route : Route) (credentialID reason path : string)
    (status : Z) (fields : list (string * json)) : prog () :=
  perform (Emit (EmitRequestFields event (rt_Name route) "" credentialID reason
                   (req_Method req) path status fields)).

Definition event_type (t : string) : string * json := ("auth_event_type", JStr t).

Definition panelAuthUnsupported (w : Header) (req : Request) (route : Route) (path : string)
    : prog () :=
  do! writeJSON w 403 (JObj [("path", JStr path); ("message", JStr "Forbidden");
                             ("errorCode", JStr "A068")]) then
  audit "request_denied" req route "" "panel_auth_unsupported" path 403
    [event_type "unsupported"].

(** [json.NewDecoder(req.Body).Decode(&body)] into a struct: its members. *)
Definition decode_request (req : Request) : option (list (string * json)) :=
  match req_Body req with
  | Some (Ok b) =>
      match parse_prefix b with
      | Some (JObj fs, _) => Some fs
      | Some (JNull, _) => Some []
      | _ => None
      end
  | _ => None
  end.

(** The fields of [panelOAuth2AuthorizeRequest] and [panelOAuth2CallbackRequest]. *)
Definition decode_authorize (req : Request) : option string :=
  match decode_request req with
  | None => None
  | Some fs => let '(provider, ok) := string_field "provider" fs in
               if ok : bool then Some provider else None
  end.

Record panelOAuth2CallbackRequest := { cb_Provider : string; cb_Code : string; cb_State : string }.

Definition decode_callback (req : Request) : option panelOAuth2CallbackRequest :=
  match decode_request req with
  | None => None
  | Some fs =>
      let '(provider, ok1) := string_field "provider" fs in
      let '(code, ok2) := string_field "code" fs in
      let '(state, ok3) := string_field "state" fs in
      if ok1 && ok2 && ok3
      then Some {| cb_Provider := provider; cb_Code := code; cb_State := state |} else None
  end.

Definition url_path (req : Request) : string := EscapedPath (req_RequestURI req).

(** What is filed and answered once the random values are drawn. *)
Definition start_attempt (w : Header) (req : Request) (route : Route)
    (state codeVerifier nonce : string) : prog () :=
  let! st := perform Load in
  let cfg := rs_cfg st in
  let ttl := ptg_AuthMaxAge (pf_Telegram (cfg_PanelFacade cfg)) in
  let! now := perform Now in
  let! ok := perform (PutAttempt state
    {| at_CodeVerifier := codeVerifier; at_Nonce := nonce; at_ExpiresAt := now + ttl;
       at_Generation := rs_generation st |} now) in
  if negb ok then deny w req (rt_Name route) "" "" "panel_auth_state_limit" 429 else
  do! writeJSON (setPanelOAuthStateCookie w state ttl) 200
        (JObj [("response", JObj [("authorizationUrl",
           JStr (panelTelegramAuthorizationURL cfg state codeVerifier nonce))])]) then
  audit "panel_auth_authorize" req route "" "ok" (url_path req) 200 [event_type "authorize"].

Definition handlePanelOAuth2Authorize (w : Header) (req : Request) (route : Route) : prog () :=
  let no_state := deny w req (rt_Name route) "" "" "panel_auth_state" 500 in
  match decode_authorize req with
  | None => panelAuthUnsupported w req route (url_path req)
  | Some provider =>
      if provider <>s? "telegram" then panelAuthUnsupported w req route (url_path req) else
      let! state := randomURLToken 32 in
      match state with None => no_state | Some state =>
      let! codeVerifier := randomURLToken 48 in
      match codeVerifier with None => no_state | Some codeVerifier =>
      let! nonce := randomURLToken 32 in
      match nonce with None => no_state | Some nonce =>
      start_attempt w req route state codeVerifier nonce
      end end end
  end.

Definition telegram_context (cfg : Config) (actorID credentialID eventType : string)
    : panelAuditContext :=
  let name := match default ∅ (pf_Actors_Telegram (cfg_PanelFacade cfg)) !! actorID with
              | Some actor => act_DisplayName actor | None => "" end in
  {| pac_ActorType := "telegram"; pac_ActorID := actorID; pac_DisplayName := name;
     pac_CredentialID := credentialID; pac_AuthEventType := eventType |}.

(** The credential id configured for an actor, empty when there is none. *)
Definition mapped_credential (cfg : Config) (actorID : string) : string :=
  match default ∅ (pf_Actors_Telegram (cfg_PanelFacade cfg)) !! actorID with
  | Some actor => act_CredentialID actor | None => "" end.

(** The session answered to an authenticated actor. *)
Definition finish_login (w : Header) (req : Request) (cfg : Config) (route : Route)
    (actorID : string) : prog () :=
  match ResolveTelegramActorCredential (Some cfg) actorID with
  | Err _ =>
      let req := setPanelAuditContext req
        (telegram_context cfg actorID (mapped_credential cfg actorID) "callback") in
      deny w req (rt_Name route) "" "" "panel_auth_denied" 403
  | Ok (_, cred) =>
      let req := setPanelAuditContext req
        (telegram_context cfg actorID (cred_ID cred) "callback") in
      let! now := perform Now in
      match IssuePanelSession (cfg_PanelFacade cfg) actorID now with
      | Err _ => deny w req (rt_Name route) "" "" "panel_auth_session" 401
      | Ok token =>
          do! writeJSON w 200 (JObj [("response", JObj [("accessToken", JStr token)])]) then
          audit "panel_auth_callback" req route (cred_ID cred) "ok" (url_path req) 200
            (default [] (panelAuditFields req "callback" 0))
      end
  end.

Definition handlePanelOAuth2Callback (w : Header) (req : Request) (cfg : Config) (route : Route)
    : prog () :=
  let denied w := deny w req (rt_Name route) "" "" "panel_auth_denied" 403 in
  match decode_callback req with
  | None => panelAuthUnsupported w req route (url_path req)
  | Some body =>
      if (cb_Provider body <>s? "telegram") || blank (cb_Code body)
      then panelAuthUnsupported w req route (url_path req) else
      match Cookie req panelOAuthStateCookie with
      | None => denied w
      | Some v =>
          if v <>s? cb_State body then denied w else
          let w := clearPanelOAuthStateCookie w in
          let! now := perform Now in
          let! attempt := perform (TakeAttempt (cb_State body) now) in
          match attempt with
          | None => denied w
          | Some a =>
              let! st := perform Load in
              if (at_ExpiresAt a <? now) || negb (at_Generation a =? rs_generation st)
              then denied w else
              let! actor := exchangeTelegramOAuthCode VerifyPKCS1v15 cfg (cb_Code body)
                              (at_CodeVerifier a) (at_Nonce a) in
              match actor with
              | Err e =>
                  do! audit "panel_auth_callback" req route "" e (url_path req) 401
                        [event_type "callback"; ("actor_type", JStr "telegram")] then
                  deny w req (rt_Name route) "" "" e 401
              | Ok actorID => finish_login w req cfg route actorID
              end
          end
      end
  end.

Definition body_error_status (e : string) : Z := if e =s? errBodyTooLarge then 413 else 400.

(** The handled request (its body buffered); [None] when the path is not under
    /api/auth/. *)
Definition handlePanelAuthFacade (w : Header) (req : Request) (cfg : Config) (route : Route)
    (path : string) : option (prog ()) :=
  if negb (HasPrefix path "/api/auth/") then None else
  let to m p := (req_Method req =s? m) && (path =s? p) in
  Some (match (if req_Method req =s? "POST"
               then bufferRequestBody req (lim_MaxBodyBytes (cfg_Limits cfg)) else Ok req) with
  | Err e => deny w req (rt_Name route) "" "" e (body_error_status e)
  | Ok req =>
      if to "GET" "/api/auth/status" then
        do! writeJSON w 200 panelAuthStatusResponse then
        audit "panel_auth_status" req route "" "ok" path 200 [event_type "status"]
      else if to "POST" "/api/auth/oauth2/authorize" then handlePanelOAuth2Authorize w req route
      else if to "POST" "/api/auth/oauth2/callback" then
        handlePanelOAuth2Callback w req cfg route
      else panelAuthUnsupported w req route path
  end).
End login.
