(* ===== verification/Handler.v ===== *)
(** * internal/server: the API handler

    [apiHandler] is the handler of every API request, composed as the source
    composes it: each stage calls the next one where the source goes on. *)

From S2P Require Import Prelude GoStrings Json Ratelimit Config Routes Auth Policy.
From S2P Require Import EffectiveRoute Httputil Remnawave BodyPolicy ResponsePolicy Proxy.
From S2P Require Import Alerts AuditLog OAuthStore Effects PanelFacade Respond PanelOAuth PanelLogin.
From stdpp Require Import options.

Local Open Scope Z_scope.

(** ** Paths and lock keys *)

Definition pathSegment (path : string) (idx : nat) : string :=
  nth idx (Split "/" (Trim "/" path)) "".

Definition routeTarget (req : Request) : string := fst (fst (Cut "?" (req_RequestURI req))).

(** The text before the last colon, or all of it. *)
Definition before_last_colon (s : string) : string :=
  match Cut ":" (rev_str s) with
  | (_, host, true) => rev_str host
  | _ => s
  end.

Definition clientIP (req : Request) : string := before_last_colon (req_RemoteAddr req).

Definition lockKey (route : Route) (path : string) (req : Request) : string :=
  if rt_Name route =s? "user.create" then "user:create:" +:+ bodyString req "username"
  else if contains_str ["user.update"; "hwid.create"; "hwid.delete"; "hwid.delete_all"]
            (rt_Name route)
  then rt_Name route +:+ ":" +:+ bodyString req "uuid" +:+ ":" +:+ bodyString req "userUuid"
  else rt_Name route +:+ ":" +:+ path.

Section handler.
Context `{Unicode} `{Host} `{Regexps} `{NetParsers} `{NetFiles} `{RequestURLs}.
Context (VerifyPKCS1v15 : PublicKey -> string -> string -> bool).

(** ** Credentials *)

Record requestAuthError := { ae_reason : string; ae_status : Z; ae_credentialID : string }.

Definition auth_error (reason : string) (status : Z) (credentialID : string) : requestAuthError :=
  {| ae_reason := reason; ae_status := status; ae_credentialID := credentialID |}.

(** The token and credential of the request, with the audit context recorded in
    it. *)
Definition resolveRequestCredential (cfg : Config) (req : Request) (now : Z)
    : Request * (requestAuthError + TokenPolicy * Credential) :=
  let authorization := Get "Authorization" (req_Header req) in
  match ParseBearer authorization with
  | Ok parsed =>
      let bad := (req, inl (auth_error "invalid_token" 401 (CredentialID parsed))) in
      match FindCredential cfg (CredentialID parsed) with
      | None => bad
      | Some (tok, cred) =>
          if negb (Verify (Secret parsed) (Getenv "REMNAGUARD_TOKEN_PEPPER") cred) then bad
          else (req, inr (tok, cred))
      end
  | Err _ =>
      let required := (req, inl (auth_error "auth_required" 401 "")) in
      if negb (pf_Enabled (cfg_PanelFacade cfg)) then required else
      match bearerToken authorization with
      | None => required
      | Some panelToken =>
          match ValidatePanelSession (cfg_PanelFacade cfg) panelToken now with
          | Err _ => (req, inl (auth_error "invalid_token" 401 ""))
          | Ok claims =>
              let actorID := cl_TelegramActorID claims in
              match ResolveTelegramActorCredential (Some cfg) actorID with
              | Err _ =>
                  (setPanelAuditContext req (telegram_context cfg actorID
                     (mapped_credential cfg actorID) "session"),
                   inl (auth_error "panel_auth_denied" 403 ""))
              | Ok (tok, cred) =>
                  (setPanelAuditContext req
                     (telegram_context cfg actorID (cred_ID cred) "session"),
                   inr (tok, cred))
              end
          end
      end
  end.

(** ** Upstream calls *)

Definition RoundTrip (p : Proxy) (req : Request) (path rawQuery : string) (publicSub : bool)
    : prog (res Response) :=
  let! r := perform (Upstream (request_out p req path rawQuery publicSub)) in
  Ret (let? reply := r in response_in p reply).

(** The body of a forwarded request has been read. *)
Definition drained (req : Request) : Request :=
  set_body req (option_map (fun _ => Ok "") (req_Body req)) (req_ContentLength req)
    (req_bodyCache req).

Definition returned (p : prog ()) : prog outcome := do! p then Ret Returned.

(** What follows [p], unless it panics. *)
Definition and_then (p : prog outcome) (k : prog ()) : prog outcome :=
  let! o := p in
  match o with
  | Returned => returned k
  | Panicked => Ret Panicked
  end.

(** The status codes [w.WriteHeader] takes; it panics at any other one, before
    anything is written (net/http, [checkWriteHeaderCode]). *)
Definition valid_status (status : Z) : bool := (100 <=? status) && (status <=? 999).

(** [p.WriteResponse] *)
Definition write_response (p : Proxy) (w : Header) (r : Response) (publicSub : bool)
    : prog outcome :=
  let '(h, status, body) := WriteResponse p w r publicSub in
  if valid_status status then returned (perform (Write h status body)) else Ret Panicked.

(** [p.ServeHTTP] *)
Definition serve_proxy (p : Proxy) (w : Header) (req : Request) (path rawQuery : string)
    (publicSub : bool) : prog outcome :=
  let! r := RoundTrip p req path rawQuery publicSub in
  match r with
  | Err e => returned (http_Error w e 502)
  | Ok r => write_response p w r publicSub
  end.

(** The read of the user that precedes and follows a write on it. *)
Definition preflight_request (req : Request) : Request :=
  set_body (set_method (set_header req (Del "Content-Type" (req_Header req))) "GET") None 0
    (req_bodyCache req).

Definition preflightUser (req : Request) (st : runtimeState) (uuid : string) (tok : TokenPolicy)
    : prog (res ()) :=
  let allowed := c_AllowedUsers (tok_Constraints tok) in
  if uuid =s? "" then Ret (Err "missing_user_uuid")
  else if negb (is_nil allowed) && negb (contains_str allowed uuid) then Ret (Err "user_denied")
  else
    let! r := RoundTrip (rs_proxy st) (preflight_request req) ("/api/users/" +:+ uuid) "" false in
    Ret match r with
        | Err _ => Err "preflight_failed"
        | Ok r => if negb (success r) then Err "preflight_denied"
                  else let? user := DecodeUser (res_Body r) in OwnsUser (Some tok) user
        end.

Definition user_actions : list string :=
  ["user.actions.disable"; "user.actions.enable"; "user.actions.reset_traffic";
   "user.actions.revoke"].
Definition hwid_writes : list string := ["hwid.create"; "hwid.delete"; "hwid.delete_all"].
Definition node_actions : list string :=
  ["post.nodes.uuid.actions.disable"; "post.nodes.uuid.actions.enable";
   "post.nodes.uuid.actions.restart"; "post.nodes.uuid.actions.reset_traffic"].

Definition preflight (req : Request) (st : runtimeState) (route : Route) (path : string)
    (tok : TokenPolicy) : prog (res ()) :=
  let name := rt_Name route in
  let c := tok_Constraints tok in
  let user uuid := if uuid =s? "" then Ret (Err "missing_user_uuid")
                   else preflightUser req st uuid tok in
  let in_list l reason :=
    Ret (deny_if (negb (is_nil l) && negb (contains_str l (pathSegment path 2))) reason (Ok ())) in
  if rt_Support route <>s? PolicyEnforced then Ret (Ok ())
  else if name =s? "hwid.list" then preflightUser req st (pathSegment path 3) tok
  else if name =s? "user.update" then user (bodyString req "uuid")
  else if contains_str user_actions name then preflightUser req st (pathSegment path 2) tok
  else if contains_str hwid_writes name then user (bodyString req "userUuid")
  else if contains_str node_actions name then
    Ret (requireAllowedUUIDOrAll (pathSegment path 2) (c_AllowedNodes c) (c_AllowAllNodes c)
           "node_denied")
  else if name =s? "squad.internal.read" then
    in_list (c_AllowedInternalSquads c) "internal_squad_denied"
  else if name =s? "squad.external.read" then
    in_list (c_AllowedExternalSquads c) "external_squad_denied"
  else Ret (Ok ()).

Definition postWriteVerify (req : Request) (st : runtimeState) (route : Route)
    (tok : TokenPolicy) (r : Response) : prog (res ()) :=
  let name := rt_Name route in
  if negb (isRestrictedWrite route) || (rt_Support route <>s? PolicyEnforced) ||
     negb (success r) then Ret (Ok ())
  else if name =s? "user.create" then
    Ret match DecodeUser (res_Body r) with
        | Ok user => OwnsUser (Some tok) user
        | Err _ => Err "post_write_unverifiable"
        end
  else if name =s? "user.update" then preflightUser req st (bodyString req "uuid") tok
  else if contains_str user_actions name then
    preflightUser req st (pathSegment (routeTarget req) 2) tok
  else if contains_str hwid_writes name then
    preflightUser req st (bodyString req "userUuid") tok
  else Ret (Ok ()).

(** ** The panel's own answers *)

Definition audit_allowed (event : string) (req : Request) (route : Route) (path : string)
    (tok : TokenPolicy) (cred : Credential) (reason : string) (status : Z)
    (fields : option (list (string * json))) : prog () :=
  perform (Emit (EmitRequestFields event (rt_Name route) (tok_ID tok) (cred_ID cred) reason
                   (req_Method req) path status (default [] fields))).

(** The header set on the writer, and the answer when the path is one of the
    panel's own. *)
Definition handlePanelReadFacade (w : Header) (req : Request) (cfg : Config) (route : Route)
    (path : string) (tok : TokenPolicy) (cred : Credential) : Header * option (prog ()) :=
  match panelAuditContextFromRequest req with
  | None => (w, None)
  | Some _ =>
      if req_Method req <>s? "GET" then (w, None) else
      let w := disablePanelCacheHeaders w in
      let reply body := Some (
        do! writeJSON w 200 body then
        audit_allowed "panel_facade_read" req route path tok cred "ok" 200
          (panelAuditFields req "settings" 0)) in
      (w, if path =s? "/api/remnawave-settings" then reply (panelRemnawaveSettingsResponse cfg)
          else if path =s? "/api/tokens" then reply panelAPITokensResponse
          else if path =s? "/api/passkeys" then reply panelPasskeysResponse
          else None)
  end.

(** [None]: not a panel request, and nothing done. *)
Definition handlePanelPolicyDeny (w : Header) (req : Request) (route : Route)
    (tok : TokenPolicy) (cred : Credential) (reason : string) : option (prog ()) :=
  match panelAuditContextFromRequest req with
  | None => None
  | Some _ =>
      let '(method, path) := safeRequestContext req in
      let status := panelPolicyDenyStatus (req_Method req) route path in
      Some (
        do! perform (Emit (EmitRequestFields "request_denied" (rt_Name route) (tok_ID tok)
              (cred_ID cred) reason method path status
              (default [] (panelAuditFields req "policy_deny" 0)))) then
        let w := disablePanelCacheHeaders w in
        if req_Method req =s? "GET"
        then writeJSON w status (panelSafeReadDenyBody route path status reason)
        else writeJSON w status (error_body path "Action is not allowed by this panel role"
               "REMNAGUARD_POLICY_DENIED" reason))
  end.

(** [if r.handlePanelPolicyDeny(...) { return }; r.deny(...); return] *)
Definition deny_policy (w : Header) (req : Request) (route : Route) (tok : TokenPolicy)
    (cred : Credential) (reason : string) (status : Z) : prog () :=
  match handlePanelPolicyDeny w req route tok cred reason with
  | Some p => p
  | None => deny w req (rt_Name route) (tok_ID tok) (cred_ID cred) reason status
  end.

(** ** User lists of restricted panel users *)

Definition upstreamPageSize : Z := 1000.

(** The pages from [start] on, at most [pages] of them, appended to [combined].
    [inl] is how the request has ended. *)
Fixpoint scan_pages (pages : nat) (start : Z) (w : Header) (req : Request) (st : runtimeState)
    (route : Route) (path rawQuery : string) (tok : TokenPolicy) (cred : Credential)
    (combined : list json) (firstHeader : option Header)
    : prog (outcome + list json * option Header) :=
  let name := rt_Name route in
  match pages with
  | O => Ret (inr (combined, firstHeader))
  | S pages' =>
      let query := panelUserListPageQuery rawQuery start upstreamPageSize in
      let! r := RoundTrip (rs_proxy st) req path query false in
      match r with
      | Err _ =>
          let req := setPanelAuditAuthEventType req "upstream" in
          do! deny w req name (tok_ID tok) (cred_ID cred) "upstream_unavailable" 502 then
          Ret (inl Returned)
      | Ok r =>
          let firstHeader := match firstHeader with Some h => h | None => res_Header r end in
          if negb (success r) then
            let! o := and_then (write_response (rs_proxy st) w r false)
                        (audit_allowed "proxy_allowed" req route path tok cred "ok" 0
                           (panelAuditFields req "" (res_StatusCode r))) in
            Ret (inl o)
          else
          match decodeUserListPage (res_Body r) with
          | Err _ =>
              do! deny w req name (tok_ID tok) (cred_ID cred) "unfilterable_list_response" 502
              then Ret (inl Returned)
          | Ok (users, total) =>
              let combined := combined ++ users in
              if (Z.of_nat (length users) <? upstreamPageSize) ||
                 (total <=? start + upstreamPageSize)
              then Ret (inr (combined, Some firstHeader))
              else scan_pages pages' (start + upstreamPageSize) w (drained req) st route path
                     rawQuery tok cred combined (Some firstHeader)
          end
      end
  end.

(** [maxPanelUserScan / upstreamPageSize] *)
Definition max_pages : nat := 20.

Definition combined_body (combined : list json) : string :=
  Marshal (JObj [("response", JObj [("users", JArr combined);
                   ("total", JNum (Itoa (Z.of_nat (length combined))))])]).

Definition handlePanelRestrictedUserList (w : Header) (req : Request) (st : runtimeState)
    (route : Route) (path rawQuery : string) (tok : TokenPolicy) (cred : Credential)
    : option (prog outcome) :=
  if negb (restricted_panel_list req route tok) then None else Some (
  let! scanned := scan_pages max_pages 0 w req st route path rawQuery tok cred [] None in
  match scanned with
  | inl o => Ret o
  | inr (combined, firstHeader) =>
      let r := {| res_StatusCode := 200; res_Header := default ∅ firstHeader;
                  res_Body := combined_body combined |} in
      match filterResponsePolicy route tok r req rawQuery with
      | None => Ret Panicked
      | Some (Err e) => returned (deny w req (rt_Name route) (tok_ID tok) (cred_ID cred) e 502)
      | Some (Ok r) =>
          let r := {| res_StatusCode := res_StatusCode r;
                      res_Header := disablePanelCacheHeaders (res_Header r);
                      res_Body := res_Body r |} in
          and_then (write_response (rs_proxy st) w r false)
            (audit_allowed "proxy_allowed" req route path tok cred "ok" 0
               (panelAuditFields req "" 200))
      end
  end).

(** ** Public subscriptions *)

Definition handlePublicSub (w : Header) (req : Request) (st : runtimeState) (route : Route)
    (path rawQuery : string) : prog outcome :=
  let ps := cfg_PublicSubs (rs_cfg st) in
  let g := rs_generation st in
  let denied reason status := returned (deny w req (rt_Name route) "" "" reason status) in
  if negb (ps_Enabled ps) then denied "public_subscriptions_disabled" 403 else
  match regexp_Compile (ps_ShortUUIDRegex ps) with
  | Err _ => Ret Panicked
  | Ok shortRe =>
      let parts := Split "/" (Trim "/" path) in
      if Nat.ltb (length parts) 3 || negb (shortRe (nth 2 parts "")) then
        denied "invalid_short_uuid" 400
      else if Nat.eqb (length parts) 4 && (nth 3 parts "" <>s? "info") &&
              negb (contains_str (ps_AllowedClients ps) (nth 3 parts ""))
      then denied "client_type_denied" 403
      else
        let ip := clientIP req in
        let! ok := perform (Acquire g (LSubIP ip)) in
        if negb ok then denied "public_subscription_concurrency" 429 else
        defer (Release g (LSubIP ip)) (
        let! ok := perform (Allow g (RSubIP ip)) in
        if negb ok then denied "public_subscription_rate_limit" 429 else
        and_then (serve_proxy (rs_proxy st) w req path rawQuery true)
          (perform (Emit (AuditLog.Emit "public_subscription_proxy" (rt_Name route) "" ""
                            "ok" 0))))
  end.

(** ** The stages of the handler, last first *)

(** After the upstream has answered. *)
Definition serve_response (w : Header) (req : Request) (st : runtimeState) (route : Route)
    (path rawQuery : string) (tok : TokenPolicy) (cred : Credential) (r : Response)
    : prog outcome :=
  let denied reason status :=
    returned (deny w req (rt_Name route) (tok_ID tok) (cred_ID cred) reason status) in
  match enforceResponsePolicy route tok r with
  | Err e => returned (deny_policy w req route tok cred e 403)
  | Ok r =>
      match filterResponsePolicy route tok r req rawQuery with
      | None => Ret Panicked
      | Some (Err e) => denied e 502
      | Some (Ok r) =>
          let! verified := postWriteVerify req st route tok r in
          match verified with
          | Err e => denied e 403
          | Ok _ =>
              let r := match panelAuditContextFromRequest req with
                       | None => r
                       | Some _ => {| res_StatusCode := res_StatusCode r;
                                      res_Header := disablePanelCacheHeaders (res_Header r);
                                      res_Body := res_Body r |}
                       end in
              and_then (write_response (rs_proxy st) w r false)
                (audit_allowed "proxy_allowed" req route path tok cred "ok" 0
                   (panelAuditFields req "" (res_StatusCode r)))
          end
      end
  end.

(** Once the body is checked: the upstream call. *)
Definition serve_upstream (w : Header) (req : Request) (st : runtimeState) (route : Route)
    (path rawQuery : string) (tok : TokenPolicy) (cred : Credential) : prog outcome :=
  let req := match panelAuditContextFromRequest req with
             | None => req
             | Some _ => stripConditionalRequestHeaders req
             end in
  match handlePanelRestrictedUserList w req st route path rawQuery tok cred with
  | Some p => p
  | None =>
      let upstreamRawQuery := panelUpstreamRawQuery req route tok rawQuery in
      let! r := RoundTrip (rs_proxy st) req path upstreamRawQuery false in
      match r with
      | Err _ =>
          let req := setPanelAuditAuthEventType req "upstream" in
          returned (deny w req (rt_Name route) (tok_ID tok) (cred_ID cred)
                      "upstream_unavailable" 502)
      | Ok r => serve_response w req st route path rawQuery tok cred r
      end
  end.

(** The ownership preflight and the body policy. *)
Definition serve_checks (w : Header) (req : Request) (st : runtimeState) (route : Route)
    (path rawQuery : string) (tok : TokenPolicy) (cred : Credential) : prog outcome :=
  let! ok := preflight req st route path tok in
  match ok with
  | Err e => returned (deny_policy w req route tok cred e 403)
  | Ok _ =>
      match validateBodyPolicy req (rs_cfg st) route (Some tok) with
      | Err e => returned (deny_policy w req route tok cred e (body_error_status e))
      | Ok req => serve_upstream w req st route path rawQuery tok cred
      end
  end.

(** The lock of a restricted write. *)
Definition serve_write (w : Header) (req : Request) (st : runtimeState) (route : Route)
    (path rawQuery : string) (tok : TokenPolicy) (cred : Credential) : prog outcome :=
  let cfg := rs_cfg st in
  let denied reason status :=
    returned (deny w req (rt_Name route) (tok_ID tok) (cred_ID cred) reason status) in
  if isRestrictedWrite route && (rt_Support route =s? PolicyEnforced) then
    if negb (writes_enabled cfg) then denied "write_safety_not_enabled" 403 else
    match bufferRequestBody req (lim_MaxBodyBytes (cfg_Limits cfg)) with   (* cacheBody *)
    | Err e => denied e (body_error_status e)
    | Ok req =>
        let key := lockKey route path req in
        do! perform (Lock key) then
        defer (Unlock key) (serve_checks w req st route path rawQuery tok cred)
    end
  else serve_checks w req st route path rawQuery tok cred.

(** The decision, under the token's semaphore. *)
Definition serve_token (w : Header) (req : Request) (st : runtimeState) (route : Route)
    (path rawQuery : string) (tok : TokenPolicy) (cred : Credential) : prog outcome :=
  let cfg := rs_cfg st in
  let g := rs_generation st in
  let denied reason status :=
    returned (deny w req (rt_Name route) (tok_ID tok) (cred_ID cred) reason status) in
  let! ok := perform (Acquire g (LToken (tok_ID tok))) in
  if negb ok then denied "token_concurrency" 429 else
  defer (Release g (LToken (tok_ID tok))) (
  let! ok := perform (Allow g (RToken (tok_ID tok))) in
  if negb ok then denied "token_rate_limit" 429 else
  let dec := Decide (Some tok) route in
  let report := rep_Enabled (cfg_Report cfg) && rep_UnsafeReportProxy (cfg_Report cfg) in
  let panel := match panelAuditContextFromRequest req with Some _ => true | None => false end in
  if negb (d_Allow dec) && (panel || negb report)
  then returned (deny_policy w req route tok cred (d_Reason dec) 403) else
  match handlePanelReadFacade w req cfg route path tok cred with
  | (_, Some p) => returned p
  | (w, None) => serve_write w req st route path rawQuery tok cred
  end).

(** A disabled public subscription route asks for a subscription scope. *)
Definition subscription_route (route : Route) : Route :=
  enforced route ["subscriptions:read"; "subscription:read"].

Definition serve_credential (w : Header) (req : Request) (st : runtimeState) (route : Route)
    (path rawQuery : string) : prog outcome :=
  let! now := perform Now in
  let '(req, resolved) := resolveRequestCredential (rs_cfg st) req now in
  match resolved with
  | inl e => returned (deny w req (rt_Name route) "" (ae_credentialID e) (ae_reason e)
                         (ae_status e))
  | inr (tok, cred) => serve_token w req st route path rawQuery tok cred
  end.

Definition validateRouteQuery (route : Route) (rawQuery : string) : res () :=
  if rt_Support route =s? Privileged then ValidateQueryStructural rawQuery
  else ValidateQuery rawQuery (rt_QueryAllowed route).

Definition validateRequestQuery (req : Request) (route : Route) (rawQuery : string) : res () :=
  validateRouteQuery route rawQuery.

(** Once the route is known. *)
Definition serve_route (w : Header) (req : Request) (st : runtimeState) (route : Route)
    (path rawQuery : string) : prog outcome :=
  let cfg := rs_cfg st in
  let denied reason status := returned (deny w req (rt_Name route) "" "" reason status) in
  match (if pf_Enabled (cfg_PanelFacade cfg)
         then handlePanelAuthFacade VerifyPKCS1v15 w req cfg route path else None) with
  | Some p => returned p
  | None =>
      let! ok := perform (VersionOK (rs_generation st)) in
      if negb ok then denied "version_guard" 503 else
      match validateRequestQuery req route rawQuery with
      | Err e => denied e 400
      | Ok _ =>
          match bufferRequestBody req (lim_MaxBodyBytes (cfg_Limits cfg)) with
          | Err e => denied e (body_error_status e)
          | Ok req =>
              if rt_Support route =s? PublicSubscription then
                if ps_Enabled (cfg_PublicSubs cfg)
                then handlePublicSub w req st route path rawQuery
                else if Get "Authorization" (req_Header req) =s? ""
                then denied "public_subscriptions_disabled" 403
                else serve_credential w req st (subscription_route route) path rawQuery
              else serve_credential w req st route path rawQuery
          end
      end
  end.

(** Trailing slashes do not count. *)
Definition trim_slashes (path : string) : string :=
  if (path <>s? "/api/") && HasSuffix path "/" then TrimRight "/" path else path.

(** The request target and the route. *)
Definition serve (w : Header) (req : Request) (st : runtimeState) : prog outcome :=
  let cfg := rs_cfg st in
  match ValidateRawRequest req (lim_MaxPathLength (cfg_Limits cfg))
          (lim_MaxQueryLength (cfg_Limits cfg)) with
  | Err e => returned (deny w req "" "" "" e 400)
  | Ok (path, rawQuery) =>
      let path := trim_slashes path in
      let req := markPanelBearerCandidate cfg req in
      match Match (Catalog (EffectiveVersion (cfg_Compatibility cfg))) (req_Method req) path with
      | None => returned (deny w req "" "" "" "unknown_route" 404)
      | Some route => serve_route w req st (effectiveRoute cfg route) path rawQuery
      end
  end.

Definition apiHandler (w : Header) (req : Request) : prog outcome :=
  let! st := perform Load in
  let g := rs_generation st in
  let! ok := perform (Acquire g LGlobal) in
  if negb ok then returned (http_Error w "rate limited" 429) else
  defer (Release g LGlobal) (serve w req st).
End handler.
