(* ===== verification/Calls.v ===== *)
(** * The calls each part of the handler can make

    Which calls on the world the programs of the server can make at all: answers
    and audit entries are made of local calls, the login handlers never call the
    upstream, and what runs under a lock takes no semaphore and no lock. *)

From S2P Require Import Prelude GoStrings Json Ratelimit Config Routes Auth Policy.
From S2P Require Import EffectiveRoute Httputil Remnawave BodyPolicy ResponsePolicy Proxy.
From S2P Require Import Alerts AuditLog OAuthStore Effects PanelFacade Respond PanelOAuth PanelLogin.
From S2P Require Import Handler.
From stdpp Require Import options.

Local Open Scope Z_scope.

(** What an answer is made of. *)
Definition answering (c : call) : Prop :=
  match c with Now | Emit _ | Notify _ | Write _ _ _ => True | _ => False end.

(** No call to the upstream, and none on semaphores, limiters or locks. *)
Definition local_call (c : call) : Prop :=
  match c with
  | Upstream _ | Acquire _ _ | Release _ _ | Lock _ | Unlock _ | VersionOK _ | Allow _ _ => False
  | _ => True
  end.

(** No call on semaphores, limiters or locks. *)
Definition plain_call (c : call) : Prop :=
  match c with
  | Acquire _ _ | Release _ _ | Lock _ | Unlock _ | VersionOK _ | Allow _ _ => False
  | _ => True
  end.

Lemma answering_local c : answering c -> local_call c.
Proof. by destruct c. Qed.

Lemma local_plain c : local_call c -> plain_call c.
Proof. by destruct c. Qed.

Lemma only_local_plain {A} (p : prog A) : only local_call p -> only plain_call p.
Proof. apply only_mono, local_plain. Qed.

Lemma returned_calls P p : only P p -> only P (returned p).
Proof. intros Hp. apply only_bind; [exact Hp|]. intros _. exact I. Qed.

Lemma and_then_calls P p k : only P p -> only P k -> only P (and_then p k).
Proof. intros Hp Hk. apply only_bind; [exact Hp|]. intros []; [by apply returned_calls|exact I]. Qed.

Create HintDb calls.

(** One step through a program's structure. *)
Ltac calls_step :=
  cbv beta zeta;
  lazymatch goal with
  | |- only _ (Ret _) => exact I
  | |- only _ (bind _ _) => apply only_bind; [|intro]
  | |- only _ (defer _ _) => apply only_defer
  | |- only _ (returned _) => apply returned_calls
  | |- only _ (and_then _ _) => apply and_then_calls
  | |- only _ (perform _) => apply only_perform
  | |- only _ (match ?x with _ => _ end) => destruct x
  | |- answering _ => exact I
  | |- local_call _ => exact I
  | |- plain_call _ => exact I
  end.

Ltac calls := repeat first [solve [eauto 2 with calls nocore]|calls_step].

Section calls.
Context `{Unicode} `{Host} `{Regexps} `{NetParsers} `{NetFiles} `{RequestURLs}.
Context (VerifyPKCS1v15 : PublicKey -> string -> string -> bool).

(** ** Answers *)

Lemma writeJSON_calls w s b : only answering (writeJSON w s b).
Proof. apply only_perform. exact I. Qed.

Lemma http_Error_calls w m s : only answering (http_Error w m s).
Proof. apply only_perform. exact I. Qed.

Hint Resolve writeJSON_calls http_Error_calls : calls.

Lemma deny_calls w req route tid cid reason status :
  only answering (Respond.deny w req route tid cid reason status).
Proof. unfold Respond.deny. calls. Qed.

Hint Resolve deny_calls : calls.

Lemma audit_allowed_calls e req route path tok cred reason status fields :
  only answering (audit_allowed e req route path tok cred reason status fields).
Proof. apply only_perform. exact I. Qed.

Lemma write_response_calls p w r pub : only answering (write_response p w r pub).
Proof. unfold write_response. calls. Qed.

Lemma deny_policy_calls w req route tok cred reason status :
  only answering (deny_policy w req route tok cred reason status).
Proof.
  unfold deny_policy, handlePanelPolicyDeny. destruct (panelAuditContextFromRequest req); [|calls].
  destruct (safeRequestContext req). calls.
Qed.

Hint Resolve audit_allowed_calls write_response_calls deny_policy_calls : calls.

Lemma handlePanelReadFacade_calls w req cfg route path tok cred w' p :
  handlePanelReadFacade w req cfg route path tok cred = (w', Some p) -> only answering p.
Proof.
  unfold handlePanelReadFacade. destruct (panelAuditContextFromRequest req); [|done].
  destruct (req_Method req <>s? "GET"); [done|]. cbv zeta.
  intros Hp%(f_equal snd). cbn [snd] in Hp.
  destruct (path =s? _); [apply (inj Some) in Hp; subst p; calls|].
  destruct (path =s? _); [apply (inj Some) in Hp; subst p; calls|].
  destruct (path =s? _); [apply (inj Some) in Hp; subst p; calls|discriminate Hp].
Qed.

(** ** Logins *)

Lemma answering_is_local {A} (p : prog A) : only answering p -> only local_call p.
Proof. apply only_mono, answering_local. Qed.

Hint Resolve answering_is_local : calls.

Lemma randomURLToken_calls n : only local_call (randomURLToken n).
Proof. unfold randomURLToken. calls. Qed.

Lemma panelAuthUnsupported_calls w req route path :
  only local_call (panelAuthUnsupported w req route path).
Proof. unfold panelAuthUnsupported, audit. calls. Qed.

Hint Resolve randomURLToken_calls panelAuthUnsupported_calls : calls.

Lemma start_attempt_calls w req route s v n : only local_call (start_attempt w req route s v n).
Proof. unfold start_attempt, audit. calls. Qed.

Hint Resolve start_attempt_calls : calls.

Lemma authorize_calls w req route : only local_call (handlePanelOAuth2Authorize w req route).
Proof. unfold handlePanelOAuth2Authorize. calls. Qed.

Lemma fetchTelegramJWK_calls cfg kid : only local_call (fetchTelegramJWK cfg kid).
Proof. unfold fetchTelegramJWK. calls. Qed.

Hint Resolve authorize_calls fetchTelegramJWK_calls : calls.

Lemma telegramActorIDFromIDToken_calls cfg t n :
  only local_call (telegramActorIDFromIDToken VerifyPKCS1v15 cfg t n).
Proof. unfold telegramActorIDFromIDToken, verify_signature. calls. Qed.

Hint Resolve telegramActorIDFromIDToken_calls : calls.

Lemma exchange_calls cfg c v n :
  only local_call (exchangeTelegramOAuthCode VerifyPKCS1v15 cfg c v n).
Proof. unfold exchangeTelegramOAuthCode. calls. Qed.

Lemma finish_login_calls w req cfg route actorID :
  only local_call (finish_login w req cfg route actorID).
Proof. unfold finish_login, audit. calls. Qed.

Hint Resolve exchange_calls finish_login_calls : calls.

Lemma callback_calls w req cfg route :
  only local_call (handlePanelOAuth2Callback VerifyPKCS1v15 w req cfg route).
Proof. unfold handlePanelOAuth2Callback, audit. calls. Qed.

Hint Resolve callback_calls : calls.

Lemma handlePanelAuthFacade_calls w req cfg route path p :
  handlePanelAuthFacade VerifyPKCS1v15 w req cfg route path = Some p -> only local_call p.
Proof.
  unfold handlePanelAuthFacade, audit. destruct (negb _); [done|]. cbv zeta.
  intros Hp%(inj Some). subst p. calls.
Qed.

(** ** What runs under the semaphores and locks *)

Lemma answering_is_plain {A} (p : prog A) : only answering p -> only plain_call p.
Proof. intros Hp. by apply only_local_plain, answering_is_local. Qed.

Hint Resolve answering_is_plain : calls.

Lemma returned_plain p : only answering p -> only plain_call (returned p).
Proof. intros Hp. by apply returned_calls, answering_is_plain. Qed.

Hint Resolve returned_plain : calls.

Lemma RoundTrip_calls px req path q pub : only plain_call (RoundTrip px req path q pub).
Proof. unfold RoundTrip. calls. Qed.

Hint Resolve RoundTrip_calls : calls.

Lemma serve_proxy_calls px w req path q pub : only plain_call (serve_proxy px w req path q pub).
Proof. unfold serve_proxy. calls. Qed.

Lemma preflightUser_calls req st uuid tok : only plain_call (preflightUser req st uuid tok).
Proof. unfold preflightUser. calls. Qed.

Hint Resolve preflightUser_calls : calls.

Lemma preflight_calls req st route path tok : only plain_call (preflight req st route path tok).
Proof. unfold preflight. calls. Qed.

Lemma postWriteVerify_calls req st route tok r :
  only plain_call (postWriteVerify req st route tok r).
Proof. unfold postWriteVerify. calls. Qed.

Hint Resolve preflight_calls postWriteVerify_calls : calls.

Lemma scan_pages_calls n start w req st route path q tok cred combined fh :
  only plain_call (scan_pages n start w req st route path q tok cred combined fh).
Proof.
  revert start req combined fh. induction n as [|n IH]; intros start req combined fh; cbn [scan_pages];
    calls.
Qed.

Lemma restricted_list_calls w req st route path q tok cred p :
  handlePanelRestrictedUserList w req st route path q tok cred = Some p -> only plain_call p.
Proof.
  unfold handlePanelRestrictedUserList. destruct (negb _); [done|].
  intros Hp%(inj Some). subst p. apply only_bind; [apply scan_pages_calls|]. intros a. calls.
Qed.

Lemma serve_response_calls w req st route path q tok cred r :
  only plain_call (serve_response w req st route path q tok cred r).
Proof. unfold serve_response. calls. Qed.

Hint Resolve serve_response_calls : calls.

Lemma serve_upstream_calls w req st route path q tok cred :
  only plain_call (serve_upstream w req st route path q tok cred).
Proof.
  unfold serve_upstream. cbv zeta.
  destruct (handlePanelRestrictedUserList _ _ _ _ _ _ _ _) as [p|] eqn:Hp;
    [by apply restricted_list_calls in Hp|]. calls.
Qed.

Hint Resolve serve_upstream_calls : calls.

Lemma serve_checks_calls w req st route path q tok cred :
  only plain_call (serve_checks w req st route path q tok cred).
Proof. unfold serve_checks. calls. Qed.
End calls.

#[export] Hint Resolve answering_is_local answering_is_plain returned_plain writeJSON_calls
  http_Error_calls deny_calls audit_allowed_calls write_response_calls deny_policy_calls
  RoundTrip_calls serve_proxy_calls preflightUser_calls preflight_calls postWriteVerify_calls
  scan_pages_calls serve_response_calls serve_upstream_calls serve_checks_calls : calls.
