(* ===== verification/Example.v ===== *)
(** * A gateway to run

    One configuration, the state the runtime keeps for it, and a world that
    answers the calls of a handler: inputs for the theorems on executions. *)

From S2P Require Import Prelude GoStrings Json Ratelimit Config ConfigFacts Routes Auth Policy.
From S2P Require Import EffectiveRoute Httputil Remnawave BodyPolicy ResponsePolicy Proxy.
From S2P Require Import Alerts AuditLog OAuthStore Effects PanelFacade Respond PanelOAuth PanelLogin.
From S2P Require Import Handler.
From stdpp Require Import options.

Local Open Scope Z_scope.

#[export] Existing Instance ascii_only.
#[export] Existing Instance example_host.
#[export] Existing Instance example_regexps.
#[export] Existing Instance example_parsers.
#[export] Existing Instance example_files.

#[export] Instance example_urls : RequestURLs := {|
  EscapedPath := fun target => fst (fst (Cut "?" target));
  url_WithQuery := fun u q => u +:+ "?" +:+ q;
  url_WithPath := fun u p => u +:+ p |}.

Definition example_pkcs (key : PublicKey) (digest sig : string) : bool := sig =s? "signed".

(** A token that may act on the users it owns, and the secret of its
    credential. *)
Definition gateway_token : TokenPolicy := {|
  tok_ID := "acme"; tok_Disabled := false;
  tok_Credentials := [{| cred_ID := "c1"; cred_HMACSHA256 := Digest "s3cret" strong_secret;
                         cred_Disabled := false |}];
  tok_Scopes := ["users:read"; "users:action"]; tok_Constraints := example_constraints |}.

Definition gateway_config : Config :=
  let d := example_config in
  Build_Config (cfg_Server d) example_upstream (cfg_Compatibility d) (cfg_Limits d)
    (cfg_Metrics d) (cfg_Audit d) (cfg_Alerts d) (cfg_Report d) (cfg_PublicSubs d)
    (cfg_PanelFacade d) (cfg_Reload d)
    {| ws_SingleWriter := true; ws_EnableRestrictedWrites := true;
       ws_EnableTenantWritesLegacy := false |} [gateway_token] [] "".

Definition gateway_state : runtimeState := {|
  rs_cfg := gateway_config;
  rs_proxy := {| px_cfg := gateway_config;
                 px_tls := {| tls_InsecureSkipVerify := false; tls_RootCAs := None;
                              tls_Certificate := None |};
                 px_ResponseHeaderTimeout := 15 * Second; px_bearer := "upstream-secret";
                 px_publicAuth := ""; px_publicAuthName := "" |};
  rs_generation := 1 |}.

Definition example_request (method target : string) (header : Header) (body : option string)
    : Request := {|
  req_ProtoMajor := 1; req_Method := method; req_RequestURI := target;
  req_Host := "guard.example"; req_Header := header; req_RemoteAddr := "192.0.2.7:5000";
  req_Body := option_map Ok body;
  req_ContentLength := match body with Some b => len b | None => 0 end;
  req_bodyCache := None; req_panelAudit := None |}.

Definition bearer (t : string) : Header := Set_ "Authorization" ("Bearer " +:+ t) ∅.

Definition disable_target : string :=
  "/api/users/8f14e45f-ceea-467f-a0e6-6f3a1f6b2c3d/actions/disable".

Definition disable_request : Request :=
  example_request "POST" disable_target (bearer "rg_c1.s3cret") None.

Definition user_body : string :=
  Marshal (JObj [("response", JObj [("uuid", JStr "8f14e45f-ceea-467f-a0e6-6f3a1f6b2c3d");
                                    ("username", JStr "acme_bob")])]).

(** Every limiter lets the request through, and the upstream knows one user. *)
Definition example_world (st : runtimeState) (t : Z) (c : call) : answer c * Z :=
  match c return answer c * Z with
  | Load => (st, t)
  | Acquire _ _ => (true, t)
  | VersionOK _ => (true, t)
  | Allow _ _ => (true, t)
  | PutAttempt _ _ _ => (true, t)
  | Now => (t, t + 1)
  | Random n => (Some (bytes (repeat 120%nat n)), t)
  | TakeAttempt _ _ => (None, t)
  | Upstream _ => (Ok {| rep_StatusCode := 200; rep_Header := ∅; rep_Body := Ok user_body |}, t)
  | Fetch _ => (Err "unreachable", t)
  | Release _ _ => ((), t)
  | Lock _ => ((), t)
  | Unlock _ => ((), t)
  | Emit _ => ((), t)
  | Notify _ => ((), t)
  | Write _ _ _ => ((), t)
  end.

Definition gateway_run (req : Request) : outcome * Z * list obs :=
  run_in (example_world gateway_state) 0 (apiHandler example_pkcs ∅ req).

(** The user action: its run, and the write in the middle of it. *)

Definition disable_trace : list obs := snd (gateway_run disable_request).

Lemma disable_exec : exec (apiHandler example_pkcs ∅ disable_request) disable_trace Returned.
Proof.
  apply (run_in_exec (example_world gateway_state) 0 _ _ (snd (fst (gateway_run disable_request)))).
  vm_compute. reflexivity.
Qed.

(** The write is the eighth observation. *)
Definition disable_call : OutRequest * res Reply :=
  match disable_trace !! 8%nat with
  | Some (OUpstream out r) => (out, r)
  | _ => (request_out (rs_proxy gateway_state) disable_request "" "" false, Err "")
  end.

Lemma disable_call_at :
  disable_trace !! 8%nat = Some (OUpstream (fst disable_call) (snd disable_call)).
Proof. vm_compute. reflexivity. Qed.
