(* ===== verification/Authorization.v ===== *)
(** * internal/server: what must have happened before the upstream is called

    The safety of the gateway: no execution of the handler calls the upstream
    before the request target, the route, the version, the query, the limits and
    the decision on the token have all been checked. *)

From S2P Require Import Prelude GoStrings Json Ratelimit Config Routes Auth Policy.
From S2P Require Import EffectiveRoute Httputil Remnawave BodyPolicy ResponsePolicy Proxy.
From S2P Require Import Alerts AuditLog OAuthStore Effects PanelFacade Respond PanelOAuth PanelLogin.
From S2P Require Import Handler Calls Example.
From stdpp Require Import options.

Local Open Scope Z_scope.

Section authorization.
Context `{Unicode} `{Host} `{Regexps} `{NetParsers} `{NetFiles} `{RequestURLs}.
Context (VerifyPKCS1v15 : PublicKey -> string -> string -> bool).

(** ** The checks, as facts on what has been observed *)

(** The checks common to all forwarded requests. *)
Record checked (req : Request) (seen : list obs) (st : runtimeState) (path rawQuery : string)
    (route : Route) : Prop := {
  ch_state : OLoad st ∈ seen;
  ch_global : OAcquire (rs_generation st) LGlobal true ∈ seen;
  ch_target : exists raw,
    ValidateRawRequest req (lim_MaxPathLength (cfg_Limits (rs_cfg st)))
      (lim_MaxQueryLength (cfg_Limits (rs_cfg st))) = Ok (raw, rawQuery) /\
    path = trim_slashes raw;
  ch_route : exists r,
    Match (Catalog (EffectiveVersion (cfg_Compatibility (rs_cfg st)))) (req_Method req) path
      = Some r /\
    route = effectiveRoute (rs_cfg st) r;
  ch_version : OVersionOK (rs_generation st) true ∈ seen;
  ch_query : validateRouteQuery route rawQuery = Ok ();
}.

(** The route a token must be granted. *)
Definition token_route (route : Route) : Route :=
  if rt_Support route =s? PublicSubscription then subscription_route route else route.

(** Report mode lets a denied request through, except from the panel. *)
Definition reported (cfg : Config) (req : Request) (now : Z) : Prop :=
  rep_Enabled (cfg_Report cfg) = true /\ rep_UnsafeReportProxy (cfg_Report cfg) = true /\
  req_panelAudit (fst (resolveRequestCredential cfg (markPanelBearerCandidate cfg req) now))
    = None.

Inductive authorized (req : Request) (seen : list obs) : Prop :=
  | by_subscription st path rawQuery route :
      checked req seen st path rawQuery route ->
      rt_Support route = PublicSubscription ->
      ps_Enabled (cfg_PublicSubs (rs_cfg st)) = true ->
      OAcquire (rs_generation st) (LSubIP (clientIP req)) true ∈ seen ->
      OAllow (rs_generation st) (RSubIP (clientIP req)) true ∈ seen ->
      authorized req seen
  | by_token st path rawQuery route now tok cred :
      checked req seen st path rawQuery route ->
      ONow now ∈ seen ->
      snd (resolveRequestCredential (rs_cfg st) req now) = inr (tok, cred) ->
      OAcquire (rs_generation st) (LToken (tok_ID tok)) true ∈ seen ->
      OAllow (rs_generation st) (RToken (tok_ID tok)) true ∈ seen ->
      grants tok (token_route route) ->
      authorized req seen
  | by_report st path rawQuery route now tok cred :
      checked req seen st path rawQuery route ->
      ONow now ∈ seen ->
      snd (resolveRequestCredential (rs_cfg st) req now) = inr (tok, cred) ->
      OAcquire (rs_generation st) (LToken (tok_ID tok)) true ∈ seen ->
      OAllow (rs_generation st) (RToken (tok_ID tok)) true ∈ seen ->
      reported (rs_cfg st) req now ->
      authorized req seen.

(** Facts on observations survive further ones. *)
Lemma checked_incl req seen seen' st path q route :
  seen ⊆ seen' -> checked req seen st path q route -> checked req seen' st path q route.
Proof. intros Hs []. split; auto. Qed.

Lemma authorized_incl req seen seen' :
  seen ⊆ seen' -> authorized req seen -> authorized req seen'.
Proof.
  intros Hs []; [eapply by_subscription|eapply by_token|eapply by_report]; eauto using checked_incl.
Qed.

Lemma incl_cons (o : obs) seen : seen ⊆ o :: seen.
Proof. set_solver. Qed.

(** ** The credential depends on the header alone *)

Lemma resolve_header cfg r r' now :
  req_Header r = req_Header r' ->
  snd (resolveRequestCredential cfg r now) = snd (resolveRequestCredential cfg r' now).
Proof. intros Hh. unfold resolveRequestCredential. rewrite Hh. by repeat case_match. Qed.

Lemma resolve_panel cfg r r' now :
  req_Header r = req_Header r' -> req_panelAudit r = req_panelAudit r' ->
  req_panelAudit (fst (resolveRequestCredential cfg r now)) =
  req_panelAudit (fst (resolveRequestCredential cfg r' now)).
Proof.
  intros Hh Hp. unfold resolveRequestCredential, setPanelAuditContext. rewrite Hh, Hp.
  by repeat case_match.
Qed.

Lemma mark_kept cfg req :
  req_Header (markPanelBearerCandidate cfg req) = req_Header req /\
  req_RemoteAddr (markPanelBearerCandidate cfg req) = req_RemoteAddr req /\
  req_Method (markPanelBearerCandidate cfg req) = req_Method req.
Proof.
  unfold markPanelBearerCandidate. by repeat case_match.
Qed.

Lemma buffer_kept req limit req' :
  bufferRequestBody req limit = Ok req' ->
  req_Header req' = req_Header req /\ req_RemoteAddr req' = req_RemoteAddr req /\
  req_panelAudit req' = req_panelAudit req /\ req_Method req' = req_Method req /\
  req_RequestURI req' = req_RequestURI req.
Proof. unfold bufferRequestBody. by repeat case_match; intros [= <-]. Qed.

(** The request as the stages pass it on: only its body buffer and its audit
    context differ from the one received. *)
Record same_request (req r : Request) : Prop := {
  sr_header : req_Header r = req_Header req;
  sr_addr : req_RemoteAddr r = req_RemoteAddr req;
  sr_method : req_Method r = req_Method req;
  sr_body : forall f, bodyString r f = bodyString req f;
}.

Lemma mark_same cfg req : same_request req (markPanelBearerCandidate cfg req).
Proof. unfold markPanelBearerCandidate. by repeat case_match. Qed.

Lemma resolve_same cfg r now : same_request r (fst (resolveRequestCredential cfg r now)).
Proof. unfold resolveRequestCredential, setPanelAuditContext. by repeat case_match. Qed.

Lemma same_trans r1 r2 r3 : same_request r1 r2 -> same_request r2 r3 -> same_request r1 r3.
Proof. intros [] []. split; intros; etransitivity; eauto. Qed.

(** The buffer holds what the body still holds. *)
Definition buffer_ok (req : Request) : Prop :=
  forall b, req_bodyCache req = Some b -> req_Body req = Some (Ok b).

(** A body is buffered as it was received. *)
Lemma buffer_same req limit req' :
  bufferRequestBody req limit = Ok req' -> buffer_ok req ->
  same_request req req' /\ buffer_ok req'.
Proof.
  intros Hb Hf. pose proof (buffer_kept _ _ _ Hb) as (Hk1 & Hk2 & Hk3 & Hk4 & _).
  revert Hb. unfold bufferRequestBody.
  destruct (req_Body req) as [[b|e]|] eqn:Hbody; [|by case_match|by intros [= <-]].
  do 2 (case_match; [done|]). intros [= <-]. split; [|by intros b' [= ->]].
  split; auto. intros f. unfold bodyString. cbn [req_bodyCache set_body]. rewrite Hbody.
  destruct (req_bodyCache req) as [b'|] eqn:Hc; [|done].
  specialize (Hf b' Hc). rewrite Hbody in Hf. by injection Hf as ->.
Qed.

(** What has been buffered is no longer than the limit. *)
Definition body_within (limit : Z) (r : Request) : Prop :=
  forall c, req_Body r = Some c -> exists b, c = Ok b /\ len b <= limit.

Lemma buffer_within req limit req' :
  bufferRequestBody req limit = Ok req' -> body_within limit req'.
Proof.
  unfold bufferRequestBody, body_within.
  destruct (req_Body req) as [[b|e]|] eqn:Hb; [|by case_match|by intros [= <-]; rewrite Hb].
  destruct (_ || _); [done|]. destruct (Z.ltb_spec limit (len b)); [done|].
  intros [= <-] c [= <-]. by exists b.
Qed.

Lemma resolve_body cfg r now : req_Body (fst (resolveRequestCredential cfg r now)) = req_Body r.
Proof. unfold resolveRequestCredential, setPanelAuditContext. by repeat case_match. Qed.

(** ** The stages up to the decision *)

Section stages.
Context (req : Request) (K : list obs -> OutRequest -> Prop).
Context (fresh : req_bodyCache req = None).

(** [K] is what must hold of the history and the request at an upstream call. *)
Definition guard (h : list obs) (c : call) : Prop :=
  match c with Upstream o => K h o | _ => True end.

Definition safe {A} (p : prog A) (h : list obs) : Prop := wp guard p h (fun _ _ => True).

Lemma local_safe {A} (p : prog A) h : only local_call p -> safe p h.
Proof.
  intros Hp. eapply wp_only with (I := fun _ => True); [exact Hp|done|done|]. by intros ? [].
Qed.

Lemma safe_bind {A B} (p : prog A) (f : A -> prog B) h :
  wp guard p h (fun h' a => safe (f a) h') -> safe (bind p f) h.
Proof. apply wp_bind. Qed.

Lemma safe_perform {B} c (f : answer c -> prog B) h :
  guard h c -> (forall r, safe (f r) (observe c r :: h)) -> safe (bind (perform c) f) h.
Proof. intros Hc Hf. apply safe_bind, wp_perform. auto. Qed.

(** The deferred call is not an upstream call. *)
Lemma safe_defer cleanup body h :
  (forall h, guard h cleanup) -> safe body h -> safe (defer cleanup body) h.
Proof. intros Hc Hb. apply wp_defer. eapply wp_mono; [exact Hb|]. auto. Qed.

Lemma denied_safe w r route tid cid reason status h :
  safe (returned (Respond.deny w r route tid cid reason status)) h.
Proof. apply local_safe, returned_calls. eauto with calls nocore. Qed.

Lemma deny_policy_safe w r route tok cred reason status h :
  safe (returned (deny_policy w r route tok cred reason status)) h.
Proof. apply local_safe, returned_calls. eauto with calls nocore. Qed.

(** What a public subscription has passed, and what a token has, be it granted the
    route or let through by report mode. *)
Record subscribed (seen : list obs) (st : runtimeState) (path rawQuery : string) (route : Route)
    : Prop := {
  sb_checked : checked req seen st path rawQuery route;
  sb_support : rt_Support route = PublicSubscription;
  sb_enabled : ps_Enabled (cfg_PublicSubs (rs_cfg st)) = true;
  sb_slot : OAcquire (rs_generation st) (LSubIP (clientIP req)) true ∈ seen;
  sb_rate : OAllow (rs_generation st) (RSubIP (clientIP req)) true ∈ seen;
}.

Record granted (seen : list obs) (st : runtimeState) (path rawQuery : string) (route : Route)
    (tok : TokenPolicy) (cred : Credential) : Prop := {
  gr_checked : checked req seen st path rawQuery route;
  gr_decided : exists now, ONow now ∈ seen /\
    snd (resolveRequestCredential (rs_cfg st) req now) = inr (tok, cred) /\
    (grants tok (token_route route) \/ reported (rs_cfg st) req now);
  gr_slot : OAcquire (rs_generation st) (LToken (tok_ID tok)) true ∈ seen;
  gr_rate : OAllow (rs_generation st) (RToken (tok_ID tok)) true ∈ seen;
}.

Hypothesis subscription_ok : forall w r st path q route h,
  subscribed h st path q route -> same_request req r ->
  body_within (lim_MaxBodyBytes (cfg_Limits (rs_cfg st))) r ->
  safe (and_then (serve_proxy (rs_proxy st) w r path q true)
          (perform (Emit (AuditLog.Emit "public_subscription_proxy" (rt_Name route) "" ""
                            "ok" 0)))) h.

Hypothesis write_ok : forall w r st path q route tok cred h,
  granted h st path q route tok cred -> same_request req r ->
  buffer_ok r -> body_within (lim_MaxBodyBytes (cfg_Limits (rs_cfg st))) r ->
  safe (serve_write w r st (token_route route) path q tok cred) h.

Lemma handlePublicSub_safe w r st path q route h :
  checked req h st path q route -> rt_Support route = PublicSubscription ->
  ps_Enabled (cfg_PublicSubs (rs_cfg st)) = true -> same_request req r ->
  body_within (lim_MaxBodyBytes (cfg_Limits (rs_cfg st))) r ->
  safe (handlePublicSub w r st route path q) h.
Proof using Type*.
  intros Hc Hs He Hr Hwi. unfold handlePublicSub. rewrite He. cbv zeta. cbn [negb].
  destruct (regexp_Compile _) as [shortRe|]; [|done].
  destruct (_ || _); [apply denied_safe|]. destruct (_ && _); [apply denied_safe|].
  apply safe_perform; [done|]. intros [|]; [|apply denied_safe]. cbn [negb].
  apply safe_defer; [done|].
  apply safe_perform; [done|]. intros [|]; [|apply denied_safe]. cbn [negb].
  apply subscription_ok; [|done..]. replace (clientIP r) with (clientIP req)
    by (unfold clientIP; by rewrite (sr_addr _ _ Hr)).
  split; cbn [observe]; [eapply checked_incl; [|exact Hc]| | | |]; set_solver.
Qed.

Lemma serve_token_safe w r st path q route now tok cred h :
  checked req h st path q route -> ONow now ∈ h ->
  snd (resolveRequestCredential (rs_cfg st) req now) = inr (tok, cred) ->
  req_panelAudit r = req_panelAudit
    (fst (resolveRequestCredential (rs_cfg st) (markPanelBearerCandidate (rs_cfg st) req) now)) ->
  same_request req r -> buffer_ok r ->
  body_within (lim_MaxBodyBytes (cfg_Limits (rs_cfg st))) r ->
  safe (serve_token w r st (token_route route) path q tok cred) h.
Proof using Type*.
  intros Hc Hn Hr Hp Hsame Hbuf Hwi. unfold serve_token. cbv zeta.
  apply safe_perform; [done|]. intros [|]; [|apply denied_safe]. cbn [negb].
  apply safe_defer; [done|].
  apply safe_perform; [done|]. intros [|]; [|apply denied_safe]. cbn [negb].
  destruct (_ && _) eqn:Hdec; [apply deny_policy_safe|].
  destruct (handlePanelReadFacade _ _ _ _ _ _ _) as [w' [p|]] eqn:Hf.
  { apply handlePanelReadFacade_calls in Hf.
    apply local_safe, returned_calls, answering_is_local, Hf. }
  apply write_ok; [|done..]. split; cbn [observe]; try in_list.
  { eapply checked_incl; [|exact Hc]. set_solver. }
  exists now. split_and!; [in_list|done|].
  destruct (d_Allow (Decide (Some tok) (token_route route))) eqn:Hd.
  { left. by apply Decide_allow in Hd as (t & [= <-] & Hg). }
  right. cbn [negb andb] in Hdec. apply orb_false_iff in Hdec as [Hpan Hrep%negb_false_iff].
  apply andb_true_iff in Hrep as [Hr1 Hr2]. split_and!; [done..|]. rewrite <- Hp.
  unfold panelAuditContextFromRequest in Hpan. by destruct (req_panelAudit r).
Qed.

Lemma serve_credential_safe w r st path q route h :
  checked req h st path q route -> same_request req r -> buffer_ok r ->
  body_within (lim_MaxBodyBytes (cfg_Limits (rs_cfg st))) r ->
  req_panelAudit r = req_panelAudit (markPanelBearerCandidate (rs_cfg st) req) ->
  safe (serve_credential w r st (token_route route) path q) h.
Proof using Type*.
  intros Hc Hsame Hbuf Hwi Hp. unfold serve_credential.
  apply safe_perform; [done|]. intros now. cbn [observe].
  pose proof (resolve_same (rs_cfg st) r now) as Hs.
  assert (Hb : buffer_ok (fst (resolveRequestCredential (rs_cfg st) r now))).
  { unfold resolveRequestCredential, setPanelAuditContext. by repeat case_match. }
  pose proof (resolve_body (rs_cfg st) r now) as Hbody.
  destruct (resolveRequestCredential (rs_cfg st) r now) as [r' resolved] eqn:Hres.
  destruct resolved as [e|[tok cred]]; [apply denied_safe|].
  apply serve_token_safe with (now := now);
    [| | | |eapply same_trans; eassumption|done|unfold body_within; cbn [fst] in Hbody; by rewrite Hbody].
  - eapply checked_incl; [|exact Hc]. set_solver.
  - set_solver.
  - rewrite <- (resolve_header _ r), Hres; [done|]. apply Hsame.
  - rewrite <- (resolve_panel _ r), Hres; [done| |done].
    rewrite (proj1 (mark_kept _ _)). apply Hsame.
Qed.

Lemma serve_route_safe w st r path q h :
  let cfg := rs_cfg st in
  OLoad st ∈ h -> OAcquire (rs_generation st) LGlobal true ∈ h ->
  (exists raw, ValidateRawRequest req (lim_MaxPathLength (cfg_Limits cfg))
     (lim_MaxQueryLength (cfg_Limits cfg)) = Ok (raw, q) /\ path = trim_slashes raw) ->
  Match (Catalog (EffectiveVersion (cfg_Compatibility cfg))) (req_Method req) path = Some r ->
  safe (serve_route VerifyPKCS1v15 w (markPanelBearerCandidate cfg req) st
          (effectiveRoute cfg r) path q) h.
Proof using Type*.
  intros cfg Hl Hg Ht Hm. unfold serve_route. cbv zeta.
  destruct (if pf_Enabled _ then _ else _) as [p|] eqn:Hp.
  { destruct (pf_Enabled _); [|done].
    apply local_safe, returned_calls. by eapply handlePanelAuthFacade_calls. }
  apply safe_perform; [done|]. intros [|]; [|apply denied_safe]. cbn [negb observe].
  destruct (validateRequestQuery _ _ q) as [[]|] eqn:Hq; [|apply denied_safe].
  destruct (bufferRequestBody _ _) as [r'|] eqn:Hb; [|apply denied_safe].
  pose proof (buffer_kept _ _ _ Hb) as (_ & _ & Ha & _).
  pose proof (buffer_within _ _ _ Hb) as Hwi.
  apply buffer_same in Hb as [Hs Hbuf].
  2: { unfold buffer_ok, markPanelBearerCandidate, setPanelAuditContext. intros b.
       repeat case_match; cbn [req_bodyCache set_panel]; by rewrite fresh. }
  assert (Hsame : same_request req r') by (eapply same_trans; [apply mark_same|exact Hs]).
  assert (Hc : checked req (OVersionOK (rs_generation st) true :: h) st path q
                 (effectiveRoute cfg r)) by (split; try set_solver; eauto).
  fold cfg in Ha. destruct (rt_Support _ =s? PublicSubscription) eqn:Hsup.
  - destruct (ps_Enabled _) eqn:He; [apply handlePublicSub_safe; auto; by apply eqs_true|].
    destruct (Get _ _ =s? ""); [apply denied_safe|].
    replace (subscription_route (effectiveRoute cfg r)) with
      (token_route (effectiveRoute cfg r)) by (unfold token_route; by rewrite Hsup).
    by apply serve_credential_safe.
  - replace (effectiveRoute cfg r) with (token_route (effectiveRoute cfg r)) at 1
      by (unfold token_route; by rewrite Hsup).
    by apply serve_credential_safe.
Qed.

(** Every upstream call of the handler meets the guard. *)
Lemma apiHandler_safe w : safe (apiHandler VerifyPKCS1v15 w req) [].
Proof using Type*.
  unfold apiHandler. apply safe_perform; [done|]. intros st.
  apply safe_perform; [done|].
  intros [|]; [|apply local_safe, returned_calls; eauto with calls nocore].
  cbn [negb observe]. apply safe_defer; [done|]. unfold serve.
  destruct (ValidateRawRequest _ _ _) as [[raw q]|] eqn:Ht; [|apply denied_safe]. cbv zeta.
  rewrite (proj2 (proj2 (mark_kept _ _))).
  destruct (Match _ _ _) as [r|] eqn:Hm; [|apply denied_safe].
  apply serve_route_safe; eauto; set_solver.
Qed.

(** So does every upstream call of an execution. *)
Lemma guarded w tr o (n : nat) out r :
  exec (apiHandler VerifyPKCS1v15 w req) tr o -> tr !! n = Some (OUpstream out r) ->
  K (rev (firstn n tr)) out.
Proof using Type*.
  intros He Hn. destruct (wp_at _ _ _ _ _ _ _ (apiHandler_safe w) He Hn) as (c & rep & Hc & HG).
  symmetry in Hc. apply observe_Upstream in Hc as ->. exact HG.
Qed.
End stages.

Lemma rev_incl (seen : list obs) : rev seen ⊆ seen.
Proof. intros x Hx%list_elem_of_In%in_rev. by apply list_elem_of_In. Qed.

(** *** Authorisation *)

Lemma authorized_safe {A} req (p : prog A) h :
  authorized req h -> safe (fun h _ => authorized req h) p h.
Proof.
  intros Ha. eapply wp_mono; [eapply (wp_kept (authorized req)); [exact Ha| |]|done].
  - intros h' o. apply authorized_incl, incl_cons.
  - by intros h' [].
Qed.

Lemma apiHandler_authorized req w :
  req_bodyCache req = None ->
  safe (fun h _ => authorized req h) (apiHandler VerifyPKCS1v15 w req) [].
Proof.
  intros Hf. apply apiHandler_safe; [done| |].
  - intros w' r' st path q route h [] _ _. apply authorized_safe. by eapply by_subscription.
  - intros w' r' st path q route tok cred h [Hc (now & Hn' & Hr & Hg) Hs Ha] _ _ _.
    apply authorized_safe. destruct Hg; [by eapply by_token|by eapply by_report].
Qed.

(** C1: the gateway calls the upstream only after its checks.  In every
    execution of the handler, whatever the world answers, before any upstream
    call: the global semaphore was acquired, the request target is valid and its
    path matches a route of the catalog, the upstream's version is accepted and
    the query is allowed on the route; and one of three things holds.  Either the
    route is a public subscription, enabled and within its limits for the
    client's address; or the request carries a credential of the configuration,
    or a panel session that stands for one, whose token holds one of its slots, is
    within its rate and is granted the route; or it carries such a credential,
    within the same limits, and the configuration has both report mode and its
    unsafe proxying on and the request is not the panel's -- then the token need
    not be granted the route. *)
Theorem upstream_only_when_authorized w req tr o (n : nat) out r :
  req_bodyCache req = None ->
  exec (apiHandler VerifyPKCS1v15 w req) tr o -> tr !! n = Some (OUpstream out r) ->
  authorized req (firstn n tr).
Proof.
  intros Hf He Hn. eapply authorized_incl; [apply rev_incl|].
  destruct (wp_at _ _ _ _ _ _ _ (apiHandler_authorized req w Hf) He Hn) as (c & rep & Hc & HG).
  symmetry in Hc. apply observe_Upstream in Hc as ->. exact HG.
Qed.
End authorization.

(** The write in the middle of the trace: the observations before it
    authorise it. *)
Lemma upstream_only_when_authorized_witness :
  out_Method (fst disable_call) = "POST" /\
  authorized disable_request (firstn 8 disable_trace).
Proof.
  split; [reflexivity|].
  apply (upstream_only_when_authorized example_pkcs ∅ disable_request disable_trace Returned 8
           (fst disable_call) (snd disable_call));
    [reflexivity|exact disable_exec|exact disable_call_at].
Defined.
