(* ===== verification/Upstream.v ===== *)
(** * internal/server: what reaches the upstream

    Every request the handler sends upstream is built by the proxy of the state
    it has loaded, from the client's headers and a body within the limit. *)

From S2P Require Import Prelude GoStrings Json Ratelimit Config Routes Auth Policy.
From S2P Require Import EffectiveRoute Httputil Remnawave BodyPolicy ResponsePolicy Proxy.
From S2P Require Import Alerts AuditLog OAuthStore Effects PanelFacade Respond PanelOAuth PanelLogin.
From S2P Require Import Handler Calls Authorization.
From stdpp Require Import options.

Local Open Scope Z_scope.

Section upstream.
Context `{Unicode} `{Host} `{Regexps} `{NetParsers} `{NetFiles} `{RequestURLs}.
Context (VerifyPKCS1v15 : PublicKey -> string -> string -> bool).

Definition max_body (st : runtimeState) : Z := lim_MaxBodyBytes (cfg_Limits (rs_cfg st)).

(** [h] is the client's header, less what the gateway deletes from it. *)
Record part_of (client h : Header) : Prop := {
  po_header : forall k v, h !! k = Some v -> client !! k = Some v;
  po_tokens : connection_tokens h = connection_tokens client;
}.

Lemma part_of_self h : part_of h h.
Proof. by split. Qed.

Section client.
Context (client : Header).

(** A request as the stages pass it on. *)
Record fine (st : runtimeState) (r : Request) : Prop := {
  fn_header : canonical (req_Header r);
  fn_client : part_of client (req_Header r);
  fn_body : 0 <= max_body st -> body_within (max_body st) r;
}.

Definition sent (st : runtimeState) (pub : bool) (out : OutRequest) : Prop :=
  exists r path q, fine st r /\ out = request_out (rs_proxy st) r path q pub.

Definition sends (st : runtimeState) (pub : bool) (c : call) : Prop :=
  match c with Upstream o => sent st pub o | _ => True end.

Create HintDb sends.

Ltac sends := repeat first [solve [eauto 3 with sends nocore]|calls_step|exact I].

Lemma answering_sends {A} st pub (p : prog A) : only answering p -> only (sends st pub) p.
Proof. apply only_mono. by intros []. Qed.

Lemma returned_sends st pub p : only answering p -> only (sends st pub) (returned p).
Proof. intros Hp. by apply returned_calls, answering_sends. Qed.

Hint Resolve answering_sends returned_sends : sends.
Hint Resolve deny_calls deny_policy_calls audit_allowed_calls write_response_calls
  http_Error_calls writeJSON_calls : sends.

(** ** Requests stay fine *)

Lemma part_of_Del name h :
  CanonicalHeaderKey name <> "Connection" -> part_of client h -> part_of client (Del name h).
Proof.
  intros Hn [Hh Ht]. split.
  - intros k v. rewrite lookup_Del. case_match; [done|]. apply Hh.
  - rewrite <- Ht. unfold connection_tokens, Values.
    change (CanonicalHeaderKey "Connection") with "Connection". rewrite lookup_Del.
    by rewrite (proj2 (eqs_false _ _) Hn).
Qed.

Lemma fine_preflight st r : fine st r -> fine st (preflight_request r).
Proof.
  intros [Hc Hp Hb]. split; [by apply canonical_Del|by apply part_of_Del|]. by intros _ c.
Qed.

Lemma fine_drained st r : fine st r -> fine st (drained r).
Proof.
  intros [Hc Hp Hb]. split; [exact Hc|exact Hp|]. intros Hm c. unfold drained. cbn [req_Body set_body].
  destruct (req_Body r) as [c'|]; [|done]. intros [= <-]. by exists "".
Qed.

Lemma fine_strip st r : fine st r -> fine st (stripConditionalRequestHeaders r).
Proof.
  intros [Hc Hp Hb]. split; [by do 3 apply canonical_Del|by do 3 (apply part_of_Del; [done|])|exact Hb].
Qed.

Lemma fine_buffer st r r' :
  fine st r -> bufferRequestBody r (max_body st) = Ok r' -> fine st r'.
Proof.
  intros [Hc Hp _] Hb. split; [| |intros _; by eapply buffer_within];
    by rewrite (proj1 (buffer_kept _ _ _ Hb)).
Qed.

Lemma requestBodyBytes_header r limit body r' :
  requestBodyBytes r limit = Ok (body, r') -> req_Header r' = req_Header r.
Proof.
  unfold requestBodyBytes. destruct (req_bodyCache r); [by case_match; intros [= _ <-]|].
  destruct (bufferRequestBody r limit) as [r1|] eqn:Hb; [|done]. intros [= _ <-].
  by apply buffer_kept in Hb as [? _].
Qed.

Lemma body_limit_within cfg route :
  0 <= lim_MaxBodyBytes (cfg_Limits cfg) ->
  0 <= body_limit cfg route <= lim_MaxBodyBytes (cfg_Limits cfg).
Proof.
  unfold body_limit. intros Hm. destruct (_ || _) eqn:Hl; [lia|].
  apply orb_false_iff in Hl as [?%Z.leb_gt ?%Z.ltb_ge]. lia.
Qed.

Lemma fine_policy st r route tok r' :
  fine st r -> validateBodyPolicy r (rs_cfg st) route tok = Ok r' -> fine st r'.
Proof.
  intros Hf. unfold validateBodyPolicy. case_match; [by intros [= <-]|].
  case_match; [by intros [= <-]|]. repeat (case_match; try done). intros [= <-].
  match goal with Hb : requestBodyBytes _ _ = Ok _ |- _ =>
    pose proof (requestBodyBytes_header _ _ _ _ Hb) as Hh;
    pose proof (requestBodyBytes_len _ _ _ _ Hb) as Hlen end.
  split; [cbn [req_Header set_body]; rewrite Hh; apply Hf..|].
  intros Hm c [= <-]. destruct (body_limit_within (rs_cfg st) route Hm) as [H0' H1'].
  eexists. split; [done|]. unfold max_body. specialize (Hlen H0'). lia.
Qed.

Hint Resolve fine_preflight fine_drained fine_strip : sends.

(** ** Programs send fine requests only *)

Lemma RoundTrip_sends st pub r path q :
  fine st r -> only (sends st pub) (RoundTrip (rs_proxy st) r path q pub).
Proof. intros Hf. apply only_bind; [|done]. apply only_perform. by exists r, path, q. Qed.

Hint Resolve RoundTrip_sends : sends.

Lemma serve_proxy_sends st pub w r path q :
  fine st r -> only (sends st pub) (serve_proxy (rs_proxy st) w r path q pub).
Proof. intros Hf. unfold serve_proxy. sends. Qed.

Lemma preflightUser_sends st r uuid tok :
  fine st r -> only (sends st false) (preflightUser r st uuid tok).
Proof. intros Hf. unfold preflightUser. sends. Qed.

Hint Resolve preflightUser_sends : sends.

Lemma preflight_sends st r route path tok :
  fine st r -> only (sends st false) (preflight r st route path tok).
Proof. intros Hf. unfold preflight. sends. Qed.

Lemma postWriteVerify_sends st r route tok res :
  fine st r -> only (sends st false) (postWriteVerify r st route tok res).
Proof. intros Hf. unfold postWriteVerify. sends. Qed.

Hint Resolve preflight_sends postWriteVerify_sends : sends.

Lemma scan_pages_sends n start w r st route path q tok cred combined fh :
  fine st r -> only (sends st false) (scan_pages n start w r st route path q tok cred combined fh).
Proof.
  revert start r combined fh. induction n as [|n IH]; intros start r combined fh Hf; cbn [scan_pages];
    sends.
Qed.

Lemma restricted_list_sends w r st route path q tok cred p :
  fine st r -> handlePanelRestrictedUserList w r st route path q tok cred = Some p ->
  only (sends st false) p.
Proof.
  intros Hf. unfold handlePanelRestrictedUserList. destruct (negb _); [done|].
  intros Hp%(inj Some). subst p. apply only_bind; [by apply scan_pages_sends|]. intros a. sends.
Qed.

Lemma serve_response_sends w r st route path q tok cred res :
  fine st r -> only (sends st false) (serve_response w r st route path q tok cred res).
Proof. intros Hf. unfold serve_response. sends. Qed.

Hint Resolve serve_response_sends : sends.

Lemma serve_upstream_sends w r st route path q tok cred :
  fine st r -> only (sends st false) (serve_upstream w r st route path q tok cred).
Proof.
  intros Hf. unfold serve_upstream. cbv zeta.
  assert (Hf' : fine st match panelAuditContextFromRequest r with
    | Some _ => stripConditionalRequestHeaders r | None => r end)
    by (case_match; [by apply fine_strip|done]).
  destruct (handlePanelRestrictedUserList _ _ _ _ _ _ _ _) as [p|] eqn:Hp;
    [by eapply restricted_list_sends|]. sends.
Qed.

Lemma serve_checks_sends w r st route path q tok cred :
  fine st r -> only (sends st false) (serve_checks w r st route path q tok cred).
Proof.
  intros Hf. unfold serve_checks. apply only_bind; [by apply preflight_sends|].
  intros [|]; [|sends]. destruct (validateBodyPolicy _ _ _ _) eqn:Hv; [|sends].
  apply serve_upstream_sends. by eapply fine_policy.
Qed.

Lemma serve_write_sends w r st route path q tok cred :
  fine st r -> only (sends st false) (serve_write w r st route path q tok cred).
Proof.
  intros Hf. unfold serve_write. cbv zeta.
  destruct (_ && _); [|by apply serve_checks_sends]. destruct (negb _); [sends|].
  destruct (bufferRequestBody _ _) as [r'|] eqn:Hb; [|sends].
  apply only_bind; [by apply only_perform|]. intros u. apply only_defer; [exact I|].
  apply serve_checks_sends. by eapply fine_buffer.
Qed.

End client.

(** ** The handler *)

(** The state a request is built from, and whether it is a public one. *)
Definition sent_for (req : Request) (seen : list obs) (out : OutRequest) : Prop :=
  exists st path q route pub,
    checked req seen st path q route /\ sent (req_Header req) st pub out /\
    (pub = true -> rt_Support route = PublicSubscription /\
                   ps_Enabled (cfg_PublicSubs (rs_cfg st)) = true).

Lemma sends_safe {A} req st path q route pub (p : prog A) h :
  only (sends (req_Header req) st pub) p -> checked req h st path q route ->
  (pub = true -> rt_Support route = PublicSubscription /\
                 ps_Enabled (cfg_PublicSubs (rs_cfg st)) = true) ->
  safe (sent_for req) p h.
Proof.
  intros Hp Hc Hpub. eapply wp_mono;
    [eapply (wp_only _ (fun h => checked req h st path q route)); [exact Hp|exact Hc| |]|done].
  - intros h' c r _. apply checked_incl, incl_cons.
  - intros h' [] Hs Hc'; try done. by exists st, path, q, route, pub.
Qed.

(** The request as it comes to a stage. *)
Lemma fine_same req r st :
  canonical (req_Header req) -> same_request req r -> body_within (max_body st) r ->
  fine (req_Header req) st r.
Proof.
  intros Hc Hs Hw. split; [| |done]; rewrite (sr_header _ _ Hs); [done|apply part_of_self].
Qed.

Lemma apiHandler_sends req w :
  req_bodyCache req = None -> canonical (req_Header req) ->
  safe (sent_for req) (apiHandler VerifyPKCS1v15 w req) [].
Proof.
  intros Hf Hc. apply apiHandler_safe; [done| |].
  - intros w' r st path q route h [Hch Hs He _ _] Hsame Hw.
    apply (sends_safe req st path q route true); [|done|done].
    apply and_then_calls; [apply serve_proxy_sends|by apply only_perform].
    by eapply fine_same.
  - intros w' r st path q route tok cred h [Hch _ _ _] Hsame _ Hw.
    apply (sends_safe req st path q route false); [|done|done].
    apply serve_write_sends. by eapply fine_same.
Qed.
End upstream.
