(* ===== verification/WriteSafety.v ===== *)
(** * internal/server: the lock and the ownership check of a write

    What precedes the forwarding of a request that names a user: a read of that
    user, by which the token is found to own it; and for a restricted write the
    lock of its resource, held until the handler has finished. *)

From S2P Require Import Prelude GoStrings Json Ratelimit Config Routes Auth Policy.
From S2P Require Import EffectiveRoute Httputil Remnawave BodyPolicy ResponsePolicy Proxy.
From S2P Require Import Alerts AuditLog OAuthStore Effects PanelFacade Respond PanelOAuth PanelLogin.
From S2P Require Import Handler Calls Example Authorization.
From stdpp Require Import options.

Local Open Scope Z_scope.

Section write_safety.
Context `{Unicode} `{Host} `{Regexps} `{NetParsers} `{NetFiles} `{RequestURLs}.
Context (VerifyPKCS1v15 : PublicKey -> string -> string -> bool).

(** ** The facts *)

(** The user a request is about, as the preflight finds it. *)
Definition user_target (route : Route) (path : string) (req : Request) : option string :=
  let name := rt_Name route in
  if name =s? "hwid.list" then Some (pathSegment path 3)
  else if name =s? "user.update" then Some (bodyString req "uuid")
  else if contains_str user_actions name then Some (pathSegment path 2)
  else if contains_str hwid_writes name then Some (bodyString req "userUuid")
  else None.

(** The upstream read of a user, made with the headers of the request. *)
Definition ownership_read (st : runtimeState) (req : Request) (uuid : string) : OutRequest :=
  request_out (rs_proxy st) (preflight_request req) ("/api/users/" +:+ uuid) "" false.

(** The read was answered with a user the token owns. *)
Definition verified (seen : list obs) (st : runtimeState) (req : Request) (tok : TokenPolicy)
    (uuid : string) : Prop :=
  exists reply resp user,
    OUpstream (ownership_read st req uuid) (Ok reply) ∈ seen /\
    response_in (rs_proxy st) reply = Ok resp /\ success resp = true /\
    DecodeUser (res_Body resp) = Ok user /\ OwnsUser (Some tok) user = Ok ().

Definition allowed_user (tok : TokenPolicy) (uuid : string) : Prop :=
  uuid <> "" /\ (c_AllowedUsers (tok_Constraints tok) = [] \/
                 uuid ∈ c_AllowedUsers (tok_Constraints tok)).

(** Locked and not unlocked since. *)
Definition locked (key : string) (seen : list obs) : Prop :=
  exists before since, seen = before ++ OLock key :: since /\ OUnlock key ∉ since.

Lemma granted_incl req seen seen' st path q route tok cred :
  seen ⊆ seen' -> granted req seen st path q route tok cred ->
  granted req seen' st path q route tok cred.
Proof.
  intros Hs [Hc (now & Hn & Hrest) Hsl Ha]. split; auto; [by eapply checked_incl|].
  exists now. auto.
Qed.

Lemma verified_incl seen seen' st req tok uuid :
  seen ⊆ seen' -> verified seen st req tok uuid -> verified seen' st req tok uuid.
Proof. intros Hs (reply & resp & user & Hu & Hrest). exists reply, resp, user. auto. Qed.

(** ** The ownership check *)

(** What holds before the upstream is called with [out]. *)
Definition owned_before (req : Request) (seen : list obs) (out : OutRequest) : Prop :=
  exists st path q route, checked req seen st path q route /\
    forall uuid, rt_Support route = PolicyEnforced ->
      user_target route path req = Some uuid ->
      exists tok cred, granted req seen st path q route tok cred /\ allowed_user tok uuid /\
        (out = ownership_read st req uuid \/ verified seen st req tok uuid).

Lemma owned_before_incl req seen seen' out :
  seen ⊆ seen' -> owned_before req seen out -> owned_before req seen' out.
Proof.
  intros Hs (st & path & q & route & Hc & Ho). exists st, path, q, route.
  split; [by eapply checked_incl|]. intros uuid He Ht.
  destruct (Ho uuid He Ht) as (tok & cred & Hg & Ha & Hv). exists tok, cred.
  split_and!; [by eapply granted_incl|done|].
  destruct Hv; [by left|right; by eapply verified_incl].
Qed.

Lemma owned_safe {A} req (p : prog A) h :
  (forall out, owned_before req h out) -> safe (owned_before req) p h.
Proof.
  intros Ho. eapply wp_mono; [eapply (wp_kept (fun h => forall out, owned_before req h out));
    [exact Ho| |]|done].
  - intros h' o Hh out. eapply owned_before_incl; [apply incl_cons|apply Hh].
  - intros h' []; simpl; auto.
Qed.

Lemma preflightUser_wp req r st path q route tok cred uuid h :
  granted req h st path q route tok cred -> same_request req r ->
  user_target route path req = Some uuid ->
  wp (guard (owned_before req)) (preflightUser r st uuid tok) h (fun h' a =>
    h ⊆ h' /\ (a = Ok () -> allowed_user tok uuid /\ verified h' st req tok uuid)).
Proof.
  intros Hg Hs Ht. unfold preflightUser.
  destruct (String.eqb_spec uuid "") as [|Hne]; [by split|].
  destruct (negb (is_nil _) && _) eqn:Hall; [by split|].
  assert (Ha : allowed_user tok uuid).
  { split; [done|]. destruct (c_AllowedUsers _) as [|x l]; [by left|right].
    cbn [is_nil negb andb] in Hall. apply negb_false_iff, contains_str_spec in Hall. done. }
  assert (Hout : request_out (rs_proxy st) (preflight_request r) ("/api/users/" +:+ uuid) "" false
                 = ownership_read st req uuid).
  { unfold ownership_read, request_out, preflight_request. simpl. by rewrite (sr_header _ _ Hs). }
  unfold RoundTrip. apply wp_bind, wp_bind, wp_perform. split.
  - rewrite Hout. exists st, path, q, route. split; [apply Hg|]. intros uuid' _ Ht'.
    rewrite Ht in Ht'. injection Ht' as <-. exists tok, cred. auto.
  - intros [reply|e]; cbn [wp]; [|by split; [apply incl_cons|]].
    destruct (response_in _ reply) as [resp|] eqn:Hr; [|by split; [apply incl_cons|]].
    split; [apply incl_cons|]. destruct (success resp) eqn:Hsuc; [|done]. cbn [negb].
    destruct (DecodeUser (res_Body resp)) as [user|] eqn:Hu; [|done]. intros Ho. split; [done|].
    exists reply, resp, user. split_and!; [|done..]. rewrite Hout. cbn [observe]. set_solver.
Qed.

(** The preflight of a request on a user checks that user. *)
Lemma preflight_wp req r st path q route tok cred uuid h :
  granted req h st path q route tok cred -> same_request req r ->
  rt_Support route = PolicyEnforced -> user_target route path req = Some uuid ->
  wp (guard (owned_before req)) (preflight r st route path tok) h (fun h' a =>
    h ⊆ h' /\ (a = Ok () -> allowed_user tok uuid /\ verified h' st req tok uuid)).
Proof.
  intros Hg Hs He Ht. pose proof Ht as Ht'. unfold user_target in Ht'. unfold preflight.
  rewrite He, !(sr_body _ _ Hs). change (PolicyEnforced <>s? PolicyEnforced) with false. cbv zeta iota.
  assert (Hu : wp (guard (owned_before req)) (preflightUser r st uuid tok) h (fun h' a =>
    h ⊆ h' /\ (a = Ok () -> allowed_user tok uuid /\ verified h' st req tok uuid)))
    by (by eapply preflightUser_wp).
  destruct (rt_Name route =s? "hwid.list"); [by injection Ht' as ->|].
  destruct (rt_Name route =s? "user.update").
  { injection Ht' as ->. by destruct (uuid =s? ""). }
  destruct (contains_str user_actions _); [by injection Ht' as ->|].
  destruct (contains_str hwid_writes _); [|done].
  injection Ht' as ->. by destruct (uuid =s? "").
Qed.

(** Requests that name no user need no check. *)
Lemma untargeted_safe {A} req (p : prog A) st path q route h :
  checked req h st path q route ->
  (rt_Support route = PolicyEnforced -> user_target route path req = None) ->
  safe (owned_before req) p h.
Proof.
  intros Hc Hn. apply owned_safe. intros out. exists st, path, q, route. split; [done|].
  intros uuid He Ht. by rewrite Hn in Ht.
Qed.

Lemma targeted_route route path req uuid :
  user_target route path req = Some uuid -> rt_Support route = PolicyEnforced ->
  token_route route = route.
Proof. intros _ He. unfold token_route. by rewrite He. Qed.

Lemma serve_checks_owned req w r st path q route tok cred h :
  granted req h st path q route tok cred -> same_request req r ->
  safe (owned_before req) (serve_checks w r st (token_route route) path q tok cred) h.
Proof.
  intros Hg Hs. destruct (decide (rt_Support route = PolicyEnforced)) as [He|He].
  2: { eapply untargeted_safe; [apply Hg|done]. }
  destruct (user_target route path req) as [uuid|] eqn:Ht.
  2: { eapply untargeted_safe; [apply Hg|done]. }
  unfold token_route. rewrite He. change (PolicyEnforced =s? PublicSubscription) with false.
  cbv iota. unfold serve_checks. apply safe_bind. eapply wp_mono; [by eapply preflight_wp|].
  intros h' [[]|e] [Hi Hv]; [|apply deny_policy_safe].
  specialize (Hv eq_refl) as [Ha Hv]. apply owned_safe. intros out.
  exists st, path, q, route. split; [eapply checked_incl; [exact Hi|apply Hg]|].
  intros uuid' _ Ht'. rewrite Ht in Ht'. injection Ht' as <-. exists tok, cred.
  split_and!; [by eapply granted_incl|done|by right].
Qed.

Lemma serve_write_owned req w r st path q route tok cred h :
  granted req h st path q route tok cred -> same_request req r -> buffer_ok r ->
  safe (owned_before req) (serve_write w r st (token_route route) path q tok cred) h.
Proof.
  intros Hg Hs Hb. unfold serve_write. cbv zeta.
  destruct (_ && _); [|by apply serve_checks_owned].
  destruct (negb _); [apply denied_safe|].
  destruct (bufferRequestBody _ _) as [r'|] eqn:Hbuf; [|apply denied_safe].
  apply buffer_same in Hbuf as [Hs' _]; [|done].
  apply safe_perform; [done|]. intros u. apply safe_defer; [done|].
  apply serve_checks_owned; [|by eapply same_trans].
  eapply granted_incl; [apply incl_cons|exact Hg].
Qed.

(** C2: a change of a user, or a look at its devices, is preceded by a check of
    who owns the user.  Take a policy-enforced route that names one user: the
    devices of a user, its update, its actions, the writes on its devices.  In
    every execution of the handler, before any upstream call made for such a
    route, the token has been granted the route (or let through by report mode)
    and is allowed that user's uuid, and -- unless the call is the ownership read
    itself, a GET of that user -- such a read has been answered with a user that
    satisfies the token's constraints.  Nothing is said of other routes: plain
    reads of a user, whose answer is checked instead, and privileged routes are
    forwarded without a read before them. *)
Theorem user_requests_owned w req tr o (n : nat) out r :
  req_bodyCache req = None ->
  exec (apiHandler VerifyPKCS1v15 w req) tr o -> tr !! n = Some (OUpstream out r) ->
  owned_before req (firstn n tr) out.
Proof.
  intros Hf He Hn. eapply owned_before_incl; [apply rev_incl|].
  refine (guarded VerifyPKCS1v15 req (owned_before req) Hf _ _ w tr o n out r He Hn).
  - intros w' r' st path q route h [Hc Hs _ _ _] _ _. eapply untargeted_safe; [exact Hc|].
    by rewrite Hs.
  - intros. by apply serve_write_owned.
Qed.

(** ** The lock *)

(** [seen] latest first. *)
Definition locked_now (key : string) (seen : list obs) : Prop :=
  exists since before, seen = since ++ OLock key :: before /\ OUnlock key ∉ since.

Lemma locked_rev key seen : locked_now key (rev seen) -> locked key seen.
Proof.
  intros (since & before & Hseen & Hn). exists (rev before), (rev since). split.
  - rewrite <- (rev_involutive seen), Hseen, rev_app_distr. simpl. by rewrite <- app_assoc.
  - intros Hin%rev_incl. done.
Qed.

Definition key_held (hold : string -> list obs -> Prop) (req : Request) (seen : list obs) : Prop :=
  exists st path q route, checked req seen st path q route /\
    (isRestrictedWrite route = true -> rt_Support route = PolicyEnforced ->
     writes_enabled (rs_cfg st) = true /\ hold (lockKey route path req) seen).

Lemma locked_plain key c r h :
  plain_call c -> locked_now key h -> locked_now key (observe c r :: h).
Proof.
  intros Hc (since & before & -> & Hn). exists (observe c r :: since), before. split; [done|].
  intros [Heq|Hin]%elem_of_cons; [|done]. by destruct c.
Qed.

Lemma key_held_safe {A} req (p : prog A) h :
  only plain_call p -> key_held locked_now req h ->
  safe (fun seen _ => key_held locked_now req seen) p h.
Proof.
  intros Hp Hk. eapply wp_mono; [eapply wp_only; [exact Hp|exact Hk| |]|done].
  - intros h' c r Hc (st & path & q & route & Hch & Hl). exists st, path, q, route.
    split; [eapply checked_incl; [apply incl_cons|exact Hch]|]. intros Hr He.
    destruct (Hl Hr He). auto using locked_plain.
  - by intros h' [].
Qed.

Lemma serve_write_locked req w r st path q route tok cred h :
  granted req h st path q route tok cred -> same_request req r -> buffer_ok r ->
  safe (fun seen _ => key_held locked_now req seen)
    (serve_write w r st (token_route route) path q tok cred) h.
Proof.
  intros Hg Hs Hb. unfold serve_write. cbv zeta.
  destruct (_ && _) eqn:Hw.
  2: { apply key_held_safe; [apply serve_checks_calls|]. exists st, path, q, route.
       split; [apply Hg|]. intros Hr He. revert Hw. unfold token_route.
       rewrite He. change (PolicyEnforced =s? PublicSubscription) with false. cbv iota.
       by rewrite Hr, He. }
  destruct (writes_enabled _) eqn:Hen; [|apply denied_safe]. cbn [negb].
  destruct (bufferRequestBody _ _) as [r'|] eqn:Hbuf; [|apply denied_safe].
  apply buffer_same in Hbuf as [Hs' _]; [|done].
  pose proof (same_trans _ _ _ Hs Hs') as Hs2.
  apply safe_perform; [done|]. intros u. apply safe_defer; [done|].
  apply key_held_safe; [apply serve_checks_calls|]. exists st, path, q, route.
  split; [eapply checked_incl; [apply incl_cons|apply Hg]|]. intros _ He. split; [done|].
  exists [], h. split; [|set_solver]. unfold token_route. rewrite He.
  change (PolicyEnforced =s? PublicSubscription) with false. cbv iota. cbn [observe app].
  unfold lockKey. by rewrite !(sr_body _ _ Hs2).
Qed.

(** Every upstream call of the handler is made under the lock of its request. *)
Lemma apiHandler_locked req w :
  req_bodyCache req = None ->
  safe (fun seen _ => key_held locked_now req seen) (apiHandler VerifyPKCS1v15 w req) [].
Proof.
  intros Hf. apply apiHandler_safe; [done| |].
  - intros w' r' st path q route h [Hc Hs _ _ _] _ _. apply key_held_safe.
    { apply and_then_calls; [apply serve_proxy_calls|by apply only_perform]. }
    exists st, path, q, route. split; [done|]. by rewrite Hs.
  - intros. by apply serve_write_locked.
Qed.

Lemma key_held_rev req seen :
  key_held locked_now req (rev seen) -> key_held locked req seen.
Proof.
  intros (st & path & q & route & Hc & Hl). exists st, path, q, route.
  split; [eapply checked_incl; [apply rev_incl|exact Hc]|].
  intros Hr Hsup. destruct (Hl Hr Hsup). auto using locked_rev.
Qed.

(** Restricted writes are serialised by resource.  In every execution of
    the handler, at any upstream call made for a restricted, policy-enforced
    write -- the ownership reads around it included -- the configuration enables
    restricted writes for a single writer, and the lock named by [lockKey] has
    been taken and not been given back. *)
Theorem restricted_writes_hold_the_lock w req tr o (n : nat) out r :
  req_bodyCache req = None ->
  exec (apiHandler VerifyPKCS1v15 w req) tr o -> tr !! n = Some (OUpstream out r) ->
  key_held locked req (firstn n tr).
Proof.
  intros Hf He Hn.
  destruct (wp_at _ _ _ _ _ _ _ (apiHandler_locked req w Hf) He Hn) as (c & rep & Hc & Hk).
  symmetry in Hc. apply observe_Upstream in Hc as ->.
  by apply key_held_rev.
Qed.
End write_safety.

(** ** Witnesses: the user action of Example.v *)

Lemma user_requests_owned_witness :
  out_Method (fst disable_call) = "POST" /\
  owned_before disable_request (firstn 8 disable_trace) (fst disable_call).
Proof.
  split; [reflexivity|].
  apply (user_requests_owned example_pkcs ∅ disable_request disable_trace Returned 8 _
           (snd disable_call)); [reflexivity|exact disable_exec|exact disable_call_at].
Defined.

Lemma restricted_writes_hold_the_lock_witness :
  out_Method (fst disable_call) = "POST" /\
  key_held locked disable_request (firstn 8 disable_trace).
Proof.
  split; [reflexivity|].
  apply (restricted_writes_hold_the_lock example_pkcs ∅ disable_request disable_trace Returned 8
           (fst disable_call) (snd disable_call));
    [reflexivity|exact disable_exec|exact disable_call_at].
Defined.
