(* ===== verification/Resources.v ===== *)
(** * internal/server: what a request uses

    Counting over executions of the handler: the answers it writes, the calls it
    makes, and the semaphores and locks it holds.  Every path through the handler
    is followed once, with the same bookkeeping. *)

From S2P Require Import Prelude GoStrings Json Ratelimit Config Routes Auth Policy.
From S2P Require Import EffectiveRoute Httputil Remnawave BodyPolicy ResponsePolicy Proxy.
From S2P Require Import Alerts AuditLog OAuthStore Effects PanelFacade Respond PanelOAuth PanelLogin.
From S2P Require Import Handler Calls Example.
From stdpp Require Import options.

(** ** Counts *)

Definition is_write (o : obs) : bool := match o with OWrite _ _ _ => true | _ => false end.
Definition is_upstream (o : obs) : bool := match o with OUpstream _ _ => true | _ => false end.

Definition count (f : obs -> bool) (h : list obs) : nat := length (List.filter f h).

Inductive resource := Slot (g : Z) (l : limit) | Key (k : string).

#[export] Instance resource_eq_dec : EqDecision resource.
Proof. solve_decision. Defined.

Fixpoint remove_one (r : resource) (l : list resource) : list resource :=
  match l with
  | [] => []
  | x :: l' => if decide (x = r) then l' else x :: remove_one r l'
  end.

(** What is held after a history, latest observation first. *)
Fixpoint held (h : list obs) : list resource :=
  match h with
  | [] => []
  | o :: h' =>
      match o with
      | OAcquire g l true => Slot g l :: held h'
      | OLock k => Key k :: held h'
      | ORelease g l => remove_one (Slot g l) (held h')
      | OUnlock k => remove_one (Key k) (held h')
      | _ => held h'
      end
  end.

(** Only what is held is given back. *)
Definition gives_back (h : list obs) (c : call) : Prop :=
  match c with
  | Release g l => Slot g l ∈ held h
  | Unlock k => Key k ∈ held h
  | _ => True
  end.

(** [h'] follows [h] with [w] writes, at most [u] upstream calls and at most [n]
    calls, and holds the same. *)
Definition adds (w u n : nat) (h h' : list obs) : Prop :=
  count is_write h' = w + count is_write h /\
  count is_upstream h' <= u + count is_upstream h /\
  length h' <= n + length h /\ held h' = held h.

Definition costs {A} (w : A -> nat) (u n : nat) (p : prog A) : Prop :=
  forall h, wp gives_back p h (fun h' a => adds (w a) u n h h').

Definition one {A} (_ : A) : nat := 1.
Definition none {A} (_ : A) : nat := 0.
Definition when_returned (o : outcome) : nat := match o with Returned => 1 | Panicked => 0 end.

Definition when_ended {A} (r : outcome + A) : nat :=
  match r with inl o => when_returned o | inr _ => 0 end.

Ltac adds_done :=
  unfold adds, one, none, when_ended, when_returned, max_pages, count in *;
  cbn [List.filter is_write is_upstream length held] in *; destruct_and?; subst;
  split_and?; first [lia|congruence].

(** The cost of a part is used for the part. *)
Ltac cost_of H := eapply wp_mono; [apply H|intros ? ? ?; cbv beta in *].

(** The parts whose cost is known. *)
Ltac cost_known := fail.

(** One step of a program whose history so far is described by [adds] facts. *)
Ltac cost_step :=
  cbv beta zeta;
  lazymatch goal with
  | |- wp _ (Ret _) _ _ => cbn [wp]
  | |- wp _ (bind (perform _) _) _ _ =>
      apply wp_bind, wp_perform; split; [exact I|intros ?; cbn [observe]]
  | |- wp _ (bind _ _) _ _ => apply wp_bind
  | |- wp _ (perform _) _ _ => apply wp_perform; split; [exact I|intros ?; cbn [observe]]
  | |- wp _ (match ?x with _ => _ end) _ _ => destruct x
  | |- adds _ _ _ _ _ => adds_done
  | _ => cost_known
  end.

Section resources.
Context `{Unicode} `{Host} `{Regexps} `{NetParsers} `{NetFiles} `{RequestURLs}.
Context (VerifyPKCS1v15 : PublicKey -> string -> string -> bool).

(** ** Answers *)

Lemma deny_costs w req route tid cid reason status :
  costs one 0 4 (Respond.deny w req route tid cid reason status).
Proof. intros h. unfold Respond.deny, writeJSON, http_Error. repeat cost_step. Qed.

Lemma deny_policy_costs w req route tok cred reason status :
  costs one 0 4 (deny_policy w req route tok cred reason status).
Proof.
  intros h. unfold deny_policy, handlePanelPolicyDeny, writeJSON.
  destruct (panelAuditContextFromRequest req); [|apply deny_costs].
  destruct (safeRequestContext req). repeat cost_step.
Qed.

Lemma write_response_costs p w r pub : costs when_returned 0 1 (write_response p w r pub).
Proof. intros h. unfold write_response, returned. repeat cost_step. Qed.

Lemma audit_allowed_costs e req route path tok cred reason status fields :
  costs none 0 1 (audit_allowed e req route path tok cred reason status fields).
Proof. intros h. unfold audit_allowed. repeat cost_step. Qed.

Lemma returned_costs u n p : costs one u n p -> costs when_returned u n (returned p).
Proof. intros Hp h. unfold returned. cost_step. cost_of Hp. repeat cost_step. Qed.

Lemma costs_le {A} (w : A -> nat) u n u' n' p :
  costs w u n p -> u <= u' -> n <= n' -> costs w u' n' p.
Proof. intros Hp Hu Hn h. cost_of Hp. adds_done. Qed.

Lemma denied_costs w req route tid cid reason status :
  costs when_returned 0 4 (returned (Respond.deny w req route tid cid reason status)).
Proof. apply returned_costs, deny_costs. Qed.

Lemma denied_policy_costs w req route tok cred reason status :
  costs when_returned 0 4 (returned (deny_policy w req route tok cred reason status)).
Proof. apply returned_costs, deny_policy_costs. Qed.

(** What follows an answer is not run after a panic. *)
Lemma and_then_costs u n n' p k :
  costs when_returned u n p -> costs none 0 n' k -> costs when_returned u (n + n') (and_then p k).
Proof.
  intros Hp Hk h. unfold and_then, returned. cost_step. cost_of Hp. destruct a; [|by repeat cost_step].
  cost_step. cost_of Hk. repeat cost_step.
Qed.

(** Writing the response and recording it. *)
Lemma allowed_costs p w r e req route path tok cred reason status fields :
  costs when_returned 0 2 (and_then (write_response p w r false)
    (audit_allowed e req route path tok cred reason status fields)).
Proof. apply (and_then_costs 0 1 1); [apply write_response_costs|apply audit_allowed_costs]. Qed.

(** ** Semaphores and locks *)

Lemma slot_held g l w u n h h' :
  adds w u n (OAcquire g l true :: h) h' -> held h' = Slot g l :: held h.
Proof. by intros (_ & _ & _ & Hh). Qed.

Lemma key_held_after k w u n h h' :
  adds w u n (OLock k :: h) h' -> held h' = Key k :: held h.
Proof. by intros (_ & _ & _ & Hh). Qed.

Lemma remove_one_head r l : remove_one r (r :: l) = l.
Proof. simpl. by rewrite decide_True. Qed.

(** A body between a taken semaphore and its deferred release. *)
Lemma acquired_costs (g : Z) (l : limit) u n (no body : prog outcome) :
  costs when_returned u (S n) no -> costs when_returned u n body ->
  costs when_returned u (2 + n) (let! ok := perform (Acquire g l) in
    if negb ok then no else defer (Release g l) body).
Proof.
  intros Hno Hbody h. apply wp_bind, wp_perform. split; [exact I|]. intros [|]; cbn [observe negb].
  - apply wp_defer. cbv beta. cost_of Hbody. rename H5 into Ha. pose proof (slot_held _ _ _ _ _ _ _ Ha) as Hh.
    split; [cbn [gives_back]; rewrite Hh; set_solver|]. intros []. cbn [observe].
    destruct Ha as (? & ? & ? & _). split_and!; [| | |cbn [held]; by rewrite Hh, remove_one_head];
      unfold count in *; cbn [List.filter is_write is_upstream length] in *; lia.
  - cost_of Hno. adds_done.
Qed.

(** A body under a lock. *)
Lemma locked_costs k u n (body : prog outcome) :
  costs when_returned u n body ->
  costs when_returned u (2 + n) (do! perform (Lock k) then defer (Unlock k) body).
Proof.
  intros Hbody h. apply wp_bind, wp_perform. split; [exact I|]. intros []; cbn [observe].
  apply wp_defer. cbv beta. cost_of Hbody. rename H5 into Ha. pose proof (key_held_after _ _ _ _ _ _ Ha) as Hh.
  split; [cbn [gives_back]; rewrite Hh; set_solver|]. intros []. cbn [observe].
  destruct Ha as (? & ? & ? & _). split_and!; [| | |cbn [held]; by rewrite Hh, remove_one_head];
    unfold count in *; cbn [List.filter is_write is_upstream length] in *; lia.
Qed.

(** ** Upstream calls *)

Lemma RoundTrip_costs p req path q pub : costs none 1 1 (RoundTrip p req path q pub).
Proof. intros h. unfold RoundTrip. repeat cost_step. Qed.

Ltac cost_known ::= first [cost_of RoundTrip_costs|cost_of write_response_costs
  |cost_of audit_allowed_costs|cost_of deny_costs|cost_of deny_policy_costs].

Lemma preflightUser_costs req st uuid tok : costs none 1 1 (preflightUser req st uuid tok).
Proof. intros h. unfold preflightUser. repeat cost_step. Qed.

Lemma postWriteVerify_costs req st route tok r :
  costs none 1 1 (postWriteVerify req st route tok r).
Proof.
  unfold postWriteVerify. cbv zeta. repeat case_match; try apply preflightUser_costs.
  all: intros h; repeat cost_step.
Qed.
Ltac cost_known ::= first [cost_of RoundTrip_costs|cost_of write_response_costs
  |cost_of audit_allowed_costs|cost_of deny_costs|cost_of deny_policy_costs
  |cost_of preflightUser_costs|cost_of postWriteVerify_costs].

Lemma serve_proxy_costs p w req path q pub :
  costs when_returned 1 5 (serve_proxy p w req path q pub).
Proof. intros h. unfold serve_proxy, http_Error, returned. repeat cost_step. Qed.

(** ** User lists *)

(** One upstream call a page. *)
Lemma scan_pages_costs pages start w req st route path q tok cred combined fh :
  costs when_ended pages (pages + 4)
    (scan_pages pages start w req st route path q tok cred combined fh).
Proof.
  revert start req combined fh. induction pages as [|pages IH]; intros start req combined fh h.
  - cbn [scan_pages]. by repeat cost_step.
  - cbn [scan_pages]. cost_step. cost_of RoundTrip_costs.
    destruct a as [r|e].
    2: { repeat cost_step. }
    cbv zeta. destruct (negb (success r)).
    { cost_step. cost_of allowed_costs. destruct a; by repeat cost_step. }
    destruct (decodeUserListPage (res_Body r)) as [[users total]|e].
    2: { repeat cost_step. }
    destruct (_ || _); [by repeat cost_step|].
    cost_of IH. adds_done.
Qed.

Lemma restricted_list_costs w req st route path q tok cred p :
  handlePanelRestrictedUserList w req st route path q tok cred = Some p ->
  rt_Name route = "user.list" /\ costs when_returned 20 28 p.
Proof.
  unfold handlePanelRestrictedUserList, restricted_panel_list.
  destruct (panelAuditContextFromRequest req); [|done].
  destruct (String.eqb_spec (rt_Name route) "user.list") as [Hn|]; [|done].
  destruct (tokenHasPrivilegedScope _); [done|]. cbn [negb andb]. intros Hp%(inj Some). subst p.
  split; [done|]. intros h. cost_step. cost_of scan_pages_costs.
  destruct a as [[]|[combined fh]]; [by repeat cost_step..|].
  cbv zeta. destruct (filterResponsePolicy _ _ _ _ _) as [[r|e]|].
  - cost_of allowed_costs. adds_done.
  - cost_of denied_costs. adds_done.
  - by repeat cost_step.
Qed.

(** A bound may be weakened. *)
Ltac at_most H := eapply costs_le; [apply H|lia|lia].
Ltac denied := first [at_most denied_costs|at_most denied_policy_costs].

(** ** The stages *)

Lemma handlePublicSub_costs w req st route path q :
  costs when_returned 1 9 (handlePublicSub w req st route path q).
Proof.
  unfold handlePublicSub. cbv zeta. destruct (negb _); [denied|].
  destruct (regexp_Compile _) as [shortRe|]; [|intros h; by repeat cost_step].
  destruct (_ || _); [denied|]. destruct (_ && _); [denied|].
  apply (acquired_costs _ _ 1 7); [denied|]. intros h. cost_step.
  destruct (negb _); [cost_of denied_costs; adds_done|].
  cost_of (and_then_costs 1 5 1);
    [apply serve_proxy_costs|intros h1; by repeat cost_step|adds_done].
Qed.

Lemma serve_response_costs w req st route path q tok cred r :
  costs when_returned 1 5 (serve_response w req st route path q tok cred r).
Proof.
  unfold serve_response. cbv zeta.
  destruct (enforceResponsePolicy route tok r) as [r1|e]; [|denied].
  destruct (filterResponsePolicy route tok r1 req q) as [[r2|e]|];
    [|denied|intros h; by repeat cost_step].
  intros h. cost_step. cost_of postWriteVerify_costs. destruct a as [[]|e].
  - cost_of allowed_costs. adds_done.
  - cost_of denied_costs. adds_done.
Qed.

Lemma forward_costs w req st route path q q' tok cred :
  costs when_returned 2 6 (
    let! r := RoundTrip (rs_proxy st) req path q' false in
    match r with
    | Err _ =>
        let req := setPanelAuditAuthEventType req "upstream" in
        returned (Respond.deny w req (rt_Name route) (tok_ID tok) (cred_ID cred)
                    "upstream_unavailable" 502)
    | Ok r => serve_response w req st route path q tok cred r
    end).
Proof.
  intros h. cost_step. cost_of RoundTrip_costs. destruct a as [r|e].
  - cost_of serve_response_costs. adds_done.
  - cbv zeta. cost_of denied_costs. adds_done.
Qed.

Lemma serve_upstream_costs w req st route path q tok cred :
  costs when_returned 20 28 (serve_upstream w req st route path q tok cred) /\
  (rt_Name route <> "user.list" ->
   costs when_returned 2 6 (serve_upstream w req st route path q tok cred)).
Proof.
  unfold serve_upstream. cbv zeta.
  destruct (handlePanelRestrictedUserList _ _ _ _ _ _ _ _) as [p|] eqn:Hp.
  - apply restricted_list_costs in Hp as [Hn Hp]. done.
  - split; [|intros _]; at_most forward_costs.
Qed.

Lemma preflight_costs req st route path tok :
  costs none 1 1 (preflight req st route path tok) /\
  (rt_Name route = "user.list" -> costs none 0 0 (preflight req st route path tok)).
Proof.
  unfold preflight. cbv zeta. split.
  - repeat case_match; try apply preflightUser_costs. all: intros h; repeat cost_step.
  - intros ->. destruct (_ <>s? _); intros h; [by repeat cost_step|]. simpl. adds_done.
Qed.

Lemma serve_checks_costs w req st route path q tok cred :
  costs when_returned 20 28 (serve_checks w req st route path q tok cred).
Proof.
  intros h. unfold serve_checks. cost_step.
  destruct (decide (rt_Name route = "user.list")) as [Hl|Hl].
  - cost_of (proj2 (preflight_costs req st route path tok) Hl).
    destruct a as [[]|e]; [|cost_of denied_policy_costs; adds_done].
    destruct (validateBodyPolicy _ _ _ _) as [req'|e]; [|cost_of denied_policy_costs; adds_done].
    cost_of (proj1 (serve_upstream_costs w req' st route path q tok cred)). adds_done.
  - cost_of (proj1 (preflight_costs req st route path tok)).
    destruct a as [[]|e]; [|cost_of denied_policy_costs; adds_done].
    destruct (validateBodyPolicy _ _ _ _) as [req'|e]; [|cost_of denied_policy_costs; adds_done].
    cost_of (proj2 (serve_upstream_costs w req' st route path q tok cred) Hl). adds_done.
Qed.

Lemma serve_write_costs w req st route path q tok cred :
  costs when_returned 20 30 (serve_write w req st route path q tok cred).
Proof.
  unfold serve_write. cbv zeta. destruct (_ && _); [|at_most serve_checks_costs].
  destruct (negb _); [denied|]. destruct (bufferRequestBody _ _) as [req'|e]; [|denied].
  apply (locked_costs _ 20 28), serve_checks_costs.
Qed.

Lemma read_facade_costs w req cfg route path tok cred w' p :
  handlePanelReadFacade w req cfg route path tok cred = (w', Some p) -> costs one 0 2 p.
Proof.
  unfold handlePanelReadFacade. destruct (panelAuditContextFromRequest req); [|done].
  destruct (req_Method req <>s? "GET"); [done|]. cbv zeta.
  intros Hp%(f_equal snd). cbn [snd] in Hp.
  assert (Hc : forall body, costs one 0 2 (do! writeJSON (disablePanelCacheHeaders w) 200 body then
    audit_allowed "panel_facade_read" req route path tok cred "ok" 200
      (panelAuditFields req "settings" 0))).
  { intros body h. unfold writeJSON, audit_allowed. repeat cost_step. }
  do 3 (destruct (path =s? _); [apply (inj Some) in Hp; subst p; apply Hc|]). discriminate Hp.
Qed.

Lemma serve_token_costs w req st route path q tok cred :
  costs when_returned 20 33 (serve_token w req st route path q tok cred).
Proof.
  unfold serve_token. cbv zeta. apply (acquired_costs _ _ 20 31); [denied|].
  intros h. cost_step. destruct (negb _); [cost_of denied_costs; adds_done|].
  destruct (_ && _); [cost_of denied_policy_costs; adds_done|].
  destruct (handlePanelReadFacade _ _ _ _ _ _ _) as [w' [p|]] eqn:Hp.
  - apply read_facade_costs in Hp. cost_of (returned_costs 0 2 _ Hp). adds_done.
  - cost_of serve_write_costs. adds_done.
Qed.

Lemma serve_credential_costs w req st route path q :
  costs when_returned 20 34 (serve_credential w req st route path q).
Proof.
  intros h. unfold serve_credential. cost_step.
  destruct (resolveRequestCredential _ _ _) as [req' [e|[tok cred]]].
  - cost_of denied_costs. adds_done.
  - cost_of serve_token_costs. adds_done.
Qed.

(** ** Logins *)

Lemma panelAuthUnsupported_costs w req route path :
  costs one 0 2 (panelAuthUnsupported w req route path).
Proof. intros h. unfold panelAuthUnsupported, writeJSON, audit. repeat cost_step. Qed.

Lemma randomURLToken_costs n : costs none 0 1 (randomURLToken n).
Proof. intros h. unfold randomURLToken. repeat cost_step. Qed.

Lemma start_attempt_costs w req route s v n : costs one 0 7 (start_attempt w req route s v n).
Proof. intros h. unfold start_attempt, writeJSON, audit. repeat cost_step. Qed.

Ltac cost_known ::= first [cost_of deny_costs|cost_of panelAuthUnsupported_costs
  |cost_of randomURLToken_costs|cost_of start_attempt_costs].

Lemma authorize_costs w req route : costs one 0 10 (handlePanelOAuth2Authorize w req route).
Proof. intros h. unfold handlePanelOAuth2Authorize. repeat cost_step. Qed.

Lemma id_token_costs cfg t nonce :
  costs none 0 3 (telegramActorIDFromIDToken VerifyPKCS1v15 cfg t nonce).
Proof.
  intros h. unfold telegramActorIDFromIDToken, verify_signature, fetchTelegramJWK.
  repeat cost_step.
Qed.

Lemma exchange_costs cfg code v nonce :
  costs none 0 4 (exchangeTelegramOAuthCode VerifyPKCS1v15 cfg code v nonce).
Proof.
  intros h. unfold exchangeTelegramOAuthCode. cost_step; [|by repeat cost_step].
  cost_step. destruct r as [reply|e]; [|by repeat cost_step].
  destruct (negb _); [by repeat cost_step|].
  destruct (decode_id_token _); [|by repeat cost_step]. cost_of id_token_costs. adds_done.
Qed.

Lemma finish_login_costs w req cfg route actorID :
  costs one 0 5 (finish_login w req cfg route actorID).
Proof. intros h. unfold finish_login, writeJSON, audit. repeat cost_step. Qed.

Ltac cost_known ::= first [cost_of deny_costs|cost_of panelAuthUnsupported_costs
  |cost_of exchange_costs|cost_of finish_login_costs|cost_of authorize_costs].

Lemma callback_costs w req cfg route :
  costs one 0 12 (handlePanelOAuth2Callback VerifyPKCS1v15 w req cfg route).
Proof. intros h. unfold handlePanelOAuth2Callback, audit. repeat cost_step. Qed.

Lemma auth_facade_costs w req cfg route path p :
  handlePanelAuthFacade VerifyPKCS1v15 w req cfg route path = Some p -> costs one 0 12 p.
Proof.
  unfold handlePanelAuthFacade. destruct (negb _); [done|]. cbv zeta.
  intros Hp%(inj Some). subst p. intros h. unfold writeJSON, audit.
  destruct (if req_Method req =s? "POST" then _ else _) as [req'|e]; [|repeat cost_step].
  repeat first [cost_of callback_costs|cost_step].
Qed.

(** ** The handler *)

Lemma serve_route_costs w req st route path q :
  costs when_returned 20 35 (serve_route VerifyPKCS1v15 w req st route path q).
Proof.
  unfold serve_route. cbv zeta.
  destruct (if pf_Enabled _ then _ else _) as [p|] eqn:Hp.
  { destruct (pf_Enabled _); [|done]. apply auth_facade_costs in Hp.
    at_most (returned_costs 0 12 _ Hp). }
  intros h. cost_step. destruct (negb _); [cost_of denied_costs; adds_done|].
  destruct (validateRequestQuery _ _ _) as [u|e]; [|cost_of denied_costs; adds_done].
  destruct (bufferRequestBody _ _) as [req'|e]; [|cost_of denied_costs; adds_done].
  destruct (_ =s? _); [|cost_of serve_credential_costs; adds_done].
  destruct (ps_Enabled _); [cost_of handlePublicSub_costs; adds_done|].
  destruct (_ =s? ""); [cost_of denied_costs|cost_of serve_credential_costs]; adds_done.
Qed.

Lemma serve_costs w req st : costs when_returned 20 35 (serve VerifyPKCS1v15 w req st).
Proof.
  unfold serve. cbv zeta. destruct (ValidateRawRequest _ _ _) as [[raw q]|e]; [|denied].
  destruct (Match _ _ _); [apply serve_route_costs|denied].
Qed.

Lemma apiHandler_costs w req : costs when_returned 20 38 (apiHandler VerifyPKCS1v15 w req).
Proof.
  intros h. unfold apiHandler. cbv zeta. cost_step.
  assert (Hs : costs when_returned 20 37
    (let! ok := perform (Acquire (rs_generation r) LGlobal) in
     if negb ok then returned (http_Error w "rate limited" 429)
     else defer (Release (rs_generation r) LGlobal) (serve VerifyPKCS1v15 w req r))).
  { apply (acquired_costs _ _ 20 35); [|apply serve_costs].
    intros h'. unfold returned, http_Error. repeat cost_step. }
  cost_of Hs. adds_done.
Qed.

Lemma count_rev f h : count f (rev h) = count f h.
Proof. unfold count. by rewrite filter_rev, length_rev. Qed.

(** What is held after a trace, earliest observation first. *)
Definition held_after (tr : list obs) : list resource := held (rev tr).

Lemma apiHandler_adds w req tr o :
  exec (apiHandler VerifyPKCS1v15 w req) tr o -> adds (when_returned o) 20 38 [] (rev tr).
Proof.
  intros He. destruct (wp_exec _ _ [] _ tr o (apiHandler_costs w req []) He) as [Ha _].
  by rewrite app_nil_r in Ha.
Qed.

(** C13: one answer per request.  Every execution of the handler that returns
    has written exactly one response; one that panics has written none. *)
Theorem one_answer w req tr o :
  exec (apiHandler VerifyPKCS1v15 w req) tr o ->
  count is_write tr = when_returned o.
Proof.
  intros (Hw & _)%apiHandler_adds. rewrite count_rev in Hw. unfold count in *. simpl in Hw. lia.
Qed.

(** C12: no semaphore and no lock leaks.  When the handler ends, by returning or
    by a panic, it holds nothing: every slot and lock it took has been given
    back; and it never gives back what it does not hold. *)
Theorem nothing_leaks w req tr o :
  exec (apiHandler VerifyPKCS1v15 w req) tr o ->
  held_after tr = [] /\
  forall (n : nat),
    (forall g l, tr !! n = Some (ORelease g l) -> Slot g l ∈ held_after (firstn n tr)) /\
    (forall k, tr !! n = Some (OUnlock k) -> Key k ∈ held_after (firstn n tr)).
Proof.
  intros He. split; [by apply apiHandler_adds in He as (_ & _ & _ & Hh)|].
  intros n.
  assert (Hat : forall ob, tr !! n = Some ob ->
    exists c u, ob = observe c u /\ gives_back (rev (firstn n tr)) c)
    by (intros ob Hn; exact (wp_at _ _ _ _ _ n _ (apiHandler_costs w req []) He Hn)).
  split; [intros g l Hn|intros k Hn]; destruct (Hat _ Hn) as (c & u & Hc & HG);
    destruct c; simplify_eq/=; done.
Qed.

(** C11: a request is always served, with bounded work.  Against every world
    that answers its calls, the handler ends after at most 38 calls, at most 20
    of them to the upstream (the 20 pages of a restricted user list). *)
Theorem handler_terminates {S} (world : S -> forall c, answer c * S) s w req :
  exists o s' tr, run_in world s (apiHandler VerifyPKCS1v15 w req) = (o, s', tr) /\
    length tr <= 38 /\ count is_upstream tr <= 20.
Proof.
  destruct (run_in world s _) as [[o s'] tr] eqn:Hr. exists o, s', tr. split; [done|].
  apply run_in_exec, apiHandler_adds in Hr as (_ & Hu & Hn & _).
  rewrite count_rev in Hu. rewrite length_rev in Hn. unfold count in *. simpl in *. lia.
Qed.
End resources.

(** ** Programs can end *)

Lemma call_answered (c : call) (st : runtimeState) : exists a : answer c, True.
Proof.
  destruct c; unshelve eexists; cbn [answer];
    first [exact st|exact true|exact ()|exact 0%Z|exact None|exact (Err "")|done].
Qed.

(** What holds whenever a program ends holds of some continuation of what it has done. *)
Lemma wp_final {A} G (p : prog A) h Q (st : runtimeState) :
  wp G p h Q -> exists h' a, Q (h' ++ h) a.
Proof.
  revert h. induction p as [a|c k IH]; intros h Hp; cbn [wp] in Hp; [by exists [], a|].
  destruct Hp as [_ Hk]. destruct (call_answered c st) as [r _].
  destruct (IH r _ (Hk r)) as (h' & a & HQ). exists (h' ++ [observe c r]), a.
  by rewrite <- app_assoc.
Qed.

(** ** Witnesses *)

Definition example_end : outcome * Z * list obs := gateway_run disable_request.

Lemma example_exec :
  exec (apiHandler example_pkcs ∅ disable_request) (snd example_end) (fst (fst example_end)).
Proof.
  apply (run_in_exec (example_world gateway_state) 0%Z _ _ (snd (fst example_end))).
  vm_compute. reflexivity.
Qed.

Lemma one_answer_witness : count is_write (snd example_end) = 1.
Proof. exact (one_answer example_pkcs ∅ disable_request _ Returned example_exec). Defined.

Lemma nothing_leaks_witness :
  held_after (snd example_end) = [] /\ held_after (firstn 9 (snd example_end)) <> [].
Proof.
  split; [exact (proj1 (nothing_leaks example_pkcs ∅ disable_request _ _ example_exec))|].
  vm_compute. discriminate.
Defined.
