(* ===== verification/PanelLoginFacts.v ===== *)
(** * internal/server: who gets a panel session

    The callback handler answers with a session only for the actor of a verified
    Telegram login that this gateway started. *)

From S2P Require Import Prelude GoStrings Encoding Json Sha256 Ratelimit Config ConfigFacts Routes.
From S2P Require Import Auth Policy Httputil BodyPolicy ResponsePolicy Proxy Alerts AuditLog.
From S2P Require Import OAuthStore Effects PanelFacade Respond PanelOAuth PanelLogin Calls Example.
From stdpp Require Import options.

Local Open Scope Z_scope.

Section login_facts.
Context `{Unicode} `{Host} `{NetParsers} `{RequestURLs}.
Context (VerifyPKCS1v15 : PublicKey -> string -> string -> bool).

(** ** A verified login *)

(** The claims of an identity token signed by one of Telegram's keys. *)
Definition signed_claims (seen : list obs) (cfg : Config) (idToken : string) (claims : IDClaims)
    : Prop :=
  exists p0 p1 p2 payload sig kid reply keys jwk key,
    Split "." idToken = [p0; p1; p2] /\
    Base64.DecodeString p1 = Some payload /\ decode_claims payload = Some claims /\
    Base64.DecodeString p2 = Some sig /\
    OFetch {| fq_Method := "GET"; fq_URL := telegramJWKSURL cfg; fq_Header := ∅; fq_Body := "" |}
      (Ok reply) ∈ seen /\ is_2xx (rep_StatusCode reply) = true /\
    decode_jwks (limited (rep_Body reply) megabyte) = Some keys /\ jwk ∈ keys /\
    usable_key kid jwk = true /\ rsaPublicKeyFromJWK (jwk_N jwk) (jwk_E jwk) = Ok key /\
    VerifyPKCS1v15 key (sha256 (p0 +:+ "." +:+ p1)) sig = true.

(** The token names [actorID], for this client, this nonce and this time. *)
Definition identified (seen : list obs) (cfg : Config) (idToken nonce actorID : string) : Prop :=
  exists claims now,
    signed_claims seen cfg idToken claims /\
    id_Issuer claims = "https://oauth.telegram.org" /\
    audienceContains (id_Audience claims) (client_id cfg) = true /\
    ONow now ∈ seen /\ Unix now < id_ExpiresAt claims /\
    id_Nonce claims = nonce /\ telegramIDClaimString (id_ID claims) = Ok actorID.

(** The code was exchanged, with the verifier of the attempt, for such a token. *)
Definition exchanged (seen : list obs) (cfg : Config) (code : string) (a : panelOAuthAttempt)
    (actorID : string) : Prop :=
  exists reply idToken,
    OFetch (token_request cfg code (at_CodeVerifier a)) (Ok reply) ∈ seen /\
    is_2xx (rep_StatusCode reply) = true /\
    decode_id_token (limited (rep_Body reply) megabyte) = Some idToken /\
    identified seen cfg idToken (at_Nonce a) actorID.

(** The attempt was filed under the state of the request, which the browser's
    cookie repeats; it was taken out, unexpired and of this generation. *)
Definition attempt_taken (seen : list obs) (req : Request) (body : panelOAuth2CallbackRequest)
    (a : panelOAuthAttempt) : Prop :=
  decode_callback req = Some body /\ cb_Provider body = "telegram" /\
  Cookie req panelOAuthStateCookie = Some (cb_State body) /\
  exists now st, OTake (cb_State body) now (Some a) ∈ seen /\ now <= at_ExpiresAt a /\
    OLoad st ∈ seen /\ at_Generation a = rs_generation st.

(** The answer [text] carries a session of [actorID]. *)
Definition session_answer (cfg : Config) (actorID text : string) : Prop :=
  exists tok cred now token,
    ResolveTelegramActorCredential (Some cfg) actorID = Ok (tok, cred) /\
    IssuePanelSession (cfg_PanelFacade cfg) actorID now = Ok token /\
    text = text_line (Marshal (JObj [("response", JObj [("accessToken", JStr token)])])).

Definition logged_in (seen : list obs) (req : Request) (cfg : Config) (text : string) : Prop :=
  exists body a actorID, attempt_taken seen req body a /\
    exchanged seen cfg (cb_Code body) a actorID /\ session_answer cfg actorID text.

Lemma signed_claims_incl seen seen' cfg t claims :
  seen ⊆ seen' -> signed_claims seen cfg t claims -> signed_claims seen' cfg t claims.
Proof.
  intros Hs (p0 & p1 & p2 & payload & sig & kid & reply & keys & jwk & key & Hc).
  exists p0, p1, p2, payload, sig, kid, reply, keys, jwk, key. naive_solver.
Qed.

Lemma exchanged_incl seen seen' cfg code a actorID :
  seen ⊆ seen' -> exchanged seen cfg code a actorID -> exchanged seen' cfg code a actorID.
Proof.
  intros Hs (reply & t & Hf & H2x & Hd & claims & now & Hc & Hi & Ha & Hn & He & Hnonce & Hid).
  exists reply, t. split_and!; [by apply Hs|done|done|]. exists claims, now.
  split_and!; try done; [by eapply signed_claims_incl|by apply Hs].
Qed.

(** ** The guard: an answer 200 is a session of a verified login *)

Section callback.
Context (req : Request) (cfg : Config).

Definition session_guard (h : list obs) (c : call) : Prop :=
  match c with Write _ s text => s = 200 -> logged_in h req cfg text | _ => True end.

Definition reads_only (c : call) : Prop := match c with Write _ _ _ => False | _ => True end.

Lemma quiet {A} (p : prog A) h (I : list obs -> Prop) :
  only reads_only p -> I h -> (forall h o, I h -> I (o :: h)) ->
  wp session_guard p h (fun h' _ => I h').
Proof.
  intros Hp HI HP. eapply wp_only; [exact Hp|exact HI|auto|]. by intros ? [].
Qed.

Ltac guard_step :=
  cbv beta zeta;
  lazymatch goal with
  | |- wp _ (Ret _) _ _ => cbn [wp]
  | |- wp _ (bind (perform _) _) _ _ =>
      apply wp_bind, wp_perform; split; [try exact I|intros ?]
  | |- wp _ (perform _) _ _ => apply wp_perform; split; [try exact I|intros ?]
  | |- wp _ (match ?x with _ => _ end) _ _ => destruct x
  end.

Lemma deny_guarded w r route tid cid reason status h :
  status <> 200 ->
  wp session_guard (Respond.deny w r route tid cid reason status) h (fun _ _ => True).
Proof.
  intros Hs. unfold Respond.deny, writeJSON, http_Error. repeat guard_step; by cbn [session_guard].
Qed.

Lemma unsupported_guarded w r route path h :
  wp session_guard (panelAuthUnsupported w r route path) h (fun _ _ => True).
Proof.
  unfold panelAuthUnsupported, writeJSON, audit. repeat guard_step; by cbn [session_guard].
Qed.

Lemma identified_wp t nonce h :
  wp session_guard (telegramActorIDFromIDToken VerifyPKCS1v15 cfg t nonce) h (fun h' a =>
    h ⊆ h' /\ forall actorID, a = Ok actorID -> identified h' cfg t nonce actorID).
Proof.
  unfold telegramActorIDFromIDToken, verify_signature, fetchTelegramJWK.
  destruct (Split "." t) as [|p0 [|p1 [|p2 [|]]]] eqn:Hsp; try by split.
  destruct (_ || _); [by split|].
  destruct (match Base64.DecodeString p0 with Some h => decode_header h | None => None end)
    as [[alg kid]|]; [|by split].
  destruct (_ || _); [by split|].
  destruct (Base64.DecodeString p1) as [payload|] eqn:Hp1; [|by split].
  destruct (decode_claims payload) as [claims|] eqn:Hcl; [|by split].
  destruct (_ || _) eqn:Hia; [by split|]. apply orb_false_iff in Hia as [Hi Ha%negb_false_iff].
  apply negb_false_iff, eqs_true in Hi.
  guard_step. destruct (_ <=? _) eqn:Hexp; [by split; [set_solver|]|].
  apply Z.leb_gt in Hexp.
  guard_step. destruct (_ || _) eqn:Hn; [split; [set_solver|done]|].
  apply orb_false_iff in Hn as [_ Hn%negb_false_iff%eqs_true].
  apply wp_bind, wp_bind, wp_perform. split; [done|]. intros [reply|e]; cbn [wp observe].
  2: { split; [set_solver|done]. }
  split; [set_solver|]. destruct (is_2xx _) eqn:H2x; [|done]. cbn [negb].
  destruct (decode_jwks _) as [keys|] eqn:Hk; [|done].
  destruct (List.find (usable_key kid) keys) as [jwk|] eqn:Hf; [|done].
  apply List.find_some in Hf as [Hin%list_elem_of_In Hus].
  destruct (rsaPublicKeyFromJWK _ _) as [key|] eqn:Hkey; [|done].
  destruct (Base64.DecodeString p2) as [sig|] eqn:Hsig; [|done].
  destruct (VerifyPKCS1v15 _ _ _) eqn:Hv; [|done]. cbn [negb]. intros actorID Hid.
  exists claims, r. split_and!; try done; [|set_solver].
  exists p0, p1, p2, payload, sig, kid, reply, keys, jwk, key. split_and!; try done. set_solver.
Qed.

Lemma exchanged_wp code a h :
  wp session_guard (exchangeTelegramOAuthCode VerifyPKCS1v15 cfg code (at_CodeVerifier a)
                      (at_Nonce a)) h (fun h' r =>
    h ⊆ h' /\ forall actorID, r = Ok actorID -> exchanged h' cfg code a actorID).
Proof.
  unfold exchangeTelegramOAuthCode. destruct (url_Parse _); [|by split].
  guard_step. destruct r as [reply|e]; cbn [wp observe]; [|split; [set_solver|done]].
  destruct (is_2xx _) eqn:H2x; cbn [negb]; [|split; [set_solver|done]].
  destruct (decode_id_token _) as [t|] eqn:Ht; [|split; [set_solver|done]].
  eapply wp_mono; [apply identified_wp|]. intros h' r [Hi Hr]. split; [set_solver|].
  intros actorID Ha. exists reply, t. split_and!; [set_solver|done|done|auto].
Qed.

Lemma finish_login_guarded w r route body a actorID h :
  attempt_taken h req body a -> exchanged h cfg (cb_Code body) a actorID ->
  wp session_guard (finish_login w r cfg route actorID) h (fun _ _ => True).
Proof.
  intros Ha He. unfold finish_login.
  destruct (ResolveTelegramActorCredential _ _) as [[tok cred]|] eqn:Hr; [|by apply deny_guarded].
  guard_step. destruct (IssuePanelSession _ _ _) as [token|] eqn:Hi; [|by apply deny_guarded].
  unfold writeJSON, audit. guard_step; [|by repeat guard_step].
  cbn [session_guard observe]. intros _.
  exists body, a, actorID. split_and!.
  - destruct Ha as (? & ? & ? & t & st & ? & ? & ? & ?). split_and!; try done.
    exists t, st. split_and!; set_solver.
  - eapply exchanged_incl; [|exact He]. set_solver.
  - by exists tok, cred, r0, token.
Qed.

Lemma callback_guarded w route h :
  wp session_guard (handlePanelOAuth2Callback VerifyPKCS1v15 w req cfg route) h
    (fun _ _ => True).
Proof.
  unfold handlePanelOAuth2Callback. destruct (decode_callback req) as [body|] eqn:Hb;
    [|apply unsupported_guarded].
  destruct (_ || _) eqn:Hp; [apply unsupported_guarded|].
  apply orb_false_iff in Hp as [Hp%negb_false_iff%eqs_true _].
  destruct (Cookie _ _) as [v|] eqn:Hc; [|by apply deny_guarded].
  destruct (String.eqb_spec v (cb_State body)) as [->|]; [|by apply deny_guarded]. cbn [negb].
  cbv zeta. guard_step. guard_step. destruct r0 as [a|]; [|by apply deny_guarded].
  guard_step. destruct (_ || _) eqn:Hg; [by apply deny_guarded|].
  apply orb_false_iff in Hg as [Hexp%Z.ltb_ge Hgen%negb_false_iff%Z.eqb_eq].
  apply wp_bind. eapply wp_mono; [apply exchanged_wp|]. intros h' [actorID|e] [Hi Hr].
  - apply (finish_login_guarded _ _ _ body a); [|by apply Hr]. split_and!; try done.
    exists r, r0. split_and!; try done; apply Hi; cbn [observe]; set_solver.
  - unfold audit. guard_step. by apply deny_guarded.
Qed.
End callback.

(** A session is only given out for a verified login.  Whenever the callback
    handler answers 200, the answer carries a session of an actor the
    configuration maps to an enabled credential, and: the browser's state
    cookie repeats the state of the request; the attempt filed under that state
    was taken out of the store, unexpired and of the running configuration; the
    code was exchanged with that attempt's code verifier; and the identity token
    obtained is signed by one of Telegram's keys, issued to this client,
    unexpired, bears the attempt's nonce and names the actor. *)
Theorem sessions_only_for_verified_logins w req cfg route tr (n : nat) header text :
  exec (handlePanelOAuth2Callback VerifyPKCS1v15 w req cfg route) tr () ->
  tr !! n = Some (OWrite header 200 text) -> logged_in (rev (firstn n tr)) req cfg text.
Proof.
  intros He Hn.
  destruct (wp_at _ _ _ _ _ n _ (callback_guarded req cfg w route []) He Hn) as (c & u & Hc & HG).
  destruct c; simplify_eq/=; auto.
Qed.
End login_facts.

(** ** Witness: one login *)

Definition panel_host : Host := {|
  Getenv := fun _ => strong_secret; ReadFile := fun _ => Err "no such file";
  StatPerm := fun _ => Err "no such file"; Glob := fun _ _ => Ok [] |}.

Definition panel_config : Config :=
  let d := example_config in
  Build_Config (cfg_Server d) example_upstream (cfg_Compatibility d) (cfg_Limits d)
    (cfg_Metrics d) (cfg_Audit d) (cfg_Alerts d) (cfg_Report d) (cfg_PublicSubs d)
    {| pf_Enabled := true;
       pf_Session := {| pses_Issuer := "remnaguard"; pses_Audience := "panel";
                        pses_TokenTTL := 3600 * Second; pses_SecretEnv := "S" |};
       pf_Telegram := {| ptg_ClientIDEnv := "ID"; ptg_ClientSecretEnv := "SECRET";
                         ptg_FrontendDomain := "panel.example";
                         ptg_AuthURL := "https://oauth.example/auth";
                         ptg_TokenURL := "https://oauth.example/token";
                         ptg_AuthMaxAge := 300 * Second |};
       pf_Actors_Telegram := Some {[ "42" := {| act_CredentialID := "c1";
                                               act_DisplayName := "ops" |} ]} |}
    (cfg_Reload d) (cfg_WriteSafety d) [gateway_token] [] "".

Definition panel_state : runtimeState := {|
  rs_cfg := panel_config; rs_proxy := rs_proxy gateway_state; rs_generation := 3 |}.

Definition example_attempt : panelOAuthAttempt := {|
  at_CodeVerifier := "verifier"; at_Nonce := "nonce"; at_ExpiresAt := 1700000300 * Second;
  at_Generation := 3 |}.

Definition b64_json (j : json) : string := Base64.EncodeToString (Marshal j).

Definition example_id_token : string :=
  b64_json (JObj [("alg", JStr "RS256"); ("kid", JStr "k1")]) +:+ "." +:+
  b64_json (JObj [("iss", JStr "https://oauth.telegram.org"); ("aud", JStr strong_secret);
                  ("exp", JNum "1700003600"); ("iat", JNum "1700000000");
                  ("nonce", JStr "nonce"); ("id", JNum "42")]) +:+ "." +:+
  Base64.EncodeToString "signed".

Definition json_reply (j : json) : res Reply :=
  Ok {| rep_StatusCode := 200; rep_Header := ∅; rep_Body := Ok (Marshal j) |}.

Definition telegram (q : FetchRequest) : res Reply :=
  if fq_Method q =s? "POST" then json_reply (JObj [("id_token", JStr example_id_token)])
  else json_reply (JObj [("keys", JArr [JObj [("kty", JStr "RSA"); ("kid", JStr "k1");
         ("alg", JStr "RS256"); ("n", JStr "AQAB"); ("e", JStr "AQAB")]])]).

Definition login_world (t : Z) (c : call) : answer c * Z :=
  match c return answer c * Z with
  | Fetch q => (telegram q, t)
  | TakeAttempt _ _ => (Some example_attempt, t)
  | c => example_world panel_state t c
  end.

Definition callback_request : Request :=
  example_request "POST" "/api/auth/oauth2/callback"
    (Set_ "Cookie" "remnaguard_panel_oauth_state=st4te" ∅)
    (Some (Marshal (JObj [("provider", JStr "telegram"); ("code", JStr "code");
                          ("state", JStr "st4te")]))).

Definition callback_route : Route := mkRoute "panel.auth" "POST" "/api/auth/oauth2/callback"
  Unsupported [] [] 0 false [] "" "".

Definition login_run : () * Z * list obs :=
  run_in login_world (1700000000 * Second)
    (handlePanelOAuth2Callback (H0 := panel_host) example_pkcs ∅ callback_request panel_config
       callback_route).

(** The position and the text of the answer. *)
Definition login_answer : nat * string :=
  match List.find (fun '(_, o) => match o with OWrite _ 200 _ => true | _ => false end)
          (combine (seq 0 (length (snd login_run))) (snd login_run)) with
  | Some (n, OWrite _ _ text) => (n, text)
  | _ => (0%nat, "")
  end.

Lemma sessions_only_for_verified_logins_witness :
  fst login_answer = 8%nat /\
  logged_in (H0 := panel_host) example_pkcs (rev (firstn 8 (snd login_run))) callback_request
    panel_config (snd login_answer).
Proof.
  split; [vm_compute; reflexivity|].
  apply (sessions_only_for_verified_logins (H0 := panel_host) example_pkcs ∅ callback_request
    panel_config callback_route (snd login_run) 8
    (match snd login_run !! 8%nat with Some (OWrite h _ _) => h | _ => ∅ end)
    (snd login_answer)).
  - apply (run_in_exec login_world (1700000000 * Second) _ _ (snd (fst login_run))).
    vm_compute. reflexivity.
  - vm_compute. reflexivity.
Defined.
