(* ===== verification/Panics.v ===== *)
(** * internal/server: when the handler panics

    The run-time panics a validated configuration leaves possible: a page of a
    panel list whose bounds overflow, and an upstream status the response writer
    does not take. *)

From S2P Require Import Prelude GoStrings Json Ratelimit Config ConfigFacts Routes Auth Policy.
From S2P Require Import EffectiveRoute Httputil Remnawave BodyPolicy ResponsePolicy Proxy.
From S2P Require Import Alerts AuditLog OAuthStore Effects PanelFacade Respond PanelOAuth PanelLogin.
From S2P Require Import Handler Calls Example Authorization PanelLoginFacts.
From stdpp Require Import options.

Local Open Scope Z_scope.

(** The page asked for by a panel list with this query overflows an int. *)
Definition page_overflows (rawQuery : string) : Prop :=
  exists r p, panelResponsePage r rawQuery = Some p /\
    (pg_start p < 0 \/ int64_max < pg_start p + pg_size p).

Lemma slicePage_None {A} (items : list A) p :
  slicePage items (Some p) = None -> pg_start p < 0 \/ int64_max < pg_start p + pg_size p.
Proof.
  unfold slicePage, slice. intros Hn.
  destruct (Z.ltb_spec (pg_start p) 0) as [|Hs]; [by left|].
  destruct (Z.ltb_spec int64_max (pg_start p + pg_size p)) as [|Hm]; [by right|]. exfalso.
  destruct (Z.leb_spec (pg_size p) 0); [done|].
  destruct (Z.leb_spec (Z.of_nat (length items)) (pg_start p)); [done|].
  rewrite wrap64_id in Hn; [|unfold in_int64, int64_min, int64_max in *;
    rewrite andb_true_iff, !Z.leb_le; lia].
  destruct (Z.ltb_spec (Z.of_nat (length items)) (pg_start p + pg_size p));
    rewrite !(proj2 (Z.leb_le _ _)) in Hn by lia; done.
Qed.

Section panics.
Context `{Unicode} `{Host} `{Regexps} `{NetParsers} `{NetFiles} `{RequestURLs}.
Context (VerifyPKCS1v15 : PublicKey -> string -> string -> bool).

Lemma filterJSONListPaged_None r page keep :
  filterJSONListPaged r page keep = None ->
  exists p, page = Some p /\ (pg_start p < 0 \/ int64_max < pg_start p + pg_size p).
Proof.
  unfold filterJSONListPaged. destruct (Decode (res_Body r)) as [root|]; [|done].
  pose proof (filterListNodePaged_spec page keep root) as Hspec.
  unfold filter_spec in Hspec. destruct (filterListNodePaged page keep root); [done| |done].
  intros _. destruct Hspec as (l & _ & Hl). destruct page as [p|]; [|done].
  exists p. split; [done|]. by eapply slicePage_None.
Qed.

Lemma filterResponsePolicy_None route tok r req rawQuery :
  filterResponsePolicy route tok r req rawQuery = None -> page_overflows rawQuery.
Proof.
  unfold filterResponsePolicy, filterJSONList. repeat (case_match; try done);
    intros (p & Hp & Hb)%filterJSONListPaged_None; try done. by exists req, p.
Qed.

(** ** The status that is written *)

(** The upstream has answered with a status [w.WriteHeader] panics at. *)
Definition bad_reply (h : list obs) : Prop :=
  exists out reply, OUpstream out (Ok reply) ∈ h /\
    valid_status (rep_StatusCode reply) = false.

Lemma bad_reply_incl h h' : h ⊆ h' -> bad_reply h -> bad_reply h'.
Proof. intros Hs (out & reply & Hin & Hb). exists out, reply. auto. Qed.

Lemma response_in_status p reply r :
  response_in p reply = Ok r -> res_StatusCode r = rep_StatusCode reply.
Proof. unfold response_in. by repeat case_match; intros [= <-]. Qed.

Lemma enforce_status route tok r r' :
  enforceResponsePolicy route tok r = Ok r' -> res_StatusCode r' = res_StatusCode r.
Proof.
  unfold enforceResponsePolicy, redactSquadResponse.
  repeat (case_match; try done); by intros [= <-].
Qed.

Lemma filter_status route tok r req q r' :
  filterResponsePolicy route tok r req q = Some (Ok r') -> res_StatusCode r' = res_StatusCode r.
Proof.
  unfold filterResponsePolicy, filterJSONList, filterJSONListPaged.
  repeat (case_match; try done); by intros [= <-].
Qed.

(** ** Programs that end without a panic *)

(** A panic of the program has one of two causes: [C], or a reply of the
    upstream. *)
Definition ends_at (C : Prop) (h : list obs) (p : prog outcome) : Prop :=
  wp (fun _ _ => True) p h (fun h' o => o = Panicked -> C \/ bad_reply h').

Definition ends (C : Prop) (p : prog outcome) : Prop := forall h, ends_at C h p.

Lemma ends_Returned C : ends C (Ret Returned).
Proof. by intros h. Qed.

Lemma ends_bind {A} C (p : prog A) f : (forall a, ends C (f a)) -> ends C (bind p f).
Proof.
  intros Hf h. apply wp_bind. eapply wp_mono; [by apply (wp_kept (fun _ => True))|].
  intros h' a _. apply Hf.
Qed.

(** The same, at a history. *)
Lemma ends_step {A} C (p : prog A) f h :
  (forall a, ends C (f a)) ->
  wp (fun _ _ => True) (bind p f) h (fun h' o => o = Panicked -> C \/ bad_reply h').
Proof. intros Hf. by apply ends_bind. Qed.

Lemma ends_returned C p : ends C (returned p).
Proof. apply ends_bind. intros a. apply ends_Returned. Qed.

Lemma ends_defer C cleanup body : ends C body -> ends C (defer cleanup body).
Proof.
  intros Hb h. apply wp_defer. eapply wp_mono; [apply Hb|]. intros h' o Ho. split; [done|].
  intros r Hp. destruct (Ho Hp) as [|Hr]; [by left|right].
  eapply bad_reply_incl; [apply incl_cons|exact Hr].
Qed.

Lemma ends_Panicked (C : Prop) : C -> ends C (Ret Panicked).
Proof. intros HC h _. by left. Qed.

Hint Resolve ends_Returned ends_returned ends_bind ends_defer ends_Panicked : core.

(** The response [r] has been made of a reply of the history. *)
Definition replied (h : list obs) (r : Response) : Prop :=
  valid_status (res_StatusCode r) = false -> bad_reply h.

Lemma replied_incl h h' r : h ⊆ h' -> replied h r -> replied h' r.
Proof. intros Hs Hr Hb. eapply bad_reply_incl; [exact Hs|auto]. Qed.

Lemma replied_status h r r' : res_StatusCode r' = res_StatusCode r -> replied h r -> replied h r'.
Proof. unfold replied. by intros ->. Qed.

Lemma write_response_ends C h p w r pub :
  replied h r -> ends_at C h (write_response p w r pub).
Proof.
  intros Hr. unfold write_response, WriteResponse.
  destruct (valid_status (res_StatusCode r)) eqn:Hv; [apply ends_returned|].
  intros _. right. auto.
Qed.

Lemma and_then_ends C h p k : ends_at C h p -> ends_at C h (and_then p k).
Proof.
  intros Hp. apply wp_bind. eapply wp_mono; [exact Hp|]. intros h' [] Ho; [apply ends_returned|].
  intros _. auto.
Qed.

(** A response comes with the reply it was made of. *)
Lemma RoundTrip_ends C h p req path q pub f :
  (forall h' r, replied h' r -> ends_at C h' (f (Ok r))) -> (forall e, ends C (f (Err e))) ->
  ends_at C h (bind (RoundTrip p req path q pub) f).
Proof.
  intros Hf He. unfold RoundTrip. apply wp_bind, wp_bind, wp_perform. split; [done|].
  intros [reply|e]; cbn [wp]; [|apply He].
  destruct (response_in p reply) as [r|e] eqn:Hr; [|apply He]. apply Hf. intros Hv.
  eexists _, reply. split; [apply list_elem_of_here|]. by rewrite <- (response_in_status _ _ _ Hr).
Qed.

Lemma serve_proxy_ends C p w req path q pub : ends C (serve_proxy p w req path q pub).
Proof.
  intros h. apply RoundTrip_ends; [|auto]. intros h' r Hr. by apply write_response_ends.
Qed.

Notation may_end q := (ends (page_overflows q)).

Lemma serve_response_ends w r st route path q tok cred res h :
  replied h res -> ends_at (page_overflows q) h (serve_response w r st route path q tok cred res).
Proof.
  intros Hr. unfold serve_response. cbv zeta.
  destruct (enforceResponsePolicy _ _ _) as [res'|] eqn:He; [|by apply ends_returned].
  destruct (filterResponsePolicy _ _ _ _ _) as [[res2|]|] eqn:Hf; [|by apply ends_returned|].
  2: { apply filterResponsePolicy_None in Hf. by apply ends_Panicked. }
  apply wp_bind. eapply wp_mono; [eapply (wp_kept (fun h' => replied h' res)); [exact Hr| |done]|].
  { intros h' o. apply replied_incl, incl_cons. }
  intros h' [|] Hr'; [|by apply ends_returned]. apply and_then_ends, write_response_ends.
  apply (replied_status h' res); [|exact Hr'].
  destruct (panelAuditContextFromRequest r); cbn [res_StatusCode];
    by rewrite (filter_status _ _ _ _ _ _ Hf), (enforce_status _ _ _ _ He).
Qed.

(** What a page scan ends with. *)
Lemma scan_pages_ends C n start w r st route path q tok cred combined fh h :
  wp (fun _ _ => True) (scan_pages n start w r st route path q tok cred combined fh) h
    (fun h' a => match a with inl o => o = Panicked -> C \/ bad_reply h' | inr _ => True end).
Proof.
  revert start r combined fh h. induction n as [|n IH]; intros start r combined fh h;
    cbn [scan_pages]; [done|].
  unfold RoundTrip. apply wp_bind, wp_bind, wp_perform. split; [done|]. cbv zeta.
  intros [reply|e]; cbn [wp].
  2: { apply wp_bind. eapply wp_mono; [by apply (wp_kept (fun _ => True))|]. by intros h' a _. }
  destruct (response_in _ reply) as [res|e] eqn:Hr.
  2: { apply wp_bind. eapply wp_mono; [by apply (wp_kept (fun _ => True))|]. by intros h' a _. }
  destruct (negb (success res)).
  - apply wp_bind. eapply wp_mono; [apply (and_then_ends C), write_response_ends|intros h' o Ho; exact Ho].
    intros Hv. eexists _, reply. split; [apply list_elem_of_here|].
    by rewrite <- (response_in_status _ _ _ Hr).
  - destruct (decodeUserListPage _) as [[users total]|].
    + destruct (_ || _); [done|apply IH].
    + apply wp_bind. eapply wp_mono; [by apply (wp_kept (fun _ => True))|]. by intros h' a _.
Qed.

Lemma restricted_list_ends w r st route path q tok cred p :
  handlePanelRestrictedUserList w r st route path q tok cred = Some p -> may_end q p.
Proof.
  unfold handlePanelRestrictedUserList. destruct (negb _); [done|].
  intros Hp%(inj Some). subst p. intros h. apply wp_bind.
  eapply wp_mono; [apply (scan_pages_ends (page_overflows q))|].
  intros h' [o|[combined fh]] Ho; [exact Ho|]. cbv zeta.
  destruct (filterResponsePolicy _ _ _ _ _) as [[res2|]|] eqn:Hf; [|by apply ends_returned|].
  - apply and_then_ends, write_response_ends. unfold replied. cbn [res_StatusCode].
    by rewrite (filter_status _ _ _ _ _ _ Hf).
  - apply filterResponsePolicy_None in Hf. by apply ends_Panicked.
Qed.

Lemma serve_upstream_ends w r st route path q tok cred :
  may_end q (serve_upstream w r st route path q tok cred).
Proof.
  unfold serve_upstream. cbv zeta.
  destruct (handlePanelRestrictedUserList _ _ _ _ _ _ _ _) as [p|] eqn:Hp;
    [by eapply restricted_list_ends|].
  intros h. apply RoundTrip_ends; [|auto]. intros h' res. apply serve_response_ends.
Qed.

Lemma serve_write_ends w r st route path q tok cred :
  may_end q (serve_write w r st route path q tok cred).
Proof.
  assert (Hc : forall r, may_end q (serve_checks w r st route path q tok cred)).
  { intros r'. unfold serve_checks. apply ends_bind. intros [|]; [|auto].
    destruct (validateBodyPolicy _ _ _ _); [apply serve_upstream_ends|auto]. }
  unfold serve_write. cbv zeta. destruct (_ && _); [|auto]. destruct (negb _); [auto|].
  destruct (bufferRequestBody _ _); auto.
Qed.

Lemma serve_credential_ends w r st route path q :
  may_end q (serve_credential w r st route path q).
Proof.
  unfold serve_credential. apply ends_bind. intros now.
  destruct (resolveRequestCredential _ _ _) as [r' [e|[tok cred]]]; [auto|].
  unfold serve_token. cbv zeta. apply ends_bind. intros ok1. destruct (negb ok1); [auto|].
  apply ends_defer, ends_bind. intros ok2. destruct (negb ok2); [auto|].
  destruct (_ && _); [auto|]. destruct (handlePanelReadFacade _ _ _ _ _ _ _) as [w' [p|]]; [auto|].
  apply serve_write_ends.
Qed.

(** Why a request may panic: its query, as the handler reads it under [st]. *)
Definition panic_cause (req : Request) (st : runtimeState) : Prop :=
  is_ok (regexp_Compile (ps_ShortUUIDRegex (cfg_PublicSubs (rs_cfg st)))) = false \/
  exists path rawQuery,
    ValidateRawRequest req (lim_MaxPathLength (cfg_Limits (rs_cfg st)))
      (lim_MaxQueryLength (cfg_Limits (rs_cfg st))) = Ok (path, rawQuery) /\
    page_overflows rawQuery.

Lemma ends_mono (C C' : Prop) p : (C -> C') -> ends C p -> ends C' p.
Proof. intros HC Hp h. eapply wp_mono; [apply Hp|]. cbv beta. tauto. Qed.

Lemma handlePublicSub_ends w r st route path q :
  ends (is_ok (regexp_Compile (ps_ShortUUIDRegex (cfg_PublicSubs (rs_cfg st)))) = false)
    (handlePublicSub w r st route path q).
Proof.
  unfold handlePublicSub. cbv zeta. destruct (negb _); [auto|].
  destruct (regexp_Compile _); [|auto].
  destruct (_ || _); [auto|]. destruct (_ && _); [auto|].
  apply ends_bind. intros ok1. destruct (negb ok1); [auto|].
  apply ends_defer, ends_bind. intros ok2. destruct (negb ok2); [auto|].
  intros h. apply and_then_ends, serve_proxy_ends.
Qed.

Lemma serve_ends w req st : ends (panic_cause req st) (serve VerifyPKCS1v15 w req st).
Proof.
  unfold serve. destruct (ValidateRawRequest _ _ _) as [[raw q]|] eqn:Hv; [|auto]. cbv zeta.
  assert (Hov : page_overflows q -> panic_cause req st) by (right; eauto).
  destruct (Match _ _ _) as [r|]; [|auto]. unfold serve_route. cbv zeta.
  destruct (if pf_Enabled _ then _ else _) as [p|]; [auto|].
  apply ends_bind. intros ok. destruct (negb ok); [auto|].
  destruct (validateRequestQuery _ _ _); [|auto]. destruct (bufferRequestBody _ _); [|auto].
  pose proof (serve_credential_ends) as Hsc.
  destruct (_ =s? PublicSubscription); [|by eapply ends_mono].
  destruct (ps_Enabled _).
  - eapply ends_mono; [|apply handlePublicSub_ends]. by left.
  - destruct (_ =s? ""); [auto|by eapply ends_mono].
Qed.

Lemma apiHandler_ends w req :
  wp (fun _ _ => True) (apiHandler VerifyPKCS1v15 w req) []
    (fun h o => o = Panicked -> (exists st, OLoad st ∈ h /\ panic_cause req st) \/ bad_reply h).
Proof.
  unfold apiHandler. apply wp_bind, wp_perform. split; [done|]. intros st. cbn [observe].
  eapply wp_mono; [apply wp_and;
    [apply (wp_kept (fun h => OLoad st ∈ h)); [by apply list_elem_of_here| |done]|]|].
  - intros h o Hin. by apply list_elem_of_further.
  - apply ends_step. intros ok. destruct (negb ok); [auto|]. apply ends_defer, serve_ends.
  - intros h o [Hin Ho] Hp. destruct (Ho Hp); [left; by exists st|by right].
Qed.

(** C14: the handler panics for two reasons only.  When every configuration it
    loads compiles its short UUID expression -- validation sees to that -- an
    execution that panics either was for a request whose page query overflows (the
    start computed for the page is negative, or its end is beyond the largest
    int), or has been answered by the upstream with a status code outside
    100..999, at which [w.WriteHeader] panics. *)
Theorem panics_only_on_overflow_or_bad_status w req tr :
  exec (apiHandler VerifyPKCS1v15 w req) tr Panicked ->
  (forall st, OLoad st ∈ tr ->
     is_ok (regexp_Compile (ps_ShortUUIDRegex (cfg_PublicSubs (rs_cfg st)))) = true) ->
  (exists st path rawQuery, OLoad st ∈ tr /\
     ValidateRawRequest req (lim_MaxPathLength (cfg_Limits (rs_cfg st)))
       (lim_MaxQueryLength (cfg_Limits (rs_cfg st))) = Ok (path, rawQuery) /\
     page_overflows rawQuery) \/
  (exists out reply, OUpstream out (Ok reply) ∈ tr /\
     ~ (100 <= rep_StatusCode reply <= 999)).
Proof.
  intros He Hre. destruct (wp_exec _ _ _ _ _ _ (apiHandler_ends w req) He) as [Hend _].
  rewrite app_nil_r in Hend. destruct (Hend eq_refl) as [(st & Hst & Hc)|(out & reply & Hin & Hb)].
  - left. apply rev_incl in Hst. destruct Hc as [Hbad|(path & q & Hv & Ho)].
    + apply Hre in Hst. congruence.
    + by exists st, path, q.
  - right. exists out, reply. split; [by apply rev_incl|]. unfold valid_status in Hb.
    apply andb_false_iff in Hb as [?%Z.leb_gt|?%Z.leb_gt]; lia.
Qed.
End panics.

(** ** Witness: a panel list with a huge page size *)

Definition panel_token : string :=
  match IssuePanelSession (H := panel_host) (cfg_PanelFacade panel_config) "42"
          (1700000000 * Second) with
  | Ok token => token
  | Err _ => ""
  end.

Definition panicking_request : Request :=
  example_request "GET" "/api/users?start=1&size=9223372036854775807" (bearer panel_token) None.

Definition listed_user (name : string) : json :=
  JObj [("uuid", JStr "8f14e45f-ceea-467f-a0e6-6f3a1f6b2c3d"); ("username", JStr name)].

Definition list_body : string :=
  Marshal (JObj [("response", JObj [("users", JArr [listed_user "acme_a"; listed_user "acme_b"]);
                                    ("total", JNum "2")])]).

Definition list_world (t : Z) (c : call) : answer c * Z :=
  match c return answer c * Z with
  | Upstream _ =>
      (Ok {| rep_StatusCode := 200; rep_Header := ∅; rep_Body := Ok list_body |}, t)
  | c => example_world panel_state t c
  end.

Definition panicking_run : outcome * Z * list obs :=
  run_in list_world (1700000000 * Second)
    (apiHandler (H0 := panel_host) example_pkcs ∅ panicking_request).

(** The same request, answered by the upstream with status 42. *)
Definition odd_status_world (t : Z) (c : call) : answer c * Z :=
  match c return answer c * Z with
  | Upstream _ =>
      (Ok {| rep_StatusCode := 42; rep_Header := ∅; rep_Body := Ok list_body |}, t)
  | c => example_world panel_state t c
  end.

Definition odd_status_run : outcome * Z * list obs :=
  run_in odd_status_world (1700000000 * Second)
    (apiHandler (H0 := panel_host) example_pkcs ∅ panicking_request).

Example odd_status_panics : fst (fst odd_status_run) = Panicked.
Proof. vm_compute. reflexivity. Qed.

Lemma panics_only_on_overflow_or_bad_status_witness :
  (exists st path rawQuery, OLoad st ∈ snd panicking_run /\
    ValidateRawRequest panicking_request (lim_MaxPathLength (cfg_Limits (rs_cfg st)))
      (lim_MaxQueryLength (cfg_Limits (rs_cfg st))) = Ok (path, rawQuery) /\
    page_overflows rawQuery) \/
  (exists out reply, OUpstream out (Ok reply) ∈ snd panicking_run /\
     ~ (100 <= rep_StatusCode reply <= 999)).
Proof.
  apply (panics_only_on_overflow_or_bad_status (H0 := panel_host) example_pkcs ∅).
  - apply (run_in_exec list_world (1700000000 * Second) _ _ (snd (fst panicking_run))).
    vm_compute. reflexivity.
  - intros st _. reflexivity.
Defined.
