(* ===== verification/Runtime.v ===== *)
(** * internal/server: the runtime shared by the requests

    Its construction, the reload of a configuration, the detection of the
    upstream's version, and what it answers to the calls of a handler.  The
    limiters and the version flag of a [runtimeState] are reached through its
    generation, since requests in flight keep using the state they loaded. *)

From S2P Require Import Prelude GoStrings Json Ratelimit Config Httputil ResponsePolicy Proxy.
From S2P Require Import Alerts AuditLog OAuthStore Effects Respond.
From stdpp Require Import options.

Local Open Scope Z_scope.

(** ** internal/remnawave/version.go *)

Section version.
Context `{Unicode} `{NetParsers}.

Definition version_keys : list string := ["version"; "remnawaveVersion"; "remnawave_version"].

(** The first of the members that is a string; the document is a JSON object. *)
Definition version_of (fs : list (string * json)) : string :=
  foldr (fun key rest => match assoc key fs with Some (JStr v) => v | _ => rest end) ""
    version_keys.

(** A JSON number that is out of the range of a float64: from half a unit above
    the largest one on, [2^1024 - 2^970]. *)
Definition digits_of (s : string) : string * string :=
  (fix go s := match s with
               | String c s' => if is_dec c then let '(d, r) := go s' in (String c d, r)
                                else ("", s)
               | "" => ("", "")
               end) s.

Definition digits_value (s : string) : Z :=
  fold_left (fun n c => n * 10 + dec_val c) (String.list_ascii_of_string s) 0.

Definition exponent_of (s : string) : Z :=
  match s with
  | String _ (String "-" d) => - digits_value d
  | String _ (String "+" d) => digits_value d
  | String _ d => digits_value d
  | "" => 0
  end.

Definition float_overflows (number : string) : bool :=
  let '(whole, rest) := digits_of (TrimPrefix number "-") in
  let '(fraction, rest) := match rest with
                           | String "." r => digits_of r
                           | _ => ("", rest)
                           end in
  let d := digits_value (whole +:+ fraction) in
  let k := exponent_of rest - len fraction in
  let top := len (Itoa d) + k in
  let limit := 2 ^ 1024 - 2 ^ 970 in
  if d =? 0 then false
  else if 310 <? top then true
  else if top <? 300 then false
  else if 0 <=? k then limit <=? d * 10 ^ k
  else limit * 10 ^ (- k) <=? d.

(** The value decodes into [any]. *)
Fixpoint decodes_any (j : json) : bool :=
  match j with
  | JNum n => negb (float_overflows n)
  | JArr l => forallb decodes_any l
  | JObj fs => forallb (fun kv => decodes_any (snd kv)) fs
  | _ => true
  end.

Definition decode_version (body : res string) : res string :=
  let? b := body in
  match parse_prefix b with
  | Some (JNull, _) => Ok ""
  | Some (JObj fs, _) => if decodes_any (JObj fs) then Ok (version_of (dedup fs))
                         else Err json_error
  | _ => Err json_error
  end.

Definition DetectVersion (client : string -> string -> res Reply) (baseURL path : string)
    : res string :=
  let path := if path =s? "" then "/api/system" else path in
  let url := TrimRight "/" baseURL +:+ path in
  match url_Parse url with
  | Err e => Err e
  | Ok _ =>
      match client "GET" url with
      | Err e => Err e
      | Ok reply => decode_version (rep_Body reply)
      end
  end.

Definition isWriteUnsafeMismatch (got want : string) : bool := got <>s? want.

Example float_ex :
  map float_overflows ["1e309"; "1.7976931348623157e308"; "1.7976931348623159e308"; "0e999";
                       "-2e400"; "0.001e310"] = [true; false; true; false; true; false].
Proof. vm_compute. reflexivity. Qed.

(** [detectVersion]: the value stored in [versionOK], if any, and the audit
    entry. *)
Definition detectVersion (client : string -> string -> res Reply) (cfg : Config)
    : option bool * list Entry :=
  let c := cfg_Compatibility cfg in
  if comp_AssumeVersion c <>s? "" then (Some true, []) else
  match DetectVersion client (up_BaseURL (cfg_Upstream cfg)) (up_VersionPath (cfg_Upstream cfg)) with
  | Err _ | Ok "" =>
      (None, [AuditLog.Emit "version_detection_failed" "" "" "" "unknown_version" 0])
  | Ok got =>
      let want := comp_RemnawaveVersion c in
      let ok := (got =s? want) ||
                (comp_AllowVersionMismatch c && negb (isWriteUnsafeMismatch got want)) in
      (Some ok, if ok then [] else [AuditLog.Emit "version_mismatch" "" "" "" got 0])
  end.
End version.

(** ** Data *)

Record limitState := {
  ls_global : Semaphore;
  ls_perToken : PerKey;
  ls_perSubIP : PerKey;
  ls_tokenRate : option FixedWindow;
  ls_subRate : option FixedWindow;
}.

(** The mutable part of a [runtimeState]. *)
Record generation := { gn_limits : limitState; gn_versionOK : bool }.

Record Runtime := {
  rt_state : runtimeState;
  rt_generations : gmap Z generation;
  rt_version : string;
  rt_audit : Logger;
  rt_alerts : Manager;
  rt_metrics : Registry;
  rt_locks : gset string;          (* the mutexes that are locked *)
  rt_panelOAuth : panelOAuthStore;
  rt_nextGen : Z;
  rt_clock : Z;                    (* no reading of the clock is earlier *)
}.

Section runtime.
Context `{Unicode} `{Host} `{NetFiles}.

(** ** Construction *)

Definition newLimitState (cfg : Config) : res limitState :=
  let? tokenRate := NewFixedWindow (lim_DefaultRate (cfg_Limits cfg)) in
  let? subRate := NewFixedWindow (ps_PerIPRate (cfg_PublicSubs cfg)) in
  Ok {| ls_global := NewSemaphore (lim_GlobalConcurrency (cfg_Limits cfg));
        ls_perToken := NewPerKey (lim_PerTokenConcurrency (cfg_Limits cfg));
        ls_perSubIP := NewPerKey (ps_PerIPConcurrency (cfg_PublicSubs cfg));
        ls_tokenRate := tokenRate; ls_subRate := subRate |}.

Definition newRuntimeState (cfg : Config) (g : Z) : res (runtimeState * generation) :=
  let? limits := newLimitState cfg in
  let? px := Proxy.New cfg in
  Ok ({| rs_cfg := cfg; rs_proxy := px; rs_generation := g |},
      {| gn_limits := limits;
         gn_versionOK := comp_AssumeVersion (cfg_Compatibility cfg) <>s? "" |}).

(** [opened] is what [audit.New] has returned. *)
Definition NewRuntime (opened : res Logger) (cfg : Config) (version : string) (now : Z)
    : res Runtime :=
  let? auditLogger := opened in
  let? st := newRuntimeState cfg 1 in
  Ok {| rt_state := fst st; rt_generations := {[ 1 := snd st ]}; rt_version := version;
        rt_audit := auditLogger; rt_alerts := NewManager (cfg_Alerts cfg);
        rt_metrics := NewRegistry; rt_locks := ∅; rt_panelOAuth := newPanelOAuthStore 1024;
        rt_nextGen := 1; rt_clock := now |}.

(** Field updates. *)
Definition set_generations (r : Runtime) (g : gmap Z generation) : Runtime := {|
  rt_state := rt_state r; rt_generations := g; rt_version := rt_version r;
  rt_audit := rt_audit r; rt_alerts := rt_alerts r; rt_metrics := rt_metrics r;
  rt_locks := rt_locks r; rt_panelOAuth := rt_panelOAuth r; rt_nextGen := rt_nextGen r;
  rt_clock := rt_clock r |}.

Definition set_locks (r : Runtime) (l : gset string) : Runtime := {|
  rt_state := rt_state r; rt_generations := rt_generations r; rt_version := rt_version r;
  rt_audit := rt_audit r; rt_alerts := rt_alerts r; rt_metrics := rt_metrics r;
  rt_locks := l; rt_panelOAuth := rt_panelOAuth r; rt_nextGen := rt_nextGen r;
  rt_clock := rt_clock r |}.

Definition set_oauth (r : Runtime) (s : panelOAuthStore) : Runtime := {|
  rt_state := rt_state r; rt_generations := rt_generations r; rt_version := rt_version r;
  rt_audit := rt_audit r; rt_alerts := rt_alerts r; rt_metrics := rt_metrics r;
  rt_locks := rt_locks r; rt_panelOAuth := s; rt_nextGen := rt_nextGen r;
  rt_clock := rt_clock r |}.

Definition set_alerts (r : Runtime) (m : Manager) : Runtime := {|
  rt_state := rt_state r; rt_generations := rt_generations r; rt_version := rt_version r;
  rt_audit := rt_audit r; rt_alerts := m; rt_metrics := rt_metrics r;
  rt_locks := rt_locks r; rt_panelOAuth := rt_panelOAuth r; rt_nextGen := rt_nextGen r;
  rt_clock := rt_clock r |}.

Definition set_clock (r : Runtime) (t : Z) : Runtime := {|
  rt_state := rt_state r; rt_generations := rt_generations r; rt_version := rt_version r;
  rt_audit := rt_audit r; rt_alerts := rt_alerts r; rt_metrics := rt_metrics r;
  rt_locks := rt_locks r; rt_panelOAuth := rt_panelOAuth r; rt_nextGen := rt_nextGen r;
  rt_clock := t |}.

(** The parts of [Reload], in its order: [r.nextGen.Add(1)], [r.panelOAuth.clear()],
    [r.state.Store(st)], [r.alerts.Update(cfg.Alerts)]. *)
Definition next_generation (r : Runtime) : Runtime := {|
  rt_state := rt_state r; rt_generations := rt_generations r; rt_version := rt_version r;
  rt_audit := rt_audit r; rt_alerts := rt_alerts r; rt_metrics := rt_metrics r;
  rt_locks := rt_locks r; rt_panelOAuth := rt_panelOAuth r; rt_nextGen := rt_nextGen r + 1;
  rt_clock := rt_clock r |}.

Definition forget_logins (r : Runtime) : Runtime := set_oauth r (clear (rt_panelOAuth r)).

Definition store_state (r : Runtime) (st : runtimeState) (gen : generation) : Runtime := {|
  rt_state := st; rt_generations := <[rs_generation st := gen]> (rt_generations r);
  rt_version := rt_version r; rt_audit := rt_audit r; rt_alerts := rt_alerts r;
  rt_metrics := rt_metrics r; rt_locks := rt_locks r; rt_panelOAuth := rt_panelOAuth r;
  rt_nextGen := rt_nextGen r; rt_clock := rt_clock r |}.

Definition update_alerts (r : Runtime) (cfg : Config) : Runtime :=
  set_alerts r (Update (rt_alerts r) (cfg_Alerts cfg)).

(** [Reload]: the number of the generation is used up even when the new
    configuration is refused; the second component tells whether the version is
    then detected. *)
Definition Reload (r : Runtime) (cfg : Config) : Runtime * res bool :=
  let r1 := next_generation r in
  match newRuntimeState cfg (rt_nextGen r1) with
  | Err e => (r1, Err e)
  | Ok (st, gen) =>
      (update_alerts (store_state (forget_logins r1) st gen) cfg,
       Ok (comp_AssumeVersion (cfg_Compatibility cfg) =s? ""))
  end.

(** [st.versionOK.Store(ok)] *)
Definition store_version (r : Runtime) (g : Z) (ok : bool) : Runtime :=
  match rt_generations r !! g with
  | None => r
  | Some gen => set_generations r
      (<[g := {| gn_limits := gn_limits gen; gn_versionOK := ok |}]> (rt_generations r))
  end.

(** ** Limits *)

Definition with_global (ls : limitState) (s : Semaphore) : limitState := {|
  ls_global := s; ls_perToken := ls_perToken ls; ls_perSubIP := ls_perSubIP ls;
  ls_tokenRate := ls_tokenRate ls; ls_subRate := ls_subRate ls |}.
Definition with_perToken (ls : limitState) (p : PerKey) : limitState := {|
  ls_global := ls_global ls; ls_perToken := p; ls_perSubIP := ls_perSubIP ls;
  ls_tokenRate := ls_tokenRate ls; ls_subRate := ls_subRate ls |}.
Definition with_perSubIP (ls : limitState) (p : PerKey) : limitState := {|
  ls_global := ls_global ls; ls_perToken := ls_perToken ls; ls_perSubIP := p;
  ls_tokenRate := ls_tokenRate ls; ls_subRate := ls_subRate ls |}.

Definition acquire_limit (ls : limitState) (l : limit) : bool * limitState :=
  match l with
  | LGlobal => let '(ok, s) := Ratelimit.Acquire (ls_global ls) in (ok, with_global ls s)
  | LToken k => let '(ok, p) := AcquireKey (ls_perToken ls) k in (ok, with_perToken ls p)
  | LSubIP k => let '(ok, p) := AcquireKey (ls_perSubIP ls) k in (ok, with_perSubIP ls p)
  end.

Definition release_limit (ls : limitState) (l : limit) : option limitState :=
  match l with
  | LGlobal => option_map (with_global ls) (Ratelimit.Release (ls_global ls))
  | LToken k => option_map (with_perToken ls) (ReleaseKey (ls_perToken ls) k)
  | LSubIP k => option_map (with_perSubIP ls) (ReleaseKey (ls_perSubIP ls) k)
  end.

Definition allow_rate (ls : limitState) (now : Z) (r : rate) : bool * limitState :=
  match r with
  | RToken k =>
      let '(ok, f) := AllowOpt now (ls_tokenRate ls) k in
      (ok, {| ls_global := ls_global ls; ls_perToken := ls_perToken ls;
              ls_perSubIP := ls_perSubIP ls; ls_tokenRate := f; ls_subRate := ls_subRate ls |})
  | RSubIP k =>
      let '(ok, f) := AllowOpt now (ls_subRate ls) k in
      (ok, {| ls_global := ls_global ls; ls_perToken := ls_perToken ls;
              ls_perSubIP := ls_perSubIP ls; ls_tokenRate := ls_tokenRate ls; ls_subRate := f |})
  end.

Definition set_limits (r : Runtime) (g : Z) (gen : generation) (ls : limitState) : Runtime :=
  set_generations r (<[g := {| gn_limits := ls; gn_versionOK := gn_versionOK gen |}]>
                       (rt_generations r)).

(** The longest a goroutine takes from reading the clock to taking the mutex. *)
Class Scheduling := { max_lag : nat }.

(** What was read of a clock that shows [t] at most [max_lag] later. *)
Definition reading `{Scheduling} (t now : Z) : Prop := t - Z.of_nat max_lag <= now <= t.

(** ** What a call is answered

    Each call is atomic: the limiters, the store and the alert queue are guarded
    by mutexes, the state pointer and the version flag are atomic.  The limiters and
    the queue read the clock before they are entered: calls may be served in another
    order than that of their readings.  A call that would block has no answer: a
    locked mutex, an empty semaphore. *)
Inductive handles `{Scheduling} (r : Runtime) : forall c, answer c -> Runtime -> Prop :=
  | h_load : handles r Load (rt_state r) r
  | h_acquire g l gen ok ls :
      rt_generations r !! g = Some gen -> acquire_limit (gn_limits gen) l = (ok, ls) ->
      handles r (Acquire g l) ok (set_limits r g gen ls)
  | h_release g l gen ls :
      rt_generations r !! g = Some gen -> release_limit (gn_limits gen) l = Some ls ->
      handles r (Release g l) () (set_limits r g gen ls)
  | h_version g gen :
      rt_generations r !! g = Some gen -> handles r (VersionOK g) (gn_versionOK gen) r
  | h_allow g k gen t now ok ls :
      rt_generations r !! g = Some gen -> rt_clock r <= t -> reading t now ->
      allow_rate (gn_limits gen) now k = (ok, ls) ->
      handles r (Effects.Allow g k) ok (set_clock (set_limits r g gen ls) t)
  | h_lock k : k ∉ rt_locks r -> handles r (Lock k) () (set_locks r ({[k]} ∪ rt_locks r))
  | h_unlock k : k ∈ rt_locks r -> handles r (Unlock k) () (set_locks r (rt_locks r ∖ {[k]}))
  | h_now t : rt_clock r <= t -> handles r Now t (set_clock r t)
  | h_random n b : handles r (Random n) b r
  | h_put state a now ok s :
      put (rt_panelOAuth r) state a now = (ok, s) ->
      handles r (PutAttempt state a now) ok (set_oauth r s)
  | h_take state now a s :
      OAuthStore.take (rt_panelOAuth r) state now = (a, s) ->
      handles r (TakeAttempt state now) a (set_oauth r s)
  | h_upstream o reply : handles r (Upstream o) reply r
  | h_fetch q reply : handles r (Fetch q) reply r
  | h_emit e : handles r (Effects.Emit e) () r
  | h_notify e t now :
      rt_clock r <= t -> reading t now ->
      handles r (Effects.Notify e) () (set_alerts (set_clock r t) (Alerts.Notify now (rt_alerts r) e))
  | h_write h s b : handles r (Write h s b) () r.

(** ** The local listener *)

(** [http.Error] on a fresh writer. *)
Definition plain_text : Header := Set_ "Content-Type" "text/plain; charset=utf-8" ∅.

Definition error_page (msg : string) (status : Z) : Header * Z * string :=
  (Set_ "X-Content-Type-Options" "nosniff" plain_text, status, text_line msg).

(** The registered pages, by the clean path of the request. *)
Definition localHandler (r : Runtime) (path : string) : Header * Z * string :=
  let ready := match rt_generations r !! rs_generation (rt_state r) with
               | Some gen => gn_versionOK gen | None => false end in
  if path =s? "/healthz" then (∅, 200, text_line "ok")
  else if path =s? "/readyz" then
    if ready then (∅, 200, text_line "ok")
    else error_page "not ready: version guard closed" 503
  else if path =s? "/version" then
    (∅, 200, text_line (Marshal (JObj [("version", JStr (rt_version r))])))
  else if path =s? "/metrics" then
    if negb (met_Enabled (cfg_Metrics (rs_cfg (rt_state r)))) then error_page "404 page not found" 404
    else (Set_ "Content-Type" "text/plain; version=0.0.4" ∅, 200, ServeHTTP (rt_metrics r))
  else error_page "404 page not found" 404.
End runtime.

(** ** Facts *)

Section facts.
Context `{Unicode} `{NetParsers}.

(** C32: the version guard opens for one version only.  [detectVersion] opens the
    guard exactly when the configuration assumes a version, or the upstream
    reports the configured one; allow_version_mismatch makes no difference. *)
Theorem version_guard_exact client cfg :
  fst (detectVersion client cfg) = Some true <->
  comp_AssumeVersion (cfg_Compatibility cfg) <> "" \/
  (comp_RemnawaveVersion (cfg_Compatibility cfg) <> "" /\
   DetectVersion client (up_BaseURL (cfg_Upstream cfg)) (up_VersionPath (cfg_Upstream cfg)) =
     Ok (comp_RemnawaveVersion (cfg_Compatibility cfg))).
Proof.
  unfold detectVersion. cbv zeta.
  destruct (String.eqb_spec (comp_AssumeVersion (cfg_Compatibility cfg)) "") as [Ha|Ha];
    [|split; [by left|done]]. cbn [negb].
  destruct (DetectVersion _ _ _) as [got|e]; [|split; [done|naive_solver]].
  destruct (String.eqb_spec got "") as [->|Hne]; [split; [done|naive_solver]|].
  assert (Hm : forall (A : Type) (x y : A), match got with "" => x | _ => y end = y)
    by (intros; by destruct got).
  unfold isWriteUnsafeMismatch.
  destruct (String.eqb_spec got (comp_RemnawaveVersion (cfg_Compatibility cfg))) as [->|Hv].
  - rewrite Hm. simpl. split; [|done]. intros _. by right.
  - rewrite Hm. cbn [negb orb]. rewrite andb_false_r. simpl. split; [done|naive_solver].
Qed.
End facts.
