(* ===== verification/Concurrency.v ===== *)
(** * internal/server: requests in flight together

    Any number of handlers run against one runtime, each call of each of them an
    atomic step, in any order; configurations are reloaded and versions detected
    in between.  The semaphores and mutexes of the runtime count exactly what the
    handlers hold: the limits bound the requests in flight, a lock has one holder,
    and no reachable state is stuck. *)

From S2P Require Import Prelude GoStrings Json Ratelimit Config Routes Auth Policy.
From S2P Require Import EffectiveRoute Httputil Remnawave BodyPolicy ResponsePolicy Proxy.
From S2P Require Import Alerts AuditLog OAuthStore Effects PanelFacade Respond PanelOAuth PanelLogin.
From S2P Require Import Handler Calls Example Authorization Resources Runtime.
From stdpp Require Import options.

Local Open Scope Z_scope.

(** ** The order in which a handler takes what it holds *)

Section order.
Context `{Unicode} `{Host} `{Regexps} `{NetParsers} `{NetFiles} `{RequestURLs}.
Context (VerifyPKCS1v15 : PublicKey -> string -> string -> bool).

Definition loaded (h : list obs) (g : Z) : Prop :=
  exists st, OLoad st ∈ h /\ rs_generation st = g.

(** Only the generation that was loaded is used, and one lock is taken. *)
Definition orderly (h : list obs) (c : call) : Prop :=
  match c with
  | Acquire g _ | VersionOK g | Allow g _ => loaded h g
  | Lock _ => forall k, OLock k ∉ h
  | _ => True
  end.

Definition lock_free (h : list obs) : Prop := forall k, OLock k ∉ h.

Notation ok p h := (wp orderly p h (fun _ _ => True)).

Lemma plain_ok {A} (p : prog A) h : only plain_call p -> ok p h.
Proof.
  intros Hp. eapply wp_only with (I := fun _ => True); [exact Hp|done|done|]. by intros ? [].
Qed.

Lemma denied_ok w r route tid cid reason status h :
  ok (returned (Respond.deny w r route tid cid reason status)) h.
Proof. apply plain_ok, returned_plain, deny_calls. Qed.

Lemma ok_perform {B} c (f : answer c -> prog B) h :
  orderly h c -> (forall r, ok (f r) (observe c r :: h)) -> ok (bind (perform c) f) h.
Proof. intros Hc Hf. apply wp_bind, wp_perform. auto. Qed.

Lemma ok_defer cleanup body h :
  (forall h, orderly h cleanup) -> ok body h -> ok (defer cleanup body) h.
Proof. intros Hc Hb. apply wp_defer. eapply wp_mono; [exact Hb|]. auto. Qed.

Lemma loaded_cons h o g : loaded h g -> loaded (o :: h) g.
Proof. intros (st & Hl & Hg). exists st. split; [set_solver|done]. Qed.

Lemma lock_free_cons h o : lock_free h -> (forall k, o <> OLock k) -> lock_free (o :: h).
Proof. intros Hl Ho k [Heq|Hin]%elem_of_cons; [by apply (Ho k)|by apply (Hl k)]. Qed.

Hint Resolve loaded_cons lock_free_cons : core.

Lemma handlePublicSub_ok w req st route path q h :
  loaded h (rs_generation st) -> ok (handlePublicSub w req st route path q) h.
Proof.
  intros Hl. unfold handlePublicSub. cbv zeta. destruct (negb _); [apply denied_ok|].
  destruct (regexp_Compile _); [|done].
  destruct (_ || _); [apply denied_ok|]. destruct (_ && _); [apply denied_ok|].
  apply ok_perform; [done|]. intros [|]; [|apply denied_ok]. cbn [negb].
  apply ok_defer; [done|]. apply ok_perform; [by apply loaded_cons|].
  intros [|]; [|apply denied_ok]. cbn [negb]. apply plain_ok, and_then_calls.
  - apply serve_proxy_calls.
  - by apply only_perform.
Qed.

Lemma serve_write_ok w req st route path q tok cred h :
  lock_free h -> ok (serve_write w req st route path q tok cred) h.
Proof.
  intros Hf. unfold serve_write. cbv zeta.
  destruct (_ && _); [|apply plain_ok, serve_checks_calls].
  destruct (negb _); [apply denied_ok|].
  destruct (bufferRequestBody _ _) as [req'|]; [|apply denied_ok].
  apply ok_perform; [exact Hf|]. intros u. apply ok_defer; [done|].
  apply plain_ok, serve_checks_calls.
Qed.

Lemma serve_token_ok w req st route path q tok cred h :
  loaded h (rs_generation st) -> lock_free h -> ok (serve_token w req st route path q tok cred) h.
Proof.
  intros Hl Hf. unfold serve_token. cbv zeta.
  apply ok_perform; [done|]. intros [|]; [|apply denied_ok]. cbn [negb].
  apply ok_defer; [done|]. apply ok_perform; [by apply loaded_cons|].
  intros [|]; [|apply denied_ok]. cbn [negb].
  destruct (_ && _); [apply plain_ok, returned_plain, deny_policy_calls|].
  destruct (handlePanelReadFacade _ _ _ _ _ _ _) as [w' [p|]] eqn:Hp.
  - apply handlePanelReadFacade_calls in Hp. by apply plain_ok, returned_plain.
  - apply serve_write_ok. auto.
Qed.

Lemma serve_credential_ok w req st route path q h :
  loaded h (rs_generation st) -> lock_free h -> ok (serve_credential w req st route path q) h.
Proof.
  intros Hl Hf. unfold serve_credential. apply ok_perform; [done|]. intros now.
  destruct (resolveRequestCredential _ _ _) as [req' [e|[tok cred]]]; [apply denied_ok|].
  apply serve_token_ok; auto.
Qed.

Lemma apiHandler_ok w req : ok (apiHandler VerifyPKCS1v15 w req) [].
Proof.
  unfold apiHandler. apply ok_perform; [done|]. intros st. cbn [observe].
  assert (Hl : loaded [OLoad st] (rs_generation st)) by (exists st; split; [set_solver|done]).
  assert (Hf : lock_free [OLoad st]) by (intros k; set_solver).
  apply ok_perform; [done|].
  intros [|]; [|apply plain_ok, returned_plain, http_Error_calls]. cbn [negb observe].
  apply ok_defer; [done|]. unfold serve. cbv zeta.
  destruct (ValidateRawRequest _ _ _) as [[raw q]|]; [|apply denied_ok].
  destruct (Match _ _ _) as [r|]; [|apply denied_ok].
  unfold serve_route. cbv zeta. destruct (if pf_Enabled _ then _ else _) as [p|] eqn:Hp.
  { destruct (pf_Enabled _); [|done]. apply handlePanelAuthFacade_calls in Hp.
    by apply plain_ok, returned_calls, only_local_plain. }
  apply ok_perform; [by apply loaded_cons|]. intros [|]; [|apply denied_ok]. cbn [negb observe].
  destruct (validateRequestQuery _ _ _); [|apply denied_ok].
  destruct (bufferRequestBody _ _); [|apply denied_ok].
  assert (Hl2 : loaded [OVersionOK (rs_generation st) true; OAcquire (rs_generation st) LGlobal true;
                        OLoad st] (rs_generation st)) by auto.
  assert (Hf2 : lock_free [OVersionOK (rs_generation st) true;
                           OAcquire (rs_generation st) LGlobal true; OLoad st]) by auto.
  destruct (_ =s? _); [|by apply serve_credential_ok].
  destruct (ps_Enabled _); [by apply handlePublicSub_ok|].
  destruct (_ =s? ""); [apply denied_ok|by apply serve_credential_ok].
Qed.
End order.

(** ** Counting what is held *)

Fixpoint occ (x : resource) (l : list resource) : nat :=
  match l with
  | [] => 0
  | y :: l' => (if decide (y = x) then 1 else 0) + occ x l'
  end.

Lemma occ_in x l : x ∈ l <-> (0 < occ x l)%nat.
Proof.
  induction l as [|y l IH]; cbn [occ]; [split; [set_solver|lia]|].
  rewrite elem_of_cons, IH. case_decide; [subst; split; [lia|by left]|].
  split; [intros [->|]; [done|lia]|right; lia].
Qed.

Lemma occ_remove x y l :
  y ∈ l -> occ x (remove_one y l) = (occ x l - if decide (y = x) then 1 else 0)%nat.
Proof.
  induction l as [|z l IH]; [set_solver|]. intros Hy. cbn [remove_one].
  destruct (decide (z = y)) as [->|Hne]; cbn [occ]; [case_decide; lia|].
  apply elem_of_cons in Hy as [->|Hy]; [done|]. rewrite (IH Hy).
  apply occ_in in Hy. destruct (decide (y = x)) as [->|]; [|lia]. rewrite decide_False by done. lia.
Qed.

Record thread := { th_prog : prog outcome; th_hist : list obs }.

Definition holds (t : thread) : list resource := held (th_hist t).

(** How often [x] is held, by all together. *)
Definition total (x : resource) (ts : list thread) : nat :=
  sum_list_with (fun t => occ x (holds t)) ts.

Lemma total_split x l1 t l2 :
  total x (l1 ++ t :: l2) = (occ x (holds t) + total x (l1 ++ l2))%nat.
Proof. unfold total. rewrite !sum_list_with_app. simpl. lia. Qed.

(** ** Semaphores of a generation *)

Definition sem_of (ls : limitState) (l : limit) : Semaphore :=
  match l with
  | LGlobal => ls_global ls
  | LToken k => fst (Ratelimit.Get (ls_perToken ls) k)
  | LSubIP k => fst (Ratelimit.Get (ls_perSubIP ls) k)
  end.

Lemma acquire_limit_spec ls l ok ls' :
  acquire_limit ls l = (ok, ls') ->
  ok = (sem_used (sem_of ls l) <? sem_cap (sem_of ls l)) /\
  forall l', sem_of ls' l' = if decide (l = l') then snd (Ratelimit.Acquire (sem_of ls l))
                             else sem_of ls l'.
Proof.
  destruct l as [|k|k]; cbn [acquire_limit sem_of].
  - unfold Ratelimit.Acquire. destruct (_ <? _); intros [= <- <-];
      (split; [done|]); intros [|k'|k']; by case_decide.
  - destruct (AcquireKey _ _) as [ok0 p] eqn:Ha. intros [= <- <-].
    apply AcquireKey_spec in Ha as (_ & Hok & Hg). split; [done|].
    intros [|k'|k']; cbn [sem_of with_perToken ls_global ls_perToken ls_perSubIP];
      rewrite ?Hg; repeat case_decide; by simplify_eq.
  - destruct (AcquireKey _ _) as [ok0 p] eqn:Ha. intros [= <- <-].
    apply AcquireKey_spec in Ha as (_ & Hok & Hg). split; [done|].
    intros [|k'|k']; cbn [sem_of with_perSubIP ls_global ls_perToken ls_perSubIP];
      rewrite ?Hg; repeat case_decide; by simplify_eq.
Qed.

Lemma release_limit_spec ls l ls' :
  release_limit ls l = Some ls' ->
  exists s, Ratelimit.Release (sem_of ls l) = Some s /\
  forall l', sem_of ls' l' = if decide (l = l') then s else sem_of ls l'.
Proof.
  destruct l as [|k|k]; cbn [release_limit sem_of].
  - destruct (Ratelimit.Release _) as [s|]; [|done]. intros [= <-]. exists s. split; [done|].
    intros [|k'|k']; by case_decide.
  - destruct (ReleaseKey _ _) as [p|] eqn:Hr; [|done]. intros [= <-].
    apply ReleaseKey_spec in Hr as (_ & s & Hs & Hg). exists s. split; [done|].
    intros [|k'|k']; cbn [sem_of with_perToken ls_global ls_perToken ls_perSubIP];
      rewrite ?Hg; repeat case_decide; by simplify_eq.
  - destruct (ReleaseKey _ _) as [p|] eqn:Hr; [|done]. intros [= <-].
    apply ReleaseKey_spec in Hr as (_ & s & Hs & Hg). exists s. split; [done|].
    intros [|k'|k']; cbn [sem_of with_perSubIP ls_global ls_perToken ls_perSubIP];
      rewrite ?Hg; repeat case_decide; by simplify_eq.
Qed.

(** A slot in use can be given back. *)
Lemma release_limit_total ls l :
  0 < sem_used (sem_of ls l) -> exists ls', release_limit ls l = Some ls'.
Proof.
  intros Hu. destruct l as [|k|k]; cbn [release_limit sem_of] in *.
  - unfold Ratelimit.Release. apply Z.ltb_lt in Hu. rewrite Hu. simpl. eauto.
  - unfold ReleaseKey. destruct (Ratelimit.Get _ k) as [s p]. cbn [fst] in Hu. unfold Ratelimit.Release.
    apply Z.ltb_lt in Hu. rewrite Hu. simpl. eauto.
  - unfold ReleaseKey. destruct (Ratelimit.Get _ k) as [s p]. cbn [fst] in Hu. unfold Ratelimit.Release.
    apply Z.ltb_lt in Hu. rewrite Hu. simpl. eauto.
Qed.

Lemma allow_rate_sem ls now k ok ls' l :
  allow_rate ls now k = (ok, ls') -> sem_of ls' l = sem_of ls l.
Proof.
  destruct k; cbn [allow_rate]; destruct (AllowOpt _ _ _); intros [= <- <-]; by destruct l.
Qed.

(** The configured capacities. *)
Definition bound_of (cfg : Config) (l : limit) : Z :=
  capacity (match l with
            | LGlobal => lim_GlobalConcurrency (cfg_Limits cfg)
            | LToken _ => lim_PerTokenConcurrency (cfg_Limits cfg)
            | LSubIP _ => ps_PerIPConcurrency (cfg_PublicSubs cfg)
            end).

Lemma newLimitState_sem `{Unicode} cfg ls l :
  newLimitState cfg = Ok ls ->
  sem_cap (sem_of ls l) = bound_of cfg l /\ sem_used (sem_of ls l) = 0.
Proof.
  unfold newLimitState. destruct (NewFixedWindow _) as [tr|]; [|done].
  destruct (NewFixedWindow _) as [sr|]; [|done]. intros [= <-].
  unfold bound_of, capacity. destruct l as [|k|k]; cbn [sem_of ls_global ls_perToken ls_perSubIP];
    [done|split; unfold NewPerKey, Ratelimit.Get; cbn [pk_m pk_n]; by rewrite lookup_empty..].
Qed.

(** ** The system *)

Section system.
Context `{Unicode} `{Host} `{Regexps} `{NetParsers} `{NetFiles} `{RequestURLs} `{Scheduling}.
Context (VerifyPKCS1v15 : PublicKey -> string -> string -> bool).

Definition system : Type := Runtime * list thread.

(** One call of one handler, answered by the runtime. *)
Inductive call_step : system -> system -> Prop :=
  | one_call r l1 l2 c k h a r' :
      handles r c a r' ->
      call_step (r, l1 ++ {| th_prog := Vis c k; th_hist := h |} :: l2)
                (r', l1 ++ {| th_prog := k a; th_hist := observe c a :: h |} :: l2).

(** The parts of a reload.  Their order and the configuration they share are those
    of [Reload] in Gateway.v; here they may come in any order. *)
Inductive reload_step (r : Runtime) : Runtime -> Prop :=
  | numbers : reload_step r (next_generation r)
  | forgets : reload_step r (forget_logins r)
  | stores cfg st gen :
      newRuntimeState cfg (rt_nextGen r) = Ok (st, gen) ->
      rt_generations r !! rt_nextGen r = None -> reload_step r (store_state r st gen)
  | updates cfg : reload_step r (update_alerts r cfg).

(** A handler's call; a request that arrives; a part of a reload; a version that has
    been detected; a step of the worker that sends the alerts. *)
Inductive system_step : system -> system -> Prop :=
  | calls s s' : call_step s s' -> system_step s s'
  | arrives r ts w req :
      system_step (r, ts)
        (r, ts ++ [{| th_prog := apiHandler VerifyPKCS1v15 w req; th_hist := [] |}])
  | reloads r r' ts : reload_step r r' -> system_step (r, ts) (r', ts)
  | detects r ts g ok : system_step (r, ts) (store_version r g ok, ts)
  | alerts r ts i : system_step (r, ts) (set_alerts r (fst (step (rt_alerts r) i)), ts).

(** What is known of a thread. *)
Record thread_ok (gens : gmap Z Config) (t : thread) : Prop := {
  to_balanced : wp gives_back (th_prog t) (th_hist t) (fun h _ => held h = []);
  to_orderly : wp orderly (th_prog t) (th_hist t) (fun _ _ => True);
  to_loaded : forall st, OLoad st ∈ th_hist t -> gens !! rs_generation st = Some (rs_cfg st);
}.

(** [cfgs] is the configuration of each generation. *)
Record sys_inv (cfgs : gmap Z Config) (r : Runtime) (ts : list thread) : Prop := {
  si_threads : Forall (thread_ok cfgs) ts;
  si_known : forall g, is_Some (cfgs !! g) <-> is_Some (rt_generations r !! g);
  si_current : cfgs !! rs_generation (rt_state r) = Some (rs_cfg (rt_state r));
  si_next : forall g, is_Some (cfgs !! g) -> g <= rt_nextGen r;
  si_slots : forall g gen cfg l, rt_generations r !! g = Some gen -> cfgs !! g = Some cfg ->
    sem_used (sem_of (gn_limits gen) l) = Z.of_nat (total (Slot g l) ts) /\
    sem_cap (sem_of (gn_limits gen) l) = bound_of cfg l /\
    Z.of_nat (total (Slot g l) ts) <= bound_of cfg l;
  si_unused : forall g l, rt_generations r !! g = None -> total (Slot g l) ts = 0%nat;
  si_locks : forall k, total (Key k) ts = if decide (k ∈ rt_locks r) then 1%nat else 0%nat;
}.

(** *** Threads *)

Lemma thread_ok_call cfgs c k h a :
  thread_ok cfgs {| th_prog := Vis c k; th_hist := h |} ->
  (forall st, OLoad st = observe c a -> cfgs !! rs_generation st = Some (rs_cfg st)) ->
  thread_ok cfgs {| th_prog := k a; th_hist := observe c a :: h |}.
Proof.
  intros [[Hg Hb] [Ho Hp] Hl] Hst. split; cbn [th_prog th_hist] in *; [apply Hb|apply Hp|].
  intros st [Heq|Hin]%elem_of_cons; auto.
Qed.

Lemma thread_ok_new cfgs w req :
  thread_ok cfgs {| th_prog := apiHandler VerifyPKCS1v15 w req; th_hist := [] |}.
Proof.
  split; cbn [th_prog th_hist]; [|apply apiHandler_ok|set_solver].
  eapply wp_mono; [apply apiHandler_costs|]. by intros h' o (_ & _ & _ & Hh).
Qed.

Lemma thread_ok_more cfgs cfgs' t : cfgs ⊆ cfgs' -> thread_ok cfgs t -> thread_ok cfgs' t.
Proof. intros Hs [Hb Ho Hl]. split; [done..|]. intros st Hin. eapply lookup_weaken; eauto. Qed.

(** What a call does to what a thread holds. *)
Definition takes (c : call) : answer c -> resource -> nat :=
  match c with
  | Acquire g l => fun ok x => if (ok : bool) then if decide (Slot g l = x) then 1 else 0 else 0
  | Lock k => fun _ x => if decide (Key k = x) then 1 else 0
  | _ => fun _ _ => 0
  end%nat.

Definition gives (c : call) (x : resource) : nat :=
  match c with
  | Release g l => if decide (Slot g l = x) then 1 else 0
  | Unlock k => if decide (Key k = x) then 1 else 0
  | _ => 0
  end%nat.

Lemma occ_call c a h x :
  gives_back h c ->
  (occ x (held (observe c a :: h)) + gives c x = occ x (held h) + takes c a x)%nat.
Proof.
  intros Hg. destruct c; cbn [observe held gives takes gives_back] in *; try lia.
  - destruct a; cbn [occ]; lia.
  - rewrite occ_remove by done. apply occ_in in Hg.
    destruct (decide (Slot g l = x)) as [<-|]; lia.
  - cbn [occ]. lia.
  - rewrite occ_remove by done. apply occ_in in Hg. destruct (decide (Key key = x)) as [<-|]; lia.
Qed.

Lemma total_call l1 l2 c k h a x :
  gives_back h c ->
  (total x (l1 ++ {| th_prog := k a; th_hist := observe c a :: h |} :: l2) + gives c x =
   total x (l1 ++ {| th_prog := Vis c k; th_hist := h |} :: l2) + takes c a x)%nat.
Proof.
  intros Hg. rewrite !total_split. unfold holds. cbn [th_hist].
  pose proof (occ_call c a h x Hg). lia.
Qed.

(** *** Calls keep the invariant *)

(** The components of the runtime that the counts speak of. *)
Definition same_counts (r r' : Runtime) : Prop :=
  rt_generations r' = rt_generations r /\ rt_state r' = rt_state r /\
  rt_nextGen r' = rt_nextGen r /\ rt_locks r' = rt_locks r.

Lemma inv_same cfgs r r' ts ts' :
  sys_inv cfgs r ts -> Forall (thread_ok cfgs) ts' -> (forall x, total x ts' = total x ts) ->
  same_counts r r' -> sys_inv cfgs r' ts'.
Proof.
  intros [] Ht Htot (Hg & Hst & Hn & Hl). split; rewrite ?Hg, ?Hst, ?Hn, ?Hl; auto.
  - intros g gen cfg l. rewrite Htot. auto.
  - intros g l. rewrite Htot. auto.
  - intros k. rewrite Htot. auto.
Qed.

(** A generation's semaphores change: all but [l] stay, and the counts follow. *)
Lemma inv_limits cfgs r ts ts' g gen ls :
  sys_inv cfgs r ts -> Forall (thread_ok cfgs) ts' -> rt_generations r !! g = Some gen ->
  (forall g' l, g' <> g -> total (Slot g' l) ts' = total (Slot g' l) ts) ->
  (forall k, total (Key k) ts' = total (Key k) ts) ->
  (forall cfg l, cfgs !! g = Some cfg ->
    sem_used (sem_of ls l) = Z.of_nat (total (Slot g l) ts') /\
    sem_cap (sem_of ls l) = bound_of cfg l /\
    Z.of_nat (total (Slot g l) ts') <= bound_of cfg l) ->
  sys_inv cfgs (set_limits r g gen ls) ts'.
Proof.
  intros [] Ht Hg Hslots Hkeys Hls. split; cbn [set_limits set_generations rt_generations rt_state
    rt_nextGen rt_locks]; auto.
  - intros g'. rewrite si_known0, lookup_insert. case_decide; [subst|done].
    rewrite Hg. split; eauto.
  - intros g' gen' cfg l Hg' Hc. rewrite lookup_insert in Hg'. case_decide as Heq.
    + subst. injection Hg' as <-. cbn [gn_limits]. auto.
    + rewrite Hslots by done. eauto.
  - intros g' l Hg'. rewrite lookup_insert in Hg'. case_decide as Heq; [done|].
    rewrite Hslots by done. auto.
  - intros k. rewrite Hkeys. auto.
Qed.

(** The books after a call: what it gave back and what it took. *)
Definition booked (c : call) (a : answer c) (ts ts' : list thread) : Prop :=
  forall x, (total x ts' + gives c x = total x ts + takes c a x)%nat.

Lemma inv_acquire cfgs r ts ts' g l gen ok ls :
  sys_inv cfgs r ts -> Forall (thread_ok cfgs) ts' -> booked (Acquire g l) ok ts ts' ->
  rt_generations r !! g = Some gen -> acquire_limit (gn_limits gen) l = (ok, ls) ->
  sys_inv cfgs (set_limits r g gen ls) ts'.
Proof.
  intros Hi Ht Htot Hg Ha. unfold booked in Htot. cbn [gives takes] in Htot.
  apply acquire_limit_spec in Ha as [Hok Hsem].
  apply (inv_limits _ _ ts); [done..| | |].
  - intros g' l' Hne. specialize (Htot (Slot g' l')).
    rewrite decide_False in Htot by congruence. destruct ok; lia.
  - intros k. specialize (Htot (Key k)). rewrite decide_False in Htot by done. destruct ok; lia.
  - intros cfg l' Hcfg. destruct (si_slots _ _ _ Hi g gen cfg l' Hg Hcfg) as (Hu & Hcap & Hle).
    specialize (Htot (Slot g l')). rewrite Hsem. unfold Ratelimit.Acquire. rewrite <- Hok.
    destruct (decide (l = l')) as [->|Hne].
    + rewrite decide_True in Htot by done. destruct ok; cbn [snd sem_used sem_cap].
      * symmetry in Hok. apply Z.ltb_lt in Hok. split_and!; lia.
      * split_and!; lia.
    + rewrite decide_False in Htot by congruence. destruct ok; split_and!; lia.
Qed.

Lemma inv_release cfgs r ts ts' g l gen ls :
  sys_inv cfgs r ts -> Forall (thread_ok cfgs) ts' -> booked (Release g l) () ts ts' ->
  rt_generations r !! g = Some gen -> release_limit (gn_limits gen) l = Some ls ->
  sys_inv cfgs (set_limits r g gen ls) ts'.
Proof.
  intros Hi Ht Htot Hg Hr. unfold booked in Htot. cbn [gives takes] in Htot.
  apply release_limit_spec in Hr as (s & Hs & Hsem).
  apply (inv_limits _ _ ts); [done..| | |].
  - intros g' l' Hne. specialize (Htot (Slot g' l')).
    rewrite decide_False in Htot by congruence. lia.
  - intros k. specialize (Htot (Key k)). rewrite decide_False in Htot by done. lia.
  - intros cfg l' Hcfg. destruct (si_slots _ _ _ Hi g gen cfg l' Hg Hcfg) as (Hu & Hcap & Hle).
    specialize (Htot (Slot g l')). rewrite Hsem. unfold Ratelimit.Release in Hs.
    destruct (Z.ltb_spec 0 (sem_used (sem_of (gn_limits gen) l))); [|done]. injection Hs as <-.
    destruct (decide (l = l')) as [->|Hne].
    + rewrite decide_True in Htot by done. cbn [sem_used sem_cap]. split_and!; lia.
    + rewrite decide_False in Htot by congruence. split_and!; lia.
Qed.

(** The locks change, the slots do not. *)
Lemma inv_locks cfgs r ts ts' locks :
  sys_inv cfgs r ts -> Forall (thread_ok cfgs) ts' ->
  (forall g l, total (Slot g l) ts' = total (Slot g l) ts) ->
  (forall k, total (Key k) ts' = if decide (k ∈ locks) then 1%nat else 0%nat) ->
  sys_inv cfgs (set_locks r locks) ts'.
Proof.
  intros [] Ht Hs Hk. split; cbn [set_locks rt_generations rt_state rt_nextGen rt_locks]; auto.
  - intros g gen cfg l Hg Hcfg. rewrite Hs. eauto.
  - intros g l Hg. rewrite Hs. auto.
Qed.

Lemma inv_call cfgs r ts c a r' ts' :
  sys_inv cfgs r ts -> handles r c a r' -> Forall (thread_ok cfgs) ts' -> booked c a ts ts' ->
  sys_inv cfgs r' ts'.
Proof.
  intros Hi Hh Ht Htot.
  assert (Hnone : (forall x, gives c x = 0%nat) -> (forall x, takes c a x = 0%nat) ->
            forall x, total x ts' = total x ts).
  { intros Hz1 Hz2 x. specialize (Htot x). rewrite Hz1, Hz2 in Htot. lia. }
  destruct Hh as [|g l gen ok ls Hg Ha|g l gen ls Hg Hr|g gen Hg|g k gen t now ok ls Hg Hc Hrd Ha
    |k Hk|k Hk|t Hc|n b|state at_ now ok s Hp|state now a_ s Hp|o rep|q rep|e|e t now Hc Hrd|h s b];
    try (apply (inv_same _ r _ ts); [done..|by apply Hnone|done]).
  - by apply (inv_acquire _ _ ts _ _ l _ ok).
  - by apply (inv_release _ _ ts _ _ l).
  - assert (Hsame : forall x, total x ts' = total x ts) by (by apply Hnone).
    apply (inv_same _ (set_limits r g gen ls) _ ts'); [|done..].
    apply (inv_limits _ _ ts); [done..| | |]; intros; rewrite ?Hsame; auto.
    rewrite (allow_rate_sem _ _ _ _ _ _ Ha). eapply si_slots; eauto.
  - unfold booked in Htot. cbn [gives takes] in Htot. apply (inv_locks _ _ ts); [done..| |].
    + intros g l. specialize (Htot (Slot g l)). rewrite decide_False in Htot by done. lia.
    + intros k'. specialize (Htot (Key k')). rewrite (si_locks _ _ _ Hi) in Htot.
      repeat case_decide; simplify_eq; try lia; set_solver.
  - unfold booked in Htot. cbn [gives takes] in Htot. apply (inv_locks _ _ ts); [done..| |].
    + intros g l. specialize (Htot (Slot g l)). rewrite decide_False in Htot by done. lia.
    + intros k'. specialize (Htot (Key k')). rewrite (si_locks _ _ _ Hi) in Htot.
      repeat case_decide; simplify_eq; try lia; set_solver.
Qed.

(** *** Every step keeps it *)

Lemma newRuntimeState_Ok cfg g st gen l :
  newRuntimeState cfg g = Ok (st, gen) ->
  rs_cfg st = cfg /\ rs_generation st = g /\ sem_cap (sem_of (gn_limits gen) l) = bound_of cfg l /\
  sem_used (sem_of (gn_limits gen) l) = 0.
Proof.
  unfold newRuntimeState. destruct (newLimitState cfg) as [ls|] eqn:Hl; [|done].
  destruct (Proxy.New cfg); [|done]. intros [= <- <-].
  by destruct (newLimitState_sem cfg ls l Hl).
Qed.

Lemma bound_nonneg cfg l : 0 <= bound_of cfg l.
Proof.
  unfold bound_of. generalize (match l with LGlobal => lim_GlobalConcurrency (cfg_Limits cfg)
    | LToken _ => lim_PerTokenConcurrency (cfg_Limits cfg)
    | LSubIP _ => ps_PerIPConcurrency (cfg_PublicSubs cfg) end).
  intros n. unfold capacity. destruct (Z.leb_spec n 0); lia.
Qed.

Lemma inv_reload cfgs r r' ts :
  sys_inv cfgs r ts -> reload_step r r' -> exists cfgs', sys_inv cfgs' r' ts.
Proof.
  intros Hi Hr. destruct Hr as [| |cfg st gen Hn Hnew|cfg].
  - exists cfgs. destruct Hi. split; cbn [next_generation rt_state rt_generations rt_nextGen rt_locks]; auto.
    intros g Hg%si_next0. lia.
  - exists cfgs. apply (inv_same _ r _ ts); [done|apply Hi|done|by repeat split].
  - destruct Hi.
    destruct (newRuntimeState_Ok _ _ _ _ LGlobal Hn) as (Hcfg & Hgen & _).
    set (g := rt_nextGen r) in *.
    exists (<[g := cfg]> cfgs). split; unfold store_state;
      cbn [rt_state rt_generations rt_nextGen rt_locks]; rewrite ?Hgen; auto.
    + eapply Forall_impl; [exact si_threads0|]. intros t. apply thread_ok_more.
      apply insert_subseteq. apply eq_None_not_Some. intros Hs%si_known0. rewrite Hnew in Hs. by destruct Hs.
    + intros g'. rewrite !lookup_insert. case_decide; [split; eauto|auto].
    + by rewrite lookup_insert_eq, Hcfg.
    + intros g'. rewrite lookup_insert. case_decide as Heq; [intros _; lia|]. intros Hg'%si_next0. done.
    + intros g' gen' cfg' l. rewrite !lookup_insert. case_decide as Heq; [|auto].
      intros [= <-] [= <-]. subst g'.
      destruct (newRuntimeState_Ok _ _ _ _ l Hn) as (_ & _ & Hcap & Hu).
      rewrite (si_unused0 g l Hnew). split_and!; [by rewrite Hu|done|apply bound_nonneg].
    + intros g' l. rewrite lookup_insert. case_decide; [done|auto].
  - exists cfgs. apply (inv_same _ r _ ts); [done|apply Hi|done|by repeat split].
Qed.

(** [Reload] is these parts, one after the other. *)
Lemma Reload_steps cfgs r ts cfg :
  sys_inv cfgs r ts -> rtc reload_step r (fst (Reload r cfg)).
Proof.
  intros Hi. unfold Reload. cbv zeta. eapply rtc_l; [apply numbers|].
  destruct (newRuntimeState cfg _) as [[st gen]|] eqn:Hn; cbn [fst]; [|done].
  eapply rtc_l; [apply forgets|]. eapply rtc_l; [|eapply rtc_l; [apply updates|done]].
  apply (stores _ cfg); [done|]. cbn [forget_logins set_oauth next_generation rt_generations rt_nextGen].
  apply eq_None_not_Some. intros Hs%(si_known _ _ _ Hi)%(si_next _ _ _ Hi). lia.
Qed.

Lemma inv_detect cfgs r ts g ok : sys_inv cfgs r ts -> sys_inv cfgs (store_version r g ok) ts.
Proof.
  intros Hi. unfold store_version. destruct (rt_generations r !! g) as [gen|] eqn:Hg; [|done].
  destruct Hi. split; cbn [set_generations rt_generations rt_state rt_nextGen rt_locks]; auto.
  - intros g'. rewrite si_known0, lookup_insert. case_decide; [subst|done].
    rewrite Hg. split; eauto.
  - intros g' gen' cfg l Hg' Hc. rewrite lookup_insert in Hg'. case_decide as Heq; [|eauto].
    subst. injection Hg' as <-. cbn [gn_limits]. eauto.
  - intros g' l. rewrite lookup_insert. case_decide; [done|auto].
Qed.

Lemma inv_call_step cfgs s s' :
  call_step s s' -> sys_inv cfgs (fst s) (snd s) -> sys_inv cfgs (fst s') (snd s').
Proof.
  intros [r l1 l2 c k h a r' Hh] Hi. cbn [fst snd] in *.
  pose proof (si_threads _ _ _ Hi) as Hall. apply Forall_app in Hall as [H1' [Ht H2']%Forall_cons].
  assert (Hg : gives_back h c) by (destruct (to_balanced _ _ Ht); done).
  eapply inv_call; [exact Hi|exact Hh| |intros x; by apply total_call].
  apply Forall_app. split; [done|]. apply Forall_cons. split; [|done].
  apply thread_ok_call; [done|]. intros st Heq.
  destruct Hh; cbn [observe] in Heq; try done. injection Heq as ->. apply (si_current _ _ _ Hi).
Qed.

Lemma inv_step s s' :
  system_step s s' -> (exists cfgs, sys_inv cfgs (fst s) (snd s)) ->
  exists cfgs, sys_inv cfgs (fst s') (snd s').
Proof.
  intros Hs [cfgs Hi].
  destruct Hs as [s s' Hc|r ts w req|r r' ts Hr|r ts g ok|r ts i]; cbn [fst snd] in *.
  - exists cfgs. by eapply inv_call_step.
  - exists cfgs. apply (inv_same _ r _ ts); [done| | |done].
    + apply Forall_app. split; [apply Hi|]. apply Forall_singleton, thread_ok_new.
    + intros x. rewrite total_split, app_nil_r. done.
  - by eapply inv_reload.
  - exists cfgs. by apply inv_detect.
  - exists cfgs. apply (inv_same _ r _ ts); [done|apply Hi|done|done].
Qed.

Lemma inv_init opened cfg version now r :
  NewRuntime opened cfg version now = Ok r -> exists cfgs, sys_inv cfgs r [].
Proof.
  unfold NewRuntime. destruct opened as [lg|]; [|done].
  destruct (newRuntimeState cfg 1) as [[st gen]|] eqn:Hn; [|done]. intros [= <-].
  destruct (newRuntimeState_Ok _ _ _ _ LGlobal Hn) as (Hcfg & Hgen & _).
  exists {[1 := cfg]}. split; cbn [rt_state rt_generations rt_nextGen rt_locks fst snd]; try done.
  - intros g. rewrite !lookup_singleton_is_Some. done.
  - by rewrite Hgen, Hcfg, lookup_singleton_eq.
  - intros g Hg%lookup_singleton_is_Some. lia.
  - intros g gen' cfg' l [<- <-]%lookup_singleton_Some [_ <-]%lookup_singleton_Some.
    destruct (newRuntimeState_Ok _ _ _ _ l Hn) as (_ & _ & Hcap & Hu). simpl.
    split_and!; [done|done|apply bound_nonneg].
Qed.

(** *** Reachable states *)

Definition reachable (s : system) : Prop :=
  exists opened cfg version now r,
    NewRuntime opened cfg version now = Ok r /\ rtc system_step (r, []) s.

Lemma reachable_inv s : reachable s -> exists cfgs, sys_inv cfgs (fst s) (snd s).
Proof.
  intros (opened & cfg & version & now & r & Hn & Hs). apply inv_init in Hn.
  assert (Hi : exists cfgs, sys_inv cfgs (fst (r, @nil thread)) (snd (r, @nil thread))) by done.
  clear Hn. induction Hs as [|s1 s2 s3 H12 _ IH]; [done|]. apply IH. by eapply inv_step.
Qed.

Lemma remove_one_in x y l : x ∈ remove_one y l -> x ∈ l.
Proof.
  induction l as [|z l IH]; simpl; [done|]. rewrite elem_of_cons.
  destruct (decide (z = y)); [by right|]. rewrite elem_of_cons. naive_solver.
Qed.

Lemma held_locked k h : Key k ∈ held h -> OLock k ∈ h.
Proof.
  induction h as [|o h IH]; [set_solver|]. rewrite elem_of_cons. cbn [held].
  destruct o as [| |g l|g ok|g q ok|k'|k'| | | | | | | | |];
    try (intros Hk; right; by apply IH).
  - destruct ok; [|auto]. intros [Heq|Hk]%elem_of_cons; [done|auto].
  - intros Hk%remove_one_in. auto.
  - intros [Heq|Hk]%elem_of_cons; [left; congruence|auto].
  - intros Hk%remove_one_in. auto.
Qed.

Lemma total_pos x ts : (0 < total x ts)%nat <-> exists t, t ∈ ts /\ x ∈ holds t.
Proof.
  induction ts as [|t ts IH]; [split; [unfold total; simpl; lia|set_solver]|].
  change (total x (t :: ts)) with (occ x (holds t) + total x ts)%nat.
  split.
  - intros Hp. destruct (decide (0 < occ x (holds t))%nat) as [Ho|Ho].
    + apply occ_in in Ho. exists t. split; [set_solver|done].
    + destruct (proj1 IH) as (t' & Ht' & Hx); [lia|]. exists t'. split; [set_solver|done].
  - intros (t' & [->|Ht']%elem_of_cons & Hx); [apply occ_in in Hx; lia|].
    assert (0 < total x ts)%nat by (apply IH; eauto). lia.
Qed.

Lemma reading_now t : reading t t.
Proof. unfold reading. lia. Qed.

(** A call on anything but a lock is always answered. *)
Lemma answered cfgs r ts c k h :
  sys_inv cfgs r ts -> {| th_prog := Vis c k; th_hist := h |} ∈ ts ->
  (forall key, c = Lock key -> key ∉ rt_locks r) -> exists a r', handles r c a r'.
Proof.
  intros Hi Hin Hlock.
  assert (Ht : thread_ok cfgs {| th_prog := Vis c k; th_hist := h |})
    by (eapply Forall_forall; [apply Hi|done]).
  destruct Ht as [[Hg _] [Ho _] Hl]. cbn [th_prog th_hist] in *.
  assert (Hgen : forall g, loaded h g -> exists gen, rt_generations r !! g = Some gen).
  { intros g (st & Hst & <-). apply (si_known _ _ _ Hi). eexists. by apply Hl. }
  assert (Hpos : forall x, x ∈ held h -> (0 < total x ts)%nat)
    by (intros x Hx; apply total_pos; eauto).
  destruct c as [|g l|g l|g|g q|key|key| |n|state at_ now|state now|o|q|e|e|w s b];
    cbn [orderly gives_back] in *.
  - do 2 eexists. apply h_load.
  - destruct (Hgen g Ho) as [gen Hgn]. destruct (acquire_limit (gn_limits gen) l) as [ok ls] eqn:Ha.
    do 2 eexists. by eapply h_acquire.
  - apply Hpos in Hg. destruct (rt_generations r !! g) as [gen|] eqn:Hgn.
    2: { rewrite (si_unused _ _ _ Hi) in Hg by done. lia. }
    destruct (proj2 (si_known _ _ _ Hi g)) as [cfg Hcfg]; [by eexists|].
    destruct (si_slots _ _ _ Hi g gen cfg l Hgn Hcfg) as (Hu & _).
    destruct (release_limit_total (gn_limits gen) l) as [ls Hls]; [lia|].
    do 2 eexists. by eapply h_release.
  - destruct (Hgen g Ho) as [gen Hgn]. do 2 eexists. by eapply h_version.
  - destruct (Hgen g Ho) as [gen Hgn].
    destruct (allow_rate (gn_limits gen) (rt_clock r) q) as [ok ls] eqn:Ha.
    do 2 eexists. eapply (h_allow _ _ _ _ (rt_clock r)); [done|lia|apply reading_now|done].
  - do 2 eexists. apply h_lock. by apply Hlock.
  - apply Hpos in Hg. rewrite (si_locks _ _ _ Hi) in Hg. do 2 eexists. apply h_unlock.
    case_decide; [done|lia].
  - do 2 eexists. apply (h_now _ (rt_clock r)). done.
  - exists None. eexists. apply h_random.
  - destruct (put (rt_panelOAuth r) state at_ now) as [ok s] eqn:Hp. do 2 eexists. by apply h_put.
  - destruct (OAuthStore.take (rt_panelOAuth r) state now) as [a s] eqn:Hp.
    do 2 eexists. by apply h_take.
  - exists (Err ""). eexists. apply h_upstream.
  - exists (Err ""). eexists. apply h_fetch.
  - do 2 eexists. apply h_emit.
  - do 2 eexists. eapply (h_notify _ _ (rt_clock r)); [lia|apply reading_now].
  - do 2 eexists. apply h_write.
Qed.

Lemma waits_or_not c (locks : gset string) :
  (exists key, c = Lock key /\ key ∈ locks) \/ (forall key, c = Lock key -> key ∉ locks).
Proof.
  destruct c as [| | | | |key| | | | | | | | | |]; try (right; discriminate).
  destruct (decide (key ∈ locks)); [left; eauto|right; naive_solver].
Qed.

Lemma can_step r ts c k h a r' :
  {| th_prog := Vis c k; th_hist := h |} ∈ ts -> handles r c a r' -> exists s, call_step (r, ts) s.
Proof.
  intros (l1 & l2 & ->)%list_elem_of_split Hh. eexists. by apply one_call.
Qed.

(** ** Properties *)

(** C6: the configured limits bound the requests in flight.  In every reachable
    state, under any interleaving of requests, reloads and version changes, the
    requests holding a slot of one semaphore of a configuration -- its global
    one, that of a token, that of a subscriber's address -- are at most as many
    as that configuration allows. *)
Theorem requests_in_flight_bounded r ts t st l :
  reachable (r, ts) -> t ∈ ts -> OLoad st ∈ th_hist t ->
  Z.of_nat (total (Slot (rs_generation st) l) ts) <= bound_of (rs_cfg st) l.
Proof.
  intros [cfgs Hi]%reachable_inv Ht Hst. cbn [fst snd] in Hi.
  assert (Hok : thread_ok cfgs t) by (eapply Forall_forall; [apply Hi|done]).
  pose proof (to_loaded _ _ Hok st Hst) as Hcfg.
  destruct (proj1 (si_known _ _ _ Hi (rs_generation st))) as [gen Hg]; [by eexists|].
  by destruct (si_slots _ _ _ Hi _ gen _ l Hg Hcfg) as (_ & _ & Hle).
Qed.

(** A resource lock has one holder.  In every reachable state no two
    requests hold the same lock, so the restricted writes on one resource, with
    the ownership reads around them, never overlap. *)
Theorem locks_exclusive r l1 t1 l2 t2 l3 k :
  reachable (r, l1 ++ t1 :: l2 ++ t2 :: l3) -> Key k ∈ holds t1 -> Key k ∉ holds t2.
Proof.
  intros [cfgs Hi]%reachable_inv H1' H2'. cbn [fst snd] in Hi.
  pose proof (si_locks _ _ _ Hi k) as Hk. revert Hk.
  rewrite total_split, (app_assoc l1 l2), total_split. apply occ_in in H1', H2'.
  case_decide; lia.
Qed.

(** What is answered can be answered while the clock stands still. *)
Lemma handles_at_once r c a r' :
  handles r c a r' -> exists a1 r1, handles r c a1 r1 /\ rt_clock r1 = rt_clock r.
Proof.
  intros Hh. pose proof Hh as Hh'. destruct Hh.
  5: { destruct (allow_rate (gn_limits gen) (rt_clock r) k) as [ok1 ls1] eqn:Ha.
       do 2 eexists. split; [eapply (h_allow _ _ _ _ (rt_clock r)); [done|lia|apply reading_now|done]|done]. }
  7: { do 2 eexists. split; [by apply (h_now _ (rt_clock r))|done]. }
  13: { do 2 eexists. split; [by eapply (h_notify _ _ (rt_clock r)); [|apply reading_now]|done]. }
  all: do 2 eexists; (split; [exact Hh'|done]).
Qed.

(** A state in which some request has not been answered: some request moves on. *)
Lemma inv_progress cfgs r ts t :
  sys_inv cfgs r ts -> t ∈ ts -> (forall o, th_prog t <> Ret o) -> exists s, call_step (r, ts) s.
Proof.
  intros Hi Ht Hun.
  destruct t as [[o|c k] h]; cbn [th_prog] in Hun; [by destruct (Hun o)|].
  destruct (waits_or_not c (rt_locks r)) as [(key & -> & Hkey)|Hfree].
  2: { destruct (answered _ _ _ _ _ _ Hi Ht Hfree) as (a & r' & Hh). by eapply can_step. }
  pose proof (si_locks _ _ _ Hi key) as Hk. rewrite decide_True in Hk by done.
  destruct (proj1 (total_pos (Key key) ts)) as (t' & Ht' & Hh'); [lia|].
  assert (Hok : thread_ok cfgs t') by (eapply Forall_forall; [apply Hi|done]).
  destruct t' as [[o|c' k'] h'].
  { pose proof (to_balanced _ _ Hok) as Hz. cbn [th_prog th_hist wp] in Hz.
    unfold holds in Hh'. cbn [th_hist] in Hh'. rewrite Hz in Hh'. set_solver. }
  destruct (answered _ _ _ _ _ _ Hi Ht') as (a & r' & Hh); [|by eapply can_step].
  intros key' ->. pose proof (to_orderly _ _ Hok) as [Hlf _]. cbn [th_prog th_hist orderly] in Hlf.
  apply held_locked in Hh'. by apply Hlf in Hh'.
Qed.

(** The gateway never deadlocks.  In every reachable state in which some
    request has not been answered, some request can make its next call: a request
    that waits for a lock waits for one that does not wait. *)
Theorem no_deadlock r ts t :
  reachable (r, ts) -> t ∈ ts -> (forall o, th_prog t <> Ret o) ->
  exists s, call_step (r, ts) s.
Proof. intros [cfgs Hi]%reachable_inv. by apply (inv_progress cfgs). Qed.
End system.

(** ** Running the system *)

Section running.
Context `{Unicode} `{Host} `{Regexps} `{NetParsers} `{NetFiles} `{RequestURLs} `{Scheduling}.
Context (VerifyPKCS1v15 : PublicKey -> string -> string -> bool).
Context (upstream : OutRequest -> res Reply).

(** The answer of the runtime to a call, with the clock standing still and
    nothing random; [None] when the call blocks. *)
Definition respond (r : Runtime) (c : call) : option (answer c * Runtime) :=
  match c return option (answer c * Runtime) with
  | Load => Some (rt_state r, r)
  | Acquire g l =>
      match rt_generations r !! g with
      | None => None
      | Some gen => let '(ok, ls) := acquire_limit (gn_limits gen) l in
                    Some (ok, set_limits r g gen ls)
      end
  | Release g l =>
      match rt_generations r !! g with
      | None => None
      | Some gen => option_map (fun ls => ((), set_limits r g gen ls))
                      (release_limit (gn_limits gen) l)
      end
  | VersionOK g => option_map (fun gen => (gn_versionOK gen, r)) (rt_generations r !! g)
  | Allow g k =>
      match rt_generations r !! g with
      | None => None
      | Some gen => let '(ok, ls) := allow_rate (gn_limits gen) (rt_clock r) k in
                    Some (ok, set_clock (set_limits r g gen ls) (rt_clock r))
      end
  | Lock k => if decide (k ∈ rt_locks r) then None
              else Some ((), set_locks r ({[k]} ∪ rt_locks r))
  | Unlock k => if decide (k ∈ rt_locks r) then Some ((), set_locks r (rt_locks r ∖ {[k]}))
                else None
  | Now => Some (rt_clock r, set_clock r (rt_clock r))
  | Random _ => Some (None, r)
  | PutAttempt state a now => let '(ok, s) := put (rt_panelOAuth r) state a now in
                              Some (ok, set_oauth r s)
  | TakeAttempt state now => let '(a, s) := OAuthStore.take (rt_panelOAuth r) state now in
                             Some (a, set_oauth r s)
  | Upstream o => Some (upstream o, r)
  | Fetch _ => Some (Err "unreachable", r)
  | Effects.Emit _ => Some ((), r)
  | Effects.Notify e =>
      Some ((), set_alerts (set_clock r (rt_clock r)) (Alerts.Notify (rt_clock r) (rt_alerts r) e))
  | Write _ _ _ => Some ((), r)
  end.

Lemma respond_handles r c a r' : respond r c = Some (a, r') -> handles r c a r'.
Proof.
  destruct c as [|g l|g l|g|g q|k|k| |n|state at_ now|state now|o|q|e|e|w s b];
    cbn [respond]; intros Hr.
  - injection Hr as <- <-. apply h_load.
  - destruct (_ !! g) as [gen|] eqn:Hg; [|done].
    destruct (acquire_limit _ _) as [ok ls] eqn:Ha. injection Hr as <- <-. by apply h_acquire.
  - destruct (_ !! g) as [gen|] eqn:Hg; [|done].
    destruct (release_limit _ _) as [ls|] eqn:Ha; [|done]. destruct a. injection Hr as <-.
    by apply (h_release _ _ l).
  - destruct (_ !! g) as [gen|] eqn:Hg; [|done]. injection Hr as <- <-. by apply h_version.
  - destruct (_ !! g) as [gen|] eqn:Hg; [|done].
    destruct (allow_rate _ _ _) as [ok ls] eqn:Ha. injection Hr as <- <-.
    apply (h_allow _ _ _ _ (rt_clock r) (rt_clock r)); [done|lia|apply reading_now|done].
  - case_decide; [done|]. destruct a. injection Hr as <-. by apply h_lock.
  - case_decide; [|done]. destruct a. injection Hr as <-. by apply h_unlock.
  - injection Hr as <- <-. by apply h_now.
  - injection Hr as <- <-. apply h_random.
  - destruct (put _ _ _ _) as [ok s] eqn:Hp. injection Hr as <- <-. by apply h_put.
  - destruct (OAuthStore.take _ _ _) as [x s] eqn:Hp. injection Hr as <- <-. by apply h_take.
  - injection Hr as <- <-. apply h_upstream.
  - injection Hr as <- <-. apply h_fetch.
  - destruct a. injection Hr as <-. apply h_emit.
  - destruct a. injection Hr as <-. apply h_notify; [lia|apply reading_now].
  - destruct a. injection Hr as <-. apply h_write.
Qed.

(** At most [n] calls of the thread at position [i]. *)
Fixpoint advance (n i : nat) (s : system) : system :=
  match n with
  | O => s
  | S n' =>
      match snd s !! i with
      | Some {| th_prog := Vis c k; th_hist := h |} =>
          match respond (fst s) c with
          | Some (a, r') =>
              advance n' i (r', firstn i (snd s) ++
                {| th_prog := k a; th_hist := observe c a :: h |} :: skipn (S i) (snd s))
          | None => s
          end
      | _ => s
      end
  end.

Lemma advance_steps n i s : rtc (system_step VerifyPKCS1v15) s (advance n i s).
Proof.
  revert s. induction n as [|n IH]; intros [r ts]; cbn [advance fst snd]; [done|].
  destruct (ts !! i) as [[[o|c k] h]|] eqn:Ht; [done| |done].
  destruct (respond r c) as [[a r']|] eqn:Hr; [|done].
  eapply rtc_l; [|apply IH]. apply calls.
  rewrite <- (take_drop_middle ts i _ Ht) at 1. apply one_call. by apply respond_handles.
Qed.

(** A request arrives and makes its first [n] calls. *)
Definition serve_some (n : nat) (w : Header) (req : Request) (s : system) : system :=
  advance n (length (snd s))
    (fst s, snd s ++ [{| th_prog := apiHandler VerifyPKCS1v15 w req; th_hist := [] |}]).

Lemma serve_some_reachable n w req s :
  reachable VerifyPKCS1v15 s -> reachable VerifyPKCS1v15 (serve_some n w req s).
Proof.
  intros (o & c & v & t & r & Hn & Hs). exists o, c, v, t, r. split; [done|].
  etransitivity; [exact Hs|]. eapply rtc_l; [|apply advance_steps].
  destruct s as [r' ts]. apply arrives.
Qed.
End running.

(** ** Witnesses: two actions on one user

    The first request is answered its ownership read while it holds the lock;
    the second one waits for the lock. *)

Definition versioned_config : Config :=
  let d := gateway_config in
  Build_Config (cfg_Server d) (cfg_Upstream d)
    {| comp_RemnawaveVersion := "2.8.1"; comp_AssumeVersion := "2.8.1";
       comp_AllowVersionMismatch := false |} (cfg_Limits d)
    (cfg_Metrics d) (cfg_Audit d) (cfg_Alerts d) (cfg_Report d) (cfg_PublicSubs d)
    (cfg_PanelFacade d) (cfg_Reload d) (cfg_WriteSafety d) (cfg_Tokens d) [] "".

(** A goroutine is at most a microsecond on its way to a mutex. *)
#[export] Instance example_scheduling : Scheduling := {| max_lag := 1000 |}.

(** A log to the standard output. *)
Definition example_log : Logger := {| lg_stdout := true; lg_pepper := ""; lg_db := None |}.

Definition example_start : res Runtime := NewRuntime (Ok example_log) versioned_config "dev" 0.

Definition example_runtime : Runtime :=
  match example_start with
  | Ok r => r
  | Err _ => {| rt_state := gateway_state; rt_generations := ∅; rt_version := "";
                rt_audit := example_log;
                rt_alerts := NewManager (cfg_Alerts versioned_config); rt_metrics := NewRegistry;
                rt_locks := ∅; rt_panelOAuth := newPanelOAuthStore 1; rt_nextGen := 0;
                rt_clock := 0 |}
  end.

Definition example_upstream_reply (o : OutRequest) : res Reply :=
  Ok {| rep_StatusCode := 200; rep_Header := ∅; rep_Body := Ok user_body |}.

Definition two_requests : system :=
  serve_some example_pkcs example_upstream_reply 20 ∅ disable_request
    (serve_some example_pkcs example_upstream_reply 8 ∅ disable_request (example_runtime, [])).

Definition idle : thread := {| th_prog := Ret Returned; th_hist := [] |}.
Definition first_request : thread := default idle (snd two_requests !! 0%nat).
Definition second_request : thread := default idle (snd two_requests !! 1%nat).

Lemma two_requests_reachable : reachable example_pkcs two_requests.
Proof.
  do 2 apply serve_some_reachable.
  exists (Ok example_log), versioned_config, "dev", 0, example_runtime. split; [|done].
  vm_compute. reflexivity.
Qed.

Definition disable_key : string := "user.actions.disable:" +:+ disable_target.

Lemma two_threads : snd two_requests = [] ++ first_request :: [] ++ second_request :: [].
Proof.
  assert (Hl : length (snd two_requests) = 2%nat) by (vm_compute; reflexivity).
  unfold first_request, second_request. by destruct (snd two_requests) as [|a [|b [|]]].
Qed.

Lemma locks_exclusive_witness :
  Key disable_key ∈ holds first_request /\ Key disable_key ∉ holds second_request.
Proof.
  assert (Hk : Key disable_key ∈ holds first_request).
  { apply occ_in. vm_compute. lia. }
  split; [exact Hk|].
  apply (locks_exclusive example_pkcs (fst two_requests) [] first_request [] second_request []);
    [|exact Hk].
  rewrite <- two_threads, <- surjective_pairing. exact two_requests_reachable.
Defined.

Lemma second_waits :
  match th_prog second_request with Vis (Lock key) _ => key = disable_key | _ => False end.
Proof. vm_compute. reflexivity. Qed.

Lemma no_deadlock_witness : exists s, call_step two_requests s.
Proof.
  rewrite (surjective_pairing two_requests).
  apply (no_deadlock example_pkcs (fst two_requests) (snd two_requests) second_request).
  - rewrite <- surjective_pairing. exact two_requests_reachable.
  - rewrite two_threads. set_solver.
  - intros o Ho. pose proof second_waits as Hw. by rewrite Ho in Hw.
Defined.

Lemma requests_in_flight_bounded_witness :
  Z.of_nat (total (Slot 1 (LToken "acme")) (snd two_requests)) <=
    bound_of versioned_config (LToken "acme") /\
  total (Slot 1 (LToken "acme")) (snd two_requests) = 2%nat.
Proof.
  split; [|vm_compute; reflexivity].
  apply (requests_in_flight_bounded example_pkcs (fst two_requests) (snd two_requests)
    first_request (rt_state example_runtime) (LToken "acme")).
  - rewrite <- surjective_pairing. exact two_requests_reachable.
  - rewrite two_threads. apply list_elem_of_here.
  - vm_compute. in_list.
Defined.
