(* ===== verification/Cmd.v ===== *)
(** * cmd/remnaguard: the commands that edit token files

    Options are taken as parsed.  A command runs against a file system: the
    files by name, with an operating system that may refuse any operation.  What
    a command prints is the list of its lines. *)

From S2P Require Import Prelude GoStrings Encoding Sha256 Ratelimit GoTime Config Routes OpenAPI Auth Policy.
From S2P Require Import Proxy AuditLog Effects Runtime.
From stdpp Require Import options.

Local Open Scope Z_scope.

(** ** path/filepath *)

(** [Clean]: the elements of the path, last first. *)
Definition clean_element (rooted : bool) (stack : list string) (e : string) : list string :=
  if (e =s? "") || (e =s? ".") then stack
  else if e =s? ".." then
    match stack with
    | [] => if rooted then [] else [".."]
    | top :: rest => if top =s? ".." then ".." :: stack else rest
    end
  else e :: stack.

Definition filepath_Clean (path : string) : string :=
  let rooted := HasPrefix path "/" in
  let body := Join (rev (fold_left (clean_element rooted) (Split "/" path) [])) "/" in
  if rooted then "/" +:+ body else if body =s? "" then "." else body.

(** The path up to its last separator. *)
Definition dir_part (path : string) : string :=
  match Cut "/" (rev_str path) with
  | (_, rest, true) => rev_str rest +:+ "/"
  | _ => ""
  end.

Definition filepath_Dir (path : string) : string := filepath_Clean (dir_part path).

Fixpoint filepath_Join (elems : list string) : string :=
  match elems with
  | [] => ""
  | "" :: rest => filepath_Join rest
  | _ => filepath_Clean (Join elems "/")
  end.

Example filepath_ex :
  (filepath_Dir "/etc/guard/remnaguard.yaml", filepath_Dir "remnaguard.yaml",
   filepath_Join ["/etc/guard"; "tokens.d"; "../x.yaml"], filepath_Dir "a/../../b/c")
  = ("/etc/guard", ".", "/etc/guard/x.yaml", "../b").
Proof. reflexivity. Qed.

(** ** Files *)

Inductive fsop :=
  | OMkdirAll (dir : string)
  | OStat (path : string)
  | ORead (path : string)
  | OWriteFile (path : string)
  | OCreateTemp (dir : string)
  | OTempChmod
  | OTempWrite
  | OTempSync
  | OTempClose
  | ORename (from to : string)
  | ORemove (path : string).

(** The operating system: whether it refuses an operation, how much of a refused
    write reaches the file, the name it gives a temporary file, and the files
    that match a pattern in a directory. *)
Class OS := {
  os_refuses : FS -> fsop -> bool;
  os_partial : FS -> fsop -> nat;
  os_TempName : FS -> string -> string;
  os_Glob : FS -> string -> string -> res (list string);
}.

(** [yaml.Marshal] of a token document. *)
Class YamlOut := { yaml_Marshal : list TokenPolicy -> res string }.

Definition io (A : Type) : Type := FS -> FS * res A.

Definition io_ret {A} (a : A) : io A := fun fs => (fs, Ok a).
Definition io_fail {A} (e : string) : io A := fun fs => (fs, Err e).
Definition io_of {A} (r : res A) : io A := fun fs => (fs, r).
Definition io_bind {A B} (p : io A) (f : A -> io B) : io B :=
  fun fs => match p fs with
            | (fs', Ok a) => f a fs'
            | (fs', Err e) => (fs', Err e)
            end.

Notation "'io!' x := p 'in' k" := (io_bind p (fun x => k))
  (at level 10, x name, p at level 200, k at level 200) : go_scope.
Notation "'seq!' p 'then' k" := (io_bind p (fun _ => k))
  (at level 10, p at level 200, k at level 200) : go_scope.

Section cmd.
Context `{Unicode} `{Host} `{Regexps} `{NetParsers} `{OS} `{YamlOut}.
Context `{Yc : Yaml Config} `{Yt : Yaml (list TokenPolicy)}.

Definition io_error : string := "input/output error".

Definition try_op (o : fsop) (effect : FS -> FS) : io () :=
  fun fs => if os_refuses fs o then (fs, Err io_error) else (effect fs, Ok ()).

(** A refused write leaves a prefix behind. *)
Definition write_op (o : fsop) (path data : string) : io () :=
  fun fs =>
    let perm := match fs !! path with Some f => f_perm f | None => 384 end in   (* 0600 *)
    let put d := <[path := {| f_data := d; f_perm := perm |}]> fs in
    if os_refuses fs o then (put (take_str (os_partial fs o) data), Err io_error)
    else (put data, Ok ()).

(** [None]: the file does not exist. *)
Definition read_op (path : string) : io (option string) :=
  fun fs => match fs !! path with
            | None => (fs, Ok None)
            | Some f => if os_refuses fs (ORead path) then (fs, Err io_error)
                        else (fs, Ok (Some (f_data f)))
            end.

Definition rename_files (from to : string) (fs : FS) : FS :=
  match fs !! from with
  | Some f => <[to := f]> (delete from fs)
  | None => fs
  end.

(** The configuration is read from the same files. *)
Definition fs_host (fs : FS) : Host := {|
  Getenv := Getenv;
  ReadFile := fun path => match fs !! path with
                          | Some f => if os_refuses fs (ORead path) then Err io_error
                                      else Ok (f_data f)
                          | None => Err "no such file or directory"
                          end;
  StatPerm := fun path => match fs !! path with
                          | Some f => if os_refuses fs (OStat path) then Err io_error
                                      else Ok (f_perm f)
                          | None => Err "no such file or directory"
                          end;
  Glob := os_Glob fs |}.

Definition LoadConfig (cfgPath : string) (fs : FS) : res Config :=
  @Config.Load _ (fs_host fs) _ _ _ filepath_Dir cfgPath.

(** ** Token documents *)

Definition readTokenFile (path : string) : io (list TokenPolicy) :=
  io! b := read_op path in
  match b with
  | None => io_ret []
  | Some b => io_of (yaml_Unmarshal b [])
  end.

(** [findTokenDoc]: the position of the first token with this id. *)
Fixpoint findTokenDoc (tokens : list TokenPolicy) (id : string) : option nat :=
  match tokens with
  | [] => None
  | t :: rest => if tok_ID t =s? id then Some 0%nat else option_map S (findTokenDoc rest id)
  end.

Definition tokenFile (cfgPath explicit tokenID : string) : string :=
  if explicit <>s? "" then explicit
  else filepath_Join [filepath_Dir cfgPath; "tokens.d"; tokenID +:+ ".yaml"].

(** The first candidate that holds the token, and the token's position in it. *)
Fixpoint find_candidate (candidates seen : list string) (tokenID : string)
    : io (list TokenPolicy * string * nat) :=
  match candidates with
  | [] => io_fail ("token " +:+ strconv_quote tokenID +:+ " not found")
  | path :: rest =>
      if contains_str seen path then find_candidate rest seen tokenID else
      io! doc := readTokenFile path in
      match findTokenDoc doc tokenID with
      | Some i => io_ret (doc, path, i)
      | None => find_candidate rest (path :: seen) tokenID
      end
  end.

Definition loadTokenDocForEdit (cfgPath explicit tokenID : string)
    : io (list TokenPolicy * string * nat) :=
  fun fs =>
    let candidates :=
      if explicit <>s? "" then [explicit]
      else tokenFile cfgPath "" tokenID ::
           match os_Glob fs (filepath_Join [filepath_Dir cfgPath; "tokens.d"]) "*.yaml" with
           | Ok matches => matches
           | Err _ => []
           end in
    find_candidate candidates [] tokenID fs.

(** ** Writing *)

Definition backup_name (path : string) (now : Z) : string :=
  path +:+ "." +:+ FormatCompact now +:+ ".bak".

(** The copy of the file that is there, if one is: its name, or empty. *)
Definition make_backup (path : string) (now : Z) : io string :=
  fun fs =>
    match fs !! path with
    | Some _ =>
        if os_refuses fs (OStat path) then (fs, Ok "") else
        let backup := backup_name path now in
        (io! b := read_op path in
         seq! write_op (OWriteFile backup) backup (default "" b) then io_ret backup) fs
    | None => (fs, Ok "")
    end.

(** The temporary file, from its creation to its renaming. *)
Definition replace_file (tmpName path data : string) : io () :=
  seq! try_op OTempChmod (alter (fun f => {| f_data := f_data f; f_perm := 384 |}) tmpName) then
  seq! write_op OTempWrite tmpName data then
  seq! try_op OTempSync id then
  seq! try_op OTempClose id then
  try_op (ORename tmpName path) (rename_files tmpName path).

(** The renaming and what follows it: a configuration that does not load any more
    gets its file back. *)
Definition validate_edit (path backup cfgPath : string) : io () :=
  fun fs =>
    match LoadConfig cfgPath fs with
    | Ok _ => (fs, Ok ())
    | Err e =>
        let fs := if backup <>s? ""
                  then fst (try_op (ORename backup path) (rename_files backup path) fs)
                  else fs in
        (fs, Err ("validation failed after token edit: " +:+ e))
    end.

Definition writeTokenFileWithValidation (now : Z) (path : string) (doc : list TokenPolicy)
    (cfgPath : string) : io () :=
  seq! try_op (OMkdirAll (filepath_Dir path)) id then
  io! backup := make_backup path now in
  io! b := io_of (yaml_Marshal doc) in
  fun fs =>
    let dir := filepath_Dir path in
    let tmpName := os_TempName fs dir in
    if os_refuses fs (OCreateTemp dir) then (fs, Err io_error) else
    let fs := <[tmpName := {| f_data := ""; f_perm := 384 |}]> fs in
    let '(fs, r) := (seq! replace_file tmpName path b then validate_edit path backup cfgPath) fs in
    (* the deferred os.Remove *)
    (fst (try_op (ORemove tmpName) (delete tmpName) fs), r).

(** ** Commands *)

(** The raw secret, the token and its digest, from the random bytes drawn. *)
Definition makeCredential (credID : string) (random : option string)
    : res (string * string * string) :=
  let pepper := Getenv "REMNAGUARD_TOKEN_PEPPER" in
  if pepper =s? "" then Err "REMNAGUARD_TOKEN_PEPPER is required" else
  match random with
  | None => Err "no random bytes"
  | Some secret =>
      let rawSecret := Base64.EncodeToString secret in
      Ok (secret, "rg_" +:+ credID +:+ "." +:+ rawSecret, Digest rawSecret pepper)
  end.

Definition splitCSV (s : string) : list string :=
  List.filter (fun part => part <>s? "") (map TrimSpace (Split "," s)).

Definition set_credentials (f : list Credential -> list Credential) (t : TokenPolicy)
    : TokenPolicy := {|
  tok_ID := tok_ID t; tok_Disabled := tok_Disabled t; tok_Credentials := f (tok_Credentials t);
  tok_Scopes := tok_Scopes t; tok_Constraints := tok_Constraints t |}.

Definition zero_constraints : Constraints :=
  Build_Constraints "" "" "" "" "" [] [] [] [] [] [] [] [] false false false
    [] [] [] [] 0 false 0 ∅.

Definition new_credential (credID digest : string) : Credential :=
  {| cred_ID := credID; cred_HMACSHA256 := digest; cred_Disabled := false |}.

(** [token add] *)
Definition token_add (now : Z) (random : option string)
    (cfgPath tokenID credID scopes tokensFile : string) : io (list string) :=
  if tokenID =s? "" then io_fail "--id is required" else
  io! c := io_of (makeCredential credID random) in
  let '(_, rawToken, digest) := c in
  let file := tokenFile cfgPath tokensFile tokenID in
  io! doc := readTokenFile file in
  match findTokenDoc doc tokenID with
  | Some _ => io_fail ("token " +:+ strconv_quote tokenID +:+ " already exists in " +:+ file)
  | None =>
      let tok := {| tok_ID := tokenID; tok_Disabled := false;
                    tok_Credentials := [new_credential credID digest];
                    tok_Scopes := splitCSV scopes; tok_Constraints := zero_constraints |} in
      seq! writeTokenFileWithValidation now file (doc ++ [tok]) cfgPath then
      io_ret ["token: " +:+ rawToken]
  end.

(** [token rotate] *)
Definition token_rotate (now : Z) (random : option string)
    (cfgPath tokenID credID tokensFile : string) : io (list string) :=
  if tokenID =s? "" then io_fail "--id is required" else
  io! found := loadTokenDocForEdit cfgPath tokensFile tokenID in
  let '(doc, path, i) := found in
  io! c := io_of (makeCredential credID random) in
  let '(_, rawToken, digest) := c in
  let edit := set_credentials (fun creds => creds ++ [new_credential credID digest]) in
  seq! writeTokenFileWithValidation now path (alter edit i doc) cfgPath then
  io_ret ["token: " +:+ rawToken].

Definition disable_credential (credID : string) (cr : Credential) : Credential :=
  if cred_ID cr =s? credID
  then {| cred_ID := cred_ID cr; cred_HMACSHA256 := cred_HMACSHA256 cr; cred_Disabled := true |}
  else cr.

(** [token disable] *)
Definition token_disable (now : Z) (cfgPath tokenID credID tokensFile : string)
    : io (list string) :=
  if (tokenID =s? "") || (credID =s? "") then io_fail "--id and --credential are required" else
  io! found := loadTokenDocForEdit cfgPath tokensFile tokenID in
  let '(doc, path, i) := found in
  let creds := match doc !! i with Some t => tok_Credentials t | None => [] end in
  if negb (existsb (fun cr => cred_ID cr =s? credID) creds)
  then io_fail ("credential " +:+ strconv_quote credID +:+ " not found") else
  let edit := set_credentials (map (disable_credential credID)) in
  seq! writeTokenFileWithValidation now path (alter edit i doc) cfgPath then io_ret [].

(** [token prune] *)
Definition token_prune (now : Z) (cfgPath tokenID tokensFile : string) : io (list string) :=
  if tokenID =s? "" then io_fail "--id is required" else
  io! found := loadTokenDocForEdit cfgPath tokensFile tokenID in
  let '(doc, path, i) := found in
  let edit := set_credentials (List.filter (fun cr => negb (cred_Disabled cr))) in
  seq! writeTokenFileWithValidation now path (alter edit i doc) cfgPath then io_ret [].

(** [token generate] *)
Definition token_generate (random : option string) (id pepper : string) : res (list string) :=
  match random with
  | None => Err "no random bytes"
  | Some secret =>
      let rawSecret := Base64.EncodeToString secret in
      Ok (("token: rg_" +:+ id +:+ "." +:+ rawSecret) ::
          if pepper <>s? "" then ["hmac_sha256: " +:+ Digest rawSecret pepper] else [])
  end.

(** A field of [%-7s]; the texts of the catalog are ASCII. *)
Definition pad_right (width : nat) (s : string) : string :=
  s +:+ String.concat "" (repeat " " (width - String.length s)).

(** [routes list] *)
Definition routes_list : list string :=
  map (fun r => pad_right 7 (rt_Method r) +:+ " " +:+ pad_right 48 (rt_Pattern r) +:+ " " +:+
                pad_right 20 (rt_Support r) +:+ " " +:+ Join (rt_Scopes r) ",")
    (Catalog "2.8.1").

(** [routes check-openapi]: the result that is printed, and the error that ends
    the command. *)
Definition routes_check (stat_size : string -> res Z) (read : string -> res string)
    (spec : string) (strict : bool) : option OpenAPIResult * res () :=
  match CheckOpenAPI stat_size read spec (Catalog "2.8.1") with
  | Err e => (None, Err e)
  | Ok r => (Some r, if strict && negb (strict_clean r) then Err "route drift detected" else Ok ())
  end.

(** [policy test] *)
Definition policy_test (cfgPath tokenID method path : string) : io (list string) :=
  fun fs =>
    let r :=
      let? cfg := LoadConfig cfgPath fs in
      match FindToken cfg tokenID with
      | None => Err ("token " +:+ strconv_quote tokenID +:+ " not found")
      | Some tok =>
          match Match (Catalog (EffectiveVersion (cfg_Compatibility cfg))) method path with
          | None => Ok ["deny: unknown route"]
          | Some route => Ok [Decision_String (Decide (Some tok) route)]
          end
      end in
    (fs, r).

(** What [serve] does on SIGHUP, with the outcome of loading the configuration. *)
Definition on_sighup `{NetFiles} (r : Runtime) (next : res Config) : Runtime * Entry :=
  let rejected := AuditLog.Emit "reload_rejected" "" "" "" "invalid_config" 0 in
  match next with
  | Err _ => (r, rejected)
  | Ok cfg => match Reload r cfg with
              | (r', Err _) => (r', rejected)
              | (r', Ok _) => (r', AuditLog.Emit "reload_applied" "" "" "" "ok" 0)
              end
  end.

(** [validate] *)
Definition validate (cfgPath : string) : io (list string) :=
  fun fs => (fs, let? _ := LoadConfig cfgPath fs in Ok ["config ok"]).
End cmd.
