(* ===== verification/CmdFacts.v ===== *)
(** * cmd/remnaguard: what an edit of a token file leaves behind

    The edit is committed or rolled back, the token it prints is one the gateway
    accepts, and a configuration that is refused leaves the gateway as it was. *)

From S2P Require Import Prelude GoStrings Encoding Sha256 Ratelimit GoTime Config ConfigFacts.
From S2P Require Import Routes Auth Policy EffectiveRoute Proxy Alerts AuditLog OAuthStore Effects.
From S2P Require Import Runtime Example Cmd.
From stdpp Require Import options.

Local Open Scope Z_scope.

Section cmd_facts.
Context `{Unicode} `{Host} `{Regexps} `{NetParsers} `{OS} `{YamlOut}.
Context `{Yc : Yaml Config} `{Yt : Yaml (list TokenPolicy)}.

(** ** The monad *)

Lemma io_bind_Ok {A B} (p : io A) (f : A -> io B) fs fs' b :
  io_bind p f fs = (fs', Ok b) ->
  exists fs1 a, p fs = (fs1, Ok a) /\ f a fs1 = (fs', Ok b).
Proof. unfold io_bind. destruct (p fs) as [fs1 [a|e]]; [eauto|done]. Qed.

Lemma io_bind_Err {A B} (p : io A) (f : A -> io B) fs fs' e :
  io_bind p f fs = (fs', Err e) ->
  p fs = (fs', Err e) \/ exists fs1 a, p fs = (fs1, Ok a) /\ f a fs1 = (fs', Err e).
Proof.
  unfold io_bind. destruct (p fs) as [fs1 [a|e1]]; [eauto|]. intros [= <- <-]. by left.
Qed.

Lemma try_op_Err o effect fs fs' e : try_op o effect fs = (fs', Err e) -> fs' = fs.
Proof. unfold try_op. destruct (os_refuses fs o); [|done]. congruence. Qed.

Lemma try_op_Ok o effect fs fs' :
  try_op o effect fs = (fs', Ok ()) -> fs' = effect fs.
Proof. unfold try_op. destruct (os_refuses fs o); [done|]. by intros [= <-]. Qed.

Lemma write_op_Ok o path data fs fs' :
  write_op o path data fs = (fs', Ok ()) ->
  fs' = <[path := {| f_data := data;
                     f_perm := match fs !! path with Some f => f_perm f | None => 384 end |}]> fs.
Proof. unfold write_op. destruct (os_refuses fs o); [done|]. by intros [= <-]. Qed.

(** A part that touches no file but those of [ps]. *)
Definition touches {A} (ps : list string) (p : io A) : Prop :=
  forall fs q, q ∉ ps -> fst (p fs) !! q = fs !! q.

Lemma touches_bind {A B} ps (p : io A) (f : A -> io B) :
  touches ps p -> (forall a, touches ps (f a)) -> touches ps (io_bind p f).
Proof.
  intros Hp Hf fs q Hq. unfold io_bind. specialize (Hp fs q Hq).
  destruct (p fs) as [fs1 [a|e]]; cbn [fst] in *; [|done]. rewrite <- Hp. by apply Hf.
Qed.

Lemma touches_try ps o effect :
  (forall fs q, q ∉ ps -> effect fs !! q = fs !! q) -> touches ps (try_op o effect).
Proof. intros He fs q Hq. unfold try_op. destruct (os_refuses fs o); [done|]. by apply He. Qed.

Lemma touches_write ps o path data : path ∈ ps -> touches ps (write_op o path data).
Proof.
  intros Hin fs q Hq. unfold write_op. destruct (os_refuses fs o); cbn [fst];
    apply lookup_insert_ne; by intros ->.
Qed.

Lemma touches_pure {A} ps (r : res A) : touches ps (io_of r).
Proof. by intros fs q Hq. Qed.

Lemma touches_ret {A} ps (a : A) : touches ps (io_ret a).
Proof. by intros fs q Hq. Qed.

Lemma touches_read ps path : touches ps (read_op path).
Proof. intros fs q Hq. unfold read_op. by repeat case_match. Qed.

Lemma touches_incl {A} ps ps' (p : io A) : ps ⊆ ps' -> touches ps p -> touches ps' p.
Proof. intros Hs Hp fs q Hq. apply Hp. intros Hin. by apply Hq, Hs. Qed.

Lemma rename_other from to fs q : q <> from -> q <> to -> rename_files from to fs !! q = fs !! q.
Proof.
  intros Hf Ht. unfold rename_files. destruct (fs !! from); [|done].
  by rewrite lookup_insert_ne, lookup_delete_ne by done.
Qed.

Lemma make_backup_touches path now : touches [backup_name path now] (make_backup path now).
Proof.
  intros fs q Hq. unfold make_backup. destruct (fs !! path); [|done].
  destruct (os_refuses fs (OStat path)); [done|]. cbv zeta. revert q Hq. generalize fs.
  change (touches [backup_name path now] (io! b := read_op path in
    seq! write_op (OWriteFile (backup_name path now)) (backup_name path now) (default "" b)
    then io_ret (backup_name path now))).
  apply touches_bind; [apply touches_read|]. intros b.
  apply touches_bind; [apply touches_write; set_solver|]. intros u. apply touches_ret.
Qed.

(** Up to the renaming only the temporary file changes. *)
Lemma replace_file_fail tmp path data fs fs' e q :
  replace_file tmp path data fs = (fs', Err e) -> q <> tmp -> fs' !! q = fs !! q.
Proof.
  intros Hr Hq.
  assert (Hp : touches [tmp]
    (seq! try_op OTempChmod (alter (fun f => {| f_data := f_data f; f_perm := 384 |}) tmp) then
     seq! write_op OTempWrite tmp data then
     seq! try_op OTempSync id then try_op OTempClose id)).
  { apply touches_bind; [|intros u; apply touches_bind; [|intros u'; apply touches_bind; [|intros u'']]].
    - apply touches_try. intros fs0 q0 Hq0. apply lookup_alter_ne. set_solver.
    - apply touches_write. set_solver.
    - by apply touches_try.
    - by apply touches_try. }
  specialize (Hp fs q ltac:(set_solver)). revert Hr Hp. unfold replace_file, io_bind.
  destruct (try_op OTempChmod _ fs) as [fs1 [[]|]]; [|by intros [= <- <-]].
  destruct (write_op _ _ _ fs1) as [fs2 [[]|]]; [|by intros [= <- <-]].
  destruct (try_op OTempSync _ fs2) as [fs3 [[]|]]; [|by intros [= <- <-]].
  destruct (try_op OTempClose _ fs3) as [fs4 [[]|]]; [|by intros [= <- <-]].
  unfold try_op. destruct (os_refuses fs4 _); [|done]. intros [= <- <-]. done.
Qed.

Lemma replace_file_Ok tmp path data fs fs' :
  is_Some (fs !! tmp) -> tmp <> path -> replace_file tmp path data fs = (fs', Ok ()) ->
  fs' !! path = Some {| f_data := data; f_perm := 384 |} /\ fs' !! tmp = None /\
  forall q, q <> tmp -> q <> path -> fs' !! q = fs !! q.
Proof.
  intros [f Hf] Hne Hr. unfold replace_file in Hr.
  apply io_bind_Ok in Hr as (fs1 & [] & Hc%try_op_Ok & Hr).
  apply io_bind_Ok in Hr as (fs2 & [] & Hw%write_op_Ok & Hr).
  apply io_bind_Ok in Hr as (fs3 & [] & Hs%try_op_Ok & Hr).
  apply io_bind_Ok in Hr as (fs4 & [] & Hcl%try_op_Ok & Hr%try_op_Ok).
  cbn [id] in Hs, Hcl. subst fs4 fs3 fs1.
  rewrite lookup_alter_eq, Hf in Hw. cbn [fmap option_fmap option_map f_perm] in Hw. subst fs2 fs'.
  unfold rename_files. rewrite lookup_insert_eq. split_and!.
  - apply lookup_insert_eq.
  - by rewrite lookup_insert_ne, lookup_delete_eq.
  - intros q Hq1 Hq2. by rewrite lookup_insert_ne, lookup_delete_ne, lookup_insert_ne, lookup_alter_ne.
Qed.

Lemma backup_ne path now : backup_name path now <> path.
Proof.
  unfold backup_name. intros Heq%(f_equal String.length). rewrite !str_length_app in Heq.
  simpl in Heq. lia.
Qed.

Lemma backup_nonempty path now : (backup_name path now <>s? "") = true.
Proof.
  apply is_nonempty. intros Heq%(f_equal String.length). unfold backup_name in Heq.
  rewrite !str_length_app in Heq. simpl in Heq. lia.
Qed.

(** The copy of a file that is there, if the system lets it be inspected. *)
Lemma make_backup_cases path now fs fs' backup f :
  fs !! path = Some f -> make_backup path now fs = (fs', Ok backup) ->
  fs' !! path = Some f /\
  (backup = "" /\ os_refuses fs (OStat path) = true \/
   backup = backup_name path now /\
   exists perm, fs' !! backup = Some {| f_data := f_data f; f_perm := perm |}).
Proof.
  intros Hf Hb. pose proof (make_backup_touches path now fs path) as Ht.
  rewrite Hb in Ht. cbn [fst] in Ht. rewrite Ht, Hf.
  2: { intros Heq%list_elem_of_singleton. by apply (backup_ne path now). }
  split; [done|]. unfold make_backup in Hb. rewrite Hf in Hb.
  destruct (os_refuses fs (OStat path)) eqn:Hst; [injection Hb as _ <-; by left|right].
  apply io_bind_Ok in Hb as (fs1 & b & Hr & Hb). unfold read_op in Hr. rewrite Hf in Hr.
  destruct (os_refuses fs (ORead path)); [done|]. injection Hr as <- <-.
  apply io_bind_Ok in Hb as (fs2 & [] & Hw%write_op_Ok & [= <- <-]). subst fs2.
  split; [done|]. cbn [default]. eexists. apply lookup_insert_eq.
Qed.

(** A configuration that does not load: the backup goes back, unless there is none
    or the system refuses. *)
Lemma validate_edit_Err path backup cfgPath fs fs' e :
  validate_edit path backup cfgPath fs = (fs', Err e) ->
  HasPrefix e "validation failed after token edit: " = true /\
  (fs' = fs /\ (backup = "" \/ os_refuses fs (ORename backup path) = true) \/
   backup <> "" /\ fs' = rename_files backup path fs).
Proof.
  unfold validate_edit. destruct (LoadConfig cfgPath fs) as [cfg|e2]; [done|].
  intros [= <- <-]. split; [apply HasPrefix_spec; by exists e2|].
  destruct (String.eqb_spec backup "") as [->|Hne]; [by left; split; [|left]|]. cbn [negb].
  unfold try_op. destruct (os_refuses fs _); [left; auto|by right].
Qed.

(** The deferred removal. *)
Lemma remove_other tmp fs q : q <> tmp ->
  fst (try_op (ORemove tmp) (delete tmp) fs) !! q = fs !! q.
Proof.
  intros Hq. unfold try_op. destruct (os_refuses fs _); [done|]. cbn [fst].
  by apply lookup_delete_ne.
Qed.

Lemma remove_absent tmp fs : fs !! tmp = None ->
  fst (try_op (ORemove tmp) (delete tmp) fs) = fs.
Proof.
  intros Hn. unfold try_op. destruct (os_refuses fs _); [done|]. cbn [fst].
  by apply delete_id.
Qed.

(** What a successful edit leaves behind; the name of the temporary file is its
    own. *)
Lemma edit_Ok now path doc cfgPath fs fs' :
  (forall fs1, fs1 !! path = fs !! path -> os_TempName fs1 (filepath_Dir path) <> path) ->
  writeTokenFileWithValidation now path doc cfgPath fs = (fs', Ok ()) ->
  exists b cfg tmp,
    yaml_Marshal doc = Ok b /\ fs' !! path = Some {| f_data := b; f_perm := 384 |} /\
    LoadConfig cfgPath fs' = Ok cfg /\ fs' !! tmp = None /\
    forall q, q <> path -> q <> tmp -> q <> backup_name path now -> fs' !! q = fs !! q.
Proof.
  intros Htmp Hw. unfold writeTokenFileWithValidation in Hw.
  apply io_bind_Ok in Hw as (fs0 & [] & Hm%try_op_Ok & Hw). cbn [id] in Hm. subst fs0.
  apply io_bind_Ok in Hw as (fs1 & backup & Hb & Hw).
  apply io_bind_Ok in Hw as (fs2 & b & Hy & Hw). unfold io_of in Hy. injection Hy as <- Hy.
  cbv zeta in Hw.
  set (tmp := os_TempName fs1 (filepath_Dir path)) in *.
  destruct (os_refuses fs1 _); [done|].
  destruct (io_bind _ _ _) as [fs3 r] eqn:Hr. injection Hw as Hfs' ->.
  apply io_bind_Ok in Hr as (fs4 & [] & Hrep & Hv).
  apply replace_file_Ok in Hrep as (Hpath & Hgone & Hother);
    [|rewrite lookup_insert_eq; eauto|].
  2: { apply Htmp. pose proof (make_backup_touches path now fs path) as Ht. rewrite Hb in Ht.
       apply Ht. intros Heq%list_elem_of_singleton. by apply (backup_ne path now). }
  unfold validate_edit in Hv. destruct (LoadConfig cfgPath fs4) as [cfg|e] eqn:Hl; [|done].
  injection Hv as ->. rewrite remove_absent in Hfs' by done. subst fs3.
  exists b, cfg, tmp. split_and!; auto. intros q Hq1 Hq2 Hq3.
  rewrite Hother by done. rewrite lookup_insert_ne by done.
  pose proof (make_backup_touches path now fs q) as Ht. rewrite Hb in Ht. apply Ht. set_solver.
Qed.

(** ** Properties *)

(** C30: an edit that succeeds is committed.  When the write of a token file
    succeeds, the file holds exactly the encoded document, readable by its owner
    only, and the whole configuration loads with it; the temporary file is gone and
    no other file has changed but the backup. *)
Theorem edit_committed now path doc cfgPath fs fs' :
  (forall fs1, fs1 !! path = fs !! path -> os_TempName fs1 (filepath_Dir path) <> path) ->
  writeTokenFileWithValidation now path doc cfgPath fs = (fs', Ok ()) ->
  exists b cfg tmp,
    yaml_Marshal doc = Ok b /\ fs' !! path = Some {| f_data := b; f_perm := 384 |} /\
    LoadConfig cfgPath fs' = Ok cfg /\ fs' !! tmp = None /\
    forall q, q <> path -> q <> tmp -> q <> backup_name path now -> fs' !! q = fs !! q.
Proof. apply edit_Ok. Qed.

(** The file after a failed edit.  Either it is as before, or the edited document
    is in its place, and then a configuration that does not load was found with it
    and the system refused one of the two operations whose errors the code
    ignores: the inspection that precedes the backup, or the renaming of the
    backup, which then still holds the old contents. *)
Definition rolled_back (now : Z) (path : string) (doc : list TokenPolicy) (fs fs' : FS)
    (f : File) (e : string) : Prop :=
  option_map f_data (fs' !! path) = Some (f_data f) \/
  exists b, yaml_Marshal doc = Ok b /\ fs' !! path = Some {| f_data := b; f_perm := 384 |} /\
    HasPrefix e "validation failed after token edit: " = true /\
    (os_refuses fs (OStat path) = true \/
     (exists fs1, os_refuses fs1 (ORename (backup_name path now) path) = true) /\
     option_map f_data (fs' !! backup_name path now) = Some (f_data f)).

(** C29: an edit that fails is rolled back, or says so.  When the write of an
    existing token file fails, at whatever step, the file holds what it held
    before -- unless the document had been written, the configuration did not load
    with it, and the system refused to inspect the file (no backup was made) or to
    rename the backup: then the error tells that the validation failed, the file
    holds the new document, and in the second case the backup still holds the old
    one.  Temporary files have names of their own. *)
Theorem edit_rolled_back now path doc cfgPath fs fs' f e :
  fs !! path = Some f -> (forall fs dir, fs !! os_TempName fs dir = None) ->
  writeTokenFileWithValidation now path doc cfgPath fs = (fs', Err e) ->
  rolled_back now path doc fs fs' f e.
Proof.
  intros Hf Htmp Hw. unfold writeTokenFileWithValidation in Hw.
  assert (Hold : forall fs1, fs1 !! path = Some f -> rolled_back now path doc fs fs1 f e)
    by (intros fs1 Hp1; left; by rewrite Hp1).
  apply io_bind_Err in Hw as [->%try_op_Err|(fs0 & [] & Hm%try_op_Ok & Hw)]; [by apply Hold|].
  cbn [id] in Hm. subst fs0.
  apply io_bind_Err in Hw as [Hb|(fs1 & backup & Hb & Hw)].
  { pose proof (make_backup_touches path now fs path) as Ht. rewrite Hb in Ht. cbn [fst] in Ht.
    apply Hold. rewrite Ht, Hf; [done|].
    intros Heq%list_elem_of_singleton. by apply (backup_ne path now). }
  destruct (make_backup_cases _ _ _ _ _ _ Hf Hb) as [Hp1 Hbk].
  apply io_bind_Err in Hw as [Hy|(fs2 & b & Hy & Hw)]; unfold io_of in Hy.
  { injection Hy as <- _. by apply Hold. }
  injection Hy as <- Hy. cbv zeta in Hw.
  pose proof (Htmp fs1 (filepath_Dir path)) as Hfresh.
  set (tmp := os_TempName fs1 (filepath_Dir path)) in *.
  assert (Ht1 : tmp <> path) by (intros Heq; rewrite Heq, Hp1 in Hfresh; done).
  destruct (os_refuses fs1 (OCreateTemp _)); [injection Hw as <- _; by apply Hold|].
  destruct (io_bind _ _ _) as [fs3 r] eqn:Hr. injection Hw as Hfs' ->.
  apply io_bind_Err in Hr as [Hrep|(fs4 & [] & Hrep & Hv)].
  { apply Hold. rewrite <- Hfs', remove_other, (replace_file_fail _ _ _ _ _ _ path Hrep),
      lookup_insert_ne by done. done. }
  apply replace_file_Ok in Hrep as (Hpath & Hgone & Hother);
    [|rewrite lookup_insert_eq; eauto|done].
  assert (Hafter : fs' !! path = fs3 !! path) by (by rewrite <- Hfs', remove_other).
  apply validate_edit_Err in Hv as [He Hv].
  destruct Hbk as [[-> Hst]|(-> & perm & Hbk)].
  { destruct Hv as [[Hv _]|[? _]]; [|done]. right. exists b. rewrite Hafter, Hv. split_and!; auto. }
  assert (Ht2 : tmp <> backup_name path now) by (intros Heq; rewrite Heq, Hbk in Hfresh; done).
  assert (Hbk4 : fs4 !! backup_name path now = Some {| f_data := f_data f; f_perm := perm |})
    by (rewrite Hother, lookup_insert_ne; (done || apply backup_ne)).
  destruct Hv as [[Hv Hren]|[_ Hv]].
  - right. exists b. rewrite Hafter, Hv. split_and!; [done..|]. right.
    destruct Hren as [Hempty|Hren]; [by pose proof (backup_nonempty path now) as Hn; rewrite Hempty in Hn|].
    split; [by exists fs4|]. by rewrite <- Hfs', remove_other, Hv, Hbk4.
  - left. rewrite Hafter, Hv. unfold rename_files. rewrite Hbk4. by rewrite lookup_insert_eq.
Qed.

(** The token that is printed works.  A bearer header made of the token that
    [makeCredential] prints is parsed into the credential's id, and its secret
    verifies against the digest that is stored, under the same pepper -- when the
    id is not empty and holds no dot. *)
Theorem new_token_verifies credID random secret rawToken digest :
  credID <> "" -> IndexByte_found credID "." = false -> random <> Some "" ->
  makeCredential credID random = Ok (secret, rawToken, digest) ->
  exists p, ParseBearer ("Bearer " +:+ rawToken) = Ok p /\ CredentialID p = credID /\
    Verify (Secret p) (Getenv "REMNAGUARD_TOKEN_PEPPER") (new_credential credID digest) = true.
Proof.
  intros Hne Hdot Hrand. unfold makeCredential. cbv zeta.
  destruct (_ =s? ""); [done|]. destruct random as [bytes|]; [|done]. intros [= <- <- <-].
  set (raw := Base64.EncodeToString bytes).
  assert (Hraw : raw <> "") by (apply Base64.EncodeToString_nonempty; congruence).
  exists {| CredentialID := credID; Secret := raw |}. split_and!; [|done|].
  - apply ParseBearer_spec. eexists. split; [reflexivity|].
    split_and!; [|done..].
    change (CredentialID _) with credID. change (Auth.Secret _) with raw.
    replace ("rg_" +:+ credID +:+ String "." raw) with (("rg_" +:+ credID +:+ ".") +:+ raw)
      by (rewrite !str_app_assoc; reflexivity).
    rewrite <- !str_app_assoc. apply b64_end_trimmed; [reflexivity| |exact Hraw].
    apply Base64.EncodeToString_alphabet.
  - unfold Verify, new_credential. apply eqs_refl.
Qed.

Lemma findTokenDoc_Some doc id i :
  findTokenDoc doc id = Some i -> exists t, doc !! i = Some t /\ tok_ID t = id.
Proof.
  revert i. induction doc as [|t doc IH]; simpl; intros i; [done|].
  destruct (String.eqb_spec (tok_ID t) id) as [|Hne]; [intros [= <-]; by exists t|].
  destruct (findTokenDoc doc id) as [j|]; [|done]. intros [= <-]. by apply IH.
Qed.

Lemma find_candidate_Ok cands seen id fs fs' doc path i :
  find_candidate cands seen id fs = (fs', Ok (doc, path, i)) ->
  fs' = fs /\ is_Some (fs !! path) /\ exists t, doc !! i = Some t /\ tok_ID t = id.
Proof.
  revert seen. induction cands as [|p cands IH]; intros seen; cbn [find_candidate]; [done|].
  destruct (contains_str seen p); [apply IH|].
  intros (fs1 & d & Hr & Hf)%io_bind_Ok.
  assert (fs1 = fs /\ (fs !! p = None -> d = [])) as [-> Hd].
  { unfold readTokenFile in Hr. apply io_bind_Ok in Hr as (fs2 & b & Hr & Hb).
    unfold read_op in Hr. destruct (fs !! p) as [f|] eqn:Hp.
    - destruct (os_refuses fs (ORead p)); [done|]. injection Hr as <- <-.
      unfold io_of in Hb. split; [congruence|done].
    - injection Hr as <- <-. unfold io_ret in Hb. split; congruence. }
  destruct (findTokenDoc d id) as [j|] eqn:Hj; [|by eapply IH].
  injection Hf as <- <- <- <-. split; [done|]. split; [|by apply findTokenDoc_Some].
  apply not_eq_None_Some. intros Hn. by rewrite (Hd Hn) in Hj.
Qed.

Lemma disabled_not_found credID creds :
  find_enabled credID (map (disable_credential credID) creds) = None.
Proof.
  unfold find_enabled. induction creds as [|cr creds IH]; [done|]. simpl.
  unfold disable_credential at 1 2. destruct (cred_ID cr =s? credID) eqn:Hid; simpl.
  - by rewrite Hid.
  - by rewrite Hid.
Qed.

(** A disabled credential is revoked.  When token disable succeeds, the file
    it wrote is the encoding of a document in which the token has no enabled
    credential of that id, and the configuration loads with it. *)
Theorem disable_revokes now cfgPath tokenID credID tokensFile fs fs' out :
  (forall fs dir, fs !! os_TempName fs dir = None) ->
  token_disable now cfgPath tokenID credID tokensFile fs = (fs', Ok out) ->
  exists doc path i t b cfg,
    doc !! i = Some t /\ tok_ID t = tokenID /\
    find_enabled credID (tok_Credentials t) = None /\
    yaml_Marshal doc = Ok b /\ fs' !! path = Some {| f_data := b; f_perm := 384 |} /\
    LoadConfig cfgPath fs' = Ok cfg.
Proof.
  intros Htmp. unfold token_disable. destruct (_ || _); [done|].
  intros (fs1 & [[doc path] i] & Hl & Hw)%io_bind_Ok.
  unfold loadTokenDocForEdit in Hl. apply find_candidate_Ok in Hl as (-> & [f Hf] & t & Hi & Hid).
  rewrite Hi in Hw. cbv zeta in Hw. destruct (negb _); [done|].
  apply io_bind_Ok in Hw as (fs2 & [] & Hw & [= -> _]).
  apply edit_Ok in Hw as (b & cfg & tmp & Hm & Hp & Hc & _).
  2: { intros fs1 Hf1 Heq. pose proof (Htmp fs1 (filepath_Dir path)) as Hn.
       by rewrite Heq, Hf1, Hf in Hn. }
  eexists _, path, i, (set_credentials (map (disable_credential credID)) t), b, cfg.
  split_and!; [|exact Hid| |exact Hm|exact Hp|exact Hc].
  - by rewrite list_lookup_alter_eq, Hi.
  - apply disabled_not_found.
Qed.

(** C31: a refused configuration changes nothing.  After a SIGHUP that is rejected
    -- the file does not load, or the configuration cannot be built -- the
    gateway keeps the state, the limiters, the pending logins and the alerts it
    had; after one that is applied it serves the new configuration, under a
    generation of its own, with no login pending. *)
Theorem reload_all_or_nothing `{NetFiles} r next r' e :
  on_sighup r next = (r', e) ->
  (en_event e = "reload_rejected" /\ rt_state r' = rt_state r /\
   rt_generations r' = rt_generations r /\ rt_panelOAuth r' = rt_panelOAuth r /\
   rt_alerts r' = rt_alerts r /\ rt_locks r' = rt_locks r) \/
  (en_event e = "reload_applied" /\ exists cfg gen, next = Ok cfg /\
   rs_cfg (rt_state r') = cfg /\ rs_generation (rt_state r') = rt_nextGen r + 1 /\
   rt_generations r' = <[rt_nextGen r + 1 := gen]> (rt_generations r) /\
   os_attempts (rt_panelOAuth r') = ∅ /\ rt_locks r' = rt_locks r).
Proof.
  unfold on_sighup. destruct next as [cfg|err]; [|intros [= <- <-]; by left].
  unfold Reload. cbv zeta. destruct (newRuntimeState cfg _) as [[st gen]|err] eqn:Hn.
  - intros [= <- <-]. right. split; [done|]. exists cfg, gen.
    unfold newRuntimeState in Hn. destruct (newLimitState cfg); [|done].
    destruct (Proxy.New cfg); [|done]. injection Hn as <- <-. done.
  - intros [= <- <-]. by left.
Qed.
End cmd_facts.

(** ** Witnesses *)

(** A name longer than all there are. *)
Definition long_name (fs : FS) : string :=
  foldr (fun kv s => fst kv +:+ s) ".tmp" (map_to_list fs).

Lemma longer (l : list (string * File)) k f :
  (k, f) ∈ l ->
  (String.length k < String.length (foldr (fun kv s => fst kv +:+ s) ".tmp" l))%nat.
Proof.
  assert (Hpos : forall l' : list (string * File),
    (0 < String.length (foldr (fun kv s => fst kv +:+ s) ".tmp" l'))%nat).
  { induction l' as [|kv l' IH]; simpl; [lia|]. rewrite str_length_app. lia. }
  induction l as [|[k' f'] l IH]; simpl; [set_solver|]. rewrite str_length_app.
  intros [Heq|Hin]%elem_of_cons; [|specialize (IH Hin); lia].
  injection Heq as -> _. specialize (Hpos l). lia.
Qed.

Lemma long_name_fresh (fs : FS) dir : fs !! (dir +:+ long_name fs) = None.
Proof.
  apply eq_None_not_Some. intros [f Hf%elem_of_map_to_list%longer].
  rewrite str_length_app in Hf. unfold long_name in Hf. lia.
Qed.

Definition example_os : OS := {|
  os_refuses := fun _ _ => false;
  os_partial := fun _ _ => 0%nat;
  os_TempName := fun fs dir => (dir +:+ "/.remnaguard-") +:+ long_name fs;
  os_Glob := fun fs base pattern => Ok ["tokens.d/acme.yaml"] |}.

Definition example_yaml_out : YamlOut := {|
  yaml_Marshal := fun doc => Ok (match doc with [] => "none" | _ => "tokens" end) |}.

(** A configuration that includes the token files, and a document of tokens;
    anything else does not parse. *)
Definition example_yaml : Yaml Config := {|
  yaml_Unmarshal := fun b c =>
    if b =s? "config" then
      Ok (Build_Config (cfg_Server c) example_upstream
        {| comp_RemnawaveVersion := "2.8.1"; comp_AssumeVersion := ""; comp_AllowVersionMismatch := false |}
        (cfg_Limits c) (cfg_Metrics c) (cfg_Audit c) (cfg_Alerts c) (cfg_Report c) (cfg_PublicSubs c)
        (cfg_PanelFacade c) (cfg_Reload c) (cfg_WriteSafety c) [] ["tokens.d/*.yaml"] "")
    else if b =s? "tokens" then Ok (add_tokens c [example_token])
    else Err "yaml" |}.

Definition example_token_yaml : Yaml (list TokenPolicy) := {|
  yaml_Unmarshal := fun b c => if b =s? "tokens" then Ok [example_token] else Ok c |}.

#[export] Existing Instances example_os example_yaml_out example_yaml example_token_yaml.

Definition example_files_before : FS :=
  {[ "r.yaml" := {| f_data := "config"; f_perm := 384 |};
     "tokens.d/acme.yaml" := {| f_data := "tokens"; f_perm := 384 |} ]}.

Definition edit_of (doc : list TokenPolicy) : FS * res () :=
  writeTokenFileWithValidation 0 "tokens.d/acme.yaml" doc "r.yaml" example_files_before.

Lemma edit_committed_witness :
  exists b cfg tmp,
    yaml_Marshal [example_token] = Ok b /\
    fst (edit_of [example_token]) !! "tokens.d/acme.yaml" = Some {| f_data := b; f_perm := 384 |} /\
    LoadConfig "r.yaml" (fst (edit_of [example_token])) = Ok cfg /\
    fst (edit_of [example_token]) !! tmp = None /\
    forall q, q <> "tokens.d/acme.yaml" -> q <> tmp ->
      q <> backup_name "tokens.d/acme.yaml" 0 ->
      fst (edit_of [example_token]) !! q = example_files_before !! q.
Proof.
  apply (edit_committed 0 "tokens.d/acme.yaml" [example_token] "r.yaml" example_files_before).
  - intros fs _. cbn [os_TempName example_os]. vm_compute. discriminate.
  - vm_compute. reflexivity.
Defined.

(** A document that does not load any more. *)
Lemma edit_rolled_back_witness :
  option_map f_data (fst (edit_of []) !! "tokens.d/acme.yaml") = Some "tokens".
Proof.
  assert (Hr : edit_of [] = (fst (edit_of []), Err "validation failed after token edit: yaml"))
    by (vm_compute; reflexivity).
  assert (Hrb : rolled_back 0 "tokens.d/acme.yaml" [] example_files_before (fst (edit_of []))
      {| f_data := "tokens"; f_perm := 384 |} "validation failed after token edit: yaml")
    by exact (edit_rolled_back 0 "tokens.d/acme.yaml" [] "r.yaml" example_files_before _
      {| f_data := "tokens"; f_perm := 384 |} _ eq_refl
      (fun fs dir => long_name_fresh fs _) Hr).
  destruct Hrb as [Hold|(b & _ & _ & _ & [Hst|[[fs1 Hren] _]])];
    [exact Hold|discriminate Hst|discriminate Hren].
Defined.

(** A file that was not there before stays, although the configuration does not
    load with it. *)
Lemma new_file_not_removed :
  let files := delete "tokens.d/acme.yaml" example_files_before in
  let '(files', r) := writeTokenFileWithValidation 0 "tokens.d/acme.yaml" [] "r.yaml" files in
  files !! "tokens.d/acme.yaml" = None /\ is_ok r = false /\
  option_map f_data (files' !! "tokens.d/acme.yaml") = Some "none".
Proof. vm_compute. done. Qed.

Definition example_new : res (string * string * string) := makeCredential "c1" (Some "0123").
Definition example_new_token : string :=
  match example_new with Ok (_, token, _) => token | Err _ => "" end.
Definition example_new_digest : string :=
  match example_new with Ok (_, _, digest) => digest | Err _ => "" end.

Lemma new_token_verifies_witness :
  exists p, ParseBearer ("Bearer " +:+ example_new_token) = Ok p /\ CredentialID p = "c1" /\
    Verify (Auth.Secret p) (Getenv "REMNAGUARD_TOKEN_PEPPER")
      (new_credential "c1" example_new_digest) = true.
Proof.
  refine (new_token_verifies "c1" (Some "0123") "0123" example_new_token example_new_digest
    _ _ _ _); [discriminate|reflexivity|discriminate|vm_compute; reflexivity].
Defined.

Definition disable_run : FS * res (list string) :=
  token_disable 0 "r.yaml" "acme" "cred_1" "" example_files_before.

Lemma disable_revokes_witness :
  exists (doc : list TokenPolicy) (i : nat) t, doc !! i = Some t /\ find_enabled "cred_1" (tok_Credentials t) = None.
Proof.
  destruct (disable_revokes 0 "r.yaml" "acme" "cred_1" "" example_files_before
    (fst disable_run) []) as (doc & path & i & t & b & cfg & Hi & _ & Hf & _).
  - intros fs dir. apply long_name_fresh.
  - vm_compute. reflexivity.
  - by exists doc, i, t.
Defined.

(** A configuration that cannot be built. *)
Definition bad_rate_config : Config :=
  let d := gateway_config in
  let l := cfg_Limits d in
  Build_Config (cfg_Server d) (cfg_Upstream d) (cfg_Compatibility d)
    {| lim_MaxPathLength := lim_MaxPathLength l; lim_MaxQueryLength := lim_MaxQueryLength l;
       lim_MaxBodyBytes := lim_MaxBodyBytes l; lim_GlobalConcurrency := lim_GlobalConcurrency l;
       lim_PerTokenConcurrency := lim_PerTokenConcurrency l; lim_DefaultRate := "often";
       lim_UpstreamBodyBytes := lim_UpstreamBodyBytes l;
       lim_ShutdownGracePeriod := lim_ShutdownGracePeriod l |}
    (cfg_Metrics d) (cfg_Audit d) (cfg_Alerts d) (cfg_Report d) (cfg_PublicSubs d)
    (cfg_PanelFacade d) (cfg_Reload d) (cfg_WriteSafety d) (cfg_Tokens d) [] "".

Definition idle_runtime : Runtime :=
  match NewRuntime (Ok (Build_Logger true "" None)) gateway_config "dev" 0 with
  | Ok r => r
  | Err _ => Build_Runtime gateway_state ∅ "" (Build_Logger true "" None)
               (NewManager (cfg_Alerts gateway_config)) NewRegistry ∅ (newPanelOAuthStore 1) 0 0
  end.

Lemma reload_all_or_nothing_witness :
  rt_state (fst (on_sighup idle_runtime (Ok bad_rate_config))) = rt_state idle_runtime.
Proof.
  destruct (reload_all_or_nothing idle_runtime (Ok bad_rate_config)
    (fst (on_sighup idle_runtime (Ok bad_rate_config)))
    (snd (on_sighup idle_runtime (Ok bad_rate_config)))) as [(_ & Hs & _)|(He & _)].
  - apply surjective_pairing.
  - exact Hs.
  - vm_compute in He. discriminate He.
Defined.

(** [policy test] decides on the catalog's route, the gateway on the effective
    one: what read:* allows is denied here. *)
Definition read_all_token : TokenPolicy := {|
  tok_ID := "ro"; tok_Disabled := false; tok_Credentials := []; tok_Scopes := ["read:*"];
  tok_Constraints := zero_constraints |}.

Lemma policy_test_differs :
  match Match (Catalog "2.8.1") "GET" "/api/nodes" with
  | Some route => d_Allow (Decide (Some read_all_token) route) = false /\
      d_Allow (Decide (Some read_all_token) (effectiveRoute gateway_config route)) = true
  | None => False
  end.
Proof. vm_compute. done. Qed.
