(* ===== verification/Gateway.v ===== *)
(** * The gateway at work: its histories

    A gateway is started on a configuration that loads, receives requests, is
    told to reload and sends its alerts, all interleaved call by call; a reload is
    interleaved too, part by part.  A history lists what happened, in order: the
    calls the handlers made, the states that were put into service, and when the
    pending logins were forgotten.  What is proved of a handler on its own holds of
    every handler of a history; what it takes from the others is proved here. *)

From S2P Require Import Prelude GoStrings Json Ratelimit Config ConfigFacts Routes Auth Policy.
From S2P Require Import EffectiveRoute Httputil Remnawave BodyPolicy ResponsePolicy Proxy.
From S2P Require Import Alerts AuditLog OAuthStore Effects PanelFacade Respond PanelOAuth PanelLogin.
From S2P Require Import Handler Calls Authorization Resources Runtime Concurrency Cmd.
From stdpp Require Import options.

Local Open Scope Z_scope.

(** A call of the [i]-th request, with the runtime's clock when it was answered;
    a state put into service by a start or a reload; the pending logins forgotten. *)
Inductive happening :=
  | Call (i : nat) (time : Z) (o : obs)
  | Install (st : runtimeState)
  | Forget.

Notation history := (list happening).

(** What the [i]-th handler did, in order. *)
Fixpoint said (i : nat) (h : history) : list obs :=
  match h with
  | [] => []
  | Call j _ o :: h' => if decide (i = j) then o :: said i h' else said i h'
  | _ :: h' => said i h'
  end.

Lemma said_app i h1 h2 : said i (h1 ++ h2) = said i h1 ++ said i h2.
Proof.
  induction h1 as [|[j t o|st|] h1 IH]; simpl; [done| |done|done].
  rewrite IH. by case_decide.
Qed.

(** The state in service. *)
Fixpoint current (h : history) : option runtimeState :=
  match h with
  | [] => None
  | Install st :: h' => match current h' with Some st' => Some st' | None => Some st end
  | _ :: h' => current h'
  end.

(** How far a reload has come: the new state is [Built], the pending logins are
    [Cleared], the state is [Stored].  One goroutine reloads, so there is at most
    one reload at a time. *)
Inductive reloading :=
  | Waiting
  | Built (st : runtimeState) (gen : generation)
  | Cleared (st : runtimeState) (gen : generation)
  | Stored (st : runtimeState).

Record Gateway := {
  gw_runtime : Runtime;
  gw_threads : list thread;
  gw_requests : list Request;
  gw_reload : reloading;
}.

Section gateway.
Context `{Unicode} `{Host} `{Regexps} `{NetParsers} `{NetFiles} `{RequestURLs} `{OS}.
Context `{Yc : Yaml Config} `{Sch : Scheduling}.
Context (VerifyPKCS1v15 : PublicKey -> string -> string -> bool).
Context (cfgPath : string).

(** ** Steps *)

Definition handler (req : Request) : thread :=
  {| th_prog := apiHandler VerifyPKCS1v15 ∅ req; th_hist := [] |}.

(** A request as net/http hands it over: canonical header names, and no context
    of the gateway's own yet. *)
Record arriving (req : Request) : Prop := {
  ar_cache : req_bodyCache req = None;
  ar_panel : req_panelAudit req = None;
  ar_header : canonical (req_Header req);
}.

(** [Reload] up to its error returns, with the outcome of loading the configuration. *)
Definition build {Fh : Host} (r : Runtime) (next : res Config) : Runtime * reloading :=
  match next with
  | Err _ => (r, Waiting)
  | Ok cfg =>
      let r1 := next_generation r in
      match newRuntimeState cfg (rt_nextGen r1) with
      | Err _ => (r1, Waiting)
      | Ok (st, gen) => (r1, Built st gen)
      end
  end.

(** One part of a reload; the first one on SIGHUP, with the files as they are then. *)
Inductive reload_part (r : Runtime) : reloading -> history -> Runtime -> reloading -> Prop :=
  | hangs_up fs r' ph :
      build (Fh := fs_host fs) r (LoadConfig cfgPath fs) = (r', ph) ->
      reload_part r Waiting [] r' ph
  | clears st gen :
      reload_part r (Built st gen) [Forget] (forget_logins r) (Cleared st gen)
  | installs st gen :
      reload_part r (Cleared st gen) [Install st] (store_state r st gen) (Stored st)
  | tells_alerts st :
      reload_part r (Stored st) [] (update_alerts r (rs_cfg st)) Waiting.

(** A version is detected for the state of any configuration at any time, which is
    more than the code allows: it starts a detection with each new state. *)
Inductive step : Gateway -> history -> Gateway -> Prop :=
  | serves r ts reqs ph i c k h a r' :
      ts !! i = Some {| th_prog := Vis c k; th_hist := h |} -> handles r c a r' ->
      step {| gw_runtime := r; gw_threads := ts; gw_requests := reqs; gw_reload := ph |}
           [Call i (rt_clock r') (observe c a)]
           {| gw_runtime := r';
              gw_threads := <[i := {| th_prog := k a; th_hist := observe c a :: h |}]> ts;
              gw_requests := reqs; gw_reload := ph |}
  | receives r ts reqs ph req :
      arriving req ->
      step {| gw_runtime := r; gw_threads := ts; gw_requests := reqs; gw_reload := ph |} []
           {| gw_runtime := r; gw_threads := ts ++ [handler req];
              gw_requests := reqs ++ [req]; gw_reload := ph |}
  | reloads r ts reqs ph ev r' ph' :
      reload_part r ph ev r' ph' ->
      step {| gw_runtime := r; gw_threads := ts; gw_requests := reqs; gw_reload := ph |} ev
           {| gw_runtime := r'; gw_threads := ts; gw_requests := reqs; gw_reload := ph' |}
  | detects r ts reqs ph st client ok :
      fst (detectVersion client (rs_cfg st)) = Some ok ->
      step {| gw_runtime := r; gw_threads := ts; gw_requests := reqs; gw_reload := ph |} []
           {| gw_runtime := store_version r (rs_generation st) ok; gw_threads := ts;
              gw_requests := reqs; gw_reload := ph |}
  | sends_alerts r ts reqs ph i :
      step {| gw_runtime := r; gw_threads := ts; gw_requests := reqs; gw_reload := ph |} []
           {| gw_runtime := set_alerts r (fst (Alerts.step (rt_alerts r) i)); gw_threads := ts;
              gw_requests := reqs; gw_reload := ph |}.

(** [server.NewRuntime] on the files of the machine: [audit.New], and the rest. *)
Definition new_runtime (db : Sqlite) (cfg : Config) (version : string) (now : Z) : io Runtime :=
  fun fs =>
    let aud := cfg_Audit cfg in
    let '(fs', opened) := AuditLog.New db (aud_Stdout aud) (Getenv (aud_PepperEnv aud))
                            (aud_SQLitePath aud) fs in
    (fs', NewRuntime (H0 := fs_host fs') opened cfg version now).

(** [serve] up to [rt.Serve]. *)
Definition start (db : Sqlite) (version : string) (now : Z) : io Runtime :=
  fun fs =>
    match LoadConfig cfgPath fs with
    | Err e => (fs, Err e)
    | Ok cfg => new_runtime db cfg version now fs
    end.

(** What a start has done. *)
Lemma start_Ok db version now fs fs' r :
  start db version now fs = (fs', Ok r) ->
  exists cfg opened, LoadConfig cfgPath fs = Ok cfg /\
    NewRuntime (H0 := fs_host fs') opened cfg version now = Ok r.
Proof.
  unfold start, new_runtime. destruct (LoadConfig cfgPath fs) as [cfg|]; [|done]. cbv zeta.
  destruct (AuditLog.New _ _ _ _ _) as [fs1 opened]. intros [= <- Hr]. by exists cfg, opened.
Qed.

Definition started_with (r : Runtime) : Gateway :=
  {| gw_runtime := r; gw_threads := []; gw_requests := []; gw_reload := Waiting |}.

Inductive gateway : Gateway -> history -> Prop :=
  | starts db version now fs fs' r :
      start db version now fs = (fs', Ok r) ->
      gateway (started_with r)
        [Install (rt_state r)]
  | continues g h ev g' : gateway g h -> step g ev g' -> gateway g' (h ++ ev).

Lemma starts_with db version now fs r :
  snd (start db version now fs) = Ok r ->
  gateway (started_with r) [Install (rt_state r)].
Proof. destruct (start db version now fs) as [fs' r'] eqn:Hs. intros [= ->]. by eapply starts. Qed.

(** ** Histories *)

Lemma step_short g ev g' : step g ev g' -> (length ev <= 1)%nat.
Proof. intros [| |r ts reqs ph evs r' ph' []| |]; simpl; lia. Qed.

(** The history so far was one, too. *)
Lemma gateway_prefix g h n :
  gateway g h -> (0 < n)%nat -> exists g', gateway g' (firstn n h).
Proof.
  intros Hg Hn. induction Hg as [db v t fs fs' r Hs|g h ev g' Hg IH Hstep].
  - exists (started_with r).
    replace (firstn n [Install (rt_state r)]) with [Install (rt_state r)]
      by (destruct n as [|[|n]]; [lia|done|done]). by eapply starts.
  - destruct (decide (n <= length h)%nat) as [Hle|Hgt].
    + rewrite firstn_app. replace (n - length h)%nat with 0%nat by lia. by rewrite app_nil_r.
    + exists g'. rewrite firstn_all2; [by eapply continues|].
      apply step_short in Hstep. rewrite length_app. lia.
Qed.

Lemma lookup_snoc_cases {A} (l l' : list A) (n : nat) x :
  (l ++ l') !! n = Some x -> l !! n = Some x \/ (length l <= n)%nat /\ l' !! (n - length l)%nat = Some x.
Proof. intros Hn. by apply lookup_app_Some in Hn. Qed.

(** *** What each handler did is what its thread remembers *)

Record threads_ok (g : Gateway) (h : history) : Prop := {
  to_length : length (gw_requests g) = length (gw_threads g);
  to_hist : forall i t, gw_threads g !! i = Some t -> th_hist t = rev (said i h);
  to_silent : forall i, (length (gw_threads g) <= i)%nat -> said i h = [];
}.

Lemma said_reload i r ph ev r' ph' : reload_part r ph ev r' ph' -> said i ev = [].
Proof. by intros []. Qed.

Lemma gateway_threads_ok g h : gateway g h -> threads_ok g h.
Proof.
  induction 1 as [|g h ev g' _ [Hl Hh Hs] Hstep]; [by split|].
  assert (Hquiet : forall i, said i ev = [] -> said i (h ++ ev) = said i h)
    by (intros i Hi; by rewrite said_app, Hi, app_nil_r).
  destruct Hstep as [r ts reqs ph i c k h0 a r' Hi Ha|r ts reqs ph req Hr
    |r ts reqs ph evs r' ph' Hp|r ts reqs ph st client ok Hd|r ts reqs ph i]; cbn [gw_threads gw_requests] in *.
  - split; cbn [gw_threads gw_requests]; rewrite ?length_insert; [done| |].
    + intros j t Ht. rewrite said_app. apply list_lookup_insert_Some in Ht as [(-> & <- & _)|[Hne Ht]].
      * cbn [th_hist said]. rewrite decide_True by done. rewrite rev_app_distr. cbn [rev app].
        by rewrite <- (Hh _ _ Hi).
      * cbn [said]. rewrite decide_False by done. rewrite app_nil_r. auto.
    + intros j Hj. rewrite said_app, Hs by done. cbn [said].
      apply lookup_lt_Some in Hi. rewrite decide_False by lia. done.
  - split; cbn [gw_threads gw_requests]; rewrite ?length_app; [simpl; lia| |].
    + intros j t Ht. rewrite Hquiet by done.
      apply lookup_snoc_Some in Ht as [[_ Ht]|[-> <-]]; [auto|]. rewrite Hs by done. done.
    + intros j Hj. rewrite Hquiet by done. apply Hs. lia.
  - split; cbn [gw_threads gw_requests]; [done| |]; intros j; rewrite Hquiet; eauto using said_reload.
  - split; cbn [gw_threads gw_requests]; [done| |]; intros j; rewrite Hquiet; auto.
  - split; cbn [gw_threads gw_requests]; [done| |]; intros j; rewrite Hquiet; auto.
Qed.

(** *** What holds of every handler on its own *)

Section lifting.
Context (G : Request -> list obs -> call -> Prop) (Q : Request -> list obs -> outcome -> Prop).
Hypothesis every_handler : forall req, arriving req ->
  wp (G req) (apiHandler VerifyPKCS1v15 ∅ req) [] (Q req).

Lemma gateway_wp g h :
  gateway g h ->
  (forall i t req, gw_threads g !! i = Some t -> gw_requests g !! i = Some req ->
     wp (G req) (th_prog t) (th_hist t) (Q req)) /\
  (forall (n : nat) i time o, h !! n = Some (Call i time o) ->
     exists req c a, gw_requests g !! i = Some req /\ o = observe c a /\
       G req (rev (said i (firstn n h))) c).
Proof using Type*.
  intros Hg. induction Hg as [db v t fs fs' r Hs|g h ev g' Hg [IHt IHc] Hstep].
  { split; [done|]. by intros [|n] i time o' Hn. }
  pose proof (gateway_threads_ok _ _ Hg) as [Hl Hh _].
  assert (Hold : forall (n : nat) i time o, h !! n = Some (Call i time o) ->
    exists req c a, gw_requests g !! i = Some req /\ o = observe c a /\
      G req (rev (said i (firstn n (h ++ ev)))) c).
  { intros n i time o Hn. rewrite firstn_app. pose proof (lookup_lt_Some _ _ _ Hn).
    replace (n - length h)%nat with 0%nat by lia. rewrite app_nil_r. by apply (IHc n i time). }
  assert (Hnew : gw_threads g' = gw_threads g -> gw_requests g' = gw_requests g ->
    (forall i time o, Call i time o ∉ ev) ->
    (forall i t req, gw_threads g' !! i = Some t -> gw_requests g' !! i = Some req ->
       wp (G req) (th_prog t) (th_hist t) (Q req)) /\
    (forall (n : nat) i time o, (h ++ ev) !! n = Some (Call i time o) ->
       exists req c a, gw_requests g' !! i = Some req /\ o = observe c a /\
         G req (rev (said i (firstn n (h ++ ev)))) c)).
  { intros -> -> Hev. split; [done|]. intros n i time o [Hn|[_ Hn]]%lookup_app_Some; [by eapply Hold|].
    apply list_elem_of_lookup_2 in Hn. by apply Hev in Hn. }
  destruct Hstep as [r ts reqs ph i c k h0 a r' Hi Ha|r ts reqs ph req Hr
    |r ts reqs ph evs r' ph' Hp|r ts reqs ph st client ok Hd|r ts reqs ph i]; cbn [gw_threads gw_requests] in *.
  - destruct (proj2 (lookup_lt_is_Some reqs i)) as [req Hreq].
    { rewrite Hl. by eapply lookup_lt_Some. }
    destruct (IHt i _ req Hi Hreq) as [HG Hk]. cbn [th_prog th_hist] in *. split.
    + intros j t req' [(-> & <- & _)|[Hne Ht]]%list_lookup_insert_Some Hreq'; [|by eapply IHt].
      rewrite Hreq in Hreq'. injection Hreq' as <-. apply Hk.
    + intros n j time o [Hn|[Hn1 Hn]]%lookup_app_Some; [by eapply Hold|].
      apply list_lookup_singleton_Some in Hn as [Hn0 Heq]. injection Heq as <- <- <-.
      exists req, c, a. split_and!; [done..|]. rewrite firstn_app, firstn_all2 by lia.
      replace (n - length h)%nat with 0%nat by lia. rewrite app_nil_r.
      by rewrite <- (Hh _ _ Hi).
  - split.
    + intros j t req' Ht Hreq'. apply lookup_snoc_Some in Ht as [[Hj Ht]|[-> <-]].
      * rewrite lookup_app_l in Hreq' by lia. by eapply IHt.
      * rewrite lookup_app_r in Hreq' by lia. rewrite Hl, Nat.sub_diag in Hreq'.
        injection Hreq' as <-. by apply every_handler.
    + intros n j time o Hn. rewrite app_nil_r in *. destruct (IHc n j time o Hn) as (req' & c & a & Hq & Hrest).
      exists req', c, a. split; [by apply lookup_app_l_Some|done].
  - apply Hnew; [done..|]. destruct Hp; set_solver.
  - apply Hnew; [done..|]. set_solver.
  - apply Hnew; [done..|]. set_solver.
Qed.
End lifting.

(** *** The books of Concurrency.v *)

Lemma call_step_at r ts i c k h a r' :
  ts !! i = Some {| th_prog := Vis c k; th_hist := h |} -> handles r c a r' ->
  call_step (r, ts) (r', <[i := {| th_prog := k a; th_hist := observe c a :: h |}]> ts).
Proof.
  intros Hi Hh. rewrite (insert_take_drop _ _ _ (lookup_lt_Some _ _ _ Hi)).
  rewrite <- (take_drop_middle ts i _ Hi) at 1. by apply one_call.
Qed.

(** The state that is about to be put into service, and its generation, which
    nobody has. *)
Definition prepared (r : Runtime) (ph : reloading) : Prop :=
  match ph with
  | Built st gen | Cleared st gen =>
      (exists fs cfg, LoadConfig cfgPath fs = Ok cfg /\
         newRuntimeState (H0 := fs_host fs) cfg (rt_nextGen r) = Ok (st, gen)) /\
      rt_generations r !! rt_nextGen r = None
  | _ => True
  end.

Lemma prepared_same r r' ph :
  rt_nextGen r' = rt_nextGen r ->
  (forall g, rt_generations r !! g = None -> rt_generations r' !! g = None) ->
  prepared r ph -> prepared r' ph.
Proof. intros Hn Hg. destruct ph; cbn [prepared]; rewrite ?Hn; naive_solver. Qed.

Lemma set_limits_none r g gen ls g' :
  rt_generations r !! g = Some gen -> rt_generations r !! g' = None ->
  rt_generations (set_limits r g gen ls) !! g' = None.
Proof.
  intros Hg Hn. cbn [set_limits set_generations rt_generations]. rewrite lookup_insert_ne; [done|].
  by intros ->; congruence.
Qed.

Lemma handles_generations r c a r' :
  handles r c a r' -> rt_nextGen r' = rt_nextGen r /\
  forall g, rt_generations r !! g = None -> rt_generations r' !! g = None.
Proof.
  intros []; (split; [done|]); intros g0 Hg0; try exact Hg0; by eapply set_limits_none.
Qed.

Lemma store_version_generations r g ok :
  rt_nextGen (store_version r g ok) = rt_nextGen r /\
  forall g', rt_generations r !! g' = None -> rt_generations (store_version r g ok) !! g' = None.
Proof.
  unfold store_version. destruct (rt_generations r !! g) as [gen|] eqn:Hg; [|done].
  split; [done|]. intros g' Hn. cbn [set_generations rt_generations].
  rewrite lookup_insert_ne; [done|]. by intros ->; congruence.
Qed.

Lemma build_inv fs cfgs r r' ph ts :
  sys_inv cfgs r ts -> build (Fh := fs_host fs) r (LoadConfig cfgPath fs) = (r', ph) ->
  (exists cfgs', sys_inv cfgs' r' ts) /\ prepared r' ph.
Proof.
  intros Hi. unfold build. destruct (LoadConfig cfgPath fs) as [cfg|] eqn:Hl;
    [|intros [= <- <-]; split; [by exists cfgs|done]].
  cbv zeta. pose proof (inv_reload _ _ _ _ Hi (numbers r)) as Hr.
  destruct (newRuntimeState cfg _) as [[st gen]|] eqn:Hn; intros [= <- <-]; (split; [done|]); [|done].
  cbn [prepared]. split; [by exists fs, cfg|]. cbn [next_generation rt_generations rt_nextGen].
  apply eq_None_not_Some. intros Hs%(si_known _ _ _ Hi)%(si_next _ _ _ Hi). lia.
Qed.

Lemma reload_inv cfgs r ph ev r' ph' ts :
  sys_inv cfgs r ts -> prepared r ph -> reload_part r ph ev r' ph' ->
  (exists cfgs', sys_inv cfgs' r' ts) /\ prepared r' ph'.
Proof.
  intros Hi Hp Hr. destruct Hr as [fs r' ph Hb|st gen|st gen|st].
  - by eapply build_inv.
  - split; [by apply (inv_reload cfgs r), forgets|exact Hp].
  - destruct Hp as [(fs & cfg & _ & Hn) Hf]. split; [|done].
    eapply (inv_reload (H0 := fs_host fs) cfgs r); [done|]. by eapply (stores (H0 := fs_host fs)).
  - split; [by apply (inv_reload cfgs r), updates|done].
Qed.

Lemma gateway_inv_prepared g h :
  gateway g h -> (exists cfgs, sys_inv cfgs (gw_runtime g) (gw_threads g)) /\
    prepared (gw_runtime g) (gw_reload g).
Proof.
  induction 1 as [db v t fs fs' r Hs|g h ev g' _ [[cfgs Hi] Hpr] Hstep]; cbn [started_with gw_runtime gw_threads].
  - split; [|done]. apply start_Ok in Hs as (cfg & opened & _ & Hs).
    exact (inv_init (H0 := fs_host fs') _ _ _ _ _ Hs).
  - destruct Hstep as [r ts reqs ph i c k h0 a r' Hc Ha|r ts reqs ph req Hr
      |r ts reqs ph evs r' ph' Hp|r ts reqs ph st client ok Hd|r ts reqs ph i];
      cbn [gw_runtime gw_threads gw_reload] in *.
    + destruct (handles_generations _ _ _ _ Ha). split; [|by eapply prepared_same].
      exists cfgs. exact (inv_call_step _ _ _ (call_step_at _ _ _ _ _ _ _ _ Hc Ha) Hi).
    + split; [|done]. exists cfgs. apply (inv_same _ r _ ts); [done| | |done].
      * apply Forall_app. split; [apply Hi|]. apply Forall_singleton, thread_ok_new.
      * intros x. by rewrite total_split, app_nil_r.
    + by eapply reload_inv.
    + destruct (store_version_generations r (rs_generation st) ok). split; [|by eapply prepared_same].
      exists cfgs. by apply inv_detect.
    + split; [|exact Hpr]. exists cfgs. apply (inv_same _ r _ ts); [done|apply Hi|done|done].
Qed.

Lemma gateway_inv g h :
  gateway g h -> exists cfgs, sys_inv cfgs (gw_runtime g) (gw_threads g).
Proof. intros Hg. exact (proj1 (gateway_inv_prepared g h Hg)). Qed.

(** ** States in service *)

(** Validated, with the proxy made for it, on the files of some moments. *)
Definition installed (st : runtimeState) : Prop :=
  exists fs fs', Validate (H0 := fs_host fs) (rs_cfg st) = Ok () /\
                 Proxy.New (H0 := fs_host fs') (rs_cfg st) = Ok (rs_proxy st).

Lemma LoadConfig_valid fs cfg :
  LoadConfig cfgPath fs = Ok cfg -> Validate (H0 := fs_host fs) cfg = Ok ().
Proof.
  unfold LoadConfig, Config.Load. destruct (loadInto cfgPath Defaults) as [c|]; [|done].
  destruct (load_includes _ _ _) as [c1|]; [|done].
  destruct (Validate (set_path c1 cfgPath)) as [[]|] eqn:Hv; [|done]. by intros [= <-].
Qed.

Lemma newRuntimeState_new {Fh : Host} cfg g st gen :
  newRuntimeState cfg g = Ok (st, gen) -> rs_cfg st = cfg /\ rs_generation st = g.
Proof.
  unfold newRuntimeState. destruct (newLimitState cfg); [|done].
  by destruct (Proxy.New cfg) as [px|]; intros [= <- <-].
Qed.

Lemma newRuntimeState_installed fs fs' cfg g st gen :
  LoadConfig cfgPath fs = Ok cfg -> newRuntimeState (H0 := fs_host fs') cfg g = Ok (st, gen) ->
  installed st /\ rs_generation st = g.
Proof.
  intros Hl%LoadConfig_valid. unfold newRuntimeState. destruct (newLimitState cfg); [|done].
  destruct (Proxy.New cfg) as [px|] eqn:Hp; [|done]. intros [= <- <-].
  split; [|done]. by exists fs, fs'.
Qed.

(** The parts, one after the other, are what [serve] does on SIGHUP. *)
Definition finish (r : Runtime) (ph : reloading) : Runtime :=
  match ph with
  | Waiting => r
  | Built st gen => update_alerts (store_state (forget_logins r) st gen) (rs_cfg st)
  | Cleared st gen => update_alerts (store_state r st gen) (rs_cfg st)
  | Stored st => update_alerts r (rs_cfg st)
  end.

Lemma sighup_parts {Fh : Host} r next :
  fst (on_sighup r next) = let '(r1, ph) := build r next in finish r1 ph.
Proof.
  unfold on_sighup, Reload, build. destruct next as [cfg|]; [|done]. cbv zeta.
  destruct (newRuntimeState cfg _) as [[st gen]|] eqn:Hn; [|done].
  apply newRuntimeState_new in Hn as [<- _]. done.
Qed.

(** What each part of a reload does to the state and the clock. *)
Lemma reload_state r ph ev r' ph' :
  reload_part r ph ev r' ph' ->
  (ev = [] /\ rt_state r' = rt_state r) \/ (ev = [Forget] /\ rt_state r' = rt_state r) \/
  (exists st gen, ph = Cleared st gen /\ ev = [Install st] /\ rt_state r' = st).
Proof.
  intros [fs r1 ph1 Hb|st gen|st gen|st]; [left|right; left|right; right|left]; try done.
  - split; [done|]. unfold build in Hb. destruct (LoadConfig cfgPath fs) as [cfg|]; [|by injection Hb as <-].
    cbv zeta in Hb. by destruct (newRuntimeState cfg _) as [[st gen]|]; injection Hb as <-.
  - by exists st, gen.
Qed.

Lemma build_same {Fh : Host} r next r' ph :
  build r next = (r', ph) ->
  rt_clock r' = rt_clock r /\ rt_panelOAuth r' = rt_panelOAuth r /\
  rt_generations r' = rt_generations r.
Proof.
  unfold build. destruct next as [cfg|]; [|by intros [= <- _]]. cbv zeta.
  by destruct (newRuntimeState cfg _) as [[st gen]|]; intros [= <- _].
Qed.

Lemma reload_clock r ph ev r' ph' : reload_part r ph ev r' ph' -> rt_clock r' = rt_clock r.
Proof. intros [fs r1 ph1 Hb|st gen|st gen|st]; try done. exact (proj1 (build_same (Fh := fs_host fs) _ _ _ _ Hb)). Qed.

Lemma handles_state r c a r' : handles r c a r' -> rt_state r' = rt_state r.
Proof. by intros []. Qed.

Lemma store_version_state r g ok : rt_state (store_version r g ok) = rt_state r.
Proof. unfold store_version. by case_match. Qed.

(** Every state in service was installed, and every state a handler has loaded. *)
Lemma gateway_states g h :
  gateway g h ->
  (forall st, Install st ∈ h -> installed st) /\ Install (rt_state (gw_runtime g)) ∈ h /\
  (forall (n : nat) i time st, h !! n = Some (Call i time (OLoad st)) -> Install st ∈ firstn n h).
Proof.
  induction 1 as [db v t fs fs' r Hs|g h ev g' Hg (IHi & IHs & IHl) Hstep]; cbn [gw_runtime].
  { split_and!; [|set_solver|by intros [|n]]. intros st [= ->]%list_elem_of_singleton.
    apply start_Ok in Hs as (cfg & opened & Hl & Hs).
    unfold NewRuntime in Hs. destruct opened; [|done].
    destruct (newRuntimeState cfg 1) as [[st gen]|] eqn:Hn; [|done]. injection Hs as <-.
    by eapply newRuntimeState_installed. }
  assert (Hold : forall (n : nat) i time st, h !! n = Some (Call i time (OLoad st)) ->
    Install st ∈ firstn n (h ++ ev)).
  { intros n i time st Hn. rewrite firstn_app. apply elem_of_app. left. by eapply IHl. }
  destruct Hstep as [r ts reqs ph i c k h0 a r' Hc Ha|r ts reqs ph req Hr
    |r ts reqs ph evs r' ph' Hp|r ts reqs ph st client ok Hd|r ts reqs ph i]; cbn [gw_runtime] in *.
  - rewrite (handles_state _ _ _ _ Ha). split_and!; [|set_solver|].
    + intros st Hin%elem_of_app. set_solver.
    + intros n j time st [Hn|[Hn1 Hn]]%lookup_app_Some; [by eapply Hold|].
      apply list_lookup_singleton_Some in Hn as [Hn0 Heq].
      rewrite firstn_app, firstn_all2 by lia. apply elem_of_app. left.
      assert (Ho : observe c a = OLoad st) by congruence.
      destruct Ha; cbn [observe] in Ho; try discriminate Ho. injection Ho as <-. exact IHs.
  - rewrite app_nil_r in *. done.
  - split_and!.
    + intros st' [Hin|Hin]%elem_of_app; [auto|].
      destruct (reload_state _ _ _ _ _ Hp) as [[-> _]|[[-> _]|(st & gen & -> & -> & _)]]; [set_solver..|].
      apply list_elem_of_singleton in Hin. injection Hin as ->.
      destruct (gateway_inv_prepared _ _ Hg) as [_ [(fs & cfg & Hl & Hn) _]].
      by eapply newRuntimeState_installed.
    + apply elem_of_app.
      destruct (reload_state _ _ _ _ _ Hp) as [[-> ->]|[[-> ->]|(st & gen & -> & -> & ->)]];
        [by left..|]. right. by apply list_elem_of_singleton.
    + intros n j time st [Hn|[_ Hn]]%lookup_app_Some; [by eapply Hold|].
      apply list_elem_of_lookup_2 in Hn. destruct Hp; set_solver.
  - rewrite app_nil_r, store_version_state in *. done.
  - rewrite app_nil_r in *. done.
Qed.

(** *** The state a handler loads is the one in service *)

Lemma current_app h1 h2 :
  current (h1 ++ h2) = match current h2 with Some st => Some st | None => current h1 end.
Proof.
  induction h1 as [|[i t o|st|] h1 IH]; cbn [current app]; [by case_match|done| |done].
  rewrite IH. by case_match.
Qed.

Lemma current_none h : (forall st, Install st ∉ h) -> current h = None.
Proof.
  induction h as [|[i t o|st|] h IH]; intros Hn; cbn [current]; [done| | |].
  - apply IH. set_solver.
  - destruct (Hn st). apply list_elem_of_here.
  - apply IH. set_solver.
Qed.

Lemma gateway_current g h :
  gateway g h ->
  current h = Some (rt_state (gw_runtime g)) /\
  (forall (n : nat) i time st, h !! n = Some (Call i time (OLoad st)) ->
     current (firstn n h) = Some st).
Proof.
  induction 1 as [db v t fs fs' r Hs|g h ev g' Hg [IHc IHl] Hstep]; cbn [gw_runtime].
  { split; [done|]. by intros [|n]. }
  assert (Hold : forall (n : nat) i time st, h !! n = Some (Call i time (OLoad st)) ->
    current (firstn n (h ++ ev)) = Some st).
  { intros n i time st Hn. rewrite firstn_app. pose proof (lookup_lt_Some _ _ _ Hn).
    replace (n - length h)%nat with 0%nat by lia. rewrite app_nil_r. by eapply IHl. }
  destruct Hstep as [r ts reqs ph i c k h0 a r' Hc Ha|r ts reqs ph req Hr
    |r ts reqs ph evs r' ph' Hp|r ts reqs ph st client ok Hd|r ts reqs ph i]; cbn [gw_runtime] in *.
  - rewrite (handles_state _ _ _ _ Ha), current_app. split; [done|].
    intros n j time st [Hn|[Hn1 Hn]]%lookup_app_Some; [by eapply Hold|].
    apply list_lookup_singleton_Some in Hn as [Hn0 Heq].
    rewrite firstn_app, firstn_all2 by lia. replace (n - length h)%nat with 0%nat by lia.
    rewrite app_nil_r, IHc. assert (Ho : observe c a = OLoad st) by congruence.
    destruct Ha; cbn [observe] in Ho; try discriminate Ho. by injection Ho as <-.
  - by rewrite app_nil_r in *.
  - split.
    + rewrite current_app.
      by destruct (reload_state _ _ _ _ _ Hp) as [[-> ->]|[[-> ->]|(st & gen & _ & -> & ->)]].
    + intros n j time st [Hn|[_ Hn]]%lookup_app_Some; [by eapply Hold|].
      apply list_elem_of_lookup_2 in Hn. destruct Hp; set_solver.
  - by rewrite app_nil_r, store_version_state in *.
  - by rewrite app_nil_r in *.
Qed.
End gateway.
