(* ===== verification/GatewayFacts.v ===== *)
(** * The gateway at work: what its histories show

    What the requests of a gateway can rely on, however they are interleaved with
    each other and with reloads: the credentials sent upstream, the locks of
    restricted writes, the single use of login attempts, the rate limits. *)

From S2P Require Import Prelude GoStrings Encoding Json Ratelimit Config ConfigFacts Routes Auth Policy.
From S2P Require Import EffectiveRoute Httputil Remnawave BodyPolicy ResponsePolicy Proxy.
From S2P Require Import Alerts AuditLog OAuthStore Effects PanelFacade Respond PanelOAuth PanelLogin.
From S2P Require Import Handler Calls Example Authorization Upstream WriteSafety Resources Runtime.
From S2P Require Import PanelLoginFacts Concurrency Cmd CmdFacts Gateway.
From stdpp Require Import options.

Local Open Scope Z_scope.

(** ** Reading a history *)

Lemma said_at i o h : o ∈ said i h -> exists (n : nat) time, h !! n = Some (Call i time o).
Proof.
  induction h as [|[j t o'|st|] h IH]; simpl; [by intros ?%not_elem_of_nil| | |].
  - case_decide as Hij; [|intros (n & t' & Hn)%IH; by exists (S n), t'].
    intros [->|Hin]%elem_of_cons; [subst; by exists 0%nat, t|].
    destruct (IH Hin) as (n & t' & Hn). by exists (S n), t'.
  - intros (n & t' & Hn)%IH. by exists (S n), t'.
  - intros (n & t' & Hn)%IH. by exists (S n), t'.
Qed.

Lemma firstn_lookup {A} (l : list A) (n m : nat) x :
  firstn n l !! m = Some x -> l !! m = Some x /\ (m < n)%nat.
Proof. intros [? ?]%lookup_take_Some. done. Qed.

Lemma firstn_incl {A} (l : list A) (m n : nat) x :
  (m <= n)%nat -> x ∈ firstn m l -> x ∈ firstn n l.
Proof.
  intros Hm (k & [Hk Hlt]%lookup_take_Some)%list_elem_of_lookup_1.
  apply list_elem_of_lookup. exists k. apply lookup_take_Some. split; [done|lia].
Qed.

Section facts.
Context `{Unicode} `{Host} `{Regexps} `{NetParsers} `{NetFiles} `{RequestURLs} `{OS}.
Context `{Yc : Yaml Config} `{Sch : Scheduling}.
Context (VerifyPKCS1v15 : PublicKey -> string -> string -> bool) (cfgPath : string).

Notation gateway := (gateway VerifyPKCS1v15 cfgPath).

(** A state a handler has loaded was in service before. *)
Lemma loaded_installed g h (n : nat) i st :
  gateway g h -> OLoad st ∈ said i (firstn n h) -> Install st ∈ firstn n h /\ installed st.
Proof.
  intros Hg Hin. destruct (gateway_states _ _ _ _ Hg) as (Hi & _ & Hl).
  apply said_at in Hin as (m & t & Hm). apply firstn_lookup in Hm as [Hm Hlt].
  assert (Hst : Install st ∈ firstn n h).
  { eapply firstn_incl; [|by eapply Hl]. lia. }
  split; [done|]. apply Hi. apply list_elem_of_lookup_1 in Hst as (k & Hk).
  apply firstn_lookup in Hk as [Hk _]. by eapply list_elem_of_lookup_2.
Qed.

(** ** Requests sent upstream *)

(** What the upstream receives of a gateway in state [st] for a request with
    the header [client]. *)
Record clean_upstream (st : runtimeState) (route : Route) (client : Header) (out : OutRequest)
    : Prop := {
  cu_base : out_Base out = up_BaseURL (cfg_Upstream (rs_cfg st));
  cu_config : px_cfg (rs_proxy st) = rs_cfg st;
  cu_header :
    (** as a client of the panel's, with the bearer *)
    ((exists fs, px_bearer (rs_proxy st) = ResolveBearer (H0 := fs_host fs) (rs_cfg st)) /\
     out_Header out !! "Authorization" = Some ["Bearer " +:+ px_bearer (rs_proxy st)] /\
     out_Header out !! "Proxy-Authorization" = None /\
     forall k v, out_Header out !! k = Some v -> private_origin (rs_proxy st) client k v) \/
    (** or as a public subscription *)
    (rt_Support route = PublicSubscription /\ ps_Enabled (cfg_PublicSubs (rs_cfg st)) = true /\
     (forall k, k ∈ client_credentials -> out_Header out !! k = None) /\
     forall k v, out_Header out !! k = Some v -> public_origin (rs_proxy st) client k v);
  cu_body : forall c, out_Body out = Some c -> exists b, c = Ok b /\ len b <= max_body st;
}.

(** A header passed on from a part of the client's header is passed on from the
    client's. *)
Lemma passed_on_part client h k v : part_of client h -> passed_on h k v -> passed_on client k v.
Proof.
  intros [Hh Ht] (Hk & Hp & Hc). split_and!; [auto| |done].
  revert Hp. unfold hop_by_hop. by rewrite Ht.
Qed.

Lemma private_part p client h k v :
  part_of client h -> private_origin p h k v -> private_origin p client k v.
Proof.
  intros Hp []; [by apply private_bearer|by apply private_encoding|by apply private_extra|].
  apply private_client. by eapply passed_on_part.
Qed.

Lemma public_part p client h k v :
  part_of client h -> public_origin p h k v -> public_origin p client k v.
Proof.
  intros Hp []; [by apply public_auth|by apply public_extra|by apply public_encoding|].
  apply public_client; [by eapply passed_on_part|done].
Qed.

Lemma sent_clean st pub route client out :
  installed st -> sent client st pub out ->
  (pub = true -> rt_Support route = PublicSubscription /\
                 ps_Enabled (cfg_PublicSubs (rs_cfg st)) = true) ->
  clean_upstream st route client out.
Proof.
  intros (fs & fs' & Hv & Hp) (r & path & q & [Hc Hpart Hb] & ->) Hpub.
  pose proof (New_spec (H0 := fs_host fs') _ _ Hp) as (Hcfg & Hbearer & _).
  pose proof (Validate_safe_headers (H0 := fs_host fs) _ Hv) as Hs.
  pose proof (limits_Ok (rs_cfg st)) as Hlim.
  pose proof Hv as Hv'. apply (Validate_Ok (H0 := fs_host fs)) in Hv' as
    (_ & _ & _ & _ & Hl & _).
  split; cbn [request_out out_Base out_Header out_Body].
  - by rewrite Hcfg.
  - exact Hcfg.
  - destruct pub; [right|left].
    + destruct (Hpub eq_refl) as [Hr He]. split_and!; [done..| |].
      * intros k. by apply (public_no_credentials (H0 := fs_host fs') (rs_cfg st)).
      * intros k v Hk. eapply public_part; [exact Hpart|by apply public_from].
    + split_and!.
      * by exists fs'.
      * rewrite Hbearer. by apply (private_authorization (H0 := fs_host fs')).
      * by apply (private_no_proxy_credentials (H0 := fs_host fs') (rs_cfg st)).
      * intros k v Hk. eapply private_part; [exact Hpart|by apply private_from].
  - apply Hb. apply Hlim in Hl. unfold max_body. lia.
Qed.

(** ** Locks *)

(** An upstream call of the [i]-th request while it holds the lock [k]. *)
Definition upstream_under (h : history) (n i : nat) (k : string) : Prop :=
  exists time out r, h !! n = Some (Call i time (OUpstream out r)) /\
    locked k (said i (firstn n h)).

Lemma said_split i h l1 o l2 :
  said i h = l1 ++ o :: l2 ->
  exists (n : nat) time, h !! n = Some (Call i time o) /\ said i (firstn n h) = l1.
Proof.
  revert l1. induction h as [|[j t o'|st|] h IH]; simpl; intros l1 Hs; [by destruct l1| | |].
  - case_decide as Hij.
    + destruct l1 as [|o1 l1]; injection Hs as -> Hs.
      * exists 0%nat, t. by subst.
      * destruct (IH l1 Hs) as (n & t' & Hn & Hl). exists (S n), t'. simpl.
        rewrite decide_True by done. by rewrite Hl.
    + destruct (IH l1 Hs) as (n & t' & Hn & Hl). exists (S n), t'. simpl.
      by rewrite decide_False.
  - destruct (IH l1 Hs) as (n & t' & Hn & Hl). by exists (S n), t'.
  - destruct (IH l1 Hs) as (n & t' & Hn & Hl). by exists (S n), t'.
Qed.

(** A handler takes one lock only. *)
Lemma gateway_one_lock g h i n l1 k l2 k' :
  gateway g h -> said i (firstn n h) = l1 ++ OLock k :: l2 -> OLock k' ∉ l1.
Proof.
  intros Hg Hs. destruct (said_split _ _ _ _ _ Hs) as (m & t & Hm & Hl).
  apply firstn_lookup in Hm as [Hm Hlt]. rewrite take_take, Nat.min_l in Hl by lia.
  destruct (gateway_wp VerifyPKCS1v15 cfgPath (fun _ => orderly) (fun _ _ _ => True)
    (fun req _ => apiHandler_ok _ ∅ req) g h Hg) as [_ Hc].
  destruct (Hc m i t _ Hm) as (req & c & a & _ & Ho & Hord).
  destruct c; try discriminate Ho. cbn [observe] in Ho. injection Ho as ->.
  intros Hin. apply (Hord k'). rewrite Hl. by apply list_elem_of_In, in_rev, list_elem_of_In in Hin.
Qed.

Lemma app_cons_inj {A} (x : A) l1 l2 l1' l2' :
  x ∉ l1 -> x ∉ l1' -> l1 ++ x :: l2 = l1' ++ x :: l2' -> l1 = l1' /\ l2 = l2'.
Proof.
  revert l1'. induction l1 as [|y l1 IH]; intros [|y' l1'] H1' H2' Heq; simpl in Heq.
  - by injection Heq.
  - injection Heq as -> _. set_solver.
  - injection Heq as -> _. set_solver.
  - injection Heq as -> Heq. destruct (IH l1') as [-> ->]; [set_solver..|done|done].
Qed.

(** Locked at two moments, locked at every moment in between. *)
Lemma locked_between g h i k (m n p : nat) :
  gateway g h -> (m <= n)%nat -> (n <= p)%nat ->
  locked k (said i (firstn m h)) -> locked k (said i (firstn p h)) ->
  locked k (said i (firstn n h)).
Proof.
  intros Hg Hmn Hnp (b1 & a1 & Hs1 & Hu1) (b3 & a3 & Hs3 & Hu3).
  assert (Hpre : forall x y : nat, (x <= y)%nat ->
    exists z, said i (firstn y h) = said i (firstn x h) ++ z).
  { intros x y Hxy. exists (said i (skipn x (firstn y h))).
    rewrite <- said_app. f_equal. rewrite <- (take_drop x (firstn y h)) at 1.
    rewrite take_take, Nat.min_l by lia. done. }
  destruct (Hpre m n Hmn) as [y Hy]. destruct (Hpre n p Hnp) as [z Hz].
  assert (Heq : b1 ++ OLock k :: (a1 ++ y ++ z) = b3 ++ OLock k :: a3).
  { rewrite <- Hs3, Hz, Hy, Hs1. by rewrite <- !app_assoc. }
  apply app_cons_inj in Heq as [<- <-].
  - exists b1, (a1 ++ y). split; [rewrite Hy, Hs1; by rewrite <- app_assoc|]. set_solver.
  - by eapply gateway_one_lock.
  - by eapply gateway_one_lock.
Qed.

Lemma locked_held k s : locked k s -> Key k ∈ held (rev s).
Proof.
  intros (b & a & -> & Hn). rewrite rev_app_distr. simpl. rewrite <- app_assoc. simpl.
  assert (Hn' : OUnlock k ∉ rev a) by (by intros Hin%rev_incl).
  induction (rev a) as [|o l IH]; cbn [app held]; [apply list_elem_of_here|].
  apply not_elem_of_cons in Hn' as [Hne Hl]. specialize (IH Hl).
  assert (Hrm : forall x, x <> Key k -> Key k ∈ remove_one x (held (l ++ OLock k :: rev b))).
  { intros x Hx. revert IH. generalize (held (l ++ OLock k :: rev b)). intros hs Hin.
    induction hs as [|y hs IHs]; [done|]. simpl. apply elem_of_cons in Hin as [<-|Hin].
    - rewrite decide_False by done. apply list_elem_of_here.
    - case_decide; [done|]. apply list_elem_of_further. auto. }
  destruct o as [| |g l'|g ok|g q ok|k'|k'| | | | | | | | |]; try exact IH.
  - case_match; [by apply list_elem_of_further|done].
  - by apply Hrm.
  - by apply list_elem_of_further.
  - apply Hrm. congruence.
Qed.

Lemma total_two x ts (i j : nat) a b :
  ts !! i = Some a -> ts !! j = Some b -> i <> j ->
  (occ x (holds a) + occ x (holds b) <= total x ts)%nat.
Proof.
  intros Ha Hb Hne. rewrite <- (take_drop_middle ts i a Ha), total_split.
  apply Nat.add_le_mono_l. rewrite <- delete_take_drop.
  assert (Hin : b ∈ delete i ts).
  { destruct (decide (j < i)%nat).
    - apply (list_elem_of_lookup_2 _ j). by rewrite list_lookup_delete_lt.
    - apply (list_elem_of_lookup_2 _ (j - 1)). rewrite list_lookup_delete_ge by lia.
      replace (S (j - 1)) with j by lia. done. }
  apply list_elem_of_split in Hin as (l1 & l2 & ->). rewrite total_split. lia.
Qed.

(** Two requests do not hold one lock. *)
Lemma locked_exclusive g h i j k :
  gateway g h -> locked k (said i h) -> locked k (said j h) -> i = j.
Proof.
  intros Hg Hi Hj. destruct (decide (i = j)) as [|Hne]; [done|exfalso].
  pose proof (gateway_threads_ok _ _ _ _ Hg) as [_ Hh Hs].
  assert (Hth : forall i, locked k (said i h) ->
    exists t, gw_threads g !! i = Some t /\ (0 < occ (Key k) (holds t))%nat).
  { intros i' Hl. destruct (gw_threads g !! i') as [t|] eqn:Ht.
    - exists t. split; [done|]. apply occ_in. unfold holds. rewrite (Hh _ _ Ht). by apply locked_held.
    - apply lookup_ge_None in Ht. rewrite Hs in Hl by done. destruct Hl as ([] & ? & Hb & _); done. }
  destruct (Hth i Hi) as (ti & Hti & Hpi). destruct (Hth j Hj) as (tj & Htj & Hpj).
  pose proof (total_two (Key k) _ _ _ _ _ Hti Htj Hne) as Htot.
  destruct (gateway_inv _ _ _ _ Hg) as [cfgs Hinv].
  pose proof (si_locks _ _ _ Hinv k) as Hk. case_decide; lia.
Qed.

(** ** Login attempts *)

(** What replaces the attempt filed under [s], hands it out or drops it. *)
Definition touches (s : string) (e : happening) : Prop :=
  match e with
  | Call _ _ (OTake s' _ (Some _)) | Call _ _ (OPut s' _ _ true) => s' = s
  | Forget => True
  | _ => False
  end.

(** [a] was filed under [s], and not touched since. *)
Definition filed (s : string) (a : panelOAuthAttempt) (h : history) : Prop :=
  exists h1 j time now h2, h = h1 ++ Call j time (OPut s a now true) :: h2 /\
    Forall (fun e => ~ touches s e) h2.

Lemma filed_more s a h ev :
  filed s a h -> Forall (fun e => ~ touches s e) ev -> filed s a (h ++ ev).
Proof.
  intros (h1 & j & t & now & h2 & -> & Hf) Hev. exists h1, j, t, now, (h2 ++ ev).
  split; [by rewrite <- app_assoc|]. by apply Forall_app.
Qed.

Lemma put_lookup st s a now ok st' s' a' :
  put st s a now = (ok, st') -> os_attempts st' !! s' = Some a' ->
  (ok = true /\ s' = s /\ a' = a) \/
  (os_attempts st !! s' = Some a' /\ ~ (ok = true /\ s' = s)).
Proof.
  unfold put. destruct (_ && _); intros [= <- <-]; cbn [os_attempts set_attempts pruneLocked].
  - intros [Hl _]%map_lookup_filter_Some. right. split; [done|]. by intros [? _].
  - rewrite lookup_insert. case_decide as Heq; [intros [= <-]; by left|].
    intros [Hl _]%map_lookup_filter_Some. right. split; [done|]. intros [_ ->]. done.
Qed.

Lemma take_lookup st s now r st' s' a' :
  OAuthStore.take st s now = (r, st') -> os_attempts st' !! s' = Some a' ->
  os_attempts st !! s' = Some a' /\ ~ (is_Some r /\ s' = s).
Proof.
  unfold OAuthStore.take. cbn [os_attempts set_attempts pruneLocked].
  destruct (live_only now (os_attempts st) !! s) as [a|] eqn:Hs; intros [= <- <-];
    cbn [os_attempts set_attempts].
  - rewrite lookup_delete. case_decide as Heq; [done|].
    intros [Hl _]%map_lookup_filter_Some. split; [done|]. by intros [_ ->].
  - intros [Hl _]%map_lookup_filter_Some. split; [done|]. by intros [[] _].
Qed.

Lemma take_Some st s now a st' :
  OAuthStore.take st s now = (Some a, st') -> os_attempts st !! s = Some a /\ live now a.
Proof.
  unfold OAuthStore.take. cbn [os_attempts set_attempts pruneLocked].
  destruct (live_only now (os_attempts st) !! s) as [a'|] eqn:Hs; intros [= <- <-].
  by apply map_lookup_filter_Some in Hs.
Qed.

(** A call either leaves the attempts alone or is one of the two on them. *)
Lemma handles_attempts r c a r' i time s x :
  handles r c a r' -> os_attempts (rt_panelOAuth r') !! s = Some x ->
  (exists now, observe c a = OPut s x now true) \/
  (os_attempts (rt_panelOAuth r) !! s = Some x /\ ~ touches s (Call i time (observe c a))).
Proof.
  intros Hh Hs. destruct Hh as [| | | | | | | | |s' a0 now ok st Hp|s' now a1 st Hp| | | | |];
    cbn [observe touches rt_panelOAuth set_limits set_generations set_clock set_locks set_alerts
         set_oauth] in *; try (right; split; [exact Hs|by intros []]).
  - destruct (put_lookup _ _ _ _ _ _ _ _ Hp Hs) as [(-> & -> & ->)|[Hl Hn]]; [left; by exists now|].
    right. split; [done|]. destruct ok; [|by intros []]. intros ->. by apply Hn.
  - right. destruct (take_lookup _ _ _ _ _ _ _ Hp Hs) as [Hl Hn]. split; [done|].
    destruct a1; [|by intros []]. intros ->. apply Hn. split; [by eexists|done].
Qed.

(** Every waiting attempt was filed; every attempt handed out had been. *)
Lemma gateway_attempts g h :
  gateway g h ->
  (forall s a, os_attempts (rt_panelOAuth (gw_runtime g)) !! s = Some a -> filed s a h) /\
  (forall (n : nat) i time s now a, h !! n = Some (Call i time (OTake s now (Some a))) ->
     live now a /\ filed s a (firstn n h)).
Proof.
  induction 1 as [db v t fs fs' r Hs|g h ev g' Hg [IHs IHt] Hstep]; cbn [started_with gw_runtime].
  { split; [|by intros [|n]]. apply start_Ok in Hs as (cfg & opened & _ & Hs).
    unfold NewRuntime in Hs. destruct opened; [|done].
    destruct (newRuntimeState _ 1); [|done]. injection Hs as <-. intros s x.
    cbn [rt_panelOAuth newPanelOAuthStore os_attempts]. by rewrite lookup_empty. }
  assert (Hold : forall (n : nat) i time s now a,
    h !! n = Some (Call i time (OTake s now (Some a))) ->
    live now a /\ filed s a (firstn n (h ++ ev))).
  { intros n i time s now a Hn. rewrite firstn_app.
    replace (n - length h)%nat with 0%nat by (apply lookup_lt_Some in Hn; lia).
    rewrite app_nil_r. by eapply IHt. }
  destruct Hstep as [r ts reqs ph i c k h0 a r' Hc Ha|r ts reqs ph req Hr
    |r ts reqs ph evs r' ph' Hp|r ts reqs ph st client ok Hd|r ts reqs ph i]; cbn [gw_runtime] in *.
  - split.
    + intros s x Hx. destruct (handles_attempts _ _ _ _ i (rt_clock r') _ _ Ha Hx)
        as [[now Ho]|[Hl Hn]].
      * exists h, i, (rt_clock r'), now, []. by rewrite Ho.
      * apply filed_more; [auto|]. by apply Forall_singleton.
    + intros n j time s now x [Hn|[Hn1 Hn]]%lookup_app_Some; [by eapply Hold|].
      apply list_lookup_singleton_Some in Hn as [Hn0 Heq].
      rewrite firstn_app, firstn_all2 by lia. replace (n - length h)%nat with 0%nat by lia.
      rewrite app_nil_r. assert (Ho : observe c a = OTake s now (Some x)) by congruence.
      destruct Ha; cbn [observe] in Ho; try discriminate Ho. injection Ho as -> -> ->.
      match goal with Ht : OAuthStore.take _ _ _ = _ |- _ =>
        apply take_Some in Ht as [Hl Hlive] end. auto.
  - rewrite app_nil_r in *. done.
  - split.
    + intros s a Hs. destruct Hp as [fs r1 ph1 Hb|st gen|st gen|st]; rewrite ?app_nil_r.
      * apply IHs. by rewrite <- (proj1 (proj2 (build_same (Fh := fs_host fs) _ _ _ _ Hb))).
      * cbn in Hs. by rewrite lookup_empty in Hs.
      * apply filed_more; [by apply IHs|]. apply Forall_singleton. by intros [].
      * by apply IHs.
    + intros n i time s now a [Hn|[_ Hn]]%lookup_app_Some; [by eapply Hold|].
      apply list_elem_of_lookup_2 in Hn. destruct Hp; set_solver.
  - rewrite app_nil_r in *. split; [|done]. intros s a. unfold store_version.
    case_match; cbn [set_generations rt_panelOAuth]; auto.
  - rewrite app_nil_r in *. done.
Qed.
(** ** Rates *)

Definition rate_key (q : rate) : string := match q with RToken k | RSubIP k => k end.

Definition rate_spec (q : rate) (cfg : Config) : string :=
  match q with
  | RToken _ => lim_DefaultRate (cfg_Limits cfg)
  | RSubIP _ => ps_PerIPRate (cfg_PublicSubs cfg)
  end.

Definition rate_of (q : rate) (ls : limitState) : option FixedWindow :=
  match q with RToken _ => ls_tokenRate ls | RSubIP _ => ls_subRate ls end.

(** Requests the rate [q] of the generation [g] let through at a time in [[lo, hi)]. *)
Fixpoint passed (g : Z) (q : rate) (lo hi : Z) (h : history) : Z :=
  match h with
  | [] => 0
  | Call _ t (OAllow g' q' true) :: h' =>
      (if decide (g' = g /\ q' = q) then if (lo <=? t) && (t <? hi) then 1 else 0 else 0) +
      passed g q lo hi h'
  | _ :: h' => passed g q lo hi h'
  end.

Lemma passed_app g q lo hi h1 h2 :
  passed g q lo hi (h1 ++ h2) = passed g q lo hi h1 + passed g q lo hi h2.
Proof.
  induction h1 as [|[j t o|st|] h1 IH]; cbn [passed app]; [done| |done|done].
  destruct o; try done. case_match; [lia|done].
Qed.

(** Two limiters that agree on one key. *)
Definition alike (k : string) (a b : option FixedWindow) : Prop :=
  match a, b with
  | Some f, Some f' => fw_limit f = fw_limit f' /\ fw_window f = fw_window f' /\
                       fw_buckets f !! k = fw_buckets f' !! k
  | None, None => True
  | _, _ => False
  end.

Lemma alike_refl k a : alike k a a.
Proof. by destruct a. Qed.

Lemma acquire_rates ls l ok ls' q :
  acquire_limit ls l = (ok, ls') -> rate_of q ls' = rate_of q ls.
Proof.
  destruct l; cbn [acquire_limit]; case_match; intros [= _ <-]; by destruct q.
Qed.

Lemma release_rates ls l ls' q : release_limit ls l = Some ls' -> rate_of q ls' = rate_of q ls.
Proof.
  destruct l; cbn [release_limit]; intros (x & _ & ->)%fmap_Some; by destruct q.
Qed.

Lemma AllowOpt_other now f k k' ok f' :
  k <> k' -> AllowOpt now f k = (ok, f') -> alike k' f f'.
Proof.
  intros Hne. destruct f as [f|]; cbn [AllowOpt]; [|by intros [= _ <-]].
  pose proof (Allow_other now f k k' Hne) as Ho. pose proof (Allow_config now f k) as [Hl Hw].
  destruct (Ratelimit.Allow now f k) as [ok' f1]. intros [= _ <-]. by cbn [snd alike] in *.
Qed.

Lemma allow_rates ls now q' ok ls' q :
  q' <> q -> allow_rate ls now q' = (ok, ls') -> alike (rate_key q) (rate_of q ls) (rate_of q ls').
Proof.
  intros Hne. destruct q' as [k'|k'], q as [k|k]; cbn [allow_rate];
    destruct (AllowOpt now _ k') as [ok' f'] eqn:Ha; intros [= _ <-]; cbn [rate_of rate_key
      ls_tokenRate ls_subRate]; try apply alike_refl; eapply AllowOpt_other; eauto; congruence.
Qed.

Lemma allow_rate_own ls now q ok ls' f :
  allow_rate ls now q = (ok, ls') -> rate_of q ls = Some f ->
  exists f', rate_of q ls' = Some f' /\ Ratelimit.Allow now f (rate_key q) = (ok, f').
Proof.
  destruct q as [k|k]; cbn [allow_rate rate_of rate_key]; intros Ha Hf; rewrite Hf in Ha;
    cbn [AllowOpt] in Ha; destruct (Ratelimit.Allow now f k) as [ok' f'] eqn:Hf'; injection Ha as <- <-;
    by exists f'.
Qed.

Lemma newRuntimeState_rate {Fh : Host} cfg g st gen q f0 :
  newRuntimeState cfg g = Ok (st, gen) ->
  NewFixedWindow (rate_spec q (rs_cfg st)) = Ok (Some f0) ->
  rate_of q (gn_limits gen) = Some f0.
Proof.
  unfold newRuntimeState, newLimitState.
  destruct (NewFixedWindow (lim_DefaultRate _)) as [tr|] eqn:Ht; [|done].
  destruct (NewFixedWindow (ps_PerIPRate _)) as [sr|] eqn:Hs; [|done].
  destruct (Proxy.New cfg) as [px|]; [|done]. intros [= <- <-] Hf. cbn [rs_cfg] in Hf.
  destruct q as [k|k]; cbn [rate_spec rate_of gn_limits ls_tokenRate ls_subRate] in *; congruence.
Qed.

Lemma NewFixedWindow_fresh spec f :
  NewFixedWindow spec = Ok (Some f) -> 0 < fw_limit f /\ fw_buckets f = ∅.
Proof.
  unfold NewFixedWindow. destruct (ParseRate spec) as [[l w]|]; [|done].
  destruct (Z.leb_spec l 0) as [Hl|Hl]; [done|]. intros Heq.
  assert (Hf : f = {| fw_limit := l; fw_window := w; fw_buckets := ∅ |}) by congruence.
  subst f. done.
Qed.

Section rate.
Context (G : Z) (q : rate) (lo : Z) (f0 : FixedWindow).
Hypothesis window_positive : 0 < fw_window f0 <= int64_max.

(** The interval is shorter than the window by the time a call may take from
    reading the clock to being served. *)
Definition let_through (h : history) : Z :=
  passed G q lo (lo + (fw_window f0 - Z.of_nat max_lag)) h.

(** The limiter of [q], as made from the configuration, after [n] passes. *)
Definition counted (clock n : Z) (gen : generation) : Prop :=
  exists f, rate_of q (gn_limits gen) = Some f /\ fw_limit f = fw_limit f0 /\
    fw_window f = fw_window f0 /\
    window_inv (fw_limit f0) (fw_window f0) (Z.of_nat max_lag) lo clock n (fw_buckets f !! rate_key q).

Record rate_inv (r : Runtime) (h : history) : Prop := {
  ri_unused : rt_generations r !! G = None -> let_through h = 0;
  ri_counted : forall st, Install st ∈ h -> rs_generation st = G ->
    NewFixedWindow (rate_spec q (rs_cfg st)) = Ok (Some f0) ->
    exists gen, rt_generations r !! G = Some gen /\ counted (rt_clock r) (let_through h) gen;
}.

Lemma counted_alike clock clock' n gen gen' :
  clock <= clock' -> alike (rate_key q) (rate_of q (gn_limits gen)) (rate_of q (gn_limits gen')) ->
  counted clock n gen -> counted clock' n gen'.
Proof using Type.
  intros Hc Ha (f & Hf & Hl & Hw & Hi). rewrite Hf in Ha. cbn [alike] in Ha.
  destruct (rate_of q (gn_limits gen')) as [f'|] eqn:Hf'; [|done]. destruct Ha as (Hl' & Hw' & Hb).
  exists f'. rewrite <- Hl', <- Hw', <- Hb. split_and!; [done..|]. by eapply window_inv_later.
Qed.

Lemma counted_new {Fh : Host} clock cfg g st gen :
  newRuntimeState cfg g = Ok (st, gen) -> NewFixedWindow (rate_spec q (rs_cfg st)) = Ok (Some f0) ->
  counted clock 0 gen.
Proof using Type.
  intros Hn Hf. pose proof (newRuntimeState_rate _ _ _ _ _ _ Hn Hf) as Hr.
  apply NewFixedWindow_fresh in Hf as [Hl Hb]. exists f0. rewrite Hb, lookup_empty. split_and!; [done..|].
  unfold window_inv. lia.
Qed.

(** Steps that neither ask the limiter nor install a state. *)
Lemma rate_inv_quiet r r' h ev :
  rate_inv r h -> rt_clock r <= rt_clock r' -> let_through ev = 0 ->
  (forall st, Install st ∈ ev -> rs_generation st <> G) ->
  (rt_generations r !! G = rt_generations r' !! G \/
   exists gen gen', rt_generations r !! G = Some gen /\ rt_generations r' !! G = Some gen' /\
     alike (rate_key q) (rate_of q (gn_limits gen)) (rate_of q (gn_limits gen'))) ->
  rate_inv r' (h ++ ev).
Proof using Type.
  intros [Hu Hc] Hclock Hev Hi Hg.
  assert (Hn : let_through (h ++ ev) = let_through h)
    by (unfold let_through in *; rewrite passed_app; lia).
  split; rewrite Hn.
  - intros Hnone. apply Hu. destruct Hg as [->|(gen & gen' & _ & Hs & _)]; congruence.
  - intros st [Hin|Hin]%elem_of_app Hst Hf; [|by destruct (Hi st Hin)].
    destruct (Hc st Hin Hst Hf) as (gen & Hgen & Hcount).
    destruct Hg as [Hsame|(gen1 & gen' & Hs1 & Hs' & Ha)].
    + exists gen. split; [congruence|]. eapply counted_alike; [exact Hclock| |exact Hcount].
      apply alike_refl.
    + exists gen'. split; [done|]. replace gen1 with gen in * by congruence.
      by eapply counted_alike.
Qed.

Lemma set_limits_lookup r g gen ls :
  rt_generations (set_limits r g gen ls) !! G =
  if decide (g = G) then Some {| gn_limits := ls; gn_versionOK := gn_versionOK gen |}
  else rt_generations r !! G.
Proof using Type. cbn [set_limits set_generations rt_generations]. by rewrite lookup_insert. Qed.

(** A limiter that agrees. *)
Lemma same_rates r g gen ls :
  rt_generations r !! g = Some gen ->
  alike (rate_key q) (rate_of q (gn_limits gen)) (rate_of q ls) ->
  rt_generations r !! G = rt_generations (set_limits r g gen ls) !! G \/
  exists gen0 gen', rt_generations r !! G = Some gen0 /\
    rt_generations (set_limits r g gen ls) !! G = Some gen' /\
    alike (rate_key q) (rate_of q (gn_limits gen0)) (rate_of q (gn_limits gen')).
Proof using Type.
  intros Hg Ha. rewrite set_limits_lookup. case_decide as Heq; [subst g|by left].
  right. by eexists gen, _.
Qed.

Lemma rate_inv_handles r c a r' h i :
  rate_inv r h -> handles r c a r' -> rate_inv r' (h ++ [Call i (rt_clock r') (observe c a)]).
Proof using Type*.
  intros Hi Hh.
  assert (Hno : forall st, Install st ∈ [Call i (rt_clock r') (observe c a)] -> rs_generation st <> G)
    by set_solver.
  destruct Hh as [|g l gen ok ls Hg Ha|g l gen ls Hg Ha| |g q' gen t now ok ls Hg Hnow Hrd Ha| | | | | | | | | | |];
    try (apply (rate_inv_quiet r); [done| |reflexivity|done|by left];
         cbn [set_locks set_clock set_oauth set_alerts rt_clock]; lia).
  - apply (rate_inv_quiet r); [done|reflexivity|reflexivity|done|]. apply same_rates; [done|].
    rewrite (acquire_rates _ _ _ _ _ Ha). apply alike_refl.
  - apply (rate_inv_quiet r); [done|reflexivity|reflexivity|done|]. apply same_rates; [done|].
    rewrite (release_rates _ _ _ _ Ha). apply alike_refl.
  - cbn [set_clock rt_clock observe] in *. destruct (decide (g = G /\ q' = q)) as [[-> ->]|Hne].
    + destruct Hi as [Hu Hc].
      assert (Hn : let_through (h ++ [Call i t (OAllow G q ok)]) =
        (if ok && (lo <=? t) && (t <? lo + (fw_window f0 - Z.of_nat max_lag)) then 1 else 0) + let_through h).
      { unfold let_through. rewrite passed_app. cbn [passed].
        destruct ok; cbn [andb]; [rewrite decide_True by done|]; lia. }
      split; rewrite Hn.
      * cbn [set_clock rt_generations]. by rewrite set_limits_lookup, decide_True.
      * intros st [Hin|Hin]%elem_of_app Hst Hf; [|by destruct (Hno st Hin)].
        destruct (Hc st Hin Hst Hf) as (gen1 & Hgen & f & Hr & Hl & Hw & Hinv).
        replace gen1 with gen in * by congruence.
        destruct (allow_rate_own _ _ _ _ _ _ Ha Hr) as (f' & Hr' & Hf').
        pose proof (NewFixedWindow_fresh _ _ Hf) as [Hpos _].
        rewrite <- Hl in Hpos. rewrite <- Hl, <- Hw in Hinv.
        pose proof (window_inv_step f (rate_key q) (Z.of_nat max_lag) t now (rt_clock r) lo _ Hpos
                      ltac:(rewrite Hw; done) Hnow Hrd Hinv) as Hstep.
        pose proof (Allow_config now f (rate_key q)) as [Hl' Hw'].
        rewrite Hf' in Hstep, Hl', Hw'. cbn [snd] in *.
        eexists. split; [cbn [set_clock rt_generations]; by rewrite set_limits_lookup, decide_True|].
        exists f'. cbn [gn_limits set_clock rt_clock]. rewrite <- Hl, <- Hw. by split_and!.
    + apply (rate_inv_quiet r); [done|exact Hnow| |done|].
      * unfold let_through. cbn [passed]. destruct ok; [|done]. by rewrite decide_False.
      * destruct (decide (g = G)) as [->|Hg']; [apply same_rates; [done|]; eapply allow_rates; naive_solver|].
        left. symmetry. cbn [set_clock rt_generations]. by rewrite set_limits_lookup, decide_False.
Qed.

(** A new state comes with limiters of its own. *)
Lemma rate_inv_store {Fh : Host} r h cfg st gen :
  rate_inv r h -> newRuntimeState cfg (rt_nextGen r) = Ok (st, gen) ->
  rt_generations r !! rt_nextGen r = None -> rate_inv (store_state r st gen) (h ++ [Install st]).
Proof using Type.
  intros Hi Hn Hfresh. destruct (newRuntimeState_new _ _ _ _ Hn) as [_ Hgen].
  destruct (decide (rt_nextGen r = G)) as [HG|HG].
  2: { apply (rate_inv_quiet r); [done|reflexivity|done| |].
       - intros st' [= ->]%list_elem_of_singleton. by rewrite Hgen.
       - left. cbn [store_state rt_generations]. by rewrite Hgen, lookup_insert_ne. }
  destruct Hi as [Hu Hc]. rewrite HG in Hfresh, Hgen. specialize (Hu Hfresh).
  assert (Hz : let_through (h ++ [Install st]) = 0)
    by (unfold let_through in *; rewrite passed_app, Hu; done).
  split; rewrite Hz; cbn [store_state rt_generations rt_clock]; rewrite Hgen.
  { by rewrite lookup_insert_eq. }
  intros st' [Hst'|Hst']%elem_of_app Hs Hf.
  - destruct (Hc st' Hst' Hs Hf) as (? & ? & _). congruence.
  - apply list_elem_of_singleton in Hst'. injection Hst' as ->. exists gen.
    split; [apply lookup_insert_eq|]. by apply (counted_new _ cfg (rt_nextGen r) st).
Qed.

Lemma gateway_rate g h : gateway g h -> rate_inv (gw_runtime g) h.
Proof using Type*.
  induction 1 as [db v t fs fs' r Hs|g h ev g' Hg IH Hstep]; cbn [started_with gw_runtime].
  { apply start_Ok in Hs as (cfg & opened & _ & Hs).
    unfold NewRuntime in Hs. destruct opened; [|done].
    destruct (newRuntimeState cfg 1) as [[st gen]|] eqn:Hn; [|done]. injection Hs as <-.
    split; [done|]. cbn [rt_state rt_generations rt_clock fst snd].
    intros st' [= ->]%list_elem_of_singleton Hst Hf.
    rewrite (proj2 (newRuntimeState_new _ _ _ _ Hn)) in Hst. exists gen.
    split; [rewrite <- Hst; apply lookup_singleton_eq|]. by apply (counted_new (Fh := fs_host fs') _ cfg 1 st). }
  destruct Hstep as [r ts reqs ph i c k h0 a r' Hc Ha|r ts reqs ph req Hr
    |r ts reqs ph evs r' ph' Hp|r ts reqs ph st client ok Hd|r ts reqs ph i]; cbn [gw_runtime] in *.
  - by apply rate_inv_handles with (r := r).
  - by rewrite app_nil_r.
  - destruct Hp as [fs r1 ph1 Hb|st gen|st gen|st].
    + destruct (build_same (Fh := fs_host fs) _ _ _ _ Hb) as (Hclock & _ & Hgen).
      apply (rate_inv_quiet r); [done|lia|done|set_solver|left; by rewrite Hgen].
    + apply (rate_inv_quiet r); [done|reflexivity|done|set_solver|by left].
    + destruct (gateway_inv_prepared _ _ _ _ Hg) as [_ [(fs & cfg & _ & Hn) Hfresh]].
      cbn [gw_runtime] in Hn, Hfresh.
      destruct (newRuntimeState_new (Fh := fs_host fs) _ _ _ _ Hn) as [_ Hgen].
      by apply (rate_inv_store (Fh := fs_host fs) r h cfg).
    + apply (rate_inv_quiet r); [done|reflexivity|done|set_solver|by left].
  - apply (rate_inv_quiet r); [done|unfold store_version; by case_match|done|set_solver|].
    unfold store_version. destruct (rt_generations r !! rs_generation st) as [gen|] eqn:Hgen; [|by left].
    cbn [set_generations rt_generations]. rewrite lookup_insert. case_decide as Heq; [|by left].
    right. rewrite <- Heq. eexists gen, _. split_and!; [done..|]. apply alike_refl.
  - rewrite app_nil_r. by destruct IH.
Qed.
End rate.

(** ** The gateway *)

(** C3: what leaves the gateway, and where it comes from.  However requests,
    reloads and alerts interleave, a request sent upstream on behalf of a client
    goes to the base URL of a configuration that was loaded, validated and put
    into service before it, on a route and version that configuration allows,
    with a body within the configured limit.  The client's Authorization and
    Proxy-Authorization are never sent on.  The header is one of two kinds.
    Either it carries the bearer of the configuration, as the files gave it when
    the state was made, and each of its entries is that bearer, Accept-Encoding:
    identity, a configured extra header, or an entry of the client's header (a
    cookie too), unchanged and none of the hop-by-hop and forwarding names.  Or
    the route is a public subscription and subscriptions are enabled: no bearer
    then, and each entry is the configured authentication header of subscriptions,
    a configured extra header, or a name of the request allow-list --
    Accept-Encoding: identity, or an entry of the client's, unchanged and not
    hop-by-hop. *)
Theorem upstream_requests_clean g h (n : nat) i time out r :
  gateway g h -> h !! n = Some (Call i time (OUpstream out r)) ->
  exists req st path q route, gw_requests g !! i = Some req /\
    Install st ∈ firstn n h /\ checked req (said i (firstn n h)) st path q route /\
    clean_upstream st route (req_Header req) out.
Proof.
  intros Hg Hn.
  destruct (gateway_wp VerifyPKCS1v15 cfgPath (fun req => guard (sent_for req)) (fun _ _ _ => True)
    (fun req Ha => apiHandler_sends _ req ∅ (ar_cache _ Ha) (ar_header _ Ha)) g h Hg) as [_ Hc].
  destruct (Hc n i time _ Hn) as (req & c & a & Hreq & Ho & HG).
  symmetry in Ho. apply observe_Upstream in Ho as ->.
  destruct HG as (st & path & q & route & pub & Hch & Hs & Hpub).
  assert (Hch' : checked req (said i (firstn n h)) st path q route)
    by (eapply checked_incl; [apply rev_incl|exact Hch]).
  destruct (loaded_installed _ _ _ _ _ Hg (ch_state _ _ _ _ _ _ Hch')) as [Hin Hst].
  exists req, st, path, q, route. split_and!; [done..|]. by eapply sent_clean.
Qed.

(** C4: restricted writes are atomic.  Every upstream call of a restricted
    write -- its ownership reads, the write, the check after it -- is made under
    the lock of its resource, with single-writer writes enabled; and between two
    upstream calls a request makes under one lock, no other request of the
    gateway makes an upstream call under it: not a second client, nor one that is
    served with the configuration of before or after a reload. *)
Theorem restricted_writes_atomic g h :
  gateway g h ->
  (forall (n : nat) i time out r req, h !! n = Some (Call i time (OUpstream out r)) ->
     gw_requests g !! i = Some req -> key_held locked req (said i (firstn n h))) /\
  (forall k i j (n m p : nat), upstream_under h n i k -> upstream_under h p i k ->
     upstream_under h m j k -> (n < m < p)%nat -> j = i).
Proof.
  intros Hg. split.
  - intros n i time out r req Hn Hreq.
    destruct (gateway_wp VerifyPKCS1v15 cfgPath
      (fun req => guard (fun seen _ => key_held locked_now req seen)) (fun _ _ _ => True)
      (fun req Ha => apiHandler_locked _ req ∅ (ar_cache _ Ha)) g h Hg) as [_ Hc].
    destruct (Hc n i time _ Hn) as (req' & c & a & Hreq' & Ho & HG).
    rewrite Hreq in Hreq'. injection Hreq' as <-.
    symmetry in Ho. apply observe_Upstream in Ho as ->. by apply key_held_rev.
  - intros k i j n m p (_ & _ & _ & _ & Hi1) (_ & _ & _ & _ & Hi2) (_ & _ & _ & _ & Hj) Hnmp.
    assert (Hi : locked k (said i (firstn m h)))
      by (apply (locked_between g h i k n m p); [done|lia|lia|done|done]).
    destruct (gateway_prefix _ _ g h m Hg) as [g' Hg']; [lia|].
    by eapply locked_exclusive.
Qed.

(** C10: a login attempt is used once.  An attempt a callback is handed out has
    not expired, and it is the very attempt that some request of the gateway
    filed under that state earlier: since then it was neither handed out to
    anyone nor replaced, and no reload has made the gateway forget its pending
    logins. *)
Theorem attempts_single_use g h (n : nat) i time s now a :
  gateway g h -> h !! n = Some (Call i time (OTake s now (Some a))) ->
  live now a /\ filed s a (firstn n h).
Proof. intros Hg. by apply (gateway_attempts g h Hg). Qed.

(** C8: rates are enforced across the whole gateway.  While a configuration is
    in service, however many requests race, the requests of one token -- or of
    one subscription client -- let through in any interval of one window length
    are at most twice its configured limit; the interval is shorter by the longest
    time a request takes from reading the clock to entering the limiter, as the
    limiter may see the readings in another order. *)
Theorem rates_enforced g h st q lo f :
  gateway g h -> Install st ∈ h ->
  NewFixedWindow (rate_spec q (rs_cfg st)) = Ok (Some f) -> 0 < fw_window f <= int64_max ->
  passed (rs_generation st) q lo (lo + (fw_window f - Z.of_nat max_lag)) h <= 2 * fw_limit f.
Proof.
  intros Hg Hst Hf Hw.
  destruct (gateway_rate (rs_generation st) q lo f Hw g h Hg) as [_ Hc].
  destruct (Hc st Hst eq_refl Hf) as (gen & _ & f' & _ & _ & _ & [Hn _]).
  exact (proj2 Hn).
Qed.
End facts.

(** ** Running a gateway *)

Section running.
Context `{Unicode} `{Host} `{Regexps} `{NetParsers} `{NetFiles} `{RequestURLs} `{OS}.
Context `{Yc : Yaml Config} `{Sch : Scheduling}.
Context (VerifyPKCS1v15 : PublicKey -> string -> string -> bool) (cfgPath : string).
Context (upstream : OutRequest -> res Reply) (fetch : FetchRequest -> res Reply).

(** As [respond], with random bytes and an identity provider. *)
Definition answer_to (r : Runtime) (c : call) : option (answer c * Runtime) :=
  match c return option (answer c * Runtime) with
  | Fetch q => Some (fetch q, r)
  | Random n => Some (Some (bytes (repeat 120%nat n)), r)
  | c => respond upstream r c
  end.

Lemma answer_to_handles r c a r' : answer_to r c = Some (a, r') -> handles r c a r'.
Proof.
  destruct c; try exact (respond_handles _ _ _ _ _); intros [= <- <-];
    [apply h_random|apply h_fetch].
Qed.

(** At most [n] calls of the [i]-th request. *)
Fixpoint advance_to (n i : nat) (s : Gateway * history) : Gateway * history :=
  match n with
  | O => s
  | S n' =>
      let '(g, h) := s in
      match gw_threads g !! i with
      | Some {| th_prog := Vis c k; th_hist := h0 |} =>
          match answer_to (gw_runtime g) c with
          | Some (a, r') =>
              advance_to n' i
                ({| gw_runtime := r';
                    gw_threads := <[i := {| th_prog := k a; th_hist := observe c a :: h0 |}]>
                                    (gw_threads g);
                    gw_requests := gw_requests g; gw_reload := gw_reload g |},
                 h ++ [Call i (rt_clock r') (observe c a)])
          | None => s
          end
      | _ => s
      end
  end.

Definition arrive (req : Request) (s : Gateway * history) : Gateway * history :=
  ({| gw_runtime := gw_runtime (fst s);
      gw_threads := gw_threads (fst s) ++ [handler VerifyPKCS1v15 req];
      gw_requests := gw_requests (fst s) ++ [req]; gw_reload := gw_reload (fst s) |}, snd s).

Definition is_gateway (s : Gateway * history) : Prop :=
  gateway VerifyPKCS1v15 cfgPath (fst s) (snd s).

Lemma advance_is_gateway n i s : is_gateway s -> is_gateway (advance_to n i s).
Proof.
  revert s. induction n as [|n IH]; intros [g h] Hg; cbn [advance_to]; [done|].
  destruct (gw_threads g !! i) as [[[o|c k] h0]|] eqn:Ht; [done| |done].
  destruct (answer_to (gw_runtime g) c) as [[a r']|] eqn:Hr; [|done].
  apply IH. eapply continues; [exact Hg|]. destruct g as [r ts reqs ph].
  apply serves with (c := c); [exact Ht|]. by apply answer_to_handles.
Qed.

Lemma arrive_is_gateway req s : arriving req -> is_gateway s -> is_gateway (arrive req s).
Proof.
  intros Hr Hg. unfold is_gateway, arrive. cbn [fst snd].
  rewrite <- (app_nil_r (snd s)). eapply continues; [exact Hg|].
  destruct (fst s) as [r ts reqs ph]. by apply receives.
Qed.
End running.

(** ** Witnesses

    One gateway with the panel enabled.  Two clients act on one user: the first
    one is halfway through, the second one waits; a third one logs in. *)

Definition working_config : Config :=
  let d := panel_config in
  Build_Config (cfg_Server d) (cfg_Upstream d)
    {| comp_RemnawaveVersion := "2.8.1"; comp_AssumeVersion := "2.8.1";
       comp_AllowVersionMismatch := false |} (cfg_Limits d)
    (cfg_Metrics d) (cfg_Audit d) (cfg_Alerts d) (cfg_Report d) (cfg_PublicSubs d)
    (cfg_PanelFacade d) (cfg_Reload d) (cfg_WriteSafety gateway_config) (cfg_Tokens d) [] "".

Definition working_os : OS := {|
  os_refuses := fun _ _ => false; os_partial := fun _ _ => 0%nat;
  os_TempName := fun _ dir => dir; os_Glob := fun _ _ _ => Ok [] |}.

Definition working_yaml : Yaml Config := {|
  yaml_Unmarshal := fun b c => if b =s? "gateway" then Ok working_config else Err "yaml" |}.

Definition working_files : FS := {[ "guard.yaml" := {| f_data := "gateway"; f_perm := 384 |} ]}.

Definition start_time : Z := 1700000000 * Second.

Definition working_start : res Runtime :=
  snd (start (H0 := panel_host) (H5 := working_os) (Yc := working_yaml) "guard.yaml" text_db "dev"
         start_time working_files).

Definition authorize_request : Request :=
  example_request "POST" "/api/auth/oauth2/authorize" ∅
    (Some (Marshal (JObj [("provider", JStr "telegram")]))).

(** The state drawn by the run, in the cookie and in the body. *)
Definition drawn_state : string := Base64.EncodeToString (bytes (repeat 120%nat 32)).

Definition return_request : Request :=
  example_request "POST" "/api/auth/oauth2/callback"
    (Set_ "Cookie" ("remnaguard_panel_oauth_state=" +:+ drawn_state) ∅)
    (Some (Marshal (JObj [("provider", JStr "telegram"); ("code", JStr "code");
                          ("state", JStr drawn_state)]))).

Definition unreachable (q : FetchRequest) : res Reply := Err "unreachable".

Definition calls_of := advance_to example_upstream_reply unreachable.
Definition client := arrive (H0 := panel_host) example_pkcs.

Definition started (r : Runtime) : Gateway * history :=
  (started_with r, [Install (rt_state r)]).

Definition working_run (r : Runtime) : Gateway * history :=
  calls_of 60 3 (client return_request (calls_of 60 2 (client authorize_request
    (calls_of 60 1 (calls_of 60 0 (calls_of 20 1 (client disable_request
      (calls_of 9 0 (client disable_request (started r)))))))))).

Definition working : Gateway * history :=
  match working_start with
  | Ok r => working_run r
  | Err _ => working_run example_runtime
  end.

Lemma example_arriving m t k v b :
  arriving (example_request m t (Set_ k v ∅) b).
Proof. split; [done|done|]. apply canonical_Set. by intros k' v' Hk%lookup_empty_Some. Qed.

Lemma plain_arriving m t b : arriving (example_request m t ∅ b).
Proof. split; [done|done|]. intros k v Hk. discriminate Hk. Qed.

Lemma working_is_gateway :
  is_gateway (H0 := panel_host) (H5 := working_os) (Yc := working_yaml) example_pkcs "guard.yaml"
    working.
Proof.
  assert (Hok : is_ok working_start = true) by (vm_compute; reflexivity).
  unfold working. destruct working_start as [r|] eqn:Hs; [|discriminate Hok].
  unfold working_run, client, calls_of.
  repeat first [apply advance_is_gateway|apply arrive_is_gateway].
  all: try solve [apply example_arriving|apply plain_arriving]. eapply starts_with; exact Hs.
Qed.

(** The [n]-th call of the run, when it is an upstream one. *)
Definition working_call (n : nat) : nat * Z * OutRequest * res Reply :=
  match snd working !! n with
  | Some (Call i t (OUpstream out r)) => (i, t, out, r)
  | _ => (0%nat, 0, request_out (rs_proxy gateway_state) disable_request "" "" false, Err "")
  end.

Definition call_out (n : nat) : OutRequest := snd (fst (working_call n)).

Lemma working_at n :
  match snd working !! n with Some (Call _ _ (OUpstream _ _)) => true | _ => false end = true ->
  snd working !! n = Some (Call (fst (fst (fst (working_call n)))) (snd (fst (fst (working_call n))))
    (OUpstream (call_out n) (snd (working_call n)))).
Proof.
  unfold call_out, working_call. destruct (snd working !! n) as [[i t []| |]|]; done.
Qed.

Lemma upstream_requests_clean_witness :
  out_Method (call_out 9) = "POST" /\
  exists req st path q route, gw_requests (fst working) !! 0%nat = Some req /\
    Install st ∈ firstn 9 (snd working) /\ checked req (said 0 (firstn 9 (snd working))) st path q route /\
    clean_upstream (H0 := panel_host) (H5 := working_os) st route (req_Header req)
      (call_out 9).
Proof.
  split; [vm_compute; reflexivity|].
  apply (upstream_requests_clean _ _ _ _ 9 0%nat (snd (fst (fst (working_call 9))))
    _ (snd (working_call 9)) working_is_gateway).
  apply (working_at 9). vm_compute. reflexivity.
Defined.

Lemma locked_at k s (n : nat) :
  s !! n = Some (OLock k) ->
  forallb (fun o => match o with OUnlock k' => negb (k' =s? k) | _ => true end) (skipn (S n) s) = true ->
  locked k s.
Proof.
  intros Hn Hb. exists (firstn n s), (skipn (S n) s). split; [by rewrite take_drop_middle|].
  intros Hin%list_elem_of_In. rewrite forallb_forall in Hb. specialize (Hb _ Hin).
  cbn beta iota in Hb. by rewrite eqs_refl in Hb.
Qed.

(** The reads before and after the first write, and the write. *)
Lemma working_under (n : nat) :
  n ∈ [8; 9; 16]%nat -> upstream_under (snd working) n 0 disable_key.
Proof.
  rewrite !elem_of_cons. intros Hn.
  assert (Hu : match snd working !! n with Some (Call 0 _ (OUpstream _ _)) => true | _ => false end = true).
  { destruct Hn as [->|[->|[->|[]%not_elem_of_nil]]]; vm_compute; reflexivity. }
  exists (snd (fst (fst (working_call n)))), (call_out n), (snd (working_call n)). split.
  - rewrite (working_at n) at 1; unfold working_call in *;
      destruct (snd working !! n) as [[[|] t []| |]|]; done.
  - apply (locked_at _ _ 6); destruct Hn as [->|[->|[->|[]%not_elem_of_nil]]];
      vm_compute; reflexivity.
Qed.

Lemma restricted_writes_atomic_witness :
  key_held locked disable_request (said 0 (firstn 9 (snd working))) /\
  forall j m, upstream_under (snd working) m j disable_key -> (8 < m < 16)%nat -> j = 0%nat.
Proof.
  destruct (restricted_writes_atomic _ _ _ _ working_is_gateway) as [Hk Hb]. split.
  - destruct (working_under 9) as (t & out & r & Hn & _); [apply list_elem_of_In; simpl; tauto|].
    apply (Hk 9%nat 0%nat t out r); [exact Hn|vm_compute; reflexivity].
  - intros j m Hj Hm.
    apply (Hb disable_key 0%nat j 8%nat m 16%nat); 
      [apply working_under, list_elem_of_In; simpl; tauto..|exact Hj|exact Hm].
Defined.

Lemma attempts_single_use_witness :
  exists now a, live now a /\ filed drawn_state a (firstn 45 (snd working)).
Proof.
  assert (Ht : match snd working !! 45%nat with
    | Some (Call _ _ (OTake s _ (Some _))) => s =s? drawn_state | _ => false end = true)
    by (vm_compute; reflexivity).
  destruct (snd working !! 45%nat) as [[i t [| | | | | | | | | |s now [a|]| | | | |]| |]|] eqn:Hn;
    try discriminate Ht.
  apply eqs_true in Ht. subst s. exists now, a.
  by apply (attempts_single_use _ _ _ _ 45 i t _ _ _ working_is_gateway).
Defined.

(** 600 requests a minute, as by default; 2 were made. *)
Lemma rates_enforced_witness :
  passed 1 (RToken "acme") start_time (start_time + (Minute - 1000)) (snd working) = 2 /\
  passed 1 (RToken "acme") start_time (start_time + (Minute - 1000)) (snd working) <= 2 * 600.
Proof.
  split; [vm_compute; reflexivity|].
  assert (Hst : match snd working !! 0%nat with
    | Some (Install st) => (rs_generation st =? 1) &&
        match NewFixedWindow (rate_spec (RToken "acme") (rs_cfg st)) with
        | Ok (Some f) => (fw_limit f =? 600) && (fw_window f =? Minute) | _ => false end
    | _ => false end = true) by (vm_compute; reflexivity).
  destruct (snd working !! 0%nat) as [[|st|]|] eqn:H0; try discriminate Hst.
  apply andb_true_iff in Hst as [Hg%Z.eqb_eq Hst].
  destruct (NewFixedWindow _) as [[f|]|] eqn:Hf; try discriminate Hst.
  apply andb_true_iff in Hst as [Hl%Z.eqb_eq Hw%Z.eqb_eq].
  rewrite <- Hg, <- Hl, <- Hw.
  apply (rates_enforced _ _ _ _ st (RToken "acme") start_time f working_is_gateway); [|exact Hf|].
  - by eapply list_elem_of_lookup_2.
  - rewrite Hw. split; [reflexivity|vm_compute; discriminate].
Defined.
