(* ===== verification/Logins.v ===== *)
(** * Logins at the gateway

    A session the gateway answers with comes from a login it started: the attempt
    was filed by one of its requests and is used for this session only; and the
    session opens the gateway to the actor of the login, until it expires. *)

From S2P Require Import Prelude GoStrings Encoding Json Sha256 Ratelimit Config ConfigFacts Routes.
From S2P Require Import Auth Policy EffectiveRoute Httputil Remnawave BodyPolicy ResponsePolicy.
From S2P Require Import Proxy Alerts AuditLog OAuthStore Effects PanelFacade Respond PanelOAuth.
From S2P Require Import PanelLogin Handler Calls Example Authorization Resources PanelLoginFacts.
From S2P Require Import Panics Runtime Concurrency Cmd Gateway GatewayFacts.
From stdpp Require Import options.

Local Open Scope Z_scope.

(** ** What the handler does on the return from Telegram *)

Definition callback_path : string := "/api/auth/oauth2/callback".

Section logins.
Context `{Unicode} `{Host} `{Regexps} `{NetParsers} `{NetFiles} `{RequestURLs} `{OS}.
Context `{Yc : Yaml Config} `{Sch : Scheduling}.
Context (VerifyPKCS1v15 : PublicKey -> string -> string -> bool) (cfgPath : string).

Notation gateway := (gateway VerifyPKCS1v15 cfgPath).

(** The request is the return of a login, for a gateway in state [st]. *)
Definition login_return (st : runtimeState) (req : Request) : bool :=
  pf_Enabled (cfg_PanelFacade (rs_cfg st)) && (req_Method req =s? "POST") &&
  match ValidateRawRequest req (lim_MaxPathLength (cfg_Limits (rs_cfg st)))
          (lim_MaxQueryLength (cfg_Limits (rs_cfg st))) with
  | Ok (path, _) => trim_slashes path =s? callback_path
  | Err _ => false
  end.

(** The request once its body is read. *)
Definition body_read (st : runtimeState) (req req' : Request) : Prop :=
  bufferRequestBody (markPanelBearerCandidate (rs_cfg st) req)
    (lim_MaxBodyBytes (cfg_Limits (rs_cfg st))) = Ok req'.

Definition login_guard (req : Request) (h : list obs) (c : call) : Prop :=
  match c with
  | Write _ s text => s = 200 -> forall l st, h = l ++ [OLoad st] -> login_return st req = true ->
      exists req', body_read st req req' /\ logged_in VerifyPKCS1v15 h req' (rs_cfg st) text
  | _ => True
  end.

(** Loaded first. *)
Definition begun (st : runtimeState) (h : list obs) : Prop := exists l, h = l ++ [OLoad st].

Lemma begun_more st h o : begun st h -> begun st (o :: h).
Proof. intros [l ->]. by exists (o :: l). Qed.

Lemma begun_unique st st' h : begun st h -> begun st' h -> st = st'.
Proof. intros [l ->] [l' Heq]. apply app_inj_tail in Heq as [_ Heq]. congruence. Qed.

(** No other request is a return, whatever is done with it. *)
Lemma other_guarded {A} req st (p : prog A) h :
  begun st h -> login_return st req = false -> wp (login_guard req) p h (fun _ _ => True).
Proof.
  intros Hb Hr. eapply wp_mono; [eapply (wp_kept (begun st)); [exact Hb|eauto using begun_more|]|done].
  intros h' c Hb'. destruct c; try done. intros _ l st' -> Hr'.
  rewrite (begun_unique st st' (l ++ [OLoad st'])) in Hr; [congruence|done|by exists l].
Qed.

Lemma returned_guarded G p h : wp G p h (fun _ _ => True) -> wp G (returned p) h (fun _ _ => True).
Proof. intros Hp. apply wp_bind. by eapply wp_mono. Qed.

(** The guard of one login is the guard of the handler. *)
Lemma session_login {A} req req' st (p : prog A) h :
  begun st h -> (login_return st req = true -> body_read st req req') ->
  wp (session_guard VerifyPKCS1v15 req' (rs_cfg st)) p h (fun _ _ => True) ->
  wp (login_guard req) p h (fun _ _ => True).
Proof.
  intros Hb Hr. revert h Hb. induction p as [a|c k IH]; intros h Hb; cbn [wp]; [done|].
  intros [Hc Hk]. split; [|intros r; apply IH; eauto using begun_more].
  destruct c; try done. intros -> l st' Hl Hr'.
  replace st' with st in * by (apply (begun_unique st st' h); [done|by exists l]).
  exists req'. split; [auto|]. by apply Hc.
Qed.
(** No answer 200. *)
Definition no_success (c : call) : Prop := match c with Write _ s _ => s <> 200 | _ => True end.

Lemma deny_no_success w r route tid cid reason status :
  status <> 200 -> only no_success (Respond.deny w r route tid cid reason status).
Proof. intros Hs. unfold Respond.deny, writeJSON, http_Error. calls. all: by cbn [no_success]. Qed.

Lemma no_success_guarded {A} req (p : prog A) h :
  only no_success p -> wp (login_guard req) p h (fun _ _ => True).
Proof.
  intros Hp. eapply wp_mono; [eapply (wp_only _ (fun _ => True)); [exact Hp|done|done|]|done].
  intros h' c Hc _. destruct c; try done. intros Hs. by destruct Hc.
Qed.

Lemma denied_guarded req w r route tid cid reason status h :
  status <> 200 ->
  wp (login_guard req) (returned (Respond.deny w r route tid cid reason status)) h
    (fun _ _ => True).
Proof. intros Hs. by apply returned_guarded, no_success_guarded, deny_no_success. Qed.

(** Served as the return of a login. *)
Lemma return_served req st w h :
  begun st h -> login_return st req = true ->
  wp (login_guard req) (serve VerifyPKCS1v15 w req st) h (fun _ _ => True).
Proof.
  intros Hb Hr. pose proof Hr as Hr'. unfold login_return in Hr'.
  apply andb_true_iff in Hr' as [[He Hm%eqs_true]%andb_true_iff Hp]. unfold serve. cbv zeta.
  destruct (ValidateRawRequest _ _ _) as [[path q]|]; [|done]. apply eqs_true in Hp. rewrite Hp.
  destruct (Match _ _ _) as [route|]; [|by apply denied_guarded].
  unfold serve_route. cbv zeta. rewrite He.
  unfold handlePanelAuthFacade.
  replace (HasPrefix callback_path "/api/auth/") with true by reflexivity. cbn [negb].
  destruct (mark_same (rs_cfg st) req) as [_ _ Hm1 _]. cbv zeta. rewrite Hm1, Hm, eqs_refl.
  apply returned_guarded.
  destruct (bufferRequestBody _ _) as [req'|e] eqn:Hbuf.
  - cbn [andb String.eqb Ascii.eqb Bool.eqb callback_path].
    apply (session_login req req' st); [done|done|]. apply callback_guarded.
  - apply no_success_guarded, deny_no_success. unfold body_error_status. by case_match.
Qed.

Lemma apiHandler_logins req w :
  wp (login_guard req) (apiHandler VerifyPKCS1v15 w req) [] (fun _ _ => True).
Proof.
  unfold apiHandler. apply wp_bind, wp_perform. split; [exact I|]. intros st. cbn [observe] in *. cbv zeta.
  assert (Hb : begun st [OLoad st]) by (by exists []).
  destruct (login_return st req) eqn:Hr; [|by eapply other_guarded].
  apply wp_bind, wp_perform. split; [exact I|]. intros [|]; cbn [negb].
  - apply wp_defer. eapply wp_mono; [apply return_served; [by apply begun_more|done]|].
    intros h' o _. by split.
  - apply returned_guarded, no_success_guarded. unfold http_Error. calls. by cbn [no_success].
Qed.
(** ** One answer for each request *)

Lemma said_there i (n : nat) time o h : h !! n = Some (Call i time o) -> o ∈ said i h.
Proof.
  intros Hn. rewrite <- (take_drop_middle _ _ _ Hn), said_app. apply elem_of_app. right.
  cbn [said]. rewrite decide_True by done. apply list_elem_of_here.
Qed.

Lemma count_in f o l : o ∈ l -> f o = true -> (1 <= count f l)%nat.
Proof.
  intros Hin Hf. unfold count. assert (Ho : o ∈ List.filter f l)
    by (apply list_elem_of_In, filter_In; split; [by apply list_elem_of_In|done]).
  destruct (List.filter f l); [by apply not_elem_of_nil in Ho|simpl; lia].
Qed.

Lemma count_app f l1 l2 : count f (l1 ++ l2) = (count f l1 + count f l2)%nat.
Proof. unfold count. by rewrite List.filter_app, length_app. Qed.

Lemma gateway_one_write g h i :
  gateway g h -> (count is_write (said i h) <= 1)%nat.
Proof.
  intros Hg. pose proof (gateway_threads_ok _ _ _ _ Hg) as [Hl Hh Hs].
  destruct (gw_threads g !! i) as [t|] eqn:Ht.
  2: { apply lookup_ge_None in Ht. rewrite Hs by done. unfold count. simpl. lia. }
  destruct (proj2 (lookup_lt_is_Some (gw_requests g) i)) as [req Hreq].
  { rewrite Hl. by eapply lookup_lt_Some. }
  destruct (gateway_wp VerifyPKCS1v15 cfgPath (fun _ => gives_back)
    (fun _ h o => adds (when_returned o) 20 38 [] h)
    (fun req _ => apiHandler_costs _ ∅ req []) g h Hg) as [Hw _].
  destruct (wp_final _ _ _ _ (rt_state (gw_runtime g)) (Hw i t req Ht Hreq)) as (h' & o & Hc & _).
  rewrite count_app, (Hh _ _ Ht), count_rev in Hc. unfold when_returned, count in *.
  destruct o; simpl in Hc; lia.
Qed.

Lemma one_write_at g h i (n1 n2 : nat) t1 t2 o1 o2 :
  gateway g h -> h !! n1 = Some (Call i t1 o1) -> h !! n2 = Some (Call i t2 o2) ->
  is_write o1 = true -> is_write o2 = true -> (n1 <= n2)%nat.
Proof.
  intros Hg Hn1 Hn2 Ho1 Ho2. destruct (decide (n1 <= n2)%nat) as [|Hlt]; [done|exfalso].
  pose proof (gateway_one_write g h i Hg) as Hc.
  rewrite <- (take_drop n1 h), said_app, count_app in Hc.
  assert (Ha : (1 <= count is_write (said i (drop n1 h)))%nat).
  { eapply count_in; [|exact Ho1]. apply (said_there _ 0 t1). by rewrite lookup_drop, Nat.add_0_r. }
  assert (Hb : (1 <= count is_write (said i (firstn n1 h)))%nat).
  { eapply count_in; [|exact Ho2]. apply (said_there _ n2 t2). rewrite lookup_take_lt by lia. done. }
  lia.
Qed.

(** ** The attempt a session comes from *)

Definition served_with (i : nat) (h : history) (st : runtimeState) : Prop :=
  exists l, said i h = OLoad st :: l.

(** [a] was filed under [s] at position [p], and not touched since. *)
Definition filed_at (p : nat) (s : string) (a : panelOAuthAttempt) (h : history) : Prop :=
  (exists j time now, h !! p = Some (Call j time (OPut s a now true))) /\
  forall (q : nat) e, (p < q)%nat -> h !! q = Some e -> ~ touches s e.

Lemma filed_position s a h : filed s a h -> exists p, filed_at p s a h.
Proof.
  intros (h1 & j & time & now & h2 & -> & Hq). exists (length h1). split.
  - exists j, time, now. by rewrite lookup_app_r, Nat.sub_diag by lia.
  - intros q e Hlt Hn. rewrite lookup_app_r in Hn by lia.
    destruct (q - length h1)%nat as [|k] eqn:Hk; [lia|]. cbn [lookup list_lookup] in Hn.
    by eapply Forall_lookup_1 in Hq.
Qed.

(** The answer at [n] to the [i]-th request, [req] served with [st], carries a
    session; it comes from the attempt filed at [p] and taken by the request at
    [m]. *)
Inductive login_from (h : history) (p n i : nat) (req : Request) (st : runtimeState) : Prop :=
  | logged m header text t1 t2 now req' body a actorID :
      h !! n = Some (Call i t2 (OWrite header 200 text)) ->
      body_read st req req' -> decode_callback req' = Some body ->
      Cookie req' panelOAuthStateCookie = Some (cb_State body) ->
      (m < n)%nat -> h !! m = Some (Call i t1 (OTake (cb_State body) now (Some a))) ->
      live now a -> filed_at p (cb_State body) a (firstn m h) ->
      exchanged VerifyPKCS1v15 (said i (firstn n h)) (rs_cfg st) (cb_Code body) a actorID ->
      session_answer (rs_cfg st) actorID text ->
      login_from h p n i req st.

(** An attempt is handed out once. *)
Lemma taken_before h (p m1 m2 : nat) s1 s2 a1 a2 i t now :
  h !! m1 = Some (Call i t (OTake s1 now (Some a1))) ->
  filed_at p s1 a1 (firstn m1 h) -> filed_at p s2 a2 (firstn m2 h) -> (m2 <= m1)%nat.
Proof.
  intros Ht [(j1 & u1 & w1 & Hp1) _] [(j2 & u2 & w2 & Hp2) Hq].
  apply firstn_lookup in Hp1 as [Hp1 Hlt]. apply firstn_lookup in Hp2 as [Hp2 _].
  assert (s1 = s2) as <- by congruence.
  destruct (decide (m2 <= m1)%nat) as [|Hgt]; [done|exfalso].
  apply (Hq m1 (Call i t (OTake s1 now (Some a1)))); [done| |done].
  apply lookup_take_Some. split; [done|lia].
Qed.

Lemma rev_sub {A} (l : list A) : rev l ⊆ l.
Proof. intros x Hx. by apply list_elem_of_In, in_rev, list_elem_of_In. Qed.

(** ** What a session is good for *)

Lemma session_bearer panel actor t0 token :
  IssuePanelSession panel actor t0 = Ok token ->
  is_ok (ParseBearer ("Bearer " +:+ token)) = false /\
  bearerToken ("Bearer " +:+ token) = Some token.
Proof.
  intros (_ & Ht & t & Hp)%issued_token. unfold ParseBearer, bearerToken.
  rewrite HasPrefix_app, TrimPrefix_app, Ht. cbn [negb]. subst token. done.
Qed.

(** C16: The session opens the gateway.  From a minute before it is issued until it
    expires, a request that shows it as its bearer is resolved to the credential the
    configuration has for the actor, as long as the panel's part of the configuration
    is the one it was issued with (a time to live of whole seconds, names in
    ASCII). *)
Theorem session_gives_access cfg actorID t0 secs token req t tok cred :
  IssuePanelSession (cfg_PanelFacade cfg) actorID t0 = Ok token ->
  pses_TokenTTL (pf_Session (cfg_PanelFacade cfg)) = secs * Second -> 0 < secs < 2 ^ 53 ->
  claims_ok (session_claims (cfg_PanelFacade cfg) (TrimSpace actorID) t0) = true ->
  t0 - Minute <= t -> Unix t < Unix (t0 + secs * Second) ->
  ResolveTelegramActorCredential (Some cfg) actorID = Ok (tok, cred) ->
  Get "Authorization" (req_Header req) = "Bearer " +:+ token ->
  snd (resolveRequestCredential cfg req t) = inr (tok, cred).
Proof.
  intros Hi Httl Hs Hc Hlo Hhi Hr Ha. destruct (session_bearer _ _ _ _ Hi) as [Hp Hb].
  destruct (issued_token _ _ _ _ Hi) as (He & _). unfold resolveRequestCredential. rewrite Ha.
  destruct (ParseBearer _); [discriminate Hp|]. rewrite He, Hb. cbn [negb].
  rewrite <- Httl in Hhi.
  rewrite (panel_session_roundtrip _ _ _ secs _ t Hi Httl Hs Hc Hlo Hhi).
  cbn [cl_TelegramActorID session_claims].
  assert (Htrim : ResolveTelegramActorCredential (Some cfg) (TrimSpace actorID) =
                  ResolveTelegramActorCredential (Some cfg) actorID)
    by (unfold ResolveTelegramActorCredential; by rewrite TrimSpace_idemp).
  by rewrite Htrim, Hr.
Qed.

(** C9: sessions come from logins the gateway started, one each.  However requests
    and reloads interleave, when the gateway answers 200 to the return of a login
    (a POST to the callback, the panel enabled in the state the request is served
    with), the answer carries a session of an actor the configuration maps to a
    credential; the browser's state cookie repeats the state of the request; the
    attempt filed under that state by some request of the gateway was handed out to
    this request, unexpired and untouched since it was filed; and the code was
    exchanged, with that attempt's verifier, for an identity token that is signed,
    current, bears the attempt's nonce and names the actor.  No filed attempt leads
    to two sessions. *)
Theorem sessions_from_own_logins g h :
  gateway g h ->
  (forall (n : nat) i time header text req st,
     h !! n = Some (Call i time (OWrite header 200 text)) -> gw_requests g !! i = Some req ->
     served_with i h st -> login_return st req = true -> exists p, login_from h p n i req st) /\
  (forall p n1 i1 req1 st1 n2 i2 req2 st2,
     login_from h p n1 i1 req1 st1 -> login_from h p n2 i2 req2 st2 -> n1 = n2 /\ i1 = i2).
Proof.
  intros Hg. split.
  - intros n i time header text req st Hn Hreq [l Hl] Hr.
    destruct (gateway_wp VerifyPKCS1v15 cfgPath login_guard (fun _ _ _ => True)
      (fun req _ => apiHandler_logins req ∅) g h Hg) as [_ Hc].
    destruct (Hc n i time _ Hn) as (req0 & c & a0 & Hreq0 & Ho & HG).
    rewrite Hreq in Hreq0. injection Hreq0 as <-.
    destruct c; try discriminate Ho. cbn [observe] in Ho. injection Ho as <- <- <-.
    destruct (said i (firstn n h)) as [|o l'] eqn:Hsaid.
    { rewrite <- (take_drop_middle _ _ _ Hn), said_app, Hsaid in Hl. cbn [said app] in Hl.
      by rewrite decide_True in Hl. }
    assert (o = OLoad st) as ->.
    { rewrite <- (take_drop n h), said_app, Hsaid in Hl. cbn [app] in Hl. congruence. }
    destruct (HG eq_refl (rev l') st eq_refl Hr) as (req' & Hread & body & a & actorID & Ha & He & Hs).
    destruct Ha as (Hd & _ & Hck & now & st' & Ht & _). apply rev_sub in Ht. rewrite <- Hsaid in Ht.
    destruct (said_at _ _ _ Ht) as (m & t1 & Hm). apply firstn_lookup in Hm as [Hm Hlt].
    destruct (proj2 (gateway_attempts _ _ g h Hg) _ _ _ _ _ _ Hm) as [Hlive [p Hp]%filed_position].
    exists p. eapply logged; [exact Hn|exact Hread|exact Hd|exact Hck|exact Hlt|exact Hm|done|done| |done].
    rewrite Hsaid. eapply exchanged_incl; [apply rev_sub|exact He].
  - intros p n1 i1 req1 st1 n2 i2 req2 st2 Hl1 Hl2.
    destruct Hl1 as [m1 hd1 x1 t1 u1 now1 r1 b1 a1 id1 Hw1 _ _ _ _ Ht1 _ Hp1 _ _].
    destruct Hl2 as [m2 hd2 x2 t2 u2 now2 r2 b2 a2 id2 Hw2 _ _ _ _ Ht2 _ Hp2 _ _].
    assert (m2 <= m1)%nat by (by eapply taken_before).
    assert (m1 <= m2)%nat by (by eapply taken_before).
    replace m2 with m1 in * by lia. assert (i1 = i2) as <- by congruence. split; [|done].
    assert (n1 <= n2 /\ n2 <= n1)%nat by (split; by eapply one_write_at). lia.
Qed.
End logins.

(** ** Witnesses: a login from its start to its use *)

Definition identity_token : string :=
  b64_json (JObj [("alg", JStr "RS256"); ("kid", JStr "k1")]) +:+ "." +:+
  b64_json (JObj [("iss", JStr "https://oauth.telegram.org"); ("aud", JStr strong_secret);
                  ("exp", JNum "1700003600"); ("iat", JNum "1700000000");
                  ("nonce", JStr drawn_state); ("id", JNum "42")]) +:+ "." +:+
  Base64.EncodeToString "signed".

Definition provider (q : FetchRequest) : res Reply :=
  if fq_Method q =s? "POST" then json_reply (JObj [("id_token", JStr identity_token)])
  else telegram q.

Definition login_calls := advance_to example_upstream_reply provider.

Definition login_history (r : Runtime) : Gateway * history :=
  login_calls 60 1 (client return_request (login_calls 60 0 (client authorize_request (started r)))).

Definition logging_in : Gateway * history :=
  match working_start with
  | Ok r => login_history r
  | Err _ => login_history example_runtime
  end.

Lemma logging_in_is_gateway :
  is_gateway (H0 := panel_host) (H5 := working_os) (Yc := working_yaml) example_pkcs "guard.yaml"
    logging_in.
Proof.
  assert (Hok : is_ok working_start = true) by (vm_compute; reflexivity).
  unfold logging_in. destruct working_start as [r|] eqn:Hs; [|discriminate Hok].
  unfold login_history, client, login_calls.
  apply advance_is_gateway, arrive_is_gateway; [apply example_arriving|].
  apply advance_is_gateway, arrive_is_gateway; [apply plain_arriving|]. eapply starts_with; exact Hs.
Qed.

(** The state the login is served with, and its answer. *)
Definition login_state : runtimeState :=
  match said 1 (snd logging_in) with OLoad st :: _ => st | _ => gateway_state end.

Lemma login_served : served_with 1 (snd logging_in) login_state.
Proof.
  assert (Hl : match said 1 (snd logging_in) with OLoad _ :: _ => true | _ => false end = true)
    by (vm_compute; reflexivity).
  unfold served_with, login_state. destruct (said 1 (snd logging_in)) as [|[] l]; try discriminate Hl.
  by exists l.
Qed.

Lemma login_answered : exists time header text,
  snd logging_in !! 22%nat = Some (Call 1 time (OWrite header 200 text)).
Proof.
  assert (Hw : match snd logging_in !! 22%nat with
    | Some (Call 1 _ (OWrite _ s _)) => s =? 200 | _ => false end = true) by (vm_compute; reflexivity).
  destruct (snd logging_in !! 22%nat) as [[[|[|]] t []| |]|]; try discriminate Hw.
  apply Z.eqb_eq in Hw. subst status. eauto.
Qed.

Lemma sessions_from_own_logins_witness :
  exists p, login_from (H0 := panel_host) example_pkcs (snd logging_in) p 22 1 return_request
    login_state.
Proof.
  destruct login_answered as (time & header & text & Hn).
  apply (proj1 (sessions_from_own_logins _ _ _ _ logging_in_is_gateway) 22%nat 1%nat time header text).
  - exact Hn.
  - vm_compute. reflexivity.
  - exact login_served.
  - vm_compute. reflexivity.
Defined.

(** The user list, asked for half an hour after the login. *)
Lemma session_gives_access_witness :
  exists tok cred, cred_ID cred = "c1" /\
    snd (resolveRequestCredential (H0 := panel_host) panel_config panicking_request
           ((1700000000 + 1800) * Second)) = inr (tok, cred).
Proof.
  assert (Hr : match ResolveTelegramActorCredential (Some panel_config) "42" with
    | Ok (_, cred) => cred_ID cred =s? "c1" | Err _ => false end = true) by (vm_compute; reflexivity).
  destruct (ResolveTelegramActorCredential (Some panel_config) "42") as [[tok cred]|] eqn:Hres;
    [|discriminate Hr].
  exists tok, cred. split; [by apply eqs_true|].
  apply (session_gives_access (H0 := panel_host) panel_config "42" (1700000000 * Second) 3600
           panel_token).
  - vm_compute. reflexivity.
  - reflexivity.
  - lia.
  - vm_compute. reflexivity.
  - vm_compute. discriminate.
  - vm_compute. reflexivity.
  - exact Hres.
  - reflexivity.
Defined.
