(* ===== verification/Tokens.v ===== *)
(** * From the token commands to the requests

    What [token add], [token rotate] and [token disable] mean for the gateway: the
    token they print is accepted, the credential they disable is not, from the next
    reload on.  YAML is a third-party library; what is used of it is that a
    document it has written reads back the same. *)

From S2P Require Import Prelude GoStrings Encoding Json Sha256 Ratelimit GoTime Config ConfigFacts.
From S2P Require Import Routes Auth Policy EffectiveRoute Httputil Remnawave BodyPolicy.
From S2P Require Import ResponsePolicy Proxy Alerts AuditLog OAuthStore Effects PanelFacade Respond.
From S2P Require Import PanelOAuth PanelLogin Handler Calls Example Authorization Runtime.
From S2P Require Import Concurrency Cmd CmdFacts Gateway GatewayFacts.
From stdpp Require Import options.

Local Open Scope Z_scope.

Section tokens.
Context `{Unicode} `{Host} `{Regexps} `{NetParsers} `{NetFiles} `{RequestURLs} `{OS} `{YamlOut}.
Context `{Yc : Yaml Config} `{Yt : Yaml (list TokenPolicy)}.
Context `{Sch : Scheduling}.

(** The document, read back as a part of the configuration. *)
Hypothesis yaml_roundtrip : forall doc b, yaml_Marshal doc = Ok b ->
  exists c, yaml_Unmarshal b zero_config = Ok c /\ cfg_Tokens c = doc.

(** The configuration includes the file. *)
Definition included (cfgPath file : string) (fs : FS) : Prop :=
  exists c inc matches, loadInto (H0 := fs_host fs) cfgPath Defaults = Ok c /\
    inc ∈ cfg_Include c /\ os_Glob fs (filepath_Dir cfgPath) inc = Ok matches /\ file ∈ matches.

(** ** Loading *)

Lemma load_matches_tokens {Fh : Host} matches c c' :
  load_matches matches c = Ok c' ->
  (forall t, t ∈ cfg_Tokens c -> t ∈ cfg_Tokens c') /\
  forall file, file ∈ matches -> exists child, loadInto file zero_config = Ok child /\
    forall t, t ∈ cfg_Tokens child -> t ∈ cfg_Tokens c'.
Proof using Type.
  revert c. induction matches as [|m ms IH]; simpl; intros c.
  { intros [= <-]. split; [done|]. by intros file ?%not_elem_of_nil. }
  destruct (loadInto m zero_config) as [child|] eqn:Hl; [|done]. intros Hm.
  destruct (IH _ Hm) as [Hk Hf]. cbn [add_tokens cfg_Tokens] in Hk. split.
  - intros t Ht. apply Hk, elem_of_app. by left.
  - intros file [->|Hin]%elem_of_cons; [|by apply Hf]. exists child. split; [done|].
    intros t Ht. apply Hk, elem_of_app. by right.
Qed.

Lemma load_includes_tokens {Fh : Host} base incs c c' :
  load_includes base incs c = Ok c' ->
  (forall t, t ∈ cfg_Tokens c -> t ∈ cfg_Tokens c') /\
  forall inc matches file, inc ∈ incs -> Glob base inc = Ok matches -> file ∈ matches ->
    exists child, loadInto file zero_config = Ok child /\
      forall t, t ∈ cfg_Tokens child -> t ∈ cfg_Tokens c'.
Proof using Type.
  revert c. induction incs as [|inc incs IH]; simpl; intros c.
  { intros [= <-]. split; [done|]. by intros inc ? ? ?%not_elem_of_nil. }
  destruct (Glob base inc) as [ms|] eqn:Hg; [|done].
  destruct (load_matches ms c) as [c1|] eqn:Hm; [|done]. intros Hi.
  destruct (load_matches_tokens _ _ _ Hm) as [Hk1 Hf1]. destruct (IH _ Hi) as [Hk Hf]. split; [auto|].
  intros inc' matches file [->|Hin]%elem_of_cons Hg' Hfile; [|by eapply Hf].
  replace matches with ms in * by congruence.
  destruct (Hf1 file Hfile) as (child & Hl & Ht). exists child. auto.
Qed.

(** The tokens of an included file are in the configuration. *)
Lemma included_tokens cfgPath file fs cfg doc b perm :
  LoadConfig cfgPath fs = Ok cfg -> included cfgPath file fs ->
  fs !! file = Some {| f_data := b; f_perm := perm |} -> yaml_Marshal doc = Ok b ->
  forall t, t ∈ doc -> t ∈ cfg_Tokens cfg.
Proof using Type*.
  intros Hl (c & inc & ms & Hc & Hinc & Hg & Hin) Hf Hm t Ht.
  unfold LoadConfig, Config.Load in Hl. rewrite Hc in Hl.
  destruct (load_includes _ _ _) as [c1|] eqn:Hi; [|done].
  destruct (Validate _) as [[]|]; [|done]. injection Hl as <-. cbn [set_path cfg_Tokens].
  destruct (load_includes_tokens _ _ _ _ Hi) as [_ Hall].
  destruct (Hall inc ms file Hinc Hg Hin) as (child & Hchild & Hsub). apply Hsub.
  unfold loadInto in Hchild. cbn [fs_host ReadFile] in Hchild. rewrite Hf in Hchild.
  destruct (os_refuses fs (ORead file)); [done|]. cbn [f_data] in Hchild.
  destruct (yaml_roundtrip _ _ Hm) as (c' & Hu & <-). congruence.
Qed.

Lemma loaded_unique cfgPath fs cfg :
  LoadConfig cfgPath fs = Ok cfg -> NoDup (all_credential_ids (cfg_Tokens cfg)).
Proof using Type.
  intros Hv%LoadConfig_valid. apply (Validate_Ok (H0 := fs_host fs)) in Hv
    as (_ & _ & _ & _ & _ & _ & _ & _ & Ht & _).
  by apply validate_tokens_Ok in Ht as (_ & _ & Hnd & _).
Qed.

(** ** Credentials *)

(** A request that shows the token is resolved to the credential. *)
Lemma token_resolved cfg tok credID random secret rawToken digest req now :
  NoDup (all_credential_ids (cfg_Tokens cfg)) ->
  tok ∈ cfg_Tokens cfg -> tok_Disabled tok = false ->
  new_credential credID digest ∈ tok_Credentials tok ->
  credID <> "" -> IndexByte_found credID "." = false -> random <> Some "" ->
  makeCredential credID random = Ok (secret, rawToken, digest) ->
  Get "Authorization" (req_Header req) = "Bearer " +:+ rawToken ->
  resolveRequestCredential cfg req now = (req, inr (tok, new_credential credID digest)).
Proof using Type.
  intros Hnd Ht Hd Hc Hne Hdot Hr Hm Ha. unfold resolveRequestCredential. rewrite Ha.
  destruct (new_token_verifies _ _ _ _ _ Hne Hdot Hr Hm) as (p & Hp & Hid & Hv).
  rewrite Hp, Hid.
  assert (Hf : FindCredential cfg credID = Some (tok, new_credential credID digest)).
  { by apply FindCredential_enabled. }
  by rewrite Hf, Hv.
Qed.

(** A resolved credential is an enabled one of the configuration. *)
Lemma resolved_enabled cfg req now r tok cred :
  resolveRequestCredential cfg req now = (r, inr (tok, cred)) ->
  tok ∈ cfg_Tokens cfg /\ cred ∈ tok_Credentials tok /\ cred_Disabled cred = false.
Proof using Type.
  unfold resolveRequestCredential.
  destruct (ParseBearer _) as [p|].
  - destruct (FindCredential _ _) as [[t c]|] eqn:Hf; [|done].
    destruct (Verify _ _ _); [|done]. intros [= _ <- <-].
    by apply find_credential_Some in Hf as (? & ? & _ & _ & ?).
  - destruct (pf_Enabled _); [|done]. destruct (bearerToken _); [|done]. cbn [negb].
    destruct (ValidatePanelSession _ _ _) as [claims|]; [|done].
    destruct (ResolveTelegramActorCredential _ _) as [[t c]|] eqn:Hr; [|done].
    intros [= _ <- <-]. apply actor_credential in Hr as (? & ? & _ & _ & _ & _ & _ & Hf).
    by apply find_credential_Some in Hf as (? & ? & _ & _ & ?).
Qed.

(** A token in a document that is written. *)
Lemma written_token now path doc cfgPath fs fs' tok credID random secret rawToken digest :
  (forall fs1, fs1 !! path = fs !! path -> os_TempName fs1 (filepath_Dir path) <> path) ->
  writeTokenFileWithValidation now path doc cfgPath fs = (fs', Ok ()) ->
  included cfgPath path fs' ->
  tok ∈ doc -> tok_Disabled tok = false -> new_credential credID digest ∈ tok_Credentials tok ->
  credID <> "" -> IndexByte_found credID "." = false -> random <> Some "" ->
  makeCredential credID random = Ok (secret, rawToken, digest) ->
  exists cfg, LoadConfig cfgPath fs' = Ok cfg /\
    forall req at_, Get "Authorization" (req_Header req) = "Bearer " +:+ rawToken ->
      resolveRequestCredential cfg req at_ = (req, inr (tok, new_credential credID digest)).
Proof using Type*.
  intros Htmp Hw Hinc Ht Hd Hc Hne Hdot Hr Hm.
  apply edit_Ok in Hw as (b & cfg & tmp & Hy & Hp & Hl & _); [|done].
  exists cfg. split; [done|]. intros req at_ Ha.
  eapply token_resolved; [by eapply loaded_unique| |exact Hd|exact Hc|exact Hne|exact Hdot|exact Hr
    |exact Hm|exact Ha].
  by eapply (included_tokens cfgPath path fs' cfg doc b).
Qed.

(** ** The commands *)

(** A new name is not the name of a file that is there. *)
Lemma fresh_name (fs : FS) path f :
  (forall (fs : FS) dir, fs !! os_TempName fs dir = None) -> fs !! path = Some f ->
  forall fs1 : FS, fs1 !! path = fs !! path -> os_TempName fs1 (filepath_Dir path) <> path.
Proof using Type.
  intros Htmp Hf fs1 Hf1 Heq. pose proof (Htmp fs1 (filepath_Dir path)) as Hn.
  by rewrite Heq, Hf1, Hf in Hn.
Qed.

(** After token disable the configuration has the credential, disabled. *)
Lemma disabled_loaded now cfgPath tokenID credID tokensFile fs fs' out :
  (forall fs dir, fs !! os_TempName fs dir = None) ->
  token_disable now cfgPath tokenID credID tokensFile fs = (fs', Ok out) ->
  (forall doc path i, loadTokenDocForEdit cfgPath tokensFile tokenID fs = (fs, Ok (doc, path, i)) ->
     included cfgPath path fs') ->
  exists cfg, LoadConfig cfgPath fs' = Ok cfg /\
    exists tok cred, tok ∈ cfg_Tokens cfg /\ cred ∈ tok_Credentials tok /\
      cred_ID cred = credID /\ cred_Disabled cred = true.
Proof using Type*.
  intros Htmp Ha Hincl. unfold token_disable in Ha. destruct (_ || _); [done|].
  apply io_bind_Ok in Ha as (fs1 & [[doc path] i] & Hl & Ha).
  pose proof Hl as Hl'. unfold loadTokenDocForEdit in Hl'.
  apply find_candidate_Ok in Hl' as (-> & [f Hf] & t & Hi & Hid).
  rewrite Hi in Ha. cbv zeta in Ha. destruct (existsb _ _) eqn:Hex; [|done]. cbn [negb] in Ha.
  apply io_bind_Ok in Ha as (fs2 & [] & Hw & Ho). injection Ho as -> _.
  apply edit_Ok in Hw as (b & cfg & tmp & Hy & Hp & Hc & _).
  2: by eapply fresh_name.
  exists cfg. split; [done|]. apply existsb_exists in Hex as (cr & Hcr & Hcid).
  exists (set_credentials (map (disable_credential credID)) t), (disable_credential credID cr).
  split_and!.
  - eapply (included_tokens cfgPath path fs' cfg _ b); [exact Hc|by eapply Hincl|exact Hp|exact Hy|].
    apply (list_elem_of_lookup_2 _ i). by rewrite list_lookup_alter_eq, Hi.
  - apply elem_of_map_2. by apply list_elem_of_In.
  - unfold disable_credential. rewrite Hcid. by apply eqs_true.
  - unfold disable_credential. by rewrite Hcid.
Qed.

(** C15: the token that token add prints is accepted.  Suppose that the command
    succeeds for a credential id that is not empty and has no dot, with random
    bytes that are not empty and a temporary name other than the file's own; and
    that the file is among those the configuration includes.  Then the
    configuration loads, and with it any request that shows the printed token as
    its bearer is resolved to the new token: under the id asked for, enabled, with
    the scopes asked for and no constraint.  With a dot in the credential id the
    printed token is split elsewhere when it is parsed. *)
Theorem added_token_accepted now random cfgPath tokenID credID scopes tokensFile fs fs' out :
  (forall fs1, os_TempName fs1 (filepath_Dir (tokenFile cfgPath tokensFile tokenID)) <>
     tokenFile cfgPath tokensFile tokenID) ->
  credID <> "" -> IndexByte_found credID "." = false -> random <> Some "" ->
  token_add now random cfgPath tokenID credID scopes tokensFile fs = (fs', Ok out) ->
  included cfgPath (tokenFile cfgPath tokensFile tokenID) fs' ->
  exists cfg rawToken tok cred,
    out = ["token: " +:+ rawToken] /\ LoadConfig cfgPath fs' = Ok cfg /\
    tok_ID tok = tokenID /\ tok_Disabled tok = false /\ tok_Scopes tok = splitCSV scopes /\
    tok_Constraints tok = zero_constraints /\ cred_ID cred = credID /\
    forall req at_, Get "Authorization" (req_Header req) = "Bearer " +:+ rawToken ->
      resolveRequestCredential cfg req at_ = (req, inr (tok, cred)).
Proof using Type*.
  intros Htmp Hne Hdot Hr Ha Hinc. unfold token_add in Ha.
  destruct (tokenID =s? ""); [done|].
  apply io_bind_Ok in Ha as (fs1 & [[secret rawToken] digest] & Hm & Ha).
  unfold io_of in Hm. injection Hm as <- Hm. cbv zeta in Ha.
  apply io_bind_Ok in Ha as (fs2 & doc & Hd & Ha). destruct (findTokenDoc doc tokenID); [done|].
  apply io_bind_Ok in Ha as (fs3 & [] & Hw & Ho). injection Ho as -> <-.
  destruct (written_token now _ _ _ _ _
    {| tok_ID := tokenID; tok_Disabled := false; tok_Credentials := [new_credential credID digest];
       tok_Scopes := splitCSV scopes; tok_Constraints := zero_constraints |}
    credID random secret rawToken digest (fun fs1 _ => Htmp fs1) Hw Hinc) as (cfg & Hl & Hreq).
  all: try done.
  - apply elem_of_app. right. by apply list_elem_of_singleton.
  - apply list_elem_of_here.
  - exists cfg, rawToken. eexists _, (new_credential credID digest).
    split; [done|]. split; [done|]. split_and!; [..|exact Hreq]; done.
Qed.

(** The token that token rotate prints is accepted next to the old ones: as
    the token that was rotated, unless that one is disabled. *)
Theorem rotated_token_accepted now random cfgPath tokenID credID tokensFile fs fs' out :
  (forall fs dir, fs !! os_TempName fs dir = None) ->
  credID <> "" -> IndexByte_found credID "." = false -> random <> Some "" ->
  token_rotate now random cfgPath tokenID credID tokensFile fs = (fs', Ok out) ->
  exists doc path i t, loadTokenDocForEdit cfgPath tokensFile tokenID fs = (fs, Ok (doc, path, i)) /\
    doc !! i = Some t /\ tok_ID t = tokenID /\
    (included cfgPath path fs' -> tok_Disabled t = false ->
     exists cfg rawToken tok cred,
       out = ["token: " +:+ rawToken] /\ LoadConfig cfgPath fs' = Ok cfg /\
       tok_ID tok = tokenID /\ tok_Scopes tok = tok_Scopes t /\
       tok_Constraints tok = tok_Constraints t /\ cred_ID cred = credID /\
       (forall old, old ∈ tok_Credentials t -> old ∈ tok_Credentials tok) /\
       forall req at_, Get "Authorization" (req_Header req) = "Bearer " +:+ rawToken ->
         resolveRequestCredential cfg req at_ = (req, inr (tok, cred))).
Proof using Type*.
  intros Htmp Hne Hdot Hr Ha. unfold token_rotate in Ha.
  destruct (tokenID =s? ""); [done|].
  apply io_bind_Ok in Ha as (fs1 & [[doc path] i] & Hl & Ha).
  pose proof Hl as Hl'. unfold loadTokenDocForEdit in Hl'.
  apply find_candidate_Ok in Hl' as (-> & [f0 Hf0] & t & Hi & Hid).
  apply io_bind_Ok in Ha as (fs2 & [[secret rawToken] digest] & Hm & Ha).
  unfold io_of in Hm. injection Hm as <- Hm. cbv zeta in Ha.
  apply io_bind_Ok in Ha as (fs3 & [] & Hw & Ho). injection Ho as -> <-.
  exists doc, path, i, t. split_and!; [done..|]. intros Hinc Hd.
  set (f := fun creds => creds ++ [new_credential credID digest]) in *.
  destruct (written_token now _ _ _ _ _ (set_credentials f t) credID random secret rawToken digest
    (fresh_name _ _ _ Htmp Hf0) Hw Hinc) as (cfg & Hcfg & Hreq).
  all: try done.
  - apply (list_elem_of_lookup_2 _ i). by rewrite list_lookup_alter_eq, Hi.
  - apply elem_of_app. right. by apply list_elem_of_singleton.
  - exists cfg, rawToken, (set_credentials f t), (new_credential credID digest).
    split; [done|]. split; [done|]. split_and!; [exact Hid|done..| |exact Hreq].
    intros old Hold. apply elem_of_app. by left.
Qed.

Lemma disabled_other cfg fs cfgPath tok cred tok' cred' credID :
  LoadConfig cfgPath fs = Ok cfg ->
  tok ∈ cfg_Tokens cfg /\ cred ∈ tok_Credentials tok /\ cred_Disabled cred = false ->
  tok' ∈ cfg_Tokens cfg /\ cred' ∈ tok_Credentials tok' /\
    cred_ID cred' = credID /\ cred_Disabled cred' = true ->
  cred_ID cred <> credID.
Proof using Type.
  intros Hl (Ht & Hcr & He) (Ht' & Hcr' & Hid' & Hd') Hid.
  destruct (credential_unique (cfg_Tokens cfg) tok tok' cred cred') as [_ ->]; try done;
    [by eapply loaded_unique|congruence|congruence].
Qed.

Lemma resolved_other cfg fs cfgPath req at_ tok cred tok' cred' credID :
  LoadConfig cfgPath fs = Ok cfg ->
  tok' ∈ cfg_Tokens cfg /\ cred' ∈ tok_Credentials tok' /\
    cred_ID cred' = credID /\ cred_Disabled cred' = true ->
  snd (resolveRequestCredential cfg req at_) = inr (tok, cred) -> cred_ID cred <> credID.
Proof using Type.
  intros Hl Hc Hr. destruct (resolveRequestCredential cfg req at_) as [r1 res] eqn:Heq.
  cbn [snd] in Hr. subst res. apply resolved_enabled in Heq. by eapply disabled_other.
Qed.

(** A disabled credential is refused.  When token disable succeeds on a file
    the configuration includes, the configuration loads, and with it no request is
    resolved to a credential of that id any more: neither by its bearer nor by a
    session of the panel. *)
Theorem disabled_credential_refused now cfgPath tokenID credID tokensFile fs fs' out :
  (forall fs dir, fs !! os_TempName fs dir = None) ->
  token_disable now cfgPath tokenID credID tokensFile fs = (fs', Ok out) ->
  (forall doc path i, loadTokenDocForEdit cfgPath tokensFile tokenID fs = (fs, Ok (doc, path, i)) ->
     included cfgPath path fs') ->
  exists cfg, LoadConfig cfgPath fs' = Ok cfg /\
    forall req at_ r tok cred,
      resolveRequestCredential cfg req at_ = (r, inr (tok, cred)) -> cred_ID cred <> credID.
Proof using Type*.
  intros Htmp Ha Hincl. destruct (disabled_loaded _ _ _ _ _ _ _ _ Htmp Ha Hincl) as (cfg & Hl & Hc).
  exists cfg. split; [done|]. intros req at_ r tok cred Hr%resolved_enabled.
  destruct Hc as (tok' & cred' & Hc). by eapply disabled_other.
Qed.

(** ** In the gateway *)

Section gateway.
Context (VerifyPKCS1v15 : PublicKey -> string -> string -> bool) (cfgPath : string).

(** A request that arrives after the last reload is served in its state. *)
Lemma loads_current g h1 st h2 i (n : nat) st' :
  gateway VerifyPKCS1v15 cfgPath g (h1 ++ Install st :: h2) ->
  (forall st', Install st' ∉ h2) -> said i h1 = [] ->
  OLoad st' ∈ said i (firstn n (h1 ++ Install st :: h2)) -> st' = st.
Proof using Type.
  intros Hg Hlast Hnew Hin. apply said_at in Hin as (m & t & Hm).
  apply firstn_lookup in Hm as [Hm _].
  destruct (gateway_current _ _ _ _ Hg) as [_ Hc]. pose proof (Hc _ _ _ _ Hm) as Hcur.
  apply lookup_app_Some in Hm as [Hm|[Hle Hm]].
  - exfalso. assert (Hs : OLoad st' ∈ said i h1); [|rewrite Hnew in Hs; by apply not_elem_of_nil in Hs].
    rewrite <- (take_drop_middle h1 m _ Hm), said_app. apply elem_of_app. right. cbn [said].
    rewrite decide_True by done. apply list_elem_of_here.
  - destruct (m - length h1)%nat as [|k] eqn:Hk; [done|].
    rewrite firstn_app, Hk, firstn_all2, current_app in Hcur by lia. cbn [firstn current] in Hcur.
    rewrite current_none in Hcur; [by injection Hcur|].
    intros st1 (j & [Hj _]%lookup_take_Some)%list_elem_of_lookup_1.
    by apply list_elem_of_lookup_2 in Hj as ?%Hlast.
Qed.

(** C5: revocation takes effect.  Once the gateway has reloaded the files token
    disable leaves, a request that arrives reaches the upstream only as a public
    subscription or by a credential with another id, however it is interleaved
    with requests that were already being served. *)
Theorem revocation_takes_effect now tokenID credID tokensFile fs fs' out
    g h1 st h2 i (n : nat) time o r :
  (forall fs dir, fs !! os_TempName fs dir = None) ->
  token_disable now cfgPath tokenID credID tokensFile fs = (fs', Ok out) ->
  (forall doc path i, loadTokenDocForEdit cfgPath tokensFile tokenID fs = (fs, Ok (doc, path, i)) ->
     included cfgPath path fs') ->
  gateway VerifyPKCS1v15 cfgPath g (h1 ++ Install st :: h2) ->
  LoadConfig cfgPath fs' = Ok (rs_cfg st) -> (forall st', Install st' ∉ h2) ->
  said i h1 = [] -> (h1 ++ Install st :: h2) !! n = Some (Call i time (OUpstream o r)) ->
  exists req path q route, gw_requests g !! i = Some req /\
    checked req (said i (firstn n (h1 ++ Install st :: h2))) st path q route /\
    (rt_Support route = PublicSubscription \/
     exists at_ tok cred, snd (resolveRequestCredential (rs_cfg st) req at_) = inr (tok, cred) /\
       cred_ID cred <> credID).
Proof using Type*.
  intros Htmp Hdis Hincl Hg Hl Hlast Hnew Hn.
  destruct (disabled_loaded _ _ _ _ _ _ _ _ Htmp Hdis Hincl) as (cfg & Hl' & tok' & cred' & Hc).
  replace cfg with (rs_cfg st) in * by congruence.
  destruct (gateway_wp VerifyPKCS1v15 cfgPath
    (fun req => guard (fun seen _ => authorized req seen)) (fun _ _ _ => True)
    (fun req Ha => apiHandler_authorized _ req ∅ (ar_cache _ Ha)) g _ Hg) as [_ Hcalls].
  destruct (Hcalls n i time _ Hn) as (req & c & a & Hreq & Ho & HG).
  symmetry in Ho. apply observe_Upstream in Ho as ->. cbn [guard] in HG.
  apply (authorized_incl _ _ _ (rev_incl _)) in HG.
  assert (Hst : forall st1 path q route,
    checked req (said i (firstn n (h1 ++ Install st :: h2))) st1 path q route -> st1 = st).
  { intros st1 path q route Hch. eapply loads_current; eauto using ch_state. }
  destruct HG as [st1 path q route Hch Hs _ _ _|st1 path q route at_ tok cred Hch _ Hres _ _ _
    |st1 path q route at_ tok cred Hch _ Hres _ _ _];
    pose proof (Hst _ _ _ _ Hch) as ->; exists req, path, q, route.
  - split; [exact Hreq|]. split; [exact Hch|]. by left.
  - split; [exact Hreq|]. split; [exact Hch|]. right. exists at_, tok, cred. split; [exact Hres|].
    eapply resolved_other; eassumption.
  - split; [exact Hreq|]. split; [exact Hch|]. right. exists at_, tok, cred. split; [exact Hres|].
    eapply resolved_other; eassumption.
Qed.
End gateway.
End tokens.

(** ** Witnesses

    A gateway that includes the files of tokens.d, with the documents its library
    knows. *)

#[local] Instance credential_eq_dec : EqDecision Credential.
Proof. solve_decision. Defined.
#[local] Instance range_eq_dec : EqDecision IDRange.
Proof. solve_decision. Defined.
#[local] Instance constraints_eq_dec : EqDecision Constraints.
Proof. solve_decision. Defined.
#[local] Instance token_eq_dec : EqDecision TokenPolicy.
Proof. solve_decision. Defined.

Definition including_config : Config :=
  let d := versioned_config in
  Build_Config (cfg_Server d) (cfg_Upstream d) (cfg_Compatibility d) (cfg_Limits d)
    (cfg_Metrics d) (cfg_Audit d) (cfg_Alerts d) (cfg_Report d) (cfg_PublicSubs d)
    (cfg_PanelFacade d) (cfg_Reload d) (cfg_WriteSafety d) [] ["tokens.d/*.yaml"] "".

Definition random_bytes : option string := Some (bytes (repeat 121%nat 32)).

Definition example_digest : string :=
  match makeCredential "c2" random_bytes with Ok (_, _, d) => d | Err _ => "" end.

Definition documents : list (string * list TokenPolicy) :=
  [("acme", [gateway_token]);
   ("acme revoked", [set_credentials (map (disable_credential "c1")) gateway_token]);
   ("acme rotated", [set_credentials (fun cs => cs ++ [new_credential "c2" example_digest])
                       gateway_token]);
   ("beta", [{| tok_ID := "beta"; tok_Disabled := false;
                tok_Credentials := [new_credential "c2" example_digest];
                tok_Scopes := ["users:read"]; tok_Constraints := zero_constraints |}])].

Definition named (b : string) : option (string * list TokenPolicy) :=
  List.find (fun '(name, _) => name =s? b) documents.

Definition tokens_out : YamlOut := {|
  yaml_Marshal := fun doc =>
    match List.find (fun '(_, d) => bool_decide (d = doc)) documents with
    | Some (name, _) => Ok name
    | None => Err "yaml"
    end |}.

Definition tokens_in : Yaml (list TokenPolicy) := {|
  yaml_Unmarshal := fun b doc => match named b with Some (_, d) => Ok d | None => Err "yaml" end |}.

Definition gateway_in : Yaml Config := {|
  yaml_Unmarshal := fun b c =>
    if b =s? "gateway" then Ok including_config else
    match named b with Some (_, d) => Ok (add_tokens c d) | None => Err "yaml" end |}.

Definition tokens_os : OS := {|
  os_refuses := fun _ _ => false; os_partial := fun _ _ => 0%nat;
  os_TempName := fun fs dir => (dir +:+ "/.remnaguard-") +:+ long_name fs;
  os_Glob := fun fs _ _ =>
    Ok (List.filter (fun p => HasPrefix p "tokens.d/" && HasSuffix p ".yaml")
          (map fst (map_to_list fs))) |}.

Definition tokens_files : FS :=
  {[ "guard.yaml" := {| f_data := "gateway"; f_perm := 384 |};
     "tokens.d/acme.yaml" := {| f_data := "acme"; f_perm := 384 |} ]}.

Lemma documents_read_back doc b :
  @yaml_Marshal tokens_out doc = Ok b ->
  exists c, @yaml_Unmarshal _ gateway_in b zero_config = Ok c /\ cfg_Tokens c = doc.
Proof.
  cbn [yaml_Marshal tokens_out]. destruct (List.find _ documents) as [[name d]|] eqn:Hf; [|done].
  intros [= <-]. apply List.find_some in Hf as [Hin Hd%bool_decide_eq_true]. subst doc.
  assert (Hn : forall nd, nd ∈ documents -> fst nd <> "gateway" /\ named (fst nd) = Some nd).
  { intros nd Hnd%list_elem_of_In. cbn [documents List.In] in Hnd.
    destruct Hnd as [<-|[<-|[<-|[<-|[]]]]]; done. }
  apply list_elem_of_In in Hin. destruct (Hn _ Hin) as [Hg Hnm]. cbn [fst] in *.
  exists (add_tokens zero_config d). cbn [yaml_Unmarshal gateway_in].
  rewrite (proj2 (eqs_false _ _) Hg), Hnm. done.
Qed.

#[local] Existing Instances tokens_os tokens_out gateway_in tokens_in.

Lemma tokens_included fs file :
  option_map f_data (fs !! "guard.yaml") = Some "gateway" ->
  is_Some (fs !! file) -> HasPrefix file "tokens.d/" && HasSuffix file ".yaml" = true ->
  included "guard.yaml" file fs.
Proof.
  intros Hg [f Hf] Hb. exists including_config, "tokens.d/*.yaml". eexists. split_and!.
  - unfold loadInto. cbn [fs_host ReadFile]. destruct (fs !! "guard.yaml") as [g|]; [|done].
    cbn [option_map] in Hg. injection Hg as Hg. cbn [os_refuses tokens_os]. by rewrite Hg.
  - apply list_elem_of_here.
  - reflexivity.
  - apply list_elem_of_In, filter_In. split; [|done]. apply in_map_iff. exists (file, f).
    split; [done|]. by apply list_elem_of_In, elem_of_map_to_list.
Qed.

Definition adding : FS * res (list string) :=
  token_add 0 random_bytes "guard.yaml" "beta" "c2" "users:read" "" tokens_files.

Lemma added_token_accepted_witness :
  exists cfg rawToken tok cred,
    ["token: rg_c2.eXl5eXl5eXl5eXl5eXl5eXl5eXl5eXl5eXl5eXl5eXk"] = ["token: " +:+ rawToken] /\
    LoadConfig "guard.yaml" (fst adding) = Ok cfg /\
    tok_ID tok = "beta" /\ tok_Disabled tok = false /\ tok_Scopes tok = splitCSV "users:read" /\
    tok_Constraints tok = zero_constraints /\ cred_ID cred = "c2" /\
    forall req at_, Get "Authorization" (req_Header req) = "Bearer " +:+ rawToken ->
      resolveRequestCredential cfg req at_ = (req, inr (tok, cred)).
Proof.
  apply (added_token_accepted documents_read_back 0 random_bytes "guard.yaml" "beta" "c2" "users:read"
           "" tokens_files).
  - intros fs. change (("tokens.d/.remnaguard-" +:+ long_name fs) <> "tokens.d/beta.yaml"). discriminate.
  - discriminate.
  - reflexivity.
  - discriminate.
  - vm_compute. reflexivity.
  - apply tokens_included; [vm_compute; reflexivity|vm_compute; eauto|reflexivity].
Defined.

Definition disabling : FS * res (list string) :=
  token_disable 0 "guard.yaml" "acme" "c1" "" (fst adding).

Lemma disabled_file doc path i :
  loadTokenDocForEdit "guard.yaml" "" "acme" (fst adding) = (fst adding, Ok (doc, path, i)) ->
  included "guard.yaml" path (fst disabling).
Proof.
  intros Hl. assert (Hp : path = "tokens.d/acme.yaml").
  { assert (Hv : match snd (loadTokenDocForEdit "guard.yaml" "" "acme" (fst adding)) with
      | Ok (_, p, _) => p =s? "tokens.d/acme.yaml" | Err _ => false end = true)
      by (vm_compute; reflexivity).
    rewrite Hl in Hv. cbn [snd] in Hv. by apply eqs_true in Hv. }
  subst path. apply tokens_included; [vm_compute; reflexivity|vm_compute; eauto|reflexivity].
Qed.

Lemma new_names (fs : FS) dir : fs !! os_TempName fs dir = None.
Proof. apply long_name_fresh. Qed.

Lemma disabled_done :
  token_disable 0 "guard.yaml" "acme" "c1" "" (fst adding) = (fst disabling, Ok []).
Proof. vm_compute. reflexivity. Qed.

Lemma disabled_credential_refused_witness :
  exists cfg, LoadConfig "guard.yaml" (fst disabling) = Ok cfg /\
    forall req at_ r tok cred,
      resolveRequestCredential cfg req at_ = (r, inr (tok, cred)) -> cred_ID cred <> "c1".
Proof.
  apply (disabled_credential_refused documents_read_back 0 "guard.yaml" "acme" "c1" "" (fst adding)
           _ [] new_names disabled_done disabled_file).
Defined.

Definition rotating : FS * res (list string) :=
  token_rotate 0 random_bytes "guard.yaml" "acme" "c2" "" tokens_files.

Lemma rotated_token_accepted_witness :
  exists cfg tok cred, LoadConfig "guard.yaml" (fst rotating) = Ok cfg /\
    cred_ID cred = "c2" /\ (forall old, old ∈ tok_Credentials gateway_token -> old ∈ tok_Credentials tok) /\
    forall req at_, Get "Authorization" (req_Header req) =
        "Bearer rg_c2.eXl5eXl5eXl5eXl5eXl5eXl5eXl5eXl5eXl5eXl5eXk" ->
      resolveRequestCredential cfg req at_ = (req, inr (tok, cred)).
Proof.
  destruct (rotated_token_accepted documents_read_back 0 random_bytes "guard.yaml" "acme" "c2" ""
    tokens_files (fst rotating) ["token: rg_c2.eXl5eXl5eXl5eXl5eXl5eXl5eXl5eXl5eXl5eXl5eXk"])
    as (doc & path & i & t & Hl & Hi & _ & Hr).
  - apply new_names.
  - discriminate.
  - reflexivity.
  - discriminate.
  - vm_compute. reflexivity.
  - assert (Hv : match snd (loadTokenDocForEdit "guard.yaml" "" "acme" tokens_files) with
      | Ok (d, p, i) => (p =s? "tokens.d/acme.yaml") && bool_decide (d !! i = Some gateway_token)
      | Err _ => false end = true) by (vm_compute; reflexivity).
    rewrite Hl in Hv. cbn [snd] in Hv.
    apply andb_true_iff in Hv as [->%eqs_true Ht%bool_decide_eq_true].
    replace t with gateway_token in * by congruence.
    destruct Hr as (cfg & raw & tok & cred & Ho & Hcfg & _ & _ & _ & Hid & Hold & Hreq).
    + apply tokens_included; [vm_compute; reflexivity|vm_compute; eauto|reflexivity].
    + reflexivity.
    + exists cfg, tok, cred. split_and!; [done..|]. intros req at_ Ha. apply Hreq.
      rewrite Ha. apply (f_equal (fun l => hd "" l)) in Ho. cbn [hd] in Ho.
      assert (Hraw : raw = "rg_c2.eXl5eXl5eXl5eXl5eXl5eXl5eXl5eXl5eXl5eXl5eXk").
      { apply (f_equal (fun s => TrimPrefix s "token: ")) in Ho. cbv beta in Ho.
        rewrite TrimPrefix_app in Ho. by rewrite <- Ho. }
      by rewrite Hraw.
Defined.

(** A client is being served with the old credential when the gateway reloads;
    another one comes after with a new token. *)
Definition revoking_start : res Runtime :=
  snd (start "guard.yaml" text_db "dev" start_time (fst adding)).

Definition next_part (fs : FS) (s : Gateway * history) : Gateway * history :=
  let r := gw_runtime (fst s) in
  let '(ev, (r', ph)) := match gw_reload (fst s) with
    | Waiting => ([], build (Fh := fs_host fs) r (LoadConfig "guard.yaml" fs))
    | Built st gen => ([Forget], (forget_logins r, Cleared st gen))
    | Cleared st gen => ([Install st], (store_state r st gen, Stored st))
    | Stored st => ([], (update_alerts r (rs_cfg st), Waiting))
    end in
  ({| gw_runtime := r'; gw_threads := gw_threads (fst s); gw_requests := gw_requests (fst s);
      gw_reload := ph |}, snd s ++ ev).

Definition reload_to (fs : FS) (s : Gateway * history) : Gateway * history :=
  Nat.iter 4 (next_part fs) s.

Definition beta_request : Request :=
  example_request "GET" "/api/users" (bearer "rg_c2.eXl5eXl5eXl5eXl5eXl5eXl5eXl5eXl5eXl5eXl5eXk") None.

Definition visitor := arrive (H0 := example_host) example_pkcs.

Definition revoking_run (r : Runtime) : Gateway * history :=
  calls_of 60 1 (visitor beta_request (calls_of 60 0 (reload_to (fst disabling)
    (calls_of 9 0 (visitor disable_request (started r)))))).

Definition revoking : Gateway * history :=
  match revoking_start with
  | Ok r => revoking_run r
  | Err _ => revoking_run example_runtime
  end.

Lemma part_is_gateway fs s :
  is_gateway (H0 := example_host) example_pkcs "guard.yaml" s ->
  is_gateway (H0 := example_host) example_pkcs "guard.yaml" (next_part fs s).
Proof.
  intros Hg. unfold is_gateway, next_part in *. destruct s as [[r ts reqs ph] h].
  cbn [fst snd gw_runtime gw_threads gw_requests gw_reload] in *.
  destruct ph as [|st gen|st gen|st].
  1: destruct (build _ _) as [r' ph'] eqn:Hb.
  all: eapply continues; [exact Hg|]; apply reloads; by econstructor.
Qed.

Lemma reload_is_gateway fs s :
  is_gateway (H0 := example_host) example_pkcs "guard.yaml" s ->
  is_gateway (H0 := example_host) example_pkcs "guard.yaml" (reload_to fs s).
Proof. intros Hg. unfold reload_to. cbn [Nat.iter nat_rect]. by do 4 apply part_is_gateway. Qed.

Lemma revoking_is_gateway : is_gateway (H0 := example_host) example_pkcs "guard.yaml" revoking.
Proof.
  assert (Hok : is_ok revoking_start = true) by (vm_compute; reflexivity).
  unfold revoking. destruct revoking_start as [r|] eqn:Hs; [|discriminate Hok].
  unfold revoking_run, visitor, calls_of.
  apply advance_is_gateway, arrive_is_gateway; [apply example_arriving|].
  apply advance_is_gateway, reload_is_gateway.
  apply advance_is_gateway, arrive_is_gateway; [apply example_arriving|]. eapply starts_with; exact Hs.
Qed.

Definition before_reload : history := firstn 11 (snd revoking).
Definition after_reload : history := skipn 12 (snd revoking).
Definition reloaded : runtimeState :=
  match snd revoking !! 11%nat with Some (Install st) => st | _ => gateway_state end.

Lemma revoking_split : snd revoking = before_reload ++ Install reloaded :: after_reload.
Proof.
  assert (Hi : match snd revoking !! 11%nat with Some (Install _) => true | _ => false end = true)
    by (vm_compute; reflexivity).
  unfold before_reload, after_reload, reloaded.
  destruct (snd revoking !! 11%nat) as [[|st|]|] eqn:Hn; try discriminate Hi.
  symmetry. exact (take_drop_middle _ _ _ Hn).
Qed.

Lemma revocation_takes_effect_witness :
  exists req path q route, gw_requests (fst revoking) !! 1%nat = Some req /\
    checked req (said 1 (firstn 24 (before_reload ++ Install reloaded :: after_reload)))
      reloaded path q route /\
    (rt_Support route = PublicSubscription \/
     exists at_ tok cred,
       snd (resolveRequestCredential (rs_cfg reloaded) req at_) = inr (tok, cred) /\
       cred_ID cred <> "c1").
Proof.
  assert (Hu : match snd revoking !! 24%nat with Some (Call 1 _ (OUpstream _ _)) => true | _ => false end
    = true) by (vm_compute; reflexivity).
  destruct (snd revoking !! 24%nat) as [[i t o| |]|] eqn:Hn; try discriminate Hu.
  destruct i as [|[|]]; try discriminate Hu. destruct o; try discriminate Hu.
  rewrite revoking_split in Hn.
  apply (revocation_takes_effect documents_read_back example_pkcs "guard.yaml" 0 "acme" "c1" ""
    (fst adding) (fst disabling) [] (fst revoking) before_reload reloaded after_reload
    1 24 t o r).
  - apply new_names.
  - apply disabled_done.
  - apply disabled_file.
  - rewrite <- revoking_split. apply revoking_is_gateway.
  - vm_compute. reflexivity.
  - intros st Hin.
    assert (Hq : forallb (fun e => match e with Install _ => false | _ => true end) after_reload = true)
      by (vm_compute; reflexivity).
    rewrite forallb_forall in Hq. by apply list_elem_of_In, Hq in Hin.
  - vm_compute. reflexivity.
  - exact Hn.
Defined.
