(* ===== verification/Commands.v ===== *)
(** * cmd/remnaguard: the command line and the life of the process

    What a command line does to the files and what it prints; and the process
    [serve] turns into: it serves until it is told to stop, then lets the requests
    it has accepted end.  The flag library is third-party: a parameter. *)

From S2P Require Import Prelude GoStrings Encoding Sha256 Ratelimit GoTime F64 Config ConfigFacts.
From S2P Require Import Routes OpenAPI Auth Policy EffectiveRoute Httputil Remnawave BodyPolicy.
From S2P Require Import ResponsePolicy Proxy Alerts AuditLog OAuthStore Effects PanelFacade Respond.
From S2P Require Import PanelOAuth PanelLogin Handler Calls Example Authorization Resources Runtime.
From S2P Require Import PanelLoginFacts Concurrency Cmd CmdFacts Gateway GatewayFacts.
From Stdlib Require Import SpecFloat.
From stdpp Require Import options.

Local Open Scope Z_scope.

(** ** Flags (pflag) *)

Inductive flag :=
  | StringFlag (name short value : string)
  | BoolFlag (name : string).

Record flags := { string_of : string -> string; bool_of : string -> bool }.

(** [NewFlagSet] with these flags, and [Parse]. *)
Class Pflag := { pflag_Parse : string -> list flag -> list string -> res flags }.

(** ** What is printed *)

Inductive printed :=
  | Line (text : string)
  | Written (text : string)                   (* as it is: the lines of the audit log *)
  | Encoded_token (tok : TokenPolicy)         (* by encoding/json *)
  | Encoded_result (r : OpenAPIResult).

Record output := { o_stdout : list printed; o_stderr : list string; o_err : option string }.

Definition printing (ls : list printed) : output :=
  {| o_stdout := ls; o_stderr := []; o_err := None |}.
Definition failing (e : string) : output :=
  {| o_stdout := []; o_stderr := []; o_err := Some e |}.

Definition of_lines (r : res (list string)) : output :=
  match r with Ok ls => printing (map Line ls) | Err e => failing e end.

(** [%.0f]: to the nearest integer, a tie to the even one. *)
Definition round_even (x : spec_float) : Z :=
  match x with
  | S754_finite s m e =>
      let n := if 0 <=? e then Zpos m * 2 ^ e else
        let d := 2 ^ (- e) in
        let q := Zpos m / d in
        let r := 2 * (Zpos m mod d) in
        if (d <? r) || ((r =? d) && Z.odd q) then q + 1 else q in
      if s then - n else n
  | _ => 0
  end.

Example round_even_ex : map round_even [f64 3; f64_div (f64 5) (f64 2); f64_div (f64 7) (f64 2)]
  = [3; 2; 4].
Proof. reflexivity. Qed.

Definition how_many (l : list string) : string := FormatInt (Z.of_nat (length l)).

Definition strict_report (r : OpenAPIResult) : list string :=
  ["covered: " +:+ how_many (oa_Covered r); "unknown: " +:+ how_many (oa_Unknown r);
   "removed: " +:+ how_many (oa_Removed r);
   "coverage: " +:+ FormatInt (round_even (oa_Coverage r)) +:+ "%"] ++
  if is_empty (oa_Invalid r) && is_empty (oa_Ambiguous r) && is_empty (oa_Duplicates r) then []
  else ["invalid: " +:+ how_many (oa_Invalid r); "ambiguous: " +:+ how_many (oa_Ambiguous r);
        "duplicates: " +:+ how_many (oa_Duplicates r)].

Definition usage : list string :=
  ["usage:";
   "  remnaguard serve -c remnaguard.yaml";
   "  remnaguard validate -c remnaguard.yaml";
   "  remnaguard routes list";
   "  remnaguard routes check-openapi --spec remnawave-openapi.json";
   "  remnaguard token generate [--id credential-id]";
   "  remnaguard policy explain -c remnaguard.yaml --token token-id";
   "  remnaguard policy test -c remnaguard.yaml --token token-id --method GET --path /api/users/{uuid}"].

Definition config_flag : flag := StringFlag "config" "c" "remnaguard.yaml".

(** [randomID], from the bytes in the buffer after [rand.Read]. *)
Definition randomID (buffer : string) : string := Base64.EncodeToString buffer.

(** What a command finds: the time, the buffer of [randomID] and the random bytes
    of a secret, the SQLite driver, the audit entries that its long-running work
    makes, each with its time, and how that ends. *)
Inductive ended :=
  | Cancelled                       (* SIGINT or SIGTERM *)
  | ListenError (e : string).       (* of either listener *)

Record surroundings := {
  su_now : Z;
  su_id : string;
  su_secret : option string;
  su_db : Sqlite;
  su_version : string;
  su_emitted : list (Z * Entry);
  su_ended : ended;
}.

Section commands.
Context `{Unicode} `{Host} `{Regexps} `{NetParsers} `{NetFiles} `{RequestURLs} `{OS} `{YamlOut}.
Context `{Yc : Yaml Config} `{Yt : Yaml (list TokenPolicy)} `{Pflag}.

(** ** Commands *)

Definition command := FS -> FS * output.

Definition only_printing (o : output) : command := fun fs => (fs, o).
Definition by_io (p : io (list string)) : command :=
  fun fs => let '(fs', r) := p fs in (fs', of_lines r).

(** The flags of a command, parsed. *)
Definition with_flags (name : string) (fl : list flag) (args : list string)
    (k : flags -> command) : command :=
  match pflag_Parse name fl args with
  | Err e => only_printing (failing e)
  | Ok f => k f
  end.

(** [http.ErrServerClosed] *)
Definition ErrServerClosed : string := "http: Server closed".

(** The result of [Runtime.Serve]. *)
Definition Serve (e : ended) : res () :=
  match e with
  | Cancelled => Ok ()
  | ListenError e => if e =s? ErrServerClosed then Ok () else Err e
  end.

Definition report_warning (cfg : Config) : list string :=
  if rep_UnsafeReportProxy (cfg_Report cfg)
  then ["warning: unsafe_report_proxy is enabled; would-deny policy failures may proxy upstream"]
  else [].

(** The entries go to the audit log, one after the other. *)
Fixpoint emit_all (db : Sqlite) (l : Logger) (es : list (Z * Entry)) (fs : FS)
    : FS * list printed :=
  match es with
  | [] => (fs, [])
  | (now, e) :: es' =>
      let '(fs1, line) := emit db l now e fs in
      let '(fs2, ls) := emit_all db l es' fs1 in
      (fs2, match line with Some text => Written text :: ls | None => ls end)
  end.

(** What the requests do is in Gateway.v; of the files, the log is all they change. *)
Definition serve (su : surroundings) (args : list string) : command :=
  with_flags "serve" [config_flag] args (fun f fs =>
    match LoadConfig (string_of f "config") fs with
    | Err e => (fs, failing e)
    | Ok cfg =>
        let warned ls e := {| o_stdout := ls; o_stderr := report_warning cfg; o_err := e |} in
        match new_runtime (su_db su) cfg (su_version su) (su_now su) fs with
        | (fs1, Err e) => (fs1, warned [] (Some e))
        | (fs1, Ok rt) =>
            let '(fs2, ls) := emit_all (su_db su) (rt_audit rt) (su_emitted su) fs1 in
            (fs2, warned ls (match Serve (su_ended su) with Ok _ => None | Err e => Some e end))
        end
    end).

Definition validate (args : list string) : command :=
  with_flags "validate" [config_flag] args (fun f => by_io (Cmd.validate (string_of f "config"))).

Definition unknown_sub (kind sub : string) : command :=
  only_printing (failing ("unknown " +:+ kind +:+ " subcommand " +:+ strconv_quote sub)).

Definition stat_file (fs : FS) (path : string) : res Z :=
  match fs !! path with
  | Some f => if os_refuses fs (OStat path) then Err io_error else Ok (len (f_data f))
  | None => Err "no such file or directory"
  end.

Definition read_file (fs : FS) (path : string) : res string := ReadFile (Host := fs_host fs) path.

(** [routes check-openapi]: with [--strict] a summary, and the result only when
    there is something to report. *)
Definition check_openapi (spec : string) (strict : bool) : command := fun fs =>
  (fs, match routes_check (stat_file fs) (read_file fs) spec strict with
       | (None, Err e) => failing e
       | (None, Ok _) => printing []
       | (Some r, e) =>
           let summary := if strict then map Line (strict_report r) else [] in
           {| o_stdout := summary ++ (if strict && strict_clean r then [] else [Encoded_result r]);
              o_stderr := []; o_err := match e with Ok _ => None | Err e => Some e end |}
       end).

Definition routesCmd (args : list string) : command :=
  match args with
  | [] => only_printing (failing "missing routes subcommand")
  | sub :: rest =>
      if sub =s? "list" then only_printing (printing (map Line routes_list))
      else if sub =s? "check-openapi" then
        with_flags "check-openapi" [StringFlag "spec" "" ""; BoolFlag "strict"] rest
          (fun f => check_openapi (string_of f "spec") (bool_of f "strict"))
      else unknown_sub "routes" sub
  end.

Definition tokenCmd (su : surroundings) (args : list string) : command :=
  let id_flag := StringFlag "id" "" "" in
  let file_flag := StringFlag "tokens-file" "" "" in
  let credential := StringFlag "credential" "" ("cred_" +:+ randomID (su_id su)) in
  match args with
  | [] => only_printing (failing "missing token subcommand")
  | sub :: rest =>
      if sub =s? "generate" then
        with_flags sub [StringFlag "id" "" ("cred_" +:+ randomID (su_id su));
                        StringFlag "pepper" "" ""] rest
          (fun f => only_printing (of_lines
             (token_generate (su_secret su) (string_of f "id") (string_of f "pepper"))))
      else if sub =s? "add" then
        with_flags sub [config_flag; id_flag; credential; StringFlag "scopes" "" "users:read";
                        file_flag] rest
          (fun f => by_io (token_add (su_now su) (su_secret su) (string_of f "config")
             (string_of f "id") (string_of f "credential") (string_of f "scopes")
             (string_of f "tokens-file")))
      else if sub =s? "rotate" then
        with_flags sub [config_flag; id_flag; credential; file_flag] rest
          (fun f => by_io (token_rotate (su_now su) (su_secret su) (string_of f "config")
             (string_of f "id") (string_of f "credential") (string_of f "tokens-file")))
      else if sub =s? "disable" then
        with_flags sub [config_flag; id_flag; StringFlag "credential" "" ""; file_flag] rest
          (fun f => by_io (token_disable (su_now su) (string_of f "config")
             (string_of f "id") (string_of f "credential") (string_of f "tokens-file")))
      else if sub =s? "prune" then
        with_flags sub [config_flag; id_flag; file_flag] rest
          (fun f => by_io (token_prune (su_now su) (string_of f "config")
             (string_of f "id") (string_of f "tokens-file")))
      else unknown_sub "token" sub
  end.

Definition policy_explain (cfgPath tokenID : string) (fs : FS) : output :=
  match LoadConfig cfgPath fs with
  | Err e => failing e
  | Ok cfg => match FindToken cfg tokenID with
              | None => failing ("token " +:+ strconv_quote tokenID +:+ " not found")
              | Some tok => printing [Encoded_token tok]
              end
  end.

(** The configuration is read before the subcommand is looked at. *)
Definition policyCmd (args : list string) : command :=
  match args with
  | [] => only_printing (failing "missing policy subcommand")
  | sub :: rest =>
      with_flags sub [config_flag; StringFlag "token" "" ""; StringFlag "method" "" "GET";
                      StringFlag "path" "" "/api/users/{uuid}"] rest (fun f fs =>
        let cfgPath := string_of f "config" in
        let tokenID := string_of f "token" in
        if sub =s? "explain" then (fs, policy_explain cfgPath tokenID fs)
        else if sub =s? "test" then
          by_io (policy_test cfgPath tokenID (string_of f "method") (string_of f "path")) fs
        else
          let o := policy_explain cfgPath tokenID fs in
          match o_err o with
          | Some _ => (fs, o)
          | None => unknown_sub "policy" sub fs
          end)
  end.

Definition with_usage (o : output) : output :=
  {| o_stdout := o_stdout o; o_stderr := usage ++ o_stderr o; o_err := o_err o |}.

Definition run (su : surroundings) (args : list string) : command :=
  match args with
  | [] => only_printing (with_usage (failing "missing command"))
  | cmd :: rest =>
      if cmd =s? "serve" then serve su rest
      else if cmd =s? "validate" then validate rest
      else if cmd =s? "routes" then routesCmd rest
      else if cmd =s? "token" then tokenCmd su rest
      else if cmd =s? "policy" then policyCmd rest
      else if (cmd =s? "version") || (cmd =s? "--version") || (cmd =s? "-v")
           then only_printing (printing [Line (su_version su)])
      else only_printing (with_usage (failing ("unknown command " +:+ strconv_quote cmd)))
  end.

(** [main]: the files after it, the exit status and what was printed. *)
Definition main (su : surroundings) (args : list string) (fs : FS)
    : FS * Z * list printed * list string :=
  let '(fs', o) := run su args fs in
  match o_err o with
  | None => (fs', 0, o_stdout o, o_stderr o)
  | Some e => (fs', 1, o_stdout o, o_stderr o ++ ["remnaguard: " +:+ e])
  end.

(** ** What a command changes *)

#[local] Instance file_eq_dec : EqDecision File.
Proof using Type. solve_decision. Defined.

(** A part that changes only files of [P]. *)
Definition spares {A} (P : string -> Prop) (p : io A) : Prop :=
  forall fs q, fst (p fs) !! q <> fs !! q -> P q.

Lemma spares_bind {A B} P (p : io A) (f : A -> io B) :
  spares P p -> (forall fs fs1 a, p fs = (fs1, Ok a) -> spares P (f a)) -> spares P (io_bind p f).
Proof using Type.
  intros Hp Hf fs q. unfold io_bind. specialize (Hp fs q).
  destruct (p fs) as [fs1 [a|e]] eqn:Heq; cbn [fst] in *; [|done]. intros Hne.
  destruct (decide (fs1 !! q = fs !! q)) as [Hq|]; [|auto].
  apply (Hf fs fs1 a Heq fs1). by rewrite Hq.
Qed.

Lemma spares_touches {A} (P : string -> Prop) ps (p : io A) :
  CmdFacts.touches ps p -> (forall q, q ∈ ps -> P q) -> spares P p.
Proof using Type.
  intros Ht HP fs q Hne. destruct (decide (q ∈ ps)) as [|Hq]; [auto|].
  by destruct Hne; apply Ht.
Qed.

Lemma spares_none {A} P (p : io A) : (forall fs, fst (p fs) = fs) -> spares P p.
Proof using Type. intros Hp fs q. by rewrite Hp. Qed.

(** The files an edit of [path] may leave changed, whatever fails on the way. *)
Definition edited (now : Z) (path q : string) : Prop :=
  q = path \/ q = backup_name path now \/ exists fs, q = os_TempName fs (filepath_Dir path).

Lemma replace_file_touches tmp path data : CmdFacts.touches [tmp; path] (replace_file tmp path data).
Proof using Type.
  unfold replace_file. repeat (apply touches_bind; [|intros ?]);
    first [apply touches_try|apply touches_write]; try set_solver; try done.
  - intros fs q Hq. apply lookup_alter_ne. set_solver.
  - intros fs q Hq. apply rename_other; set_solver.
Qed.

Lemma validate_edit_touches path backup cfgPath :
  CmdFacts.touches (path :: if backup =s? "" then [] else [backup])
    (validate_edit path backup cfgPath).
Proof using Type.
  intros fs q Hq. unfold validate_edit. destruct (LoadConfig cfgPath fs); [done|].
  destruct (backup =s? ""); [done|]. cbn [fst negb]. unfold try_op.
  destruct (os_refuses fs _); [done|]. cbn [fst]. apply rename_other; set_solver.
Qed.

Lemma make_backup_name path now fs fs' backup :
  make_backup path now fs = (fs', Ok backup) -> backup = "" \/ backup = backup_name path now.
Proof using Type.
  unfold make_backup. destruct (fs !! path); [|intros [= _ <-]; by left].
  destruct (os_refuses fs _); [intros [= _ <-]; by left|].
  intros (fs1 & b & _ & Hb)%io_bind_Ok. apply io_bind_Ok in Hb as (fs2 & [] & _ & [= _ <-]).
  by right.
Qed.

Lemma edit_spares now path doc cfgPath :
  spares (edited now path) (writeTokenFileWithValidation now path doc cfgPath).
Proof using Type.
  unfold writeTokenFileWithValidation. apply spares_bind; [apply spares_none; intros fs; unfold try_op; by case_match|].
  intros _ _ _ _. apply spares_bind.
  { eapply spares_touches; [apply make_backup_touches|]. intros q ->%list_elem_of_singleton.
    right. by left. }
  intros fs0 fs1 backup Hb%make_backup_name. apply spares_bind; [by apply spares_none|].
  intros _ _ b _ fs q. cbv zeta. set (tmp := os_TempName fs _).
  destruct (os_refuses fs _); [done|].
  destruct (io_bind _ _ _) as [fs2 r] eqn:Hr. cbn [fst].
  assert (Ht : CmdFacts.touches (tmp :: path :: if backup =s? "" then [] else [backup])
    (seq! replace_file tmp path b then validate_edit path backup cfgPath)).
  { apply touches_bind; [|intros ?].
    - eapply touches_incl; [|apply replace_file_touches]. set_solver.
    - eapply touches_incl; [|apply validate_edit_touches]. set_solver. }
  intros Hne. destruct (decide (q = tmp)) as [->|Htmp]; [right; right; by exists fs|].
  rewrite remove_other in Hne by done.
  specialize (Ht (<[tmp := {| f_data := ""; f_perm := 384 |}]> fs) q). rewrite Hr in Ht.
  cbn [fst] in Ht. rewrite lookup_insert_ne in Ht by done.
  destruct (decide (q = path)) as [|Hp]; [by left|]. right. left.
  destruct (decide (q = backup_name path now)) as [|Hq]; [done|].
  destruct Hne. apply Ht. destruct Hb as [->| ->]; [set_solver|]. case_match; set_solver.
Qed.

Lemma find_candidate_sound cands seen id fs :
  fst (find_candidate cands seen id fs) = fs /\
  forall doc path i, snd (find_candidate cands seen id fs) = Ok (doc, path, i) -> path ∈ cands.
Proof using Type.
  revert seen. induction cands as [|p cands IH]; intros seen; cbn [find_candidate]; [done|].
  destruct (contains_str seen p).
  { destruct (IH seen) as [Hfs Hp]. split; [done|]. intros. apply list_elem_of_further. eauto. }
  assert (Hr : fst (readTokenFile p fs) = fs).
  { unfold readTokenFile, io_bind, read_op. destruct (fs !! p); [|done].
    by destruct (os_refuses fs _). }
  unfold io_bind. destruct (readTokenFile p fs) as [fs1 [d|e]]; cbn [fst snd] in *; subst fs1; [|done].
  destruct (findTokenDoc d id) as [j|].
  - split; [done|]. intros doc path i [= _ <- _]. apply list_elem_of_here.
  - destruct (IH (p :: seen)) as [Hfs Hp]. split; [done|]. intros. apply list_elem_of_further. eauto.
Qed.

(** The token files a command may be about. *)
Definition token_path (cfgPath explicit tokenID path : string) (fs : FS) : Prop :=
  path = tokenFile cfgPath explicit tokenID \/
  explicit = "" /\ exists matches,
    os_Glob fs (filepath_Join [filepath_Dir cfgPath; "tokens.d"]) "*.yaml" = Ok matches /\
    path ∈ matches.

(** Finding a token changes nothing. *)
Lemma load_sound cfgPath explicit tokenID fs fs1 doc path i :
  loadTokenDocForEdit cfgPath explicit tokenID fs = (fs1, Ok (doc, path, i)) ->
  fs1 = fs /\ token_path cfgPath explicit tokenID path fs.
Proof using Type.
  unfold loadTokenDocForEdit. intros Hl.
  match type of Hl with find_candidate ?c _ _ _ = _ =>
    destruct (find_candidate_sound c [] tokenID fs) as [Hfs Hp] end.
  rewrite Hl in Hfs, Hp. cbn [fst snd] in *. split; [done|]. specialize (Hp _ _ _ eq_refl).
  unfold token_path, tokenFile. destruct (String.eqb_spec explicit "") as [->|Hne]; cbn [negb] in *.
  - apply elem_of_cons in Hp as [Hp|Hp]; [by left|]. right. split; [done|].
    destruct (os_Glob fs _ _) as [ms|]; [by exists ms|by apply not_elem_of_nil in Hp].
  - apply list_elem_of_singleton in Hp. by left.
Qed.

Lemma load_unchanged cfgPath explicit tokenID fs :
  fst (loadTokenDocForEdit cfgPath explicit tokenID fs) = fs.
Proof using Type. unfold loadTokenDocForEdit. by apply find_candidate_sound. Qed.

(** The command of an edit: it finds the token, then writes one document. *)
Lemma found_then_written now cfgPath explicit tokenID fs q
    (k : list TokenPolicy * string * nat -> io (list string)) :
  (forall doc path i, spares (edited now path) (k (doc, path, i))) ->
  fst (io_bind (loadTokenDocForEdit cfgPath explicit tokenID) k fs) !! q <> fs !! q ->
  exists path, token_path cfgPath explicit tokenID path fs /\ edited now path q.
Proof using Type.
  intros Hk. unfold io_bind. pose proof (load_unchanged cfgPath explicit tokenID fs) as Hu.
  destruct (loadTokenDocForEdit cfgPath explicit tokenID fs) as [fs1 [[[doc path] i]|e]] eqn:Hl;
    cbn [fst] in *; subst fs1; [|done].
  intros Hne. exists path. apply load_sound in Hl as [_ Hp]. split; [done|]. by eapply Hk.
Qed.

Lemma written_then {A} now path doc cfgPath (a : A) :
  spares (edited now path) (seq! writeTokenFileWithValidation now path doc cfgPath then io_ret a).
Proof using Type.
  apply spares_bind; [apply edit_spares|]. intros. by apply spares_none.
Qed.

Lemma add_spares now random cfgPath tokenID credID scopes explicit :
  spares (edited now (tokenFile cfgPath explicit tokenID))
    (token_add now random cfgPath tokenID credID scopes explicit).
Proof using Type.
  unfold token_add. destruct (tokenID =s? ""); [by apply spares_none|].
  apply spares_bind; [by apply spares_none|]. intros _ _ [[secret raw] digest] _. cbv zeta.
  apply spares_bind.
  - apply spares_none. intros fs. unfold readTokenFile, io_bind, read_op.
    destruct (fs !! _); [|done]. by destruct (os_refuses fs _).
  - intros _ _ doc _. destruct (findTokenDoc _ _); [by apply spares_none|]. apply written_then.
Qed.

(** What an edit of the command line may touch. *)
Definition within_edit (su : surroundings) (f : flags) (fs : FS) (q : string) : Prop :=
  exists path,
    token_path (string_of f "config") (string_of f "tokens-file") (string_of f "id") path fs /\
    edited (su_now su) path q.

Lemma with_flags_changes name fl args k fs q :
  fst (with_flags name fl args k fs) !! q <> fs !! q ->
  exists f, pflag_Parse name fl args = Ok f /\ fst (k f fs) !! q <> fs !! q.
Proof using Type.
  unfold with_flags. destruct (pflag_Parse name fl args) as [f|]; [|done]. by exists f.
Qed.

Lemma by_io_files p fs : fst (by_io p fs) = fst (p fs).
Proof using Type. unfold by_io. by destruct (p fs). Qed.

Lemma tokenCmd_changes su args fs q :
  fst (tokenCmd su args fs) !! q <> fs !! q ->
  exists sub rest fl f, args = sub :: rest /\ sub ∈ ["add"; "rotate"; "disable"; "prune"] /\
    pflag_Parse sub fl rest = Ok f /\ within_edit su f fs q.
Proof using Type.
  unfold tokenCmd. destruct args as [|sub rest]; [done|].
  destruct (sub =s? "generate"). { by intros (f & _ & Hne)%with_flags_changes. }
  destruct (String.eqb_spec sub "add") as [->|_].
  { intros (f & Hf & Hne)%with_flags_changes. eexists _, _, _, f.
    split_and!; [done|set_solver|exact Hf|]. rewrite by_io_files in Hne.
    eexists. split; [by left|]. by eapply add_spares. }
  destruct (String.eqb_spec sub "rotate") as [->|_].
  { intros (f & Hf & Hne)%with_flags_changes. eexists _, _, _, f.
    split_and!; [done|set_solver|exact Hf|]. rewrite by_io_files in Hne. revert Hne.
    unfold token_rotate. destruct (string_of f "id" =s? ""); [done|].
    apply found_then_written. intros doc path i. apply spares_bind; [by apply spares_none|].
    intros _ _ [[secret raw] digest] _. apply written_then. }
  destruct (String.eqb_spec sub "disable") as [->|_].
  { intros (f & Hf & Hne)%with_flags_changes. eexists _, _, _, f.
    split_and!; [done|set_solver|exact Hf|]. rewrite by_io_files in Hne. revert Hne.
    unfold token_disable. destruct (_ || _); [done|].
    apply found_then_written. intros doc path i. cbv zeta.
    destruct (negb _); [by apply spares_none|]. apply written_then. }
  destruct (String.eqb_spec sub "prune") as [->|_]; [|done].
  intros (f & Hf & Hne)%with_flags_changes. eexists _, _, _, f.
  split_and!; [done|set_solver|exact Hf|]. rewrite by_io_files in Hne. revert Hne.
  unfold token_prune. destruct (string_of f "id" =s? ""); [done|].
  apply found_then_written. intros doc path i. apply written_then.
Qed.

Lemma new_runtime_log db cfg version now fs fs1 rt source :
  new_runtime db cfg version now fs = (fs1, Ok rt) -> lg_db (rt_audit rt) = Some source ->
  source = aud_SQLitePath (cfg_Audit cfg) /\ source <> "".
Proof using Type.
  unfold new_runtime. cbv zeta. destruct (AuditLog.New _ _ _ _ _) as [fs' [l|]] eqn:Hl; [|done].
  intros [= -> Hr]. unfold NewRuntime in Hr.
  destruct (newRuntimeState _ _) as [[st gen]|] in Hr; [|done]. injection Hr as <-. cbn [rt_audit].
  intros Hd. by destruct (New_db _ _ _ _ _ _ _ _ Hl Hd) as [-> ].
Qed.

Lemma new_runtime_files db cfg version now fs q :
  sqlite_spec db -> fst (new_runtime db cfg version now fs) !! q <> fs !! q ->
  aud_SQLitePath (cfg_Audit cfg) <> "" /\ q ∈ sql_files (aud_SQLitePath (cfg_Audit cfg)).
Proof using Type.
  intros Hdb. unfold new_runtime. cbv zeta. destruct (AuditLog.New _ _ _ _ _) as [fs' l] eqn:Hl.
  cbn [fst]. intros Hq. apply (New_files db (aud_Stdout (cfg_Audit cfg))
    (Getenv (aud_PepperEnv (cfg_Audit cfg))) _ fs q Hdb). by rewrite Hl.
Qed.

Lemma emit_all_files db l es fs q :
  sqlite_spec db -> fst (emit_all db l es fs) !! q <> fs !! q ->
  exists source, lg_db l = Some source /\ q ∈ sql_files source.
Proof using Type.
  intros Hdb. revert fs. induction es as [|[now e] es IH]; intros fs; cbn [emit_all]; [done|].
  pose proof (emit_files db l now e fs q Hdb) as He. destruct (emit _ _ _ _ _) as [fs1 line].
  specialize (IH fs1). destruct (emit_all _ _ _ _) as [fs2 ls]. cbn [fst] in *.
  destruct (decide (fs1 !! q = fs !! q)) as [<-|]; auto.
Qed.

(** The database of the audit log that the configuration of [cfgPath] names. *)
Definition log_file (db : Sqlite) (cfgPath : string) (fs : FS) (q : string) : Prop :=
  exists cfg, LoadConfig cfgPath fs = Ok cfg /\ aud_SQLitePath (cfg_Audit cfg) <> "" /\
    q ∈ sql_files (aud_SQLitePath (cfg_Audit cfg)).

Lemma serve_changes su args fs q :
  sqlite_spec (su_db su) -> fst (serve su args fs) !! q <> fs !! q ->
  exists f, pflag_Parse "serve" [config_flag] args = Ok f /\
    log_file (su_db su) (string_of f "config") fs q.
Proof using Type.
  intros Hdb (f & Hf & Hne)%with_flags_changes. exists f. split; [done|].
  destruct (LoadConfig _ fs) as [cfg|] eqn:Hl; [|done]. exists cfg. split; [done|].
  pose proof (new_runtime_files (su_db su) cfg (su_version su) (su_now su) fs q Hdb) as Hn.
  destruct (new_runtime _ _ _ _ fs) as [fs1 [rt|e]] eqn:Hr; cbn [fst] in *; [|by apply Hn].
  destruct (decide (fs1 !! q = fs !! q)) as [Hq|]; [|by apply Hn].
  pose proof (emit_all_files (su_db su) (rt_audit rt) (su_emitted su) fs1 q Hdb) as He.
  destruct (emit_all _ _ _ fs1) as [fs2 ls]. cbn [fst] in *.
  destruct He as (source & Hs & Hin); [congruence|].
  by destruct (new_runtime_log _ _ _ _ _ _ _ _ Hr Hs) as [-> ].
Qed.

End commands.

(** ** Witness: token disable on the files of CmdFacts.v, and serve with a database *)

(** Flags given as [--name=value]; any other argument is an error. *)
Definition plain_flags : Pflag := {|
  pflag_Parse := fun _ fl args =>
    let value name v := foldl (fun v a => if HasPrefix a ("--" +:+ name +:+ "=")
      then TrimPrefix a ("--" +:+ name +:+ "=") else v) v args in
    if forallb (fun a => existsb (fun f => match f with
         | StringFlag name _ _ | BoolFlag name => HasPrefix a ("--" +:+ name +:+ "=") end) fl) args
    then Ok {|
      string_of := fun name => value name match List.find (fun f => match f with
        | StringFlag n _ _ | BoolFlag n => n =s? name end) fl with
        | Some (StringFlag _ _ v) => v | _ => "" end;
      bool_of := fun name => value name "false" =s? "true" |}
    else Err "unknown flag" |}.

#[local] Existing Instance plain_flags.

Definition example_surroundings : surroundings := {|
  su_now := 0; su_id := "01234567"; su_secret := Some "0123"; su_db := text_db;
  su_version := "dev"; su_emitted := [(0, AuditLog.Emit "reload_applied" "" "" "" "ok" 0)];
  su_ended := Cancelled |}.

Definition disable_args : list string :=
  ["token"; "disable"; "--config=r.yaml"; "--id=acme"; "--credential=cred_1"].

Definition disable_main : FS * Z * list printed * list string :=
  main example_surroundings disable_args example_files_before.

Definition bak : string := backup_name "tokens.d/acme.yaml" 0.

(** The configuration of GatewayFacts.v, its audit log in a database. *)
Definition logging_config : Config :=
  let d := working_config in
  Build_Config (cfg_Server d) (cfg_Upstream d) (cfg_Compatibility d) (cfg_Limits d)
    (cfg_Metrics d)
    {| aud_Stdout := true; aud_PepperEnv := aud_PepperEnv (cfg_Audit d);
       aud_SQLitePath := "audit.db" |}
    (cfg_Alerts d) (cfg_Report d) (cfg_PublicSubs d) (cfg_PanelFacade d) (cfg_Reload d)
    (cfg_WriteSafety d) (cfg_Tokens d) [] "".

Definition logging_yaml : Yaml Config := {|
  yaml_Unmarshal := fun b c => if b =s? "gateway" then Ok logging_config else Err "yaml" |}.

Definition serve_main : FS * Z * list printed * list string :=
  main (H0 := panel_host) (H5 := working_os) (Yc := logging_yaml) example_surroundings
    ["serve"; "--config=guard.yaml"] working_files.

(** The database is there, with the entry, and nothing else has changed. *)
Example serve_logs :
  fst (fst (fst serve_main)) =
    <["audit.db" := {| f_data := "1970-01-01T00:00:00Z|reload_applied||||ok|0" +:+ newline;
                       f_perm := 420 |}]> working_files /\
  snd (fst (fst serve_main)) = 0 /\ length (snd (fst serve_main)) = 1%nat.
Proof. vm_compute. split_and!; reflexivity. Qed.

