(* ===== verification/Shutdown.v ===== *)
(** * internal/server: the end of the process

    [Runtime.Serve] serves until it is told to stop or a listener fails; told to
    stop, it accepts no more requests and waits for those it has accepted, for the
    grace period of the configuration it was started with.  What is left when it
    ends, and that the waiting ends. *)

From S2P Require Import Prelude GoStrings Json Ratelimit Config ConfigFacts Routes Auth Policy.
From S2P Require Import EffectiveRoute Httputil Remnawave BodyPolicy ResponsePolicy Proxy.
From S2P Require Import Alerts AuditLog OAuthStore Effects PanelFacade Respond PanelOAuth PanelLogin.
From S2P Require Import Handler Calls Example Authorization Resources Runtime PanelLoginFacts.
From S2P Require Import Concurrency Cmd Gateway GatewayFacts Commands.
From stdpp Require Import options.

Local Open Scope Z_scope.

Section shutdown.
Context `{Unicode} `{Host} `{Regexps} `{NetParsers} `{NetFiles} `{RequestURLs} `{OS}.
Context `{Yc : Yaml Config} `{Sch : Scheduling}.
Context (VerifyPKCS1v15 : PublicKey -> string -> string -> bool) (cfgPath : string).

Notation gateway := (gateway VerifyPKCS1v15 cfgPath).
Notation step := (step VerifyPKCS1v15 cfgPath).

(** ** The process *)

Inductive process :=
  | Running (g : Gateway)
  | Draining (deadline : Z) (g : Gateway)
  | Exited (status : Z) (g : Gateway).

Definition all_answered (g : Gateway) : Prop :=
  Forall (fun t => exists o, th_prog t = Ret o) (gw_threads g).

Definition status_of (r : res ()) : Z := match r with Ok _ => 0 | Err _ => 1 end.

(** [grace] is [shutdown_grace_period] as it was at the start: a reload does not
    change it.  The clock of the runtime is the last one read: time may have passed
    since. *)
Inductive life (grace : Z) : process -> history -> process -> Prop :=
  | lives g ev g' : step g ev g' -> life grace (Running g) ev (Running g')
  | interrupted g now :
      rt_clock (gw_runtime g) <= now -> life grace (Running g) [] (Draining (now + grace) g)
  | listener_fails g e :
      life grace (Running g) [] (Exited (status_of (Serve (ListenError e))) g)
  | finishing d g ev g' :
      step g ev g' -> gw_requests g' = gw_requests g -> rt_clock (gw_runtime g) < d ->
      life grace (Draining d g) ev (Draining d g')
  | drained d g :
      all_answered g -> life grace (Draining d g) [] (Exited (status_of (Serve Cancelled)) g)
  | expired d g now :
      rt_clock (gw_runtime g) <= now -> d <= now ->
      life grace (Draining d g) [] (Exited (status_of (Serve Cancelled)) g).

Definition gateway_of (p : process) : Gateway :=
  match p with Running g | Draining _ g | Exited _ g => g end.

Inductive lived (grace : Z) : process -> history -> Prop :=
  | born db version now fs fs' r :
      start cfgPath db version now fs = (fs', Ok r) ->
      grace = lim_ShutdownGracePeriod (cfg_Limits (rs_cfg (rt_state r))) ->
      lived grace (Running (started_with r))
        [Install (rt_state r)]
  | goes_on p h ev p' : lived grace p h -> life grace p ev p' -> lived grace p' (h ++ ev).

Lemma lived_gateway grace p h : lived grace p h -> gateway (gateway_of p) h.
Proof.
  induction 1 as [db v t fs fs' r Hs Hg|p h ev p' _ IH Hl]; [by eapply starts|].
  destruct Hl; cbn [gateway_of] in *; try (rewrite app_nil_r; exact IH); by eapply continues.
Qed.

(** ** The work that is left *)

(** A program that has made [n] calls and ends within [N] of them. *)
Lemma wp_room {A} G (p : prog A) h Q (N : nat) (st : runtimeState) :
  wp G p h Q -> (forall h' a, Q h' a -> (length h' <= N)%nat) ->
  (length h <= N)%nat /\ (forall c k, p = Vis c k -> (length h < N)%nat).
Proof.
  intros Hp HQ. split.
  - destruct (wp_final _ _ _ _ st Hp) as (h' & a & Hf%HQ). rewrite length_app in Hf. lia.
  - intros c k ->. destruct Hp as [_ Hk]. destruct (call_answered c st) as [r _].
    destruct (wp_final _ _ _ _ st (Hk r)) as (h' & a & Hf%HQ).
    rewrite length_app in Hf. simpl in Hf. lia.
Qed.

(** 38 calls for each request, less those it has made. *)
Definition left_of (t : thread) : nat := 38 - length (th_hist t).
Definition remaining (g : Gateway) : nat := sum_list_with left_of (gw_threads g).

Lemma gateway_room g h i t :
  gateway g h -> gw_threads g !! i = Some t ->
  (length (th_hist t) <= 38)%nat /\
  (forall c k, th_prog t = Vis c k -> (length (th_hist t) < 38)%nat) /\
  (forall o, th_prog t = Ret o -> count is_write (th_hist t) = when_returned o).
Proof.
  intros Hg Ht. pose proof (gateway_threads_ok _ _ _ _ Hg) as [Hl _ _].
  destruct (proj2 (lookup_lt_is_Some (gw_requests g) i)) as [req Hreq].
  { rewrite Hl. by eapply lookup_lt_Some. }
  destruct (gateway_wp VerifyPKCS1v15 cfgPath (fun _ => gives_back)
    (fun _ h o => adds (when_returned o) 20 38 [] h)
    (fun req _ => apiHandler_costs _ ∅ req []) g h Hg) as [Hw _].
  specialize (Hw i t req Ht Hreq).
  destruct (wp_room _ _ _ _ 38 (rt_state (gw_runtime g)) Hw) as [Hle Hlt].
  { intros h' a (_ & _ & Hn & _). simpl in Hn. lia. }
  split_and!; [done|done|]. intros o Ho. rewrite Ho in Hw. cbn [wp] in Hw.
  destruct Hw as [Hc _]. unfold count in *. simpl in Hc. lia.
Qed.

(** ** Draining *)

(** What the process does from a state on. *)
Inductive goes (grace : Z) : process -> history -> process -> Prop :=
  | stays p : goes grace p [] p
  | moves p ev p' ev' p'' :
      life grace p ev p' -> goes grace p' ev' p'' -> goes grace p (ev ++ ev') p''.

Lemma lived_goes grace p h ev p' :
  lived grace p h -> goes grace p ev p' -> lived grace p' (h ++ ev).
Proof.
  intros Hl Hg. revert h Hl. induction Hg as [p|p ev p' ev' p'' Hs _ IH]; intros h Hl.
  - by rewrite app_nil_r.
  - rewrite app_assoc. apply IH. by eapply goes_on.
Qed.

(** The deadline is the grace period of the configuration the process was started
    with, counted from the interruption. *)
Definition deadline_of (grace d : Z) (g : Gateway) (h : history) : Prop :=
  exists g0 h0 ev st now, lived grace (Running g0) h0 /\ h = h0 ++ ev /\
    head h0 = Some (Install st) /\
    grace = lim_ShutdownGracePeriod (cfg_Limits (rs_cfg st)) /\
    rt_clock (gw_runtime g0) <= now /\ d = now + grace /\ gw_requests g = gw_requests g0.

Lemma lived_start grace p h : lived grace p h ->
  exists st, head h = Some (Install st) /\ grace = lim_ShutdownGracePeriod (cfg_Limits (rs_cfg st)).
Proof.
  induction 1 as [db v t fs fs' r Hs Hg|p h ev p' _ (st & Hh & Hg) _]; [by eexists|].
  exists st. split; [|done]. by destruct h.
Qed.

Lemma lived_deadline grace p h :
  lived grace p h -> match p with Draining d g => deadline_of grace d g h | _ => True end.
Proof.
  induction 1 as [db v t fs fs' r Hs Hg|p h ev p' Hp IH Hl]; [done|].
  destruct Hl as [| | |d g ev g' _ Hr _| |]; try done.
  - destruct (lived_start _ _ _ Hp) as (st & Hh & Hg). exists g, h, [], st, now. done.
  - destruct IH as (g0 & h0 & ev0 & st & now & H0' & -> & Hrest).
    exists g0, h0, (ev0 ++ ev), st, now. by rewrite app_assoc, Hr.
Qed.

Definition is_call (e : happening) : bool := match e with Call _ _ _ => true | _ => false end.
Definition calls_in (ev : history) : nat := length (List.filter is_call ev).

Lemma calls_in_app h1 h2 : calls_in (h1 ++ h2) = (calls_in h1 + calls_in h2)%nat.
Proof. unfold calls_in. by rewrite List.filter_app, length_app. Qed.

Lemma sum_insert (f : thread -> nat) ts (i : nat) t t' :
  ts !! i = Some t -> (sum_list_with f (<[i := t']> ts) + f t = sum_list_with f ts + f t')%nat.
Proof.
  revert i. induction ts as [|t0 ts IH]; intros [|i] Hi; simpl in *; [done|done| |].
  - injection Hi as ->. lia.
  - specialize (IH i Hi). lia.
Qed.

(** Each call uses one up. *)
Lemma step_used g h ev g' :
  gateway g h -> step g ev g' -> gw_requests g' = gw_requests g ->
  (calls_in ev + remaining g' = remaining g)%nat.
Proof.
  intros Hg Hs. revert Hg.
  destruct Hs as [r ts reqs ph i c k h0 a r' Hi Ha|r ts reqs ph req|r ts reqs ph evs r' ph' Hp| |];
    cbn [gw_requests gw_threads]; intros Hg Hr; try done.
  - destruct (gateway_room _ _ i _ Hg Hi) as (_ & Hlt & _). specialize (Hlt c k eq_refl).
    cbn [th_hist] in Hlt. unfold remaining. cbn [gw_threads].
    pose proof (sum_insert left_of ts i _ {| th_prog := k a; th_hist := observe c a :: h0 |} Hi) as Hsum.
    unfold left_of in Hsum at 2 4. cbn [th_hist length] in Hsum. unfold calls_in. simpl. lia.
  - apply (f_equal length) in Hr. rewrite length_app in Hr. simpl in Hr. lia.
  - by destruct Hp.
Qed.

Lemma drain_used grace d g h ev p :
  lived grace (Draining d g) h -> goes grace (Draining d g) ev p ->
  (calls_in ev + remaining (gateway_of p) = remaining g)%nat /\
  match p with Running _ => False | Draining d' g' => d' = d | Exited _ _ => True end.
Proof.
  intros Hl Hg. remember (Draining d g) as q eqn:Hq. revert g h Hq Hl.
  induction Hg as [p|p ev p' ev' p'' Hs Hrest IH]; intros g h -> Hl; [done|].
  assert (Hex : forall s g1, goes grace (Exited s g1) ev' p'' -> ev' = [] /\ p'' = Exited s g1).
  { intros s g1 He. by inversion He as [|? ? ? ? ? Hlf]; subst; [|inversion Hlf]. }
  pose proof (lived_gateway _ _ _ Hl) as Hgw. cbn [gateway_of] in Hgw.
  inversion Hs as [| | |d0 g0 ev0 g' Hst Hr Hd|d0 g0 Ha|d0 g0 now Hn Hd]; subst.
  - pose proof (step_used _ _ _ _ Hgw Hst Hr) as Hu.
    destruct (IH g' _ eq_refl (goes_on _ _ _ _ _ Hl Hs)) as [Hu' Hd']. rewrite calls_in_app.
    split; [lia|done].
  - by destruct (Hex _ _ Hrest) as [-> ->].
  - by destruct (Hex _ _ Hrest) as [-> ->].
Qed.

(** While a request is unanswered, some request moves on, in no time. *)
Lemma some_call g h : gateway g h -> ~ all_answered g ->
  exists ev g', step g ev g' /\ gw_requests g' = gw_requests g /\
    rt_clock (gw_runtime g') = rt_clock (gw_runtime g) /\ calls_in ev = 1%nat.
Proof.
  intros Hg Hn. apply gateway_inv in Hg as [cfgs Hi]. destruct g as [r ts reqs ph].
  cbn [gw_runtime gw_threads] in *.
  assert (Hex : exists t, t ∈ ts /\ forall o, th_prog t <> Ret o).
  { unfold all_answered in Hn. cbn [gw_threads] in Hn. clear Hi. induction ts as [|t ts IH].
    - destruct Hn. constructor.
    - destruct (th_prog t) as [o|c k] eqn:Ht.
      + destruct IH as (t' & Hin & Hr); [intros Hf; apply Hn; constructor; eauto|].
        exists t'. split; [by apply list_elem_of_further|done].
      + exists t. split; [apply list_elem_of_here|]. intros o. by rewrite Ht. }
  destruct Hex as (t & Ht & Hr). destruct (inv_progress _ _ _ _ Hi Ht Hr) as [s Hs].
  inversion Hs as [r0 l1 l2 c k h0 a r' Ha Heq]. subst.
  destruct (handles_at_once _ _ _ _ Ha) as (a1 & r1 & Ha1 & Hc). eexists _, _. split.
  { eapply (serves _ _ r _ reqs ph (length l1)); [|exact Ha1].
    by rewrite lookup_app_r, Nat.sub_diag by lia. }
  done.
Qed.

Lemma answered_dec g : all_answered g \/ ~ all_answered g.
Proof.
  unfold all_answered. induction (gw_threads g) as [|t ts [IH|IH]]; [left; constructor| |].
  - destruct (th_prog t) as [o|c k] eqn:Ht; [left; constructor; eauto|].
    right. intros [[o Ho] _]%Forall_cons. by rewrite Ht in Ho.
  - right. by intros [_ Ha]%Forall_cons.
Qed.

Lemma drain_from n grace d g h :
  (remaining g <= n)%nat -> lived grace (Draining d g) h -> rt_clock (gw_runtime g) < d ->
  exists ev g', goes grace (Draining d g) ev (Exited 0 g') /\ all_answered g'.
Proof.
  revert g h. induction n as [|n IH]; intros g h Hn Hl Hc;
    (destruct (answered_dec g) as [Ha|Ha];
      [exists [], g; split; [|done];
       exact (moves _ _ _ _ _ _ (drained grace d g Ha) (stays grace _))|]);
    pose proof (lived_gateway _ _ _ Hl) as Hg; cbn [gateway_of] in Hg;
    destruct (some_call g h Hg Ha) as (ev & g1 & Hs & Hr & Hk & Hone);
    pose proof (step_used _ _ _ _ Hg Hs Hr) as Hu; [lia|].
  pose proof (finishing grace d g ev g1 Hs Hr Hc) as Hf.
  destruct (IH g1 _ ltac:(lia) (goes_on _ _ _ _ _ Hl Hf) ltac:(by rewrite Hk)) as (ev' & g2 & Hgo & Ha').
  exists (ev ++ ev'), g2. split; [by eapply moves|done].
Qed.

(** A gateway whose requests are all answered holds nothing. *)
Lemma answered_idle g h :
  gateway g h -> all_answered g ->
  rt_locks (gw_runtime g) = ∅ /\
  (forall n gen l, rt_generations (gw_runtime g) !! n = Some gen ->
     sem_used (sem_of (gn_limits gen) l) = 0).
Proof.
  intros [cfgs Hi]%gateway_inv Ha.
  assert (Hz : forall x, total x (gw_threads g) = 0%nat).
  { intros x. destruct (total x (gw_threads g)) eqn:Ht; [done|].
    destruct (proj1 (total_pos x (gw_threads g))) as (t & Hin & Hx); [lia|].
    assert (Hok : thread_ok cfgs t) by (eapply Forall_forall; [apply Hi|done]).
    assert (Hr : exists o, th_prog t = Ret o) by (by eapply Forall_forall in Ha).
    destruct t as [p h']. destruct Hr as [o Hr]. cbn [th_prog] in Hr. subst p.
    pose proof (to_balanced _ _ Hok) as Hb. cbn [th_prog th_hist wp] in Hb.
    unfold holds in Hx. cbn [th_hist] in Hx. rewrite Hb in Hx. set_solver. }
  split.
  - apply leibniz_equiv, equiv_empty. intros k Hk. pose proof (si_locks _ _ _ Hi k) as Hl.
    rewrite Hz, decide_True in Hl by done. done.
  - intros n gen l Hg. destruct (proj2 (si_known _ _ _ Hi n)) as [cfg Hc]; [by eexists|].
    destruct (si_slots _ _ _ Hi n gen cfg l Hg Hc) as (Hu & _). rewrite Hz in Hu. done.
Qed.

(** A gateway at rest: no lock is held, every semaphore is empty, and each handler
    has written one response, or none if it panicked. *)
Record at_rest (g : Gateway) (h : history) : Prop := {
  ar_locks : rt_locks (gw_runtime g) = ∅;
  ar_slots : forall n gen l, rt_generations (gw_runtime g) !! n = Some gen ->
    sem_used (sem_of (gn_limits gen) l) = 0;
  ar_answers : forall i t o, gw_threads g !! i = Some t -> th_prog t = Ret o ->
    count is_write (said i h) = when_returned o;
}.

Lemma answered_at_rest g h : gateway g h -> all_answered g -> at_rest g h.
Proof.
  intros Hg Ha. destruct (answered_idle _ _ Hg Ha) as [Hl Hs]. split; [done|done|].
  intros i t o Ht Ho. destruct (gateway_room _ _ i t Hg Ht) as (_ & _ & Hw).
  rewrite <- (Hw o Ho), (to_hist _ _ (gateway_threads_ok _ _ _ _ Hg) i t Ht).
  by rewrite count_rev.
Qed.

(** A process told to stop exits with status 0, when it is idle or out of time. *)
Lemma drain_exit grace d g h ev s g' :
  lived grace (Draining d g) h -> goes grace (Draining d g) ev (Exited s g') ->
  s = 0 /\ (all_answered g' \/ exists now, rt_clock (gw_runtime g') <= now /\ d <= now).
Proof.
  intros Hl Hg. remember (Draining d g) as q eqn:Hq. remember (Exited s g') as q' eqn:Hq'.
  revert g h Hq Hl. induction Hg as [p|p ev p' ev' p'' Hs Hrest IH]; intros g h Hq Hl; subst; [done|].
  inversion Hs as [| | |d0 g0 ev0 g1 Hst Hr Hd|d0 g0 Ha|d0 g0 now Hn Hd]; subst.
  - by eapply IH; [| |eapply goes_on].
  - inversion Hrest as [|? ? ? ? ? Hlf]; subst; [|inversion Hlf]. split; [done|by left].
  - inversion Hrest as [|? ? ? ? ? Hlf]; subst; [|inversion Hlf]. split; [done|right; eauto].
Qed.

(** C7: a stop ends well, the grace period permitting.  Told to stop, the process
    waits until a deadline: the grace period of the configuration it was started
    with, counted from the interruption; no request is accepted after it.  While
    the clock is before the deadline, the accepted requests go on: they make at
    most 38 calls each, and some course of the process answers them all and exits
    with status 0.  When the clock has reached the deadline, all the process can do
    is exit, whatever is unanswered.  Whenever it exits the status is 0, and either
    all accepted requests have been answered -- then no lock is held, every
    semaphore is empty and each handler has written one response, or none if it
    panicked -- or the deadline has passed. *)
Theorem graceful_stop grace d g h :
  lived grace (Draining d g) h ->
  deadline_of grace d g h /\
  (forall ev p, goes grace (Draining d g) ev p ->
     (calls_in ev <= 38 * length (gw_requests g))%nat) /\
  (rt_clock (gw_runtime g) < d ->
     exists ev g', goes grace (Draining d g) ev (Exited 0 g') /\ all_answered g') /\
  (d <= rt_clock (gw_runtime g) ->
     life grace (Draining d g) [] (Exited 0 g) /\
     forall ev p, life grace (Draining d g) ev p -> ev = [] /\ p = Exited 0 g) /\
  (forall ev s g', goes grace (Draining d g) ev (Exited s g') ->
     s = 0 /\ (all_answered g' \/ exists now, rt_clock (gw_runtime g') <= now /\ d <= now) /\
     (all_answered g' -> at_rest g' (h ++ ev))).
Proof.
  intros Hl. pose proof (lived_gateway _ _ _ Hl) as Hg. cbn [gateway_of] in Hg. split_and!.
  - exact (lived_deadline _ _ _ Hl).
  - intros ev p Hc. destruct (drain_used _ _ _ _ _ _ Hl Hc) as [Hu _].
    rewrite (to_length _ _ (gateway_threads_ok _ _ _ _ Hg)).
    assert (Hr : (remaining g <= 38 * length (gw_threads g))%nat); [|lia].
    unfold remaining. clear. induction (gw_threads g) as [|t ts IH]; simpl; [lia|].
    unfold left_of at 1. lia.
  - by apply (drain_from (remaining g) grace d g h).
  - intros Hd. split; [by apply (expired _ _ _ (rt_clock (gw_runtime g)))|].
    intros ev p Hs. inversion Hs; subst; done || lia.
  - intros ev s g' Hgo. destruct (drain_exit _ _ _ _ _ _ _ Hl Hgo) as [Hs He].
    split_and!; [done|done|]. intros Ha.
    pose proof (lived_gateway _ _ _ (lived_goes _ _ _ _ _ Hl Hgo)) as Hg'. by apply answered_at_rest.
Qed.
End shutdown.

(** ** Witness: told to stop in the middle of a write *)

Lemma gateway_lived `{Unicode} `{Host} `{Regexps} `{NetParsers} `{NetFiles} `{RequestURLs} `{OS}
    `{Yc : Yaml Config} `{Scheduling} V cfgPath g h :
  gateway V cfgPath g h -> exists grace, lived V cfgPath grace (Running g) h.
Proof.
  induction 1 as [db v t fs fs' r Hs|g h ev g' _ [grace IH] Hl]; eexists.
  - by eapply born.
  - eapply goes_on; [exact IH|by apply lives].
Qed.

Definition stopping_run (r : Runtime) : Gateway * history :=
  calls_of 9 0 (client disable_request (started r)).

Definition stopping : Gateway * history :=
  match working_start with
  | Ok r => stopping_run r
  | Err _ => stopping_run example_runtime
  end.

Lemma stopping_is_gateway :
  is_gateway (H0 := panel_host) (H5 := working_os) (Yc := working_yaml) example_pkcs "guard.yaml"
    stopping.
Proof.
  assert (Hok : is_ok working_start = true) by (vm_compute; reflexivity).
  unfold stopping. destruct working_start as [r|] eqn:Hs; [|discriminate Hok].
  unfold stopping_run, client, calls_of.
  apply advance_is_gateway, arrive_is_gateway; [apply example_arriving|]. eapply starts_with; exact Hs.
Qed.

Lemma graceful_stop_witness :
  rt_locks (gw_runtime (fst stopping)) = {[disable_key]} /\
  exists grace ev g', 0 < grace /\
    goes (H0 := panel_host) (H5 := working_os) (Yc := working_yaml) example_pkcs "guard.yaml" grace
      (Draining (rt_clock (gw_runtime (fst stopping)) + grace) (fst stopping)) ev (Exited 0 g') /\
    (calls_in ev <= 38)%nat /\ rt_locks (gw_runtime g') = ∅.
Proof.
  split; [vm_compute; reflexivity|].
  destruct (gateway_lived _ _ _ _ stopping_is_gateway) as [grace Hl].
  destruct (lived_start _ _ _ _ _ Hl) as (st & Hst & Hgrace).
  assert (Hpos : match head (snd stopping) with
    | Some (Install st) => 0 <? lim_ShutdownGracePeriod (cfg_Limits (rs_cfg st))
    | _ => false end = true) by (vm_compute; reflexivity).
  rewrite Hst, <- Hgrace in Hpos. apply Z.ltb_lt in Hpos.
  pose proof (goes_on _ _ _ _ _ _ _ Hl (interrupted _ _ grace (fst stopping) _ (Z.le_refl _))) as Hd.
  destruct (graceful_stop _ _ _ _ _ _ Hd) as (_ & Hn & Hgo & _ & Hend).
  destruct Hgo as (ev & g' & Hc & Ha); [lia|].
  exists grace, ev, g'. split; [exact Hpos|]. split; [exact Hc|]. split.
  - pose proof (Hn ev _ Hc) as Hle.
    replace (length (gw_requests (fst stopping))) with 1%nat in Hle by (vm_compute; reflexivity).
    exact Hle.
  - exact (ar_locks _ _ (proj2 (proj2 (Hend ev 0 g' Hc)) Ha)).
Defined.
